(* ===== verification/_CoqProject ===== *)
-Q . S2P
Prelude.v
StdString.v
Scanf.v
Strutils.v
Md5.v
Pandora.v
AgentConf.v
PandoraFile.v
PandoraData.v
Log.v
PandoraModule.v
Wmi.v
Unicode.v
Modules.v
EventText.v
ModuleFactory.v
ModuleList.v
Lifetime.v
ServiceState.v
Transfer.v
RemoteConfig.v
Service.v
ServiceKeeps.v
Typing.v
Reload.v
UdpServer.v
Ssh2Misc.v
Ssh2Session.v
Ssh2Comp.v
Ssh2Packet.v
Ssh2Channel.v
Ssh2Fields.v
Ssh2Kex.v
Ssh2Keeps.v
Openssl.v
Ssh2Hostkey.v
Ssh2Dh.v
Ssh2Startup.v
Ssh2Auth.v
Ssh2Scp.v
Ssh2Subsystem.v
Ssh2PublicKey.v
Ssh2Error.v
Ssh2Sftp.v
SshClient.v
WinService.v
WindowsInfo.v
FtpClient.v
Clients.v
Watchdog.v
Interleave.v
Ssh2Ids.v
