(* ===== verification/Prelude.v ===== *)
(** * The Pandora FMS agent for Windows: verification library (root file)

    The agent reads a configuration file, runs a list of monitoring modules on a
    schedule, writes what they measure to an XML file and sends that file to one or
    two servers. It can fetch a new configuration and file collections, obeys
    commands that come by UDP, and carries its own copy of libssh2. The sources are
    C++ ([src/*.cc]) and C ([src/misc/md5.c], [src/ssh/libssh2/*.c]) for 32-bit
    Windows.

    ** Files of the library

    - [Prelude] (this file): strings as lists of characters, results, machine
      integers, tactics and the lemmas that the components share.
    - [StdString], [Scanf]: the operations of [std::string] and the conversions of
      the C library that the sources use, at the formats they use.
    - [Strutils] and [Unicode] ([pandora_strutils.cc]), [Pandora] and [Log]
      ([pandora.cc]), [AgentConf] ([pandora_agent_conf.cc]), [PandoraFile]
      ([misc/pandora_file.cc]), [Md5] ([misc/md5.c]).
    - [PandoraData], [PandoraModule], [Modules], [ModuleFactory], [ModuleList],
      [Lifetime] ([modules/*.cc]): the data, the base class, the seventeen kinds of
      module, their construction from the text of the configuration, the list with its
      cursor, and the destructors. [EventText] holds the descriptions of events of the log module. [Wmi] is
      [windows/pandora_wmi.cc].
    - [ServiceState], [Transfer], [RemoteConfig], [Service]
      ([pandora_windows_service.cc]): the state of the service, sending files, the
      remote configuration and the collections, and the cycle. [UdpServer] is
      [udp_server/udp_server.cc], [Watchdog] the threads of the process and service
      modules, [Interleave] how their steps and those of the cycle mix, and that the
      functions of the cycle and of the threads take these steps. [ServiceKeeps] lifts a
      relation kept by each step of the cycle to the whole of it; [Typing] uses it to
      follow the kinds and the settings of the modules, [Reload] their deletion before
      the configuration is read again. [WinService] is the service shell: [windows_service.cc],
      [main.cc].
    - [WindowsInfo] ([windows/pandora_windows_info.cc]): process handles, registry,
      installed software. [FtpClient] is [ftp/pandora_ftp_client.cc].
    - [Ssh2Misc], [Ssh2Session], [Ssh2Packet], [Ssh2Channel]: libssh2's [misc.c], its
      structures, [packet.c] and [channel.c]. [Ssh2Error] is the text of the last error
      and who owns its memory; the other files keep the code of the error. [Ssh2Kex] is the
      negotiation of [kex.c] with the tables of methods, [Ssh2Dh] its Diffie-Hellman exchanges, [Ssh2Keeps]
      what reading and writing packets leaves alone. [Ssh2Startup] is [session.c],
      [Ssh2Auth] [userauth.c], [Ssh2Scp] [scp.c]; [SshClient] is the agent's own
      client on top of them, [ssh/pandora_ssh_client.cc], and [Clients] puts it and the FTP
      client into the copies of the service. [Ssh2Ids] proves an invariant of the
      channels across these files. [Ssh2Comp] is [comp.c] on the operations of zlib,
      [Ssh2Hostkey] [hostkey.c] on those of OpenSSL, which [Openssl] declares.
      [Ssh2Fields] reads the fields of messages, and [Ssh2Subsystem] holds what
      [Ssh2PublicKey] ([publickey.c]) and [Ssh2Sftp] ([sftp.c]) share.

    ** How the code is modelled

    A function is a Rocq function of the same name (a method loses its class; two
    that would clash get the class as a prefix, as in [Exec_run]). A string is a
    list of characters; an [int] is a [Z] that is wrapped where the code can
    overflow it without the language forbidding it. A value, an exception and
    undefined behaviour are the three constructors of [res]: where C or C++ leaves
    the result open (an index out of range, an unwritten variable, a null pointer, a
    division by zero, an endless loop) the model gives [Undef], so a theorem that
    the result is [Ok] also says that nothing of the kind happens. Where the
    sources keep state, so does the model:

    - the configuration, a module and the module list are records that each method
      takes and returns;
    - the service is written in the monad [M] of [ServiceState]: its members, the
      statics, the files (a finite map from paths to contents), the number of
      questions asked so far and the trace of requests form the [world]; a
      [platform] answers the questions (clock, disk, other programs) and serves the
      requests. An exception keeps the world it was thrown in;
    - libssh2 is written in the monad [ST] of [Ssh2Session]: the session with its
      packet brigade, channels and listeners, what [recv] will answer and what has
      been sent. A channel pointer is the local identifier of a channel; the record
      [surroundings] says which allocations and sends succeed and which bytes are
      random.

    Parameters stand for what is not in the sources: regular expressions, the WMI
    service, Windows calls ([EventText.event_api] for the event log), and OpenSSL and
    zlib, which are classes of operations ([Openssl.openssl], [Ssh2Comp.zlib]) with
    classes of laws. The laws a theorem needs are its hypotheses, and its witness gives
    a concrete instance.

    ** Fuel

    Loops over data recurse on it. The others take fuel: the number of lines for the
    loops over a file and of collections, the number of bytes for MD5 and the
    preference lists, the number of configured values for the custom fields, the
    length of the buffer for a channel write, two reads for a registry value, the
    length of the list of message files, the limit of a packet and three for its
    decompression ([Ssh2Comp.zlib_decompress_ends]), and [fuel_of], the bytes and answers
    still to come, for the loops of libssh2 that read packets, as every packet uses at
    least one of them. [res] code that runs out of fuel is [Undef], never a result, and
    the theorems that a loop ends show that the fuel given is enough.

    ** What is proved

    - The data that is measured is not lost: a report is removed only after a
      server took it or buffering is off ([Service.sendXml_no_loss]); data is kept at
      the configured spacing ([Service.kept_spacing]); every configured server gets
      a file ([Transfer.copyDataFile_servers]); the configuration is replaced only by
      one that was received ([RemoteConfig.checkConfig_safe]).
    - The text of the configuration means what the manual says: the first of two
      values counts, every module block gives a module, macros are replaced, a
      module written down is read back, cron windows and intervals decide the
      runs, limits and conditions are applied as they are. Every module the service
      holds, through passes and reloads, keeps the settings it was configured with
      ([Typing.modules_as_configured]) and has a kind of its own class, so the casts of the
      list are right ([Typing.modules_of_their_class]). Deleting the modules gives back
      what they took, each part once, but for what no destructor knows of
      ([Reload.modules_deleted]).
    - Modules report what they read: the output of a command until its end or its
      timeout, the events of the log, the lines appended to a file, the rows of a
      query; the cursor of the list is a position in it. Asking the event log for a
      description closes what was opened, on the error paths too
      ([EventText.xpath_description]).
    - The utilities meet independent specifications: MD5 is RFC 1321 for every
      cutting of the message into pieces, tokens and replacements satisfy their
      inductive definitions, [removeDir] removes what it should.
    - The UDP server runs only what the configuration allows.
    - The service goes on for ever, and its runs start on time although the tick counter
      wraps ([WinService.execRunFunction_paced]); a process that stays away is started
      as often as configured and then left alone ([Watchdog.watchdog_restarts]); the
      threads report changes only ([Watchdog.reports_change]). However the cycle and a
      thread come in between each other, no datum is made up or written twice, and the only
      way to lose one is a pass that silences its module ([Interleave.outputs_conserved]);
      that way exists ([Interleave.change_never_written]). It stays so with whole passes,
      reloads and commands by UDP ([Interleave.service_conserves]).
    - libssh2: a packet that is written is read back; framing and windows keep
      their bounds; a write sends all its bytes in order; the negotiation takes the
      first method of the client's that the server knows; channel identifiers stay
      distinct whatever the peer sends; Base64 is decoded as its reference.
    - The way to a copy over SSH: the banner is the first line that is one
      ([Ssh2Startup.banner_receive_spec]); an exchange that succeeds was signed by
      the server over what both sides sent ([Ssh2Dh.exchange_signed]), and its keys
      are those of RFC 4253; a password login answers 0 only when the server
      accepted it ([Ssh2Auth.login_result]), whatever packets come in between and
      also when keys are exchanged meanwhile; SCP reads lines as the other end wrote
      them; the client has an open session only after a login
      ([SshClient.connect_authenticates]), and the service takes a file for copied, and
      removes it, only after a copy over such a session
      ([Clients.copyScpDataFile_client]). A signature made with a key is accepted with the
      public part of the key ([Ssh2Hostkey.signature_accepted]), and unpacking a packet ends
      within its limit ([Ssh2Comp.zlib_decompress_ends]). Of SFTP, attributes are read back as they
      were sent ([Ssh2Sftp.attributes_roundtrip]), the names of an answer are given
      out one by one ([Ssh2Sftp.readdir_names]), and keys are read as they are
      written ([Ssh2PublicKey.read_key_2_spec]).

    Lemmas that are not among these properties document what goes wrong
    ([UdpServer.stop_running], [Ssh2Packet.mac_comparison_stops_at_zero] and
    others).

    ** What is not modelled

    The COM helper ([windows/wmi/disphelper.c]), memory debugging and a copy of a Windows
    header, which are third parties', and the programs that call the clients by hand. Of
    the sources themselves: getters, the destructors other than those of the modules and
    their list, the text of the messages that are logged. Two threads inside one
    call on the same object have no meaning in C++, so [Interleave] takes calls as steps:
    passes of the cycle, the datagrams of the UDP server and the reports of threads
    ([Interleave.service_conserves]). A thread whose module a reload has deleted has no
    meaning either, so its reports are those of a module of the list. *)
From stdpp Require Export base numbers list gmap strings.
From Stdlib Require Export ZArith Lia.
From Stdlib Require Ascii String.
Export (notations) Stdlib.Strings.Ascii.

(** ** Strings: [std::string] is a sequence of bytes *)

Abbreviation chr := Ascii.ascii.
Abbreviation str := (list Ascii.ascii).

(** [lit] turns a source literal into a [str]; it is written [&"..."]. *)
Definition lit (s : String.string) : str := String.list_ascii_of_string s.

Declare Scope pandora_scope.
Delimit Scope pandora_scope with pandora.
Notation "& s" := (lit s%string) (at level 1, s at level 0, format "& s") : pandora_scope.
#[global] Open Scope pandora_scope.

(** The byte value of a character and the character of a byte value. *)
Definition code (c : chr) : Z := Z.of_N (Ascii.N_of_ascii c).
Definition of_code (z : Z) : chr := Ascii.ascii_of_N (Z.to_N z).

Abbreviation NUL := Ascii.zero.
Definition TAB : chr := Ascii.ascii_of_nat 9.
Definition LF : chr := Ascii.ascii_of_nat 10.
Definition VT : chr := Ascii.ascii_of_nat 11.
Definition FF : chr := Ascii.ascii_of_nat 12.
Definition CR : chr := Ascii.ascii_of_nat 13.
Definition SP : chr := Ascii.ascii_of_nat 32.
Definition QUOTE : chr := Ascii.ascii_of_nat 34.

(** ** Results: a value, a C++ exception, or undefined behaviour *)

(** The exceptions the modelled code raises; [Std_out_of_range] is
    [std::out_of_range] of [std::string::substr]. *)
Inductive exn :=
  | Invalid_Conversion
  | Output_Error
  | Value_Error
  | Interval_Not_Fulfilled
  | Pandora_Exception
  | File_Not_Found
  | File_Exception
  | Channel_Error
  | Std_out_of_range.

#[global] Instance exn_eq_dec : EqDecision exn.
Proof. solve_decision. Defined.

(** [Undef] stands for executions to which C++ gives no meaning, such as the
    read of a variable that was never written. *)
Inductive res (A : Type) :=
  | Ok (a : A)
  | Err (e : exn)
  | Undef.
Arguments Ok {A} a.
Arguments Err {A} e.
Arguments Undef {A}.

#[global] Instance res_eq_dec {A} `{EqDecision A} : EqDecision (res A).
Proof. solve_decision. Defined.

Definition rbind {A B} (m : res A) (f : A → res B) : res B :=
  match m with Ok a => f a | Err e => Err e | Undef => Undef end.

Notation "'let!' x := m 'in' k" := (rbind m (λ x, k))
  (at level 10, x pattern, m at level 100, k at level 200)
  : pandora_scope.

Lemma rbind_Ok {A B} (m : res A) (f : A → res B) b :
  rbind m f = Ok b ↔ ∃ a, m = Ok a ∧ f a = Ok b.
Proof. destruct m; simpl; split; [eauto|by intros (? & [= ->] & ?)|done|by intros (?&?&?)|done|by intros (?&?&?)]. Qed.

Lemma rbind_assoc {A B C} (m : res A) (f : A → res B) (g : B → res C) :
  rbind (rbind m f) g = rbind m (λ a, rbind (f a) g).
Proof. by destruct m. Qed.

(** No exception, and a value whenever [P] holds. *)
Definition safe_if {A} (P : Prop) (r : res A) : Prop :=
  match r with Ok _ => True | Err _ => False | Undef => ¬ P end.

Lemma safe_if_bind {A B} P (m : res A) (f : A → res B) :
  safe_if P m → (∀ a, safe_if P (f a)) → safe_if P (rbind m f).
Proof. destruct m; simpl; auto. Qed.

Lemma safe_if_spec {A} P (r : res A) :
  safe_if P r → (∀ e, r ≠ Err e) ∧ (P → ∃ a, r = Ok a).
Proof. destruct r; simpl; [eauto|done|]. intros H. split; [done|]. intros HP. by destruct H. Qed.

(** ** Machine integers *)

(** [wrap_u w z] is [z] converted to an unsigned [w]-bit integer, [wrap_s w z]
    to a two's-complement signed one. *)
Definition wrap_u (w z : Z) : Z := z mod 2 ^ w.
Definition wrap_s (w z : Z) : Z := (z + 2 ^ (w - 1)) mod 2 ^ w - 2 ^ (w - 1).

Abbreviation u8 := (wrap_u 8).
Abbreviation u16 := (wrap_u 16).
Abbreviation u32 := (wrap_u 32).
Abbreviation s32 := (wrap_s 32).

Definition in_u (w z : Z) : Prop := (0 ≤ z < 2 ^ w)%Z.
Definition in_s (w z : Z) : Prop := (- 2 ^ (w - 1) ≤ z < 2 ^ (w - 1))%Z.

#[global] Instance in_u_dec w z : Decision (in_u w z).
Proof. unfold in_u. apply _. Defined.
#[global] Instance in_s_dec w z : Decision (in_s w z).
Proof. unfold in_s. apply _. Defined.

Create HintDb pandora discriminated.
#[global] Hint Constants Transparent : pandora.

Lemma wrap_u_range w z : (0 ≤ w)%Z → in_u w (wrap_u w z).
Proof. intros Hw. apply Z.mod_pos_bound, Z.pow_pos_nonneg; lia. Qed.

Lemma wrap_s_range w z : (0 < w)%Z → in_s w (wrap_s w z).
Proof.
  intros Hw. unfold in_s, wrap_s.
  assert (H : (2 ^ w = 2 * 2 ^ (w - 1))%Z).
  { rewrite <- Z.pow_succ_r by lia. f_equal; lia. }
  pose proof (Z.mod_pos_bound (z + 2 ^ (w - 1)) (2 ^ w)) as Hb.
  assert (0 < 2 ^ (w - 1))%Z by (apply Z.pow_pos_nonneg; lia). lia.
Qed.

Lemma wrap_u_small w z : in_u w z → wrap_u w z = z.
Proof. apply Z.mod_small. Qed.

Lemma wrap_s_small w z : (0 < w)%Z → in_s w z → wrap_s w z = z.
Proof.
  unfold in_s, wrap_s. intros Hw Hz.
  assert (H : (2 ^ w = 2 * 2 ^ (w - 1))%Z).
  { rewrite <- Z.pow_succ_r by lia. f_equal; lia. }
  rewrite Z.mod_small; lia.
Qed.

#[export] Hint Resolve wrap_u_range wrap_s_range wrap_u_small wrap_s_small : pandora.

Lemma wrap_u_add_l w a b : wrap_u w (wrap_u w a + b) = wrap_u w (a + b).
Proof. apply Zplus_mod_idemp_l. Qed.

Lemma wrap_u_add_r w a b : wrap_u w (a + wrap_u w b) = wrap_u w (a + b).
Proof. apply Zplus_mod_idemp_r. Qed.

Lemma wrap_u_idemp w a : wrap_u w (wrap_u w a) = wrap_u w a.
Proof. apply Zmod_mod. Qed.

(** ** Characters and bytes *)

Lemma code_range c : (0 ≤ code c < 256)%Z.
Proof. destruct c as [[] [] [] [] [] [] [] []]; vm_compute; split; congruence. Qed.

Lemma code_inj c d : code c = code d → c = d.
Proof.
  intros H%N2Z.inj. rewrite <- (Ascii.ascii_N_embedding c), <- (Ascii.ascii_N_embedding d).
  by rewrite H.
Qed.

Lemma code_of_code z : (0 ≤ z < 256)%Z → code (of_code z) = z.
Proof.
  intros H. unfold code, of_code. rewrite Ascii.N_ascii_embedding; [by rewrite Z2N.id by lia|].
  apply N2Z.inj_lt. rewrite Z2N.id by lia. change (Z.of_N 256) with 256%Z. lia.
Qed.

Lemma of_code_code c : of_code (code c) = c.
Proof. unfold code, of_code. by rewrite N2Z.id, Ascii.ascii_N_embedding. Qed.

(** Bits that do not overlap. *)
Lemma lor_shifted x y k : (0 ≤ k)%Z → (0 ≤ y < 2 ^ k)%Z → Z.lor (x * 2 ^ k) y = (x * 2 ^ k + y)%Z.
Proof.
  intros Hk Hy. rewrite <- Z.add_lor_land. assert (Z.land (x * 2 ^ k) y = 0%Z) as ->; [|lia].
  apply Z.bits_inj'. intros i Hi. rewrite Z.land_spec, Z.bits_0.
  destruct (Z.ltb_spec i k) as [H|H].
  - by rewrite Z.mul_pow2_bits_low.
  - rewrite <- (Z.mod_small y (2 ^ k)) by done. by rewrite Z.mod_pow2_bits_high, andb_false_r by lia.
Qed.

Lemma mod_pow2_div z w k m :
  (0 ≤ k)%Z → (0 ≤ m)%Z → (k + m ≤ w)%Z →
  ((z mod 2 ^ w) / 2 ^ k mod 2 ^ m = z / 2 ^ k mod 2 ^ m)%Z.
Proof.
  intros Hk Hm Hw. apply Z.bits_inj'. intros i Hi.
  rewrite !Z.testbit_mod_pow2, <- !Z.shiftr_div_pow2, !Z.shiftr_spec, Z.testbit_mod_pow2 by lia.
  destruct (Z.ltb_spec i m); [|done]. destruct (Z.ltb_spec (i + k) w); [done|lia].
Qed.

(** ** Generic list functions *)

Fixpoint takewhile {A} (p : A → bool) (l : list A) : list A :=
  match l with
  | [] => []
  | x :: l' => if p x then x :: takewhile p l' else []
  end.

Fixpoint dropwhile {A} (p : A → bool) (l : list A) : list A :=
  match l with
  | [] => []
  | x :: l' => if p x then dropwhile p l' else l
  end.

Section list_facts.
Context {A : Type} (p : A → bool).
Implicit Types l : list A.

Lemma takewhile_dropwhile l : takewhile p l ++ dropwhile p l = l.
Proof. induction l as [|x l IH]; simpl; [done|]. destruct (p x); simpl; congruence. Qed.

Lemma takewhile_all l : Forall (λ x, p x = true) (takewhile p l).
Proof. induction l as [|x l IH]; simpl; [constructor|]. destruct (p x) eqn:E; auto. Qed.

Lemma dropwhile_head l x l' : dropwhile p l = x :: l' → p x = false.
Proof.
  induction l as [|y l IH]; simpl; [done|].
  destruct (p y) eqn:E; [done|]. intros [= -> _]. done.
Qed.

Lemma dropwhile_length l : length (dropwhile p l) ≤ length l.
Proof. induction l as [|x l IH]; simpl; [lia|]. destruct (p x); simpl; lia. Qed.

Lemma takewhile_id l : Forall (λ x, p x = true) l → takewhile p l = l.
Proof. induction 1 as [|x l Hx _ IH]; simpl; [done|]. by rewrite Hx, IH. Qed.

Lemma dropwhile_nil l : dropwhile p l = [] ↔ Forall (λ x, p x = true) l.
Proof.
  induction l as [|x l IH]; simpl; [split; auto|].
  rewrite Forall_cons. destruct (p x); [rewrite IH; intuition done|].
  split; [done | by intros [? _]].
Qed.

Lemma dropwhile_app l1 l2 :
  dropwhile p (l1 ++ l2) =
  match dropwhile p l1 with [] => dropwhile p l2 | l => l ++ l2 end.
Proof. induction l1 as [|x l IH]; simpl; [done|]. by destruct (p x). Qed.

Lemma dropwhile_cons_false x l : p x = false → dropwhile p (x :: l) = x :: l.
Proof. simpl. by intros ->. Qed.

Lemma takewhile_app_stop l1 x l2 :
  Forall (λ x, p x = true) l1 → p x = false → takewhile p (l1 ++ x :: l2) = l1.
Proof. induction 1 as [|y l Hy _ IH]; simpl; intros Hx; [by rewrite Hx|]. by rewrite Hy, IH. Qed.

Lemma dropwhile_app_stop l1 x l2 :
  Forall (λ x, p x = true) l1 → p x = false → dropwhile p (l1 ++ x :: l2) = x :: l2.
Proof. induction 1 as [|y l Hy _ IH]; simpl; intros Hx; [by rewrite Hx|]. by rewrite Hy, IH. Qed.
End list_facts.

Lemma fold_left_ext {A B} (f g : A → B → A) (H : ∀ a b, f a b = g a b) l a :
  fold_left f l a = fold_left g l a.
Proof. revert a; induction l as [|b l IH]; intros a; simpl; [done|]. by rewrite H. Qed.

(** ** Tactics *)

(** [bools] turns boolean tests into
    propositions; [case_all] splits every [match] and [if] of the goal. *)
Ltac bools :=
  repeat match goal with
  | H : (_ && _)%bool = true |- _ => apply andb_true_iff in H as [? ?]
  | H : (_ || _)%bool = false |- _ => apply orb_false_iff in H as [? ?]
  | H : negb _ = true |- _ => apply negb_true_iff in H
  | H : negb _ = false |- _ => apply negb_false_iff in H
  | H : bool_decide _ = true |- _ => apply bool_decide_eq_true_1 in H
  | H : bool_decide _ = false |- _ => apply bool_decide_eq_false_1 in H
  | H : (_ <? _)%Z = true |- _ => apply Z.ltb_lt in H
  | H : (_ <? _)%Z = false |- _ => apply Z.ltb_ge in H
  | H : (_ <=? _)%Z = true |- _ => apply Z.leb_le in H
  | H : (_ <=? _)%Z = false |- _ => apply Z.leb_gt in H
  | H : (_ =? _)%Z = true |- _ => apply Z.eqb_eq in H
  | H : (_ =? _)%Z = false |- _ => apply Z.eqb_neq in H
  end.

Ltac case_all := repeat (case_match; simplify_eq/=; try done).
