(* ===== verification/StdString.v ===== *)
(** * The [std::string] operations the agent uses

    A position is a [nat]; [None] is [std::string::npos].  The code keeps
    positions in [int]; every string of the program is shorter than 2^31
    bytes, so the conversion to [int] keeps [npos] apart from the positions. *)
From S2P Require Import Prelude.

(** [prefixb p s]: [s] starts with [p]. *)
Fixpoint prefixb (p s : str) : bool :=
  match p, s with
  | [], _ => true
  | c :: p', d :: s' => bool_decide (c = d) && prefixb p' s'
  | _ :: _, [] => false
  end.

(** [s.find (p)]: the first position at which [p] occurs. *)
Fixpoint find (p s : str) : option nat :=
  if prefixb p s then Some 0
  else match s with [] => None | _ :: s' => S <$> find p s' end.

(** [s.find (p, k)]: the first occurrence at or after [k]. *)
Definition find_from (p s : str) (k : nat) : option nat :=
  if decide (k ≤ length s) then (Nat.add k) <$> find p (drop k s) else None.

(** [s.rfind (p)]: the last position at which [p] occurs. *)
Fixpoint rfind (p s : str) : option nat :=
  match (match s with [] => None | _ :: s' => rfind p s' end) with
  | Some i => Some (S i)
  | None => if prefixb p s then Some 0 else None
  end.

(** [s.find_first_not_of (delims)] and [s.find_last_not_of (delims)]. *)
Fixpoint find_first_not_of (delims s : str) : option nat :=
  match s with
  | [] => None
  | c :: s' => if decide (c ∈ delims) then S <$> find_first_not_of delims s' else Some 0
  end.

Fixpoint find_last_not_of (delims s : str) : option nat :=
  match s with
  | [] => None
  | c :: s' =>
      match find_last_not_of delims s' with
      | Some i => Some (S i)
      | None => if decide (c ∈ delims) then None else Some 0
      end
  end.

(** [s.substr (pos)] raises [out_of_range] past the end. *)
Definition substr (s : str) (pos : nat) : res str :=
  if decide (pos ≤ length s) then Ok (drop pos s) else Err Std_out_of_range.

(** [s.erase (pos)] and [s.replace (pos, len, r)], at a valid position. *)
Definition erase_from (s : str) (pos : nat) : str := take pos s.
Definition replace (s : str) (pos len : nat) (r : str) : str :=
  take pos s ++ r ++ drop (pos + len) s.

(** [s.c_str ()] as a C function reads it: up to the first NUL. *)
Definition c_str (s : str) : str := takewhile (λ c, bool_decide (c ≠ NUL)) s.

(** [s[0]]: the first byte; the terminating NUL on the empty string. *)
Definition first_char (s : str) : chr := default NUL (head s).

(** [s[s.length () - 1]]: out of bounds on the empty string. *)
Definition last_char (s : str) : option chr := last s.

(** [transform (..., tolower)] in the C locale. *)
Definition tolower (c : chr) : chr :=
  if decide (65 ≤ code c ≤ 90)%Z then of_code (code c + 32) else c.

(** [_stricmp (a, b) == 0] *)
Definition same_nocase (a b : str) : bool := bool_decide (tolower <$> a = tolower <$> b).

(** [file >> getline]: the lines of a file as [getline] followed by the
    [eof] test delivers them; a file that ends with a newline yields a last
    empty line, an empty file one empty line. *)
Fixpoint getlines (content : str) : list str :=
  match content with
  | [] => [[]]
  | c :: content' =>
      match getlines content' with
      | [] => [[c]]
      | l :: ls => if decide (c = LF) then [] :: l :: ls else (c :: l) :: ls
      end
  end.

(** ** Lemmas *)

Lemma prefixb_spec p s : prefixb p s = true ↔ ∃ r, s = p ++ r.
Proof.
  revert s; induction p as [|c p IH]; intros s; simpl; [naive_solver|].
  destruct s as [|d s]; [naive_solver|].
  rewrite andb_true_iff, bool_decide_eq_true, IH. naive_solver.
Qed.

Lemma prefixb_app p r : prefixb p (p ++ r) = true.
Proof. apply prefixb_spec. eauto. Qed.

Lemma rfind_last c dir file : c ∉ file → rfind [c] (dir ++ c :: file) = Some (length dir).
Proof.
  intros Hf. assert (rfind [c] file = None) as Hn.
  { induction file as [|d file IH]; [done|]. apply not_elem_of_cons in Hf as [Hc Hf].
    cbn [rfind]. rewrite IH by done. cbn [prefixb]. by rewrite bool_decide_false by done. }
  clear Hf. induction dir as [|d dir IH]; cbn [app rfind length]; [|by rewrite IH].
  rewrite Hn. cbn [prefixb]. by rewrite bool_decide_true.
Qed.

(** [find] returns an occurrence ... *)
Lemma find_Some p s i : find p s = Some i → s = take i s ++ p ++ drop (i + length p) s.
Proof.
  revert i; induction s as [|c s IH]; intros i; simpl.
  - destruct (prefixb p []) eqn:E; [|done]. intros [= <-].
    apply prefixb_spec in E as [r E]. symmetry in E. apply app_nil in E as [-> ->]. done.
  - destruct (prefixb p (c :: s)) eqn:E.
    + intros [= <-]. apply prefixb_spec in E as [r ->]. simpl. by rewrite drop_app_length.
    + destruct (find p s) as [j|]; [|done]. intros [= <-]. simpl. f_equal. by apply IH.
Qed.

Lemma find_Some_le p s i : find p s = Some i → i + length p ≤ length s.
Proof.
  revert i; induction s as [|c s IH]; intros i; simpl.
  - destruct p; simpl; [|done]. intros [= <-]. done.
  - destruct (prefixb p (c :: s)) eqn:E.
    + intros [= <-]. apply prefixb_spec in E as [r E].
      apply (f_equal length) in E. rewrite length_app in E. simpl in *. lia.
    + destruct (find p s) as [j|]; [|done]. intros [= <-]. specialize (IH j eq_refl). lia.
Qed.

(** ... and the first one. *)
Lemma find_first p s i j :
  find p s = Some i → j < i → prefixb p (drop j s) = false.
Proof.
  revert i j; induction s as [|c s IH]; intros i j; simpl.
  - destruct (prefixb p []); [|done]. intros [= <-]. lia.
  - destruct (prefixb p (c :: s)) eqn:E; [intros [= <-]; lia|].
    destruct (find p s) as [k|]; [|done]. intros [= <-] Hj.
    destruct j as [|j]; [done|]. simpl. apply (IH k); [done|lia].
Qed.

Lemma find_None p s : find p s = None ↔ ∀ j, prefixb p (drop j s) = false.
Proof.
  induction s as [|c s IH]; simpl.
  - destruct (prefixb p []) eqn:E; split; try done.
    + intros H. specialize (H 0). simpl in H. congruence.
    + intros _ j. by rewrite drop_nil.
  - destruct (prefixb p (c :: s)) eqn:E; split; try done.
    + intros H. specialize (H 0). simpl in H. congruence.
    + intros H [|j]; [done|]. simpl. destruct (find p s); [done|]. by apply IH.
    + intros H. destruct (find p s) as [k|] eqn:F; [|done].
      destruct IH as [_ IH]. discriminate IH. intros j. apply (H (S j)).
Qed.

Lemma find_app_l p s : find p (p ++ s) = Some 0.
Proof. destruct (p ++ s) eqn:E; simpl; rewrite <- E, prefixb_app; done. Qed.

(** No occurrence in a string, none in its substrings; none across a byte that
    the pattern does not contain. *)
Lemma find_None_alt p s : find p s = None ↔ ∀ s1 s2, s ≠ s1 ++ p ++ s2.
Proof.
  rewrite find_None. split.
  - intros H s1 s2 ->. specialize (H (length s1)).
    by rewrite drop_app_length, prefixb_app in H.
  - intros H j. destruct (prefixb p (drop j s)) eqn:E; [|done].
    apply prefixb_spec in E as [r E]. exfalso. apply (H (take j s) r).
    by rewrite <- E, take_drop.
Qed.

Lemma find_substring p s1 s s2 : find p (s1 ++ s ++ s2) = None → find p s = None.
Proof.
  rewrite !find_None_alt. intros H t1 t2 ->. apply (H (s1 ++ t1) (t2 ++ s2)).
  by rewrite <- !app_assoc.
Qed.

Lemma find_app_sep p s1 c s2 :
  c ∉ p → p ≠ [] → find p s1 = None → find p s2 = None → find p (s1 ++ c :: s2) = None.
Proof.
  rewrite !find_None_alt. intros Hc Hp H1 H2 t1 t2 E.
  apply app_eq_inv in E as [(k & -> & E)|(k & -> & E)].
  - apply app_eq_inv in E as [(k' & -> & E)|(k' & -> & E)]; [|by eapply H1].
    destruct k' as [|d k']; simplify_eq/=; [|set_solver].
    rewrite app_nil_r in *. by apply (H1 t1 []); rewrite app_nil_r.
  - destruct k as [|d k]; simplify_eq/=; [destruct p; simplify_eq/=; set_solver|].
    by apply (H2 k t2).
Qed.

(** Searching a single byte. *)
Lemma find_char_None c s : find [c] s = None ↔ c ∉ s.
Proof.
  induction s as [|d s IH]; simpl; [split; [intros _ H; by apply elem_of_nil in H|done]|].
  rewrite andb_true_r, not_elem_of_cons. case_bool_decide as E.
  - split; [done|]. intros [? _]. congruence.
  - rewrite <- IH. destruct (find [c] s); simpl; split; naive_solver.
Qed.

Lemma find_char_app c s1 s2 : c ∉ s1 → find [c] (s1 ++ c :: s2) = Some (length s1).
Proof.
  induction s1 as [|d s IH]; simpl; [by rewrite bool_decide_true|].
  rewrite not_elem_of_cons. intros [? ?]. rewrite bool_decide_false by done.
  simpl. by rewrite IH.
Qed.

(** The trimming searches in terms of [dropwhile]. *)
Definition is_in (delims : str) (c : chr) : bool := bool_decide (c ∈ delims).

Lemma is_in_true d c : is_in d c = true ↔ c ∈ d.
Proof. apply bool_decide_eq_true. Qed.

Lemma is_in_false d c : is_in d c = false ↔ c ∉ d.
Proof. apply bool_decide_eq_false. Qed.

Lemma find_first_not_of_spec d s :
  match find_first_not_of d s with
  | Some i => drop i s = dropwhile (is_in d) s
  | None => dropwhile (is_in d) s = []
  end.
Proof.
  induction s as [|c s IH]; simpl; [done|]. case_decide as E.
  - rewrite (proj2 (is_in_true d c)) by done. by destruct (find_first_not_of d s).
  - by rewrite (proj2 (is_in_false d c)).
Qed.

(** [rtrimmed d s]: [s] without its trailing bytes of [d]. *)
Definition rtrimmed (d s : str) : str := reverse (dropwhile (is_in d) (reverse s)).

Lemma rtrimmed_cons d c s :
  rtrimmed d (c :: s) =
  match rtrimmed d s with [] => if is_in d c then [] else [c] | r => c :: r end.
Proof.
  unfold rtrimmed. rewrite reverse_cons, dropwhile_app.
  destruct (dropwhile (is_in d) (reverse s)) as [|x l] eqn:E.
  - simpl. by destruct (is_in d c).
  - rewrite reverse_app. simpl.
    destruct (reverse (x :: l)) eqn:F; [|done].
    apply (f_equal length) in F. rewrite length_reverse in F. done.
Qed.

Lemma find_last_not_of_spec d s :
  match find_last_not_of d s with
  | Some i => take (S i) s = rtrimmed d s
  | None => rtrimmed d s = []
  end.
Proof.
  induction s as [|c s IH]; [done|]. rewrite rtrimmed_cons. cbn [find_last_not_of].
  destruct (find_last_not_of d s) as [i|] eqn:E.
  - rewrite firstn_cons, IH. destruct (rtrimmed d s) eqn:F; [|done].
    destruct s; [simpl in E; done|simpl in IH; done].
  - rewrite IH. case_decide as D; [by apply is_in_true in D as ->|].
    by apply is_in_false in D as ->.
Qed.

Lemma c_str_no_nul s : NUL ∉ s → c_str s = s.
Proof.
  intros H. apply takewhile_id. apply Forall_forall. intros c Hc.
  apply bool_decide_eq_true. by intros ->.
Qed.

(** Joining the lines of a file with newlines gives the file back. *)
Lemma getlines_not_nil s : getlines s ≠ [].
Proof. destruct s as [|c s]; simpl; [done|]. destruct (getlines s); [done|]. by case_decide. Qed.

Fixpoint unlines (ls : list str) : str :=
  match ls with [] => [] | [l] => l | l :: ls => l ++ LF :: unlines ls end.

Lemma getlines_unlines s : unlines (getlines s) = s.
Proof.
  induction s as [|c s IH]; [done|]. cbn [getlines].
  destruct (getlines s) as [|l ls] eqn:E; [by apply getlines_not_nil in E|].
  case_decide as D; simpl in *; [congruence|]. destruct ls; simpl in *; congruence.
Qed.

Lemma getlines_no_lf s : Forall (λ l, LF ∉ l) (getlines s).
Proof.
  induction s as [|c s IH]; simpl; [repeat constructor; intros H; by apply elem_of_nil in H|].
  destruct (getlines s) as [|l ls] eqn:E; [by apply getlines_not_nil in E|].
  case_decide as D.
  - constructor; [intros H; by apply elem_of_nil in H|done].
  - inv IH. constructor; [|done]. rewrite not_elem_of_cons. done.
Qed.

Lemma getlines_app l s : LF ∉ l → getlines (l ++ LF :: s) = l :: getlines s.
Proof.
  induction l as [|c l IH]; simpl.
  - destruct (getlines s) eqn:E; [by apply getlines_not_nil in E|done].
  - rewrite not_elem_of_cons. intros [? ?]. rewrite IH by done. by rewrite decide_False.
Qed.

Lemma getlines_concat ls :
  Forall (λ l, LF ∉ l) ls → getlines (concat ((λ l, l ++ [LF]) <$> ls)) = ls ++ [[]].
Proof.
  induction 1 as [|l ls Hl _ IH]; [done|]. rewrite fmap_cons. cbn [concat].
  rewrite <- app_assoc. cbn [app]. by rewrite getlines_app, IH.
Qed.
