(* ===== verification/Scanf.v ===== *)
(** * The C library conversions the agent uses

    [sscanf], [atoi], the decimal output conversions and the decimal to
    binary64 conversion, for the formats that occur in the program.  An
    integer conversion that overflows keeps the low bits (the run-time
    library's behaviour; C leaves it open); a floating-point conversion reads
    the longest valid decimal number and rounds it to nearest even. *)
From Stdlib Require Export SpecFloat.
From S2P Require Import Prelude StdString.

(** ** binary64 *)

Abbreviation double := spec_float.
Definition double_of_Z (z : Z) : double := binary_normalize 53 1024 z 0 false.
Definition double_ltb (x y : double) : bool := SFltb x y.
Definition double_eqb (x y : double) : bool := SFeqb x y.
Definition double_leb (x y : double) : bool := SFleb x y.

(** [m * 10 ^ e] rounded once: the quotient is computed with a sticky bit. *)
Definition dec_to_double (neg : bool) (m e : Z) : double :=
  let signed (d : double) := if neg then SFopp d else d in
  if (m =? 0)%Z then signed (S754_zero false)
  else if (0 <=? e)%Z then signed (binary_normalize 53 1024 (m * 10 ^ e) 0 false)
  else
    let den := (10 ^ (- e))%Z in
    let k := Z.max 0 (Z.log2 den - Z.log2 m + 66) in
    let q := (m * 2 ^ k / den)%Z in
    let sticky := if ((m * 2 ^ k) mod den =? 0)%Z then 0%Z else 1%Z in
    signed (binary_normalize 53 1024 (2 * q + sticky) (- k - 1) false).

(** ** Character classes (C locale) *)

Definition isspace (c : chr) : bool :=
  (bool_decide (c = SP) || ((9 <=? code c)%Z && (code c <=? 13)%Z)).
Definition isdigit (c : chr) : bool := ((48 <=? code c)%Z && (code c <=? 57)%Z).
Definition skip_ws (s : str) : str := dropwhile isspace s.

Definition MINUS : chr := of_code 45.
Definition PLUS : chr := of_code 43.
Definition DOT : chr := of_code 46.

(** ** Numbers *)

Definition digit_step (a : Z) (c : chr) : Z := (10 * a + (code c - 48))%Z.
Definition digits_value (ds : str) : Z := fold_left digit_step ds 0%Z.

Definition scan_sign (s : str) : bool * str :=
  match s with
  | c :: s' => if decide (c = MINUS) then (true, s')
               else if decide (c = PLUS) then (false, s') else (false, s)
  | [] => (false, s)
  end.

(** An optional sign and at least one digit; the value at [w] bits. *)
Definition scan_int (w : Z) (s : str) : option (Z * str) :=
  let (neg, s1) := scan_sign s in
  let ds := takewhile isdigit s1 in
  if decide (ds = []) then None
  else Some (wrap_s w (if neg then - digits_value ds else digits_value ds)%Z,
             dropwhile isdigit s1).

Definition scan_exponent (s : str) : Z * str :=
  match s with
  | c :: s' =>
      if decide (code c = 101 ∨ code c = 69)%Z then
        let (neg, s1) := scan_sign s' in
        let ds := takewhile isdigit s1 in
        if decide (ds = []) then (0%Z, s)
        else ((if neg then - digits_value ds else digits_value ds)%Z, dropwhile isdigit s1)
      else (0%Z, s)
  | [] => (0%Z, s)
  end.

Definition scan_double (s : str) : option (double * str) :=
  let (neg, s1) := scan_sign s in
  let ip := takewhile isdigit s1 in
  let s2 := dropwhile isdigit s1 in
  let '(fp, s3) :=
    match s2 with
    | c :: s' => if decide (c = DOT) then (takewhile isdigit s', dropwhile isdigit s') else ([], s2)
    | [] => ([], s2)
    end in
  if decide (ip ++ fp = []) then None
  else
    let (e, s4) := scan_exponent s3 in
    Some (dec_to_double neg (digits_value (ip ++ fp)) (e - Z.of_nat (length fp)), s4).

(** ** [sscanf] *)

(** The directives: white space, a literal byte, [%<w>s], [%<w>[^c]], [%d] at
    a width in bits, [%lf]. *)
Inductive directive :=
  | D_space
  | D_char (c : chr)
  | D_str (w : nat)
  | D_not (c : chr) (w : nat)
  | D_int (bits : Z)
  | D_double.

Inductive scanned :=
  | S_str (s : str)
  | S_int (z : Z)
  | S_double (d : double).

(** The conversions done, and whether scanning stopped at the end of the
    input before a conversion or literal could start. *)
Fixpoint scan (fmt : list directive) (s : str) : list scanned * bool :=
  match fmt with
  | [] => ([], false)
  | D_space :: fmt => scan fmt (skip_ws s)
  | D_char c :: fmt =>
      match s with
      | [] => ([], true)
      | d :: s' => if decide (c = d) then scan fmt s' else ([], false)
      end
  | D_str w :: fmt =>
      match skip_ws s with
      | [] => ([], true)
      | s1 =>
          let t := take w (takewhile (λ c, negb (isspace c)) s1) in
          let (vs, eof) := scan fmt (drop (length t) s1) in (S_str t :: vs, eof)
      end
  | D_not c w :: fmt =>
      match s with
      | [] => ([], true)
      | _ =>
          let t := take w (takewhile (λ d, bool_decide (d ≠ c)) s) in
          if decide (t = []) then ([], false)
          else let (vs, eof) := scan fmt (drop (length t) s) in (S_str t :: vs, eof)
      end
  | D_int bits :: fmt =>
      match skip_ws s with
      | [] => ([], true)
      | s1 =>
          match scan_int bits s1 with
          | None => ([], false)
          | Some (z, s2) => let (vs, eof) := scan fmt s2 in (S_int z :: vs, eof)
          end
      end
  | D_double :: fmt =>
      match skip_ws s with
      | [] => ([], true)
      | s1 =>
          match scan_double s1 with
          | None => ([], false)
          | Some (d, s2) => let (vs, eof) := scan fmt s2 in (S_double d :: vs, eof)
          end
      end
  end.

(** The return value ([EOF] is -1) and the values stored. *)
Definition sscanf (s : str) (fmt : list directive) : Z * list scanned :=
  let (vs, eof) := scan fmt (c_str s) in
  (if decide (vs = []) then (if eof then (-1)%Z else 0%Z) else Z.of_nat (length vs), vs).

(** [atoi (s.c_str ())]. *)
Definition atoi (s : str) : Z :=
  match scan_int 32 (skip_ws (c_str s)) with Some (z, _) => z | None => 0%Z end.

(** ** Decimal output: [%d], [%02d], [<<] *)

Definition digit_char (d : Z) : chr := of_code (48 + d).

Fixpoint dec_go (fuel : nat) (n : Z) (acc : str) : str :=
  match fuel with
  | 0 => acc
  | S fuel =>
      let acc := digit_char (n mod 10) :: acc in
      if (n <? 10)%Z then acc else dec_go fuel (n / 10) acc
  end.

(** [log2 n + 1] digits are always enough. *)
Definition dec_nonneg (n : Z) : str := dec_go (S (Z.to_nat (Z.log2 n))) n [].
Definition dec (z : Z) : str :=
  if (z <? 0)%Z then MINUS :: dec_nonneg (- z) else dec_nonneg z.
Definition dec02 (z : Z) : str :=
  let s := dec z in if decide (length s < 2) then &"0" ++ s else s.

(** ** Lemmas: reading back a printed integer *)

Lemma digit_char_code d : (0 ≤ d < 10)%Z → code (digit_char d) = (48 + d)%Z.
Proof. intros H. apply code_of_code. lia. Qed.

Lemma digit_char_isdigit d : (0 ≤ d < 10)%Z → isdigit (digit_char d) = true.
Proof. intros H. unfold isdigit. rewrite digit_char_code by done. lia. Qed.

Lemma fold_digits_app ds1 ds2 a :
  fold_left digit_step (ds1 ++ ds2) a = fold_left digit_step ds2 (fold_left digit_step ds1 a).
Proof. apply fold_left_app. Qed.

Lemma dec_go_value fuel n acc :
  (0 ≤ n < 2 ^ Z.of_nat fuel)%Z →
  fold_left digit_step (dec_go fuel n acc) 0%Z = fold_left digit_step acc n.
Proof.
  revert n acc; induction fuel as [|fuel IH]; intros n acc Hn; simpl.
  - assert (n = 0)%Z as -> by (change (2 ^ Z.of_nat 0)%Z with 1%Z in Hn; lia). done.
  - rewrite Nat2Z.inj_succ, Z.pow_succ_r in Hn by lia.
    pose proof (Z.mod_pos_bound n 10). destruct (Z.ltb_spec n 10).
    + simpl. unfold digit_step at 2. rewrite digit_char_code, Z.mod_small by lia. f_equal. lia.
    + rewrite IH by (pose proof (Z.div_mod n 10); lia).
      simpl. unfold digit_step at 2. rewrite digit_char_code by lia.
      f_equal. pose proof (Z.div_mod n 10). lia.
Qed.

Lemma dec_go_digits fuel n acc :
  Forall (λ c, isdigit c = true) acc → Forall (λ c, isdigit c = true) (dec_go fuel n acc).
Proof.
  revert n acc; induction fuel as [|fuel IH]; intros n acc H; simpl; [done|].
  pose proof (Z.mod_pos_bound n 10).
  destruct (n <? 10)%Z; [|apply IH]; constructor; try done;
    apply digit_char_isdigit; lia.
Qed.

Lemma dec_go_not_nil fuel n acc : acc ≠ [] → dec_go fuel n acc ≠ [].
Proof.
  revert n acc; induction fuel as [|fuel IH]; intros n acc H; simpl; [done|].
  destruct (n <? 10)%Z; [done|]. by apply IH.
Qed.

Lemma dec_nonneg_not_nil n : dec_nonneg n ≠ [].
Proof. unfold dec_nonneg. simpl. destruct (n <? 10)%Z; [done|]. by apply dec_go_not_nil. Qed.

Lemma dec_nonneg_digits n : Forall (λ c, isdigit c = true) (dec_nonneg n).
Proof. by apply dec_go_digits. Qed.

Lemma dec_nonneg_value n : (0 ≤ n)%Z → digits_value (dec_nonneg n) = n.
Proof.
  intros Hn. unfold digits_value, dec_nonneg. rewrite dec_go_value; [done|].
  rewrite Nat2Z.inj_succ, Z2Nat.id by apply Z.log2_nonneg.
  destruct (decide (n = 0)%Z) as [->|]; [done|]. pose proof (Z.log2_spec n). lia.
Qed.

Lemma dec_go_length_le fuel n acc k :
  (0 ≤ n < 10 ^ Z.of_nat k)%Z → length (dec_go fuel n acc) ≤ S k + length acc.
Proof.
  revert n acc k; induction fuel as [|fuel IH]; intros n acc k Hn; cbn [dec_go]; [lia|].
  destruct (Z.ltb_spec n 10); [simpl; lia|].
  destruct k as [|k]; [change (10 ^ Z.of_nat 0)%Z with 1%Z in Hn; lia|].
  rewrite Nat2Z.inj_succ, Z.pow_succ_r in Hn by lia.
  pose proof (Z.div_mod n 10). pose proof (Z.mod_pos_bound n 10).
  etransitivity; [apply (IH _ _ k); lia|]. simpl. lia.
Qed.

Lemma dec_length_le n : (0 ≤ n < 2 ^ 31)%Z → length (dec n) ≤ 11.
Proof.
  intros Hn. unfold dec. destruct (Z.ltb_spec n 0); [lia|].
  etransitivity; [apply (dec_go_length_le _ _ _ 10); change (10 ^ Z.of_nat 10)%Z with 10000000000%Z; lia|].
  done.
Qed.

Lemma dec_digits n : (0 ≤ n)%Z → Forall (λ c, isdigit c = true) (dec n).
Proof. intros Hn. unfold dec. destruct (Z.ltb_spec n 0); [lia|]. apply dec_nonneg_digits. Qed.

Lemma dec_not_nil n : dec n ≠ [].
Proof. unfold dec. destruct (n <? 0)%Z; [done|]. apply dec_nonneg_not_nil. Qed.

Lemma isdigit_not_sign c : isdigit c = true → c ≠ MINUS ∧ c ≠ PLUS ∧ isspace c = false ∧ c ≠ NUL.
Proof.
  intros H. split_and!; try (intros ->; done).
  unfold isdigit, isspace in *. bools. case_bool_decide as E; [subst; done|]. simpl. lia.
Qed.

Lemma scan_sign_digits s : Forall (λ c, isdigit c = true) s → scan_sign s = (false, s).
Proof.
  destruct 1 as [|c s Hc _]; [done|]. apply isdigit_not_sign in Hc as (?&?&_).
  simpl. by rewrite !decide_False.
Qed.

Lemma dec_head z : ∃ c s, dec z = c :: s ∧ isspace c = false ∧ NUL ∉ dec z.
Proof.
  assert (Hd : ∀ s : str, Forall (λ c, isdigit c = true) s → NUL ∉ s).
  { intros s H Hin. rewrite Forall_forall in H. by apply H in Hin. }
  unfold dec. destruct (z <? 0)%Z.
  - eexists _, _. split_and!; [done|done|]. rewrite not_elem_of_cons. split; [done|].
    apply Hd, dec_nonneg_digits.
  - pose proof (dec_nonneg_not_nil z) as Hnn. pose proof (dec_nonneg_digits z) as H.
    destruct (dec_nonneg z) as [|c s]; [done|]. eexists _, _. split_and!; [done| |by apply Hd].
    inv H. by apply isdigit_not_sign.
Qed.

Lemma scan_int_dec w z :
  (0 < w)%Z → in_s w z → scan_int w (dec z) = Some (z, []).
Proof.
  intros Hw Hz. unfold scan_int, dec.
  assert (Hds : ∀ n, takewhile isdigit (dec_nonneg n) = dec_nonneg n
                     ∧ dropwhile isdigit (dec_nonneg n) = []).
  { intros n. pose proof (dec_nonneg_digits n).
    split; [by apply takewhile_id|by apply dropwhile_nil]. }
  destruct (Z.ltb_spec z 0).
  - simpl. destruct (Hds (- z)%Z) as [-> ->].
    rewrite decide_False by apply dec_nonneg_not_nil.
    rewrite dec_nonneg_value, wrap_s_small by (try lia; by rewrite Z.opp_involutive).
    by rewrite Z.opp_involutive.
  - rewrite scan_sign_digits by apply dec_nonneg_digits. destruct (Hds z) as [-> ->].
    rewrite decide_False by apply dec_nonneg_not_nil.
    by rewrite dec_nonneg_value, wrap_s_small by (done || lia).
Qed.

Lemma skip_ws_dec z : skip_ws (dec z) = dec z.
Proof.
  destruct (dec_head z) as (c & s & E & Hc & _). rewrite E. unfold skip_ws. simpl. by rewrite Hc.
Qed.

Lemma c_str_dec z : c_str (dec z) = dec z.
Proof. destruct (dec_head z) as (? & ? & _ & _ & H). by apply c_str_no_nul. Qed.

Lemma atoi_dec z : in_s 32 z → atoi (dec z) = z.
Proof. intros H. unfold atoi. by rewrite c_str_dec, skip_ws_dec, scan_int_dec. Qed.

Lemma sscanf_int_dec z : in_s 32 z → sscanf (dec z) [D_int 32] = (1%Z, [S_int z]).
Proof.
  intros H. unfold sscanf. rewrite c_str_dec. simpl. rewrite skip_ws_dec.
  destruct (dec_head z) as (c & s & E & _). rewrite E, <- E, scan_int_dec by done. done.
Qed.
