(* ===== verification/Strutils.v ===== *)
(** * String utilities ([src/pandora_strutils.cc])

    [trim], [stringtok], [strreplace] and the conversions between numbers and
    strings, with their specifications. *)
From S2P Require Import Prelude StdString Scanf.

(** The default delimiters of [trim]. *)
Definition blanks : str := [SP; TAB; CR; LF].

(** [Pandora_Strutils::trim]. *)
Definition trim (s : str) : str :=
  let result :=
    match find_last_not_of blanks s with
    | Some index => erase_from s (S index)
    | None => s
    end in
  match find_first_not_of blanks result with
  | Some index => drop index result
  | None => []
  end.

(** [Pandora_Strutils::inttostr], [longtostr]: [ostringstream << i]. *)
Definition longtostr (i : Z) : str := dec i.
Definition inttostr (i : Z) : str := longtostr i.

(** [Pandora_Strutils::strtoint]: the code tests [! sscanf (...)], which is
    false for [EOF] (-1) as well as for 1; on [EOF] [result] is returned
    without having been written. *)
Definition strtoint (s : str) : res Z :=
  match sscanf s [D_int 32] with
  | (0%Z, _) => Err Invalid_Conversion
  | (_, [S_int z]) => Ok z
  | (_, _) => Undef
  end.

(** [Pandora_Strutils::strtodouble]. *)
Definition strtodouble (s : str) : res double :=
  match sscanf s [D_double] with
  | (0%Z, _) => Err Invalid_Conversion
  | (_, [S_double d]) => Ok d
  | (_, _) => Undef
  end.

(** [Pandora_Strutils::strtoulong]: reads [%I64d] into an [unsigned long long]. *)
Definition strtoulong (s : str) : res Z :=
  match sscanf s [D_int 64] with
  | (0%Z, _) => Err Invalid_Conversion
  | (_, [S_int z]) => Ok (wrap_u 64 z)
  | (_, _) => Undef
  end.

(** [Pandora_Strutils::strreplace]: the [do ... while] loop at position [i];
    [None] when [fuel] iterations do not finish it. *)
Fixpoint strreplace_loop (fuel : nat) (s pattern rep : str) (i : nat) : option str :=
  match fuel with
  | 0 => None
  | S fuel =>
      let s := replace s i (length pattern) rep in
      let i := i + length rep in
      let rest := drop i s in
      match find pattern rest with
      | Some j => strreplace_loop fuel s pattern rep (i + j)
      | None => Some s
      end
  end.

Definition strreplace_fuel (fuel : nat) (s pattern rep : str) : option str :=
  match find pattern s with
  | None => Some s
  | Some i => strreplace_loop fuel s pattern rep i
  end.

(** One iteration per byte of the input is enough for a non-empty pattern
    (theorem [strreplace_spec]). *)
Definition strreplace (s pattern rep : str) : option str :=
  strreplace_fuel (length s) s pattern rep.

(** [isseparator]: [strchr] also finds the terminating NUL of [wstr]. *)
Definition isseparator (wstr : str) (c : chr) : bool :=
  bool_decide (c = NUL) || bool_decide (c ∈ wstr).

(** [Pandora_Strutils::stringtok]: [s] is the input from position [i] on; each
    iteration eats separators, takes a word and skips the byte after it. *)
Fixpoint stringtok_loop (fuel : nat) (s separators : str) : list str :=
  match fuel with
  | 0 => []
  | S fuel =>
      match dropwhile (isseparator separators) s with
      | [] => []
      | s1 =>
          let w := takewhile (λ c, negb (isseparator separators c)) s1 in
          w :: stringtok_loop fuel (drop (S (length w)) s1) separators
      end
  end.

(** Every iteration consumes input, so [length s + 1] of them suffice. *)
Definition stringtok (s separators : str) : list str :=
  stringtok_loop (S (length s)) s separators.

(** ** Specifications *)

(** [Replaced p r s out]: [out] is [s] with the leftmost non-overlapping
    occurrences of [p] replaced by [r]. *)
Inductive Replaced (p r : str) : str → str → Prop :=
  | Replaced_done s : find p s = None → Replaced p r s s
  | Replaced_next s i out :
      find p s = Some i →
      Replaced p r (drop (i + length p) s) out →
      Replaced p r s (take i s ++ r ++ out).

(** [Tokens sep s ts]: [ts] are the maximal separator-free runs of [s]. *)
Inductive Tokens (sep : chr → bool) : str → list str → Prop :=
  | Tokens_nil : Tokens sep [] []
  | Tokens_sep c s ts : sep c = true → Tokens sep s ts → Tokens sep (c :: s) ts
  | Tokens_word w s ts :
      w ≠ [] → Forall (λ c, sep c = false) w →
      (match s with [] => True | c :: _ => sep c = true end) →
      Tokens sep s ts → Tokens sep (w ++ s) (w :: ts).

(** Bytes of [s] outside [d], at both ends. *)
Definition stripped (d s : str) : Prop :=
  from_option (λ c, c ∉ d) True (head s) ∧ from_option (λ c, c ∉ d) True (last s).

#[global] Instance stripped_dec d s : Decision (stripped d s).
Proof. unfold stripped. destruct (head s), (last s); simpl; apply _. Defined.

(** ** Lemmas *)

Lemma strtoint_dec i : in_s 32 i → strtoint (dec i) = Ok i.
Proof. intros Hi. unfold strtoint. by rewrite sscanf_int_dec. Qed.

(** A conversion fails only with [Invalid_Conversion], and has a meaning as soon
    as there is something but white space to read. *)
Lemma strtoint_cases s :
  match strtoint s with
  | Ok _ => True
  | Err e => e = Invalid_Conversion
  | Undef => skip_ws (c_str s) = []
  end.
Proof.
  unfold strtoint, sscanf. cbn [scan]. destruct (skip_ws (c_str s)); [done|].
  destruct (scan_int 32 _) as [[z r]|]; done.
Qed.

Lemma trim_dropwhile s : trim s = dropwhile (is_in blanks) (rtrimmed blanks s).
Proof.
  unfold trim, erase_from. pose proof (find_last_not_of_spec blanks s) as Hl.
  destruct (find_last_not_of blanks s) as [i|]; [rewrite Hl|].
  - pose proof (find_first_not_of_spec blanks (rtrimmed blanks s)) as Hf.
    destruct (find_first_not_of blanks (rtrimmed blanks s)); congruence.
  - pose proof (find_first_not_of_spec blanks s) as Hf. rewrite Hl. simpl.
    assert (dropwhile (is_in blanks) s = []) as E.
    { unfold rtrimmed in Hl. apply (f_equal reverse) in Hl.
      rewrite reverse_involutive in Hl. apply dropwhile_nil in Hl.
      apply dropwhile_nil. rewrite <- (reverse_involutive s). by apply Forall_reverse. }
    destruct (find_first_not_of blanks s); congruence.
Qed.

Lemma rtrimmed_prefix d s : ∃ s2, s = rtrimmed d s ++ s2 ∧ Forall (λ c, c ∈ d) s2.
Proof.
  unfold rtrimmed. exists (reverse (takewhile (is_in d) (reverse s))). split.
  - rewrite <- reverse_app, takewhile_dropwhile, reverse_involutive. done.
  - apply Forall_reverse. eapply Forall_impl; [apply takewhile_all|].
    intros c. apply is_in_true.
Qed.

Lemma rtrimmed_last d s c s' : rtrimmed d s = s' ++ [c] → c ∉ d.
Proof.
  unfold rtrimmed. intros E. apply (f_equal reverse) in E.
  rewrite reverse_involutive, reverse_snoc in E.
  apply dropwhile_head in E. by apply is_in_false.
Qed.

Lemma dropwhile_last d s c s' :
  dropwhile (is_in d) s = s' ++ [c] → ∃ s'', s = s'' ++ [c].
Proof.
  intros E. exists (takewhile (is_in d) s ++ s').
  by rewrite <- app_assoc, <- E, takewhile_dropwhile.
Qed.

Lemma stripped_alt d s :
  stripped d s ↔ (∀ c s', s = c :: s' → c ∉ d) ∧ (∀ c s', s = s' ++ [c] → c ∉ d).
Proof.
  unfold stripped. split.
  - intros [Hh Hl]. split; intros c s' ->; [done|]. by rewrite last_snoc in Hl.
  - intros [Hh Hl]. split; [destruct s; simpl; eauto|].
    destruct s as [|x s _] using rev_ind; [done|]. rewrite last_snoc. simpl. eauto.
Qed.

Lemma trim_stripped s : stripped blanks (trim s).
Proof.
  apply stripped_alt. rewrite trim_dropwhile. split; intros c s' E.
  - apply is_in_false. by eapply dropwhile_head.
  - apply dropwhile_last in E as [s'' E]. by eapply rtrimmed_last.
Qed.

Lemma trim_decompose s :
  ∃ s1 s2, s = s1 ++ trim s ++ s2 ∧
    Forall (λ c, c ∈ blanks) s1 ∧ Forall (λ c, c ∈ blanks) s2.
Proof.
  destruct (rtrimmed_prefix blanks s) as (s2 & E & H2).
  exists (takewhile (is_in blanks) (rtrimmed blanks s)), s2. split_and!; [|..|done].
  - rewrite trim_dropwhile, app_assoc, takewhile_dropwhile. done.
  - eapply Forall_impl; [apply takewhile_all|]. intros c. apply is_in_true.
Qed.

(** A string without blanks at its ends is unchanged. *)
Lemma trim_id s : stripped blanks s → trim s = s.
Proof.
  rewrite stripped_alt. intros [Hh Hl]. rewrite trim_dropwhile.
  assert (rtrimmed blanks s = s) as ->.
  { destruct s as [|x l] using rev_ind; [done|]. unfold rtrimmed.
    rewrite reverse_snoc, dropwhile_cons_false; [|by apply is_in_false, (Hl _ l)].
    by rewrite <- reverse_snoc, reverse_involutive. }
  destruct s as [|x l]; [done|]. apply dropwhile_cons_false, is_in_false. by apply (Hh _ l).
Qed.

Lemma dropwhile_all_app {A} (p : A → bool) l1 l2 :
  Forall (λ x, p x = true) l1 → dropwhile p (l1 ++ l2) = dropwhile p l2.
Proof. intros H. apply dropwhile_nil in H. by rewrite dropwhile_app, H. Qed.

(** What [trim] returns is determined by the decomposition. *)
Lemma trim_unique s1 t s2 :
  t ≠ [] → stripped blanks t →
  Forall (λ c, c ∈ blanks) s1 → Forall (λ c, c ∈ blanks) s2 →
  trim (s1 ++ t ++ s2) = t.
Proof.
  rewrite stripped_alt. intros Ht [Hh Hl] H1 H2. rewrite trim_dropwhile. unfold rtrimmed.
  assert (Hb : ∀ l : str, Forall (λ c, c ∈ blanks) l → Forall (λ c, is_in blanks c = true) l).
  { intros l Hl'. eapply Forall_impl; [done|]. intros c. apply is_in_true. }
  rewrite !reverse_app, <- app_assoc, dropwhile_all_app by (by apply Forall_reverse, Hb).
  destruct t as [|x t _] using rev_ind; [done|].
  rewrite reverse_snoc. simpl. rewrite (proj2 (is_in_false blanks x)) by (by apply (Hl x t)).
  rewrite app_comm_cons, reverse_app, reverse_cons, !reverse_involutive.
  rewrite dropwhile_all_app by auto.
  destruct (t ++ [x]) as [|y r] eqn:E; [done|].
  apply dropwhile_cons_false, is_in_false. by apply (Hh y r).
Qed.

Lemma trim_blanks s : Forall (λ c, c ∈ blanks) s → trim s = [].
Proof.
  intros H. destruct (trim_decompose s) as (s1 & s2 & E & _).
  destruct (proj1 (stripped_alt _ _) (trim_stripped s)) as [Hh _]. destruct (trim s) as [|c t]; [done|].
  exfalso. eapply Hh; [done|]. rewrite Forall_forall in H. apply H. rewrite E. set_solver.
Qed.

Section tokens.
Context (separators : str).
Let sep := isseparator separators.

Lemma Tokens_skip s1 s ts :
  Forall (λ c, sep c = true) s1 → Tokens sep s ts → Tokens sep (s1 ++ s) ts.
Proof. induction 1; simpl; [done|]. intros. constructor; auto. Qed.

Lemma stringtok_loop_tokens fuel s :
  length s < fuel → Tokens sep s (stringtok_loop fuel s separators).
Proof.
  revert s; induction fuel as [|fuel IH]; intros s Hs; [lia|]. cbn [stringtok_loop].
  rewrite <- (takewhile_dropwhile sep s) at 1.
  apply Tokens_skip; [apply takewhile_all|].
  pose proof (dropwhile_length sep s) as Hlen. fold sep.
  destruct (dropwhile sep s) as [|c s1] eqn:E; [constructor|].
  apply dropwhile_head in E. set (w := takewhile (λ c, negb (sep c)) (c :: s1)).
  assert (Hw : w ≠ []) by (unfold w; simpl; by rewrite E).
  assert (HwF : Forall (λ c, sep c = false) w).
  { eapply Forall_impl; [apply takewhile_all|]. intros x. apply negb_true_iff. }
  destruct (dropwhile (λ c, negb (sep c)) (c :: s1)) as [|d r] eqn:Er;
    pose proof (takewhile_dropwhile (λ c, negb (sep c)) (c :: s1)) as Hwr;
    fold w in Hwr; rewrite Er in Hwr.
  - assert (drop (S (length w)) (c :: s1) = []) as ->.
    { rewrite <- Hwr, app_nil_r. apply drop_ge. lia. }
    clearbody w. rewrite <- Hwr.
    constructor; [done..|]. destruct fuel; simpl; constructor.
  - clearbody w. rewrite <- Hwr, drop_app_ge, Nat.sub_succ_l, Nat.sub_diag by lia.
    assert (sep d = true) as Hd.
    { apply negb_false_iff. exact (dropwhile_head _ _ _ _ Er). }
    constructor; [done..|]. simpl. constructor; [done|]. rewrite drop_0. apply IH.
    apply (f_equal length) in Hwr. rewrite length_app in Hwr. simpl in *. lia.
Qed.

Lemma Tokens_wf s ts :
  Tokens sep s ts → Forall (λ t, t ≠ [] ∧ Forall (λ c, sep c = false) t) ts.
Proof. induction 1; auto. Qed.

Lemma Tokens_concat s ts :
  Tokens sep s ts → concat ts = filter (λ c, sep c = false) s.
Proof.
  induction 1 as [|c s ts Hc _ IH|w s ts _ Hw _ _ IH]; [done|..].
  - rewrite filter_cons_False; congruence.
  - rewrite filter_app. simpl. rewrite IH. f_equal.
    induction Hw as [|x l Hx _ IHl]; [done|]. rewrite filter_cons_True by done. by f_equal.
Qed.
End tokens.

Lemma replaced_total_fun p r s o1 o2 : Replaced p r s o1 → Replaced p r s o2 → o1 = o2.
Proof.
  intros H; revert o2; induction H as [s Hs|s i o Hs _ IH]; intros o2 H2; inv H2; try congruence.
  simplify_eq. f_equal. f_equal. by apply IH.
Qed.

(** The loop invariant: a finished part [pre], and the rest still to do. *)
Lemma strreplace_loop_spec fuel p r pre s i :
  p ≠ [] → length s ≤ fuel → find p s = Some i →
  ∃ out, strreplace_loop fuel (pre ++ s) p r (length pre + i) = Some (pre ++ out)
         ∧ Replaced p r s out.
Proof.
  intros Hp. revert pre s i; induction fuel as [|fuel IH]; intros pre s i Hlen Hi.
  { pose proof (find_Some_le _ _ _ Hi). destruct p; [done|]. simpl in *. lia. }
  pose proof (find_Some_le _ _ _ Hi) as Hle. cbn [strreplace_loop].
  assert (replace (pre ++ s) (length pre + i) (length p) r
          = (pre ++ take i s ++ r) ++ drop (i + length p) s) as ->.
  { unfold replace. rewrite take_app_ge, drop_app_ge by lia.
    replace (length pre + i - length pre) with i by lia.
    replace (length pre + i + length p - length pre) with (i + length p) by lia.
    by rewrite <- !app_assoc. }
  assert (length pre + i + length r = length (pre ++ take i s ++ r)) as Hpos.
  { rewrite !length_app, length_take. lia. }
  rewrite Hpos, drop_app_length.
  destruct (find p (drop (i + length p) s)) as [j|] eqn:Hj.
  - destruct (IH (pre ++ take i s ++ r) (drop (i + length p) s) j) as (out & E & Hr).
    { rewrite length_drop. destruct p; [done|]. simpl in *. lia. }
    { done. }
    exists (take i s ++ r ++ out). rewrite E. split; [by rewrite <- !app_assoc|].
    by econstructor.
  - exists (take i s ++ r ++ drop (i + length p) s). split; [by rewrite <- !app_assoc|].
    econstructor; [done|]. by constructor.
Qed.

Lemma strreplace_fuel_spec p r s :
  p ≠ [] → ∃ out, strreplace s p r = Some out ∧ Replaced p r s out.
Proof.
  intros Hp. unfold strreplace, strreplace_fuel. destruct (find p s) as [i|] eqn:Hi.
  - destruct (strreplace_loop_spec (length s) p r [] s i) as (out & E & H); [done..|].
    by exists out.
  - exists s. split; [done|]. by constructor.
Qed.

Lemma Replaced_char c r s :
  Replaced [c] r s (s ≫= λ d, if decide (d = c) then r else [d]).
Proof.
  remember (length s) as n eqn:Hn. revert s Hn.
  induction (lt_wf n) as [n _ IH]; intros s ->.
  destruct (find [c] s) as [i|] eqn:Hi.
  - pose proof (find_Some _ _ _ Hi) as E. pose proof (λ j, find_first _ _ _ j Hi) as Hf.
    assert (Hnot : c ∉ take i s).
    { intros H. apply list_elem_of_lookup in H as [j Hj].
      apply lookup_take_Some in Hj as [Hj Hji].
      specialize (Hf _ Hji). rewrite (drop_S _ _ _ Hj) in Hf. simpl in Hf.
      by rewrite bool_decide_true in Hf. }
    assert (take i s ≫= (λ d, if decide (d = c) then r else [d]) = take i s) as Hpre.
    { revert Hnot. generalize (take i s). intros l. induction l as [|d l IHl]; [done|].
      rewrite not_elem_of_cons. intros [Hd Hl]. simpl. rewrite decide_False by done.
      simpl. f_equal. by apply IHl. }
    rewrite E at 2. rewrite bind_app, Hpre. simpl. rewrite decide_True by done.
    eapply Replaced_next; [done|]. apply IH with (y := length (drop (i + length [c]) s)); [|done].
    rewrite length_drop. apply find_Some_le in Hi. simpl in *. lia.
  - apply find_char_None in Hi as Hc.
    assert (s ≫= (λ d, if decide (d = c) then r else [d]) = s) as ->; [|by constructor].
    clear Hi IH. induction s as [|d l IHl]; [done|]. apply not_elem_of_cons in Hc as [Hd Hl].
    simpl. rewrite decide_False by done. simpl. f_equal. by apply IHl.
Qed.

(** Replacing a single byte is mapping over the bytes. *)
Lemma strreplace_char c r s :
  strreplace s [c] r = Some (s ≫= λ d, if decide (d = c) then r else [d]).
Proof.
  destruct (strreplace_fuel_spec [c] r s) as (out & E & H); [done|].
  rewrite E. f_equal. eapply replaced_total_fun; [done|]. apply Replaced_char.
Qed.

(** Tokens are determined by the string. *)
Lemma word_split (sep : chr → bool) w s :
  Forall (λ c, sep c = false) w →
  (match s with [] => True | c :: _ => sep c = true end) →
  takewhile (λ c, negb (sep c)) (w ++ s) = w ∧ dropwhile (λ c, negb (sep c)) (w ++ s) = s.
Proof.
  intros Hw Hs. assert (Forall (λ c, negb (sep c) = true) w) as Hw'.
  { eapply Forall_impl; [done|]. intros c. apply negb_true_iff. }
  destruct s as [|c s].
  - rewrite app_nil_r. split; [by apply takewhile_id|by apply dropwhile_nil].
  - apply negb_false_iff in Hs.
    split; [by apply takewhile_app_stop|by apply dropwhile_app_stop].
Qed.

Lemma Tokens_fun sep s ts1 ts2 : Tokens sep s ts1 → Tokens sep s ts2 → ts1 = ts2.
Proof.
  intros H; revert ts2; induction H as [|c s ts Hc _ IH|w s ts Hw HwF Hs _ IH]; intros ts2 H2.
  - inversion H2 as [|?|w s ? Hw]; [done|]. by destruct w.
  - inversion H2 as [|?|w s' ? Hw HwF]; [by apply IH|].
    destruct w as [|d w]; [done|]. simplify_eq/=. inv HwF. congruence.
  - inversion H2 as [E|c s' ? Hc _ E|w' s' ts' Hw' HwF' Hs' H' E].
    + by destruct w.
    + destruct w as [|d w]; [done|]. simplify_eq/=. inv HwF. congruence.
    + destruct (word_split sep w s) as [E1 E2]; [done..|].
      destruct (word_split sep w' s') as [E1' E2']; [done..|].
      rewrite E in E1', E2'. rewrite E1 in E1'. rewrite E2 in E2'. subst. f_equal. by apply IH.
Qed.

(** With an empty pattern the loop never leaves. *)
Lemma strreplace_loop_empty fuel s r i : strreplace_loop fuel s [] r i = None.
Proof.
  revert s i; induction fuel as [|fuel IH]; intros s i; [done|]. cbn [strreplace_loop].
  destruct (find [] (drop _ _)) as [j|] eqn:E; [apply IH|].
  apply find_None with (j := 0) in E. done.
Qed.

(** ** Properties *)

(** [stringtok] returns exactly the maximal separator-free runs of its
    input, in order: the result is the one list of tokens the relational
    specification allows (a NUL byte separates too). *)
Lemma stringtok_spec s separators ts :
  stringtok s separators = ts ↔ Tokens (isseparator separators) s ts.
Proof.
  assert (H : Tokens (isseparator separators) s (stringtok s separators)).
  { apply stringtok_loop_tokens. lia. }
  split; [by intros <-|]. intros H'. by eapply Tokens_fun.
Qed.

(** [strreplace] with a non-empty pattern terminates within one iteration
    per input byte and returns the leftmost non-overlapping replacement; with
    an empty pattern no number of iterations finishes the loop. *)
Lemma strreplace_spec s p r :
  (p ≠ [] → ∃ out, strreplace s p r = Some out ∧
     ∀ out', Replaced p r s out' ↔ out' = out) ∧
  (∀ fuel, strreplace_fuel fuel s [] r = None).
Proof.
  split.
  - intros Hp. destruct (strreplace_fuel_spec p r s Hp) as (out & E & H).
    exists out. split; [done|]. intros out'. split; [|by intros ->].
    intros H'. by eapply replaced_total_fun.
  - intros fuel. unfold strreplace_fuel.
    destruct (find [] s) as [i|] eqn:E; [apply strreplace_loop_empty|].
    apply find_None with (j := 0) in E. done.
Qed.

Lemma strreplace_spec_witness :
  ∃ out, strreplace (&"a--b--") (&"--") (&"-") = Some out ∧ Replaced (&"--") (&"-") (&"a--b--") out.
Proof.
  destruct (strreplace_spec (&"a--b--") (&"--") (&"-")) as [H _].
  destruct H as (out & E & Hr); [by vm_compute|]. exists out. split; [exact E|by apply Hr].
Defined.

(** [trim] removes blanks (space, tab, CR, LF) at both ends and nothing
    else, and leaves a trimmed string alone. *)
Theorem trim_spec s :
  stripped blanks (trim s) ∧
  (∃ s1 s2, s = s1 ++ trim s ++ s2 ∧
     Forall (λ c, c ∈ blanks) s1 ∧ Forall (λ c, c ∈ blanks) s2) ∧
  trim (trim s) = trim s.
Proof.
  split_and!; [apply trim_stripped|apply trim_decompose|apply trim_id, trim_stripped].
Qed.

(** Printing a 32-bit integer and reading it back gives the integer; the
    empty string is not rejected by [strtoint] but yields an unwritten
    variable, while text that is not a number is rejected. *)
Theorem strtoint_inttostr i :
  in_s 32 i →
  strtoint (inttostr i) = Ok i ∧ atoi (inttostr i) = i ∧
  strtoint [] = Undef ∧ strtoint (&"x" ++ inttostr i) = Err Invalid_Conversion.
Proof.
  intros Hi. unfold strtoint, inttostr, longtostr.
  rewrite sscanf_int_dec, atoi_dec by done. split_and!; try done.
Qed.

Lemma strtoint_inttostr_witness :
  in_s 32 (-2147483648) ∧ strtoint (inttostr (-2147483648)) = Ok (-2147483648)%Z.
Proof.
  split; [vm_compute; split; congruence|]. apply strtoint_inttostr. vm_compute; split; congruence.
Defined.
