(* ===== verification/Md5.v ===== *)
(** * MD5: the digest of [misc/md5.c] and [Pandora_File::md5]

    The 32-bit little-endian reading of [md5_process], the streaming interface
    ([md5_init], [md5_append], [md5_finish]) and the hexadecimal digest the agent
    uses to name and to compare files. The reference is RFC 1321 on the whole
    message; the streaming code is proved to compute it for every way of cutting
    the message into pieces. *)
From S2P Require Import Prelude.

#[local] Open Scope nat_scope.

(** ** The state *)

(** The four words [abcd]. *)
Record regs := Regs { ra : Z; rb : Z; rc : Z; rd : Z }.

Inductive reg_name := Na | Nb | Nc | Nd.

Definition get (r : regs) (n : reg_name) : Z :=
  match n with Na => ra r | Nb => rb r | Nc => rc r | Nd => rd r end.

Definition set (n : reg_name) (v : Z) (r : regs) : regs :=
  match n with
  | Na => Regs v (rb r) (rc r) (rd r)
  | Nb => Regs (ra r) v (rc r) (rd r)
  | Nc => Regs (ra r) (rb r) v (rd r)
  | Nd => Regs (ra r) (rb r) (rc r) v
  end.

(** [md5_state_t]: the bit count (low word first), the digest buffer and the
    64-byte accumulation block. *)
Record md5_state_t := Md5_state {
  count0 : Z;
  count1 : Z;
  abcd : regs;
  buf : str }.

(** ** The block function *)

Definition T_MASK : Z := 0xffffffff.
Definition T1 : Z := Z.lxor T_MASK 0x28955b87.
Definition T2 : Z := Z.lxor T_MASK 0x173848a9.
Definition T3 : Z := 0x242070db.
Definition T4 : Z := Z.lxor T_MASK 0x3e423111.
Definition T5 : Z := Z.lxor T_MASK 0x0a83f050.
Definition T6 : Z := 0x4787c62a.
Definition T7 : Z := Z.lxor T_MASK 0x57cfb9ec.
Definition T8 : Z := Z.lxor T_MASK 0x02b96afe.
Definition T9 : Z := 0x698098d8.
Definition T10 : Z := Z.lxor T_MASK 0x74bb0850.
Definition T11 : Z := Z.lxor T_MASK 0x0000a44e.
Definition T12 : Z := Z.lxor T_MASK 0x76a32841.
Definition T13 : Z := 0x6b901122.
Definition T14 : Z := Z.lxor T_MASK 0x02678e6c.
Definition T15 : Z := Z.lxor T_MASK 0x5986bc71.
Definition T16 : Z := 0x49b40821.
Definition T17 : Z := Z.lxor T_MASK 0x09e1da9d.
Definition T18 : Z := Z.lxor T_MASK 0x3fbf4cbf.
Definition T19 : Z := 0x265e5a51.
Definition T20 : Z := Z.lxor T_MASK 0x16493855.
Definition T21 : Z := Z.lxor T_MASK 0x29d0efa2.
Definition T22 : Z := 0x02441453.
Definition T23 : Z := Z.lxor T_MASK 0x275e197e.
Definition T24 : Z := Z.lxor T_MASK 0x182c0437.
Definition T25 : Z := 0x21e1cde6.
Definition T26 : Z := Z.lxor T_MASK 0x3cc8f829.
Definition T27 : Z := Z.lxor T_MASK 0x0b2af278.
Definition T28 : Z := 0x455a14ed.
Definition T29 : Z := Z.lxor T_MASK 0x561c16fa.
Definition T30 : Z := Z.lxor T_MASK 0x03105c07.
Definition T31 : Z := 0x676f02d9.
Definition T32 : Z := Z.lxor T_MASK 0x72d5b375.
Definition T33 : Z := Z.lxor T_MASK 0x0005c6bd.
Definition T34 : Z := Z.lxor T_MASK 0x788e097e.
Definition T35 : Z := 0x6d9d6122.
Definition T36 : Z := Z.lxor T_MASK 0x021ac7f3.
Definition T37 : Z := Z.lxor T_MASK 0x5b4115bb.
Definition T38 : Z := 0x4bdecfa9.
Definition T39 : Z := Z.lxor T_MASK 0x0944b49f.
Definition T40 : Z := Z.lxor T_MASK 0x4140438f.
Definition T41 : Z := 0x289b7ec6.
Definition T42 : Z := Z.lxor T_MASK 0x155ed805.
Definition T43 : Z := Z.lxor T_MASK 0x2b10cf7a.
Definition T44 : Z := 0x04881d05.
Definition T45 : Z := Z.lxor T_MASK 0x262b2fc6.
Definition T46 : Z := Z.lxor T_MASK 0x1924661a.
Definition T47 : Z := 0x1fa27cf8.
Definition T48 : Z := Z.lxor T_MASK 0x3b53a99a.
Definition T49 : Z := Z.lxor T_MASK 0x0bd6ddbb.
Definition T50 : Z := 0x432aff97.
Definition T51 : Z := Z.lxor T_MASK 0x546bdc58.
Definition T52 : Z := Z.lxor T_MASK 0x036c5fc6.
Definition T53 : Z := 0x655b59c3.
Definition T54 : Z := Z.lxor T_MASK 0x70f3336d.
Definition T55 : Z := Z.lxor T_MASK 0x00100b82.
Definition T56 : Z := Z.lxor T_MASK 0x7a7ba22e.
Definition T57 : Z := 0x6fa87e4f.
Definition T58 : Z := Z.lxor T_MASK 0x01d3191f.
Definition T59 : Z := Z.lxor T_MASK 0x5cfebceb.
Definition T60 : Z := 0x4e0811a1.
Definition T61 : Z := Z.lxor T_MASK 0x08ac817d.
Definition T62 : Z := Z.lxor T_MASK 0x42c50dca.
Definition T63 : Z := 0x2ad7d2bb.
Definition T64 : Z := Z.lxor T_MASK 0x14792c6e.

Definition bnot (x : Z) : Z := Z.lxor x T_MASK.

Definition F (x y z : Z) : Z := Z.lor (Z.land x y) (Z.land (bnot x) z).
Definition G (x y z : Z) : Z := Z.lor (Z.land x z) (Z.land y (bnot z)).
Definition H (x y z : Z) : Z := Z.lxor (Z.lxor x y) z.
Definition I (x y z : Z) : Z := Z.lxor y (Z.lor x (bnot z)).

Definition ROTATE_LEFT (x n : Z) : Z :=
  Z.lor (u32 (Z.shiftl x n)) (Z.shiftr x (32 - n)).

(** One [SET_F]/[SET_G]/[SET_H]/[SET_I] invocation: the function, the four
    registers in the order of the macro's arguments, the word of the block, the
    rotation and the constant. *)
Inductive set_op :=
  | Set_op (f : Z → Z → Z → Z) (a b c d : reg_name) (k : nat) (s Ti : Z).

(** [t = a + F(b,c,d) + X[k] + Ti; a = ROTATE_LEFT(t, s) + b] *)
Definition exec (X : nat → Z) (r : regs) (o : set_op) : regs :=
  match o with
  | Set_op f a b c d k s Ti =>
      let t := u32 (get r a + f (get r b) (get r c) (get r d) + X k + Ti) in
      set a (u32 (ROTATE_LEFT t s + get r b)) r
  end.

Definition round1 : list set_op :=
  [Set_op F Na Nb Nc Nd 0 7 T1;
   Set_op F Nd Na Nb Nc 1 12 T2;
   Set_op F Nc Nd Na Nb 2 17 T3;
   Set_op F Nb Nc Nd Na 3 22 T4;
   Set_op F Na Nb Nc Nd 4 7 T5;
   Set_op F Nd Na Nb Nc 5 12 T6;
   Set_op F Nc Nd Na Nb 6 17 T7;
   Set_op F Nb Nc Nd Na 7 22 T8;
   Set_op F Na Nb Nc Nd 8 7 T9;
   Set_op F Nd Na Nb Nc 9 12 T10;
   Set_op F Nc Nd Na Nb 10 17 T11;
   Set_op F Nb Nc Nd Na 11 22 T12;
   Set_op F Na Nb Nc Nd 12 7 T13;
   Set_op F Nd Na Nb Nc 13 12 T14;
   Set_op F Nc Nd Na Nb 14 17 T15;
   Set_op F Nb Nc Nd Na 15 22 T16].
Definition round2 : list set_op :=
  [Set_op G Na Nb Nc Nd 1 5 T17;
   Set_op G Nd Na Nb Nc 6 9 T18;
   Set_op G Nc Nd Na Nb 11 14 T19;
   Set_op G Nb Nc Nd Na 0 20 T20;
   Set_op G Na Nb Nc Nd 5 5 T21;
   Set_op G Nd Na Nb Nc 10 9 T22;
   Set_op G Nc Nd Na Nb 15 14 T23;
   Set_op G Nb Nc Nd Na 4 20 T24;
   Set_op G Na Nb Nc Nd 9 5 T25;
   Set_op G Nd Na Nb Nc 14 9 T26;
   Set_op G Nc Nd Na Nb 3 14 T27;
   Set_op G Nb Nc Nd Na 8 20 T28;
   Set_op G Na Nb Nc Nd 13 5 T29;
   Set_op G Nd Na Nb Nc 2 9 T30;
   Set_op G Nc Nd Na Nb 7 14 T31;
   Set_op G Nb Nc Nd Na 12 20 T32].
Definition round3 : list set_op :=
  [Set_op H Na Nb Nc Nd 5 4 T33;
   Set_op H Nd Na Nb Nc 8 11 T34;
   Set_op H Nc Nd Na Nb 11 16 T35;
   Set_op H Nb Nc Nd Na 14 23 T36;
   Set_op H Na Nb Nc Nd 1 4 T37;
   Set_op H Nd Na Nb Nc 4 11 T38;
   Set_op H Nc Nd Na Nb 7 16 T39;
   Set_op H Nb Nc Nd Na 10 23 T40;
   Set_op H Na Nb Nc Nd 13 4 T41;
   Set_op H Nd Na Nb Nc 0 11 T42;
   Set_op H Nc Nd Na Nb 3 16 T43;
   Set_op H Nb Nc Nd Na 6 23 T44;
   Set_op H Na Nb Nc Nd 9 4 T45;
   Set_op H Nd Na Nb Nc 12 11 T46;
   Set_op H Nc Nd Na Nb 15 16 T47;
   Set_op H Nb Nc Nd Na 2 23 T48].
Definition round4 : list set_op :=
  [Set_op I Na Nb Nc Nd 0 6 T49;
   Set_op I Nd Na Nb Nc 7 10 T50;
   Set_op I Nc Nd Na Nb 14 15 T51;
   Set_op I Nb Nc Nd Na 5 21 T52;
   Set_op I Na Nb Nc Nd 12 6 T53;
   Set_op I Nd Na Nb Nc 3 10 T54;
   Set_op I Nc Nd Na Nb 10 15 T55;
   Set_op I Nb Nc Nd Na 1 21 T56;
   Set_op I Na Nb Nc Nd 8 6 T57;
   Set_op I Nd Na Nb Nc 15 10 T58;
   Set_op I Nc Nd Na Nb 6 15 T59;
   Set_op I Nb Nc Nd Na 13 21 T60;
   Set_op I Na Nb Nc Nd 4 6 T61;
   Set_op I Nd Na Nb Nc 11 10 T62;
   Set_op I Nc Nd Na Nb 2 15 T63;
   Set_op I Nb Nc Nd Na 9 21 T64].

(** Byte [i] of a block, and its [k]-th word:
    [xp[0] + (xp[1] << 8) + (xp[2] << 16) + (xp[3] << 24)]. *)
Definition byte_at (data : str) (i : nat) : Z := code (nth i data NUL).

Definition X_of (data : str) (k : nat) : Z :=
  u32 (byte_at data (4 * k) + Z.shiftl (byte_at data (4 * k + 1)) 8
       + Z.shiftl (byte_at data (4 * k + 2)) 16 + Z.shiftl (byte_at data (4 * k + 3)) 24).

Definition md5_process (r : regs) (data : str) : regs :=
  let r' := fold_left (exec (X_of data)) (round1 ++ round2 ++ round3 ++ round4) r in
  Regs (u32 (ra r + ra r')) (u32 (rb r + rb r')) (u32 (rc r + rc r')) (u32 (rd r + rd r')).

(** ** The streaming interface *)

(** The buffer of a fresh state is not initialised; it is written before it is
    read, so its content is a parameter. *)
Definition md5_init (junk : str) : md5_state_t :=
  Md5_state 0 0 (Regs 0x67452301 (Z.lxor T_MASK 0x10325476) (Z.lxor T_MASK 0x67452301) 0x10325476) junk.

(** [memcpy (dst + off, src, length src)] inside a block. *)
Definition memcpy (dst : str) (off : nat) (src : str) : str :=
  take off dst ++ src ++ drop (off + length src) dst.

(** [for (; left >= 64; p += 64, left -= 64) md5_process(pms, p)]; each round
    consumes 64 bytes, so [length p] is enough fuel. *)
Fixpoint full_blocks (fuel : nat) (r : regs) (p : str) : regs * str :=
  match fuel with
  | 0 => (r, p)
  | S fuel' =>
      if bool_decide (64 ≤ length p)
      then full_blocks fuel' (md5_process r (take 64 p)) (drop 64 p)
      else (r, p)
  end.

(** [data] is the [nbytes] bytes read; [nbytes << 3] wraps at 32 bits. *)
Definition md5_append (pms : md5_state_t) (data : str) : md5_state_t :=
  let nbytes := Z.of_nat (length data) in
  let offset := Z.to_nat (Z.land (Z.shiftr (count0 pms) 3) 63) in
  let nbits := u32 (Z.shiftl nbytes 3) in
  if (nbytes <=? 0)%Z then pms else
  let c0 := u32 (count0 pms + nbits) in
  let c1 := u32 (count1 pms + Z.shiftr nbytes 29) in
  let c1 := if (c0 <? nbits)%Z then u32 (c1 + 1) else c1 in
  let copy :=
    if bool_decide (offset = 0) then 0
    else if bool_decide (64 < offset + length data) then 64 - offset else length data in
  let buf1 := memcpy (buf pms) offset (take copy data) in
  if bool_decide (offset ≠ 0) && bool_decide (offset + copy < 64)
  then Md5_state c0 c1 (abcd pms) buf1
  else
    let r1 := if bool_decide (offset = 0) then abcd pms else md5_process (abcd pms) buf1 in
    let p := drop copy data in
    let '(r2, p) := full_blocks (length p) r1 p in
    Md5_state c0 c1 r2 (memcpy buf1 0 p).

Definition pad : str := of_code 0x80 :: replicate 63 NUL.

(** Byte [i] of a little-endian sequence of words. *)
Definition le_byte (w : nat → Z) (i : nat) : chr :=
  of_code (u8 (Z.shiftr (w (i / 4)%nat) (8 * Z.of_nat (i mod 4)))).

Definition count_word (pms : md5_state_t) (i : nat) : Z :=
  match i with 0 => count0 pms | _ => count1 pms end.

Definition abcd_word (r : regs) (i : nat) : Z :=
  match i with 0 => ra r | 1 => rb r | 2 => rc r | _ => rd r end.

Definition md5_finish (pms : md5_state_t) : str :=
  let data := map (le_byte (count_word pms)) (seq 0 8) in
  let n := (Z.land (u32 (55 - Z.shiftr (count0 pms) 3)) 63 + 1)%Z in
  let pms := md5_append pms (take (Z.to_nat n) pad) in
  let pms := md5_append pms data in
  map (le_byte (abcd_word (abcd pms))) (seq 0 16).

(** ** [Pandora_File::md5] *)

Definition hex_digit (z : Z) : chr :=
  if (z <? 10)%Z then of_code (48 + z) else of_code (87 + z).

(** [snprintf (..., 3, "%.2x", digest[i])] *)
Definition hex2 (c : chr) : str :=
  [hex_digit (code c / 16); hex_digit (code c mod 16)].

Definition md5 (junk data : str) : str :=
  flat_map hex2 (md5_finish (md5_append (md5_init junk) data)).

(** ** Reference: RFC 1321 *)
Module Rfc1321.

Definition K : list Z :=
  [0xd76aa478; 0xe8c7b756; 0x242070db; 0xc1bdceee; 0xf57c0faf; 0x4787c62a; 0xa8304613; 0xfd469501;
   0x698098d8; 0x8b44f7af; 0xffff5bb1; 0x895cd7be; 0x6b901122; 0xfd987193; 0xa679438e; 0x49b40821;
   0xf61e2562; 0xc040b340; 0x265e5a51; 0xe9b6c7aa; 0xd62f105d; 0x02441453; 0xd8a1e681; 0xe7d3fbc8;
   0x21e1cde6; 0xc33707d6; 0xf4d50d87; 0x455a14ed; 0xa9e3e905; 0xfcefa3f8; 0x676f02d9; 0x8d2a4c8a;
   0xfffa3942; 0x8771f681; 0x6d9d6122; 0xfde5380c; 0xa4beea44; 0x4bdecfa9; 0xf6bb4b60; 0xbebfbc70;
   0x289b7ec6; 0xeaa127fa; 0xd4ef3085; 0x04881d05; 0xd9d4d039; 0xe6db99e5; 0x1fa27cf8; 0xc4ac5665;
   0xf4292244; 0x432aff97; 0xab9423a7; 0xfc93a039; 0x655b59c3; 0x8f0ccc92; 0xffeff47d; 0x85845dd1;
   0x6fa87e4f; 0xfe2ce6e0; 0xa3014314; 0x4e0811a1; 0xf7537e82; 0xbd3af235; 0x2ad7d2bb; 0xeb86d391]%Z.

Definition K_at (i : nat) : Z := nth i K 0%Z.

Definition shifts : list (list Z) :=
  [[7; 12; 17; 22]; [5; 9; 14; 20]; [4; 11; 16; 23]; [6; 10; 15; 21]]%Z.

Definition shift_at (i : nat) : Z := nth (i mod 4) (nth (i / 16) shifts []) 0%Z.

Definition fun_at (i : nat) : Z → Z → Z → Z :=
  match i / 16 with 0 => F | 1 => G | 2 => H | _ => I end.

(** The word of the block that step [i] reads. *)
Definition word_at (i : nat) : nat :=
  match i / 16 with
  | 0 => i mod 16
  | 1 => (5 * i + 1) mod 16
  | 2 => (3 * i + 5) mod 16
  | _ => (7 * i) mod 16
  end.

(** One step on the rotating registers. *)
Definition step (X : nat → Z) (r : regs) (p : (Z → Z → Z → Z) * nat * Z * Z) : regs :=
  let '(f, k, s, Ti) := p in
  let t := u32 (ra r + f (rb r) (rc r) (rd r) + X k + Ti) in
  Regs (rd r) (u32 (ROTATE_LEFT t s + rb r)) (rb r) (rc r).

Definition params (i : nat) : (Z → Z → Z → Z) * nat * Z * Z :=
  (fun_at i, word_at i, shift_at i, K_at i).

Definition compress (r : regs) (block : str) : regs :=
  let r' := fold_left (step (X_of block)) (map params (seq 0 64)) r in
  Regs (u32 (ra r + ra r')) (u32 (rb r + rb r')) (u32 (rc r + rc r')) (u32 (rd r + rd r')).

Fixpoint blocks (n : nat) (l : str) : list str :=
  match n with 0 => [] | S n' => take 64 l :: blocks n' (drop 64 l) end.

Definition absorb (r : regs) (l : str) : regs :=
  fold_left compress (blocks (length l / 64) l) r.

Definition iv : regs := Regs 0x67452301 0xefcdab89 0x98badcfe 0x10325476.

(** The message length in bits, modulo 2^64, little-endian. *)
Definition length_bytes (len : nat) : str :=
  map (λ i, of_code ((8 * Z.of_nat len) / 2 ^ (8 * Z.of_nat i) mod 256)) (seq 0 8).

Definition padded (msg : str) : str :=
  msg ++ of_code 0x80 :: replicate (Z.to_nat ((55 - Z.of_nat (length msg)) mod 64)) NUL
      ++ length_bytes (length msg).

Definition digest (msg : str) : str :=
  map (le_byte (abcd_word (absorb iv (padded msg)))) (seq 0 16).

End Rfc1321.

(** ** The block function is the one of RFC 1321 *)

(** Four invocations on the registers in rotated order are four steps on the
    rotating registers. *)
Definition quad_ops (q : list ((Z → Z → Z → Z) * nat * Z * Z)) : list set_op :=
  match q with
  | [(f1, k1, s1, t1); (f2, k2, s2, t2); (f3, k3, s3, t3); (f4, k4, s4, t4)] =>
      [Set_op f1 Na Nb Nc Nd k1 s1 t1; Set_op f2 Nd Na Nb Nc k2 s2 t2;
       Set_op f3 Nc Nd Na Nb k3 s3 t3; Set_op f4 Nb Nc Nd Na k4 s4 t4]
  | _ => []
  end.

Definition quads : list (list ((Z → Z → Z → Z) * nat * Z * Z)) :=
  map (λ i, map Rfc1321.params (seq (4 * i) 4)) (seq 0 16).

Lemma quad_ops_steps X r q :
  length q = 4 →
  fold_left (exec X) (quad_ops q) r = fold_left (Rfc1321.step X) q r.
Proof.
  destruct q as [|[[[f1 k1] s1] t1] [|[[[f2 k2] s2] t2] [|[[[f3 k3] s3] t3]
    [|[[[f4 k4] s4] t4] [|]]]]]; intros [=].
  cbn [quad_ops fold_left exec Rfc1321.step get set ra rb rc rd]. reflexivity.
Qed.

Lemma quads_steps X qs r :
  Forall (λ q, length q = 4) qs →
  fold_left (exec X) (flat_map quad_ops qs) r = fold_left (Rfc1321.step X) (concat qs) r.
Proof.
  intros H; revert r; induction H as [|q qs Hq _ IH]; intros r; [done|].
  simpl. by rewrite !fold_left_app, quad_ops_steps, IH.
Qed.

Lemma compress_process r block : md5_process r block = Rfc1321.compress r block.
Proof.
  unfold md5_process, Rfc1321.compress.
  replace (round1 ++ round2 ++ round3 ++ round4) with (flat_map quad_ops quads) by reflexivity.
  rewrite quads_steps; [done|]. unfold quads. apply Forall_map, Forall_true. intros i. by rewrite length_map, length_seq.
Qed.

#[local] Opaque md5_process Rfc1321.compress.

(** ** Absorbing whole blocks *)

Section absorb.
Import Rfc1321.

Lemma blocks_app n m l1 l2 :
  length l1 = 64 * n → blocks (n + m) (l1 ++ l2) = blocks n l1 ++ blocks m l2.
Proof.
  revert l1; induction n as [|n IH]; intros l1 H; simpl; [by destruct l1|].
  rewrite take_app_le, drop_app_le, IH by (rewrite ?length_drop; lia). done.
Qed.

Lemma absorb_app r n l1 l2 :
  length l1 = 64 * n → absorb r (l1 ++ l2) = absorb (absorb r l1) l2.
Proof.
  intros H. unfold absorb. rewrite length_app, H, (Nat.mul_comm 64), Nat.div_add_l by lia.
  by rewrite Nat.div_mul, blocks_app, fold_left_app by lia.
Qed.

Lemma absorb_short r l : length l < 64 → absorb r l = r.
Proof. intros H. unfold absorb. by rewrite Nat.div_small. Qed.

Lemma absorb_block r b : length b = 64 → absorb r b = md5_process r b.
Proof.
  intros H. unfold absorb. rewrite H. change (64 / 64) with 1. cbn [blocks fold_left].
  rewrite take_ge by lia. symmetry. apply compress_process.
Qed.

Lemma full_blocks_spec fuel r p :
  length p ≤ fuel →
  ∃ n l t, p = l ++ t ∧ length l = 64 * n ∧ length t < 64 ∧
    full_blocks fuel r p = (absorb r l, t).
Proof.
  revert r p; induction fuel as [|fuel IH]; intros r p Hf; simpl.
  { exists 0, [], p. split_and!; [done|done|lia|done]. }
  case_bool_decide as H.
  - destruct (IH (md5_process r (take 64 p)) (drop 64 p)) as (n & l & t & E & Hl & Ht & ->).
    { rewrite length_drop. lia. }
    exists (S n), (take 64 p ++ l), t. split_and!; [|rewrite length_app, length_take; lia|done|].
    + by rewrite <- app_assoc, <- E, take_drop.
    + rewrite (absorb_app _ 1), (absorb_block r) by (rewrite length_take; lia). done.
  - exists 0, [], p. split_and!; [done|done|lia|done].
Qed.
End absorb.

(** ** The streaming invariant *)

(** The state after the bytes [msg]: the count of bits, the whole blocks
    absorbed, and the bytes of the block under construction. *)
Record after (st : md5_state_t) (msg : str) : Prop := {
  after_count0 : count0 st = u32 (8 * Z.of_nat (length msg));
  after_count1 : count1 st = u32 (8 * Z.of_nat (length msg) / 2 ^ 32);
  after_blocks : ∃ n l t, msg = l ++ t ∧ length l = 64 * n ∧ length t < 64 ∧
    abcd st = Rfc1321.absorb Rfc1321.iv l ∧ take (length t) (buf st) = t;
  after_buf : length (buf st) = 64 }.

Lemma after_init junk : length junk = 64 → after (md5_init junk) [].
Proof. intros H. split; [done|done| |done]. exists 0, [], []. split_and!; [done|done|simpl; lia|done|done]. Qed.

Lemma length_memcpy dst off src :
  off + length src ≤ length dst → length (memcpy dst off src) = length dst.
Proof. intros H. unfold memcpy. rewrite !length_app, length_take, length_drop. lia. Qed.

Lemma take_memcpy dst off src :
  off ≤ length dst → take (off + length src) (memcpy dst off src) = take off dst ++ src.
Proof.
  intros H. unfold memcpy. rewrite app_assoc, take_app_le, take_ge; [done|..];
    rewrite length_app, length_take; lia.
Qed.

Lemma count_offset len :
  Z.to_nat (Z.land (Z.shiftr (u32 (8 * Z.of_nat len)) 3) 63) = (len mod 64)%nat.
Proof.
  unfold wrap_u. rewrite Z.shiftr_div_pow2 by lia.
  change 63%Z with (Z.ones 6). rewrite Z.land_ones, mod_pow2_div by lia.
  change (2 ^ 3)%Z with 8%Z. rewrite Z.mul_comm, Z.div_mul by lia.
  change (2 ^ 6)%Z with (Z.of_nat 64). rewrite <- Nat2Z.inj_mod. lia.
Qed.

Lemma count_carry a n :
  (0 ≤ a)%Z → (0 ≤ n)%Z →
  let c0 := u32 (u32 (8 * a) + u32 (Z.shiftl n 3)) in
  let c1 := u32 (u32 (8 * a / 2 ^ 32) + Z.shiftr n 29) in
  c0 = u32 (8 * (a + n)) ∧
  (if (c0 <? u32 (Z.shiftl n 3))%Z then u32 (c1 + 1) else c1) = u32 (8 * (a + n) / 2 ^ 32).
Proof.
  intros Ha Hn c0 c1. subst c0 c1. unfold wrap_u.
  rewrite Z.shiftl_mul_pow2, Z.shiftr_div_pow2 by lia.
  replace (n / 2 ^ 29)%Z with (8 * n / 2 ^ 32)%Z
    by (change (2 ^ 32)%Z with (8 * 2 ^ 29)%Z; by rewrite Z.div_mul_cancel_l by lia).
  rewrite (Z.mul_comm n (2 ^ 3)). change (2 ^ 3)%Z with 8%Z.
  rewrite <- Zplus_mod. split; [f_equal; lia|].
  replace (8 * (a + n))%Z with (8 * a + 8 * n)%Z by lia.
  set (x := (8 * a)%Z). set (y := (8 * n)%Z). change (2 ^ 32)%Z with 4294967296%Z.
  destruct (Z.ltb_spec ((x + y) mod 4294967296) (y mod 4294967296)) as [H|H];
    Z.div_mod_to_equations; lia.
Qed.

Lemma after_append st msg d : after st msg → after (md5_append st d) (msg ++ d).
Proof.
  intros [H0 H1 (n & l & t & -> & Hl & Ht & Hr & Hb) Hlen].
  unfold md5_append. rewrite H0, H1, count_offset.
  replace (length (l ++ t) mod 64) with (length t)
    by (rewrite length_app, Hl, Nat.mul_comm, Nat.add_comm, Nat.Div0.mod_add, Nat.mod_small; lia).
  destruct (Z.leb_spec (Z.of_nat (length d)) 0) as [Hd|Hd].
  { destruct d; [|simpl in Hd; lia]. rewrite app_nil_r. split; eauto 10. }
  destruct (count_carry (Z.of_nat (length (l ++ t))) (Z.of_nat (length d))) as [E0 E1]; [lia..|].
  cbv zeta in E0, E1. rewrite E1, E0. clear E0 E1.
  rewrite <- Nat2Z.inj_add, <- (length_app (l ++ t) d).
  set (copy := if bool_decide (length t = 0) then 0 else _).
  set (b1 := memcpy (buf st) (length t) (take copy d)).
  assert (Hc : copy ≤ length d ∧ length t + copy ≤ 64).
  { unfold copy. repeat case_bool_decide; lia. }
  assert (Hb1 : length b1 = 64).
  { unfold b1. rewrite length_memcpy; rewrite ?length_take; lia. }
  assert (Ht1 : take (length t + copy) b1 = t ++ take copy d).
  { unfold b1. rewrite <- Hb at 3. rewrite <- take_memcpy by lia. f_equal. rewrite length_take. lia. }
  destruct (bool_decide _ && bool_decide _) eqn:Hsmall.
  { bools. split; [done|done| |done].
    assert (Hcd : copy = length d) by (unfold copy in *; repeat case_bool_decide; lia).
    exists n, l, (t ++ d). rewrite Hcd, firstn_all in Ht1. rewrite app_assoc, length_app.
    split_and!; [done|done|lia|done|done]. }
  destruct (full_blocks_spec (length (drop copy d))
    (if bool_decide (length t = 0) then abcd st else md5_process (abcd st) b1)
    (drop copy d)) as (m & l' & t' & E & Hl' & Ht' & ->); [done|].
  split; [done|done| |].
  - exists (n + (if bool_decide (length t = 0) then 0 else 1) + m),
      (l ++ (t ++ take copy d) ++ l'), t'.
    assert (Hw : length (t ++ take copy d) = 64 * (if bool_decide (length t = 0) then 0 else 1)).
    { rewrite length_app, length_take. unfold copy in *.
      apply andb_false_iff in Hsmall. rewrite !bool_decide_eq_false in Hsmall.
      repeat case_bool_decide; lia. }
    split_and!; [|rewrite !length_app in *; lia|done| |].
    + rewrite <- !app_assoc, <- E, take_drop. done.
    + simpl. rewrite (absorb_app _ n), <- Hr by done. erewrite absorb_app by exact Hw. f_equal.
      case_bool_decide.
      * by rewrite absorb_short by (rewrite Hw; lia).
      * rewrite absorb_block by (rewrite Hw; lia). f_equal. rewrite <- Ht1. 
        rewrite take_ge; [done|]. rewrite Hb1. rewrite length_app, length_take in Hw. lia.
    + simpl. apply (take_memcpy b1 0 t'). lia.
  - simpl. rewrite length_memcpy; lia.
Qed.

Lemma after_appends st msg ds :
  after st msg → after (fold_left md5_append ds st) (msg ++ concat ds).
Proof.
  revert st msg; induction ds as [|d ds IH]; intros st msg H; simpl; [by rewrite app_nil_r|].
  rewrite app_assoc. by apply IH, after_append.
Qed.

(** ** Padding *)

Lemma le_byte_count st msg i :
  after st msg → i < 8 →
  le_byte (count_word st) i =
  of_code ((8 * Z.of_nat (length msg)) / 2 ^ (8 * Z.of_nat i) mod 256).
Proof.
  intros [H0 H1 _ _] Hi. unfold le_byte. f_equal. unfold wrap_u at 1.
  change 256%Z with (2 ^ 8)%Z. rewrite Z.shiftr_div_pow2 by lia.
  destruct (Nat.lt_ge_cases i 4) as [Hs|Hs].
  - rewrite Nat.div_small, Nat.mod_small by lia. simpl. rewrite H0. apply mod_pow2_div; lia.
  - replace (i / 4) with 1 by (apply (Nat.div_unique _ _ _ (i - 4)); lia).
    replace (i mod 4) with (i - 4) by (apply (Nat.mod_unique _ _ 1); lia). simpl.
    rewrite H1. unfold wrap_u. rewrite mod_pow2_div by lia.
    rewrite Z.div_div, <- Z.pow_add_r by lia. do 3 f_equal. lia.
Qed.

Lemma finish_pad st msg :
  after st msg →
  take (Z.to_nat (Z.land (u32 (55 - Z.shiftr (count0 st) 3)) 63 + 1)) pad =
  of_code 0x80 :: replicate (Z.to_nat ((55 - Z.of_nat (length msg)) mod 64)) NUL.
Proof.
  intros H. rewrite (after_count0 _ _ H). unfold wrap_u.
  change 63%Z with (Z.ones 6). rewrite Z.land_ones, Z.shiftr_div_pow2 by lia.
  set (n := Z.of_nat (length msg)).
  assert (E : ((55 - 8 * n mod 2 ^ 32 / 2 ^ 3) mod 2 ^ 32 mod 2 ^ 6 = (55 - n) mod 64)%Z).
  { change (2 ^ 32)%Z with 4294967296%Z. change (2 ^ 6)%Z with 64%Z. change (2 ^ 3)%Z with 8%Z.
    Z.div_mod_to_equations; lia. }
  rewrite E. pose proof (Z.mod_pos_bound (55 - n) 64).
  rewrite Z2Nat.inj_add, Nat.add_1_r by lia. unfold pad. rewrite firstn_cons. f_equal.
  rewrite take_replicate. f_equal. lia.
Qed.

Lemma padded_length msg : length (Rfc1321.padded msg) mod 64 = 0.
Proof.
  unfold Rfc1321.padded. rewrite length_app, length_cons, length_app, length_replicate.
  unfold Rfc1321.length_bytes. rewrite length_map, length_seq. set (n := length msg).
  assert (Z.of_nat (n + S (Z.to_nat ((55 - Z.of_nat n) mod 64) + 8)) mod 64 = 0)%Z
    by (Z.div_mod_to_equations; lia).
  apply Nat2Z.inj. rewrite Nat2Z.inj_mod. done.
Qed.

Lemma finish_spec st msg : after st msg → md5_finish st = Rfc1321.digest msg.
Proof.
  intros H. unfold md5_finish, Rfc1321.digest. rewrite (finish_pad _ _ H).
  assert (E : map (le_byte (count_word st)) (seq 0 8) = Rfc1321.length_bytes (length msg)).
  { apply map_ext_in. intros i Hi%in_seq. apply le_byte_count; [done|lia]. }
  rewrite E. cbv zeta. do 2 f_equal.
  set (d1 := of_code 0x80 :: _). set (d2 := Rfc1321.length_bytes _).
  destruct (after_append _ _ d2 (after_append _ _ d1 H)) as [_ _ (n & l & t & E' & Hl & Ht & Hr & _) _].
  rewrite <- app_assoc in E'. fold (Rfc1321.padded msg) in E'. simpl in E'.
  assert (Ht0 : t = []).
  { pose proof (padded_length msg) as Hp. unfold Rfc1321.padded in Hp. simpl in E'.
    unfold d1, d2 in E'. rewrite E', length_app, Hl, Nat.mul_comm, Nat.add_comm, Nat.Div0.mod_add, Nat.mod_small in Hp by lia.
    by destruct t. }
  subst t. rewrite app_nil_r in E'. rewrite Hr, <- E'. done.
Qed.

(** ** Properties *)

(** C21. however the message is cut into pieces and whatever the uninitialised
    buffer holds, feeding the pieces to the streaming code and finishing gives the
    RFC 1321 digest of the whole message. *)
Theorem md5_chunks junk chunks :
  length junk = 64 →
  md5_finish (fold_left md5_append chunks (md5_init junk)) = Rfc1321.digest (concat chunks).
Proof. intros H. apply (finish_spec _ ([] ++ concat chunks)), after_appends, after_init, H. Qed.

Lemma md5_chunks_witness :
  md5_finish (fold_left md5_append [&"a"; []; &"bc"] (md5_init (replicate 64 NUL))) =
    Rfc1321.digest &"abc" ∧
  flat_map hex2 (Rfc1321.digest &"abc") = &"900150983cd24fb0d6963f7d28e17f72".
Proof. split; [apply (md5_chunks _ [&"a"; []; &"bc"]); reflexivity | vm_compute; reflexivity]. Defined.

Definition is_hex (c : chr) : bool :=
  bool_decide (48 ≤ code c ≤ 57)%Z || bool_decide (97 ≤ code c ≤ 102)%Z.

Lemma hex2_spec c : length (hex2 c) = 2 ∧ Forall (λ x, is_hex x = true) (hex2 c).
Proof.
  split; [done|]. destruct c as [[] [] [] [] [] [] [] []]; repeat constructor.
Qed.

Lemma hex_digit_inj a b :
  (0 ≤ a < 16)%Z → (0 ≤ b < 16)%Z → hex_digit a = hex_digit b → a = b.
Proof.
  intros Ha Hb. assert (E : ∀ z, (0 ≤ z < 16)%Z → z ∈ map Z.of_nat (seq 0 16)).
  { intros z Hz. apply list_elem_of_In, in_map_iff. exists (Z.to_nat z).
    rewrite in_seq. lia. }
  pose proof (E a Ha) as Ea. pose proof (E b Hb) as Eb. clear -Ea Eb. simpl in Ea, Eb.
  rewrite !elem_of_cons, elem_of_nil in Ea, Eb.
  intros H. destruct_or!; subst; first [done | by vm_compute in H].
Qed.

Lemma hex2_inj c d : hex2 c = hex2 d → c = d.
Proof.
  unfold hex2. intros [= H1 H2]. pose proof (code_range c). pose proof (code_range d).
  apply hex_digit_inj in H1, H2; try (Z.div_mod_to_equations; lia).
  apply code_inj. rewrite (Z.div_mod (code c) 16), (Z.div_mod (code d) 16) by lia. congruence.
Qed.

Lemma hex_inj a b : flat_map hex2 a = flat_map hex2 b → a = b.
Proof.
  revert b; induction a as [|c a IH]; intros [|d b] H; [done|done|done|].
  change (hex2 c ++ flat_map hex2 a = hex2 d ++ flat_map hex2 b) in H.
  apply app_inj_1 in H as [H1%hex2_inj H2%IH]; [congruence|done].
Qed.

(** the digest that names and compares the agent's files is 32 lower-case
    hexadecimal digits, and two contents have the same digest exactly when their
    RFC 1321 digests agree, whatever the buffers held. *)
Theorem md5_hex junk junk' a b :
  length junk = 64 → length junk' = 64 →
  length (md5 junk a) = 32 ∧ Forall (λ c, is_hex c = true) (md5 junk a) ∧
  (md5 junk a = md5 junk' b ↔ Rfc1321.digest a = Rfc1321.digest b).
Proof.
  intros Hj Hj'. assert (E : ∀ junk data, length junk = 64 →
    md5 junk data = flat_map hex2 (Rfc1321.digest data)).
  { intros j data H. unfold md5. do 2 f_equal.
    apply (finish_spec _ ([] ++ data)), after_append, after_init, H. }
  rewrite !E by done. split_and!.
  - done.
  - apply Forall_flat_map, Forall_true. intros c. apply hex2_spec.
  - split; [apply hex_inj | by intros ->].
Qed.

Lemma md5_hex_witness :
  md5 (replicate 64 NUL) &"abc" = md5 (replicate 64 SP) &"abc".
Proof. apply (md5_hex (replicate 64 NUL) (replicate 64 SP) &"abc" &"abc"); reflexivity. Defined.
