(* ===== verification/Pandora.v ===== *)
(** * Key-value lines and enabled flags ([src/pandora.cc])

    [Key_Value::parseLine], which splits a line of the configuration file, and
    [is_enabled]. *)
From S2P Require Import Prelude StdString Scanf Strutils.

(** [class Key_Value]. *)
Record Key_Value := { kv_key : str; kv_value : str }.

#[global] Instance Key_Value_eq_dec : EqDecision Key_Value.
Proof. solve_decision. Defined.

(** [Key_Value::parseLine].  [tokens.begin ()] is dereferenced without a test:
    a line without tokens has no defined result. *)
Definition parseLine (line : str) : res Key_Value :=
  let trimmedstr := trim line in
  let tokens :=
    match find [QUOTE] trimmedstr with
    | None => stringtok trimmedstr [SP; TAB]
    | Some _ => stringtok trimmedstr [QUOTE]
    end in
  match tokens with
  | [] => Undef
  | [t] => Ok {| kv_key := tolower <$> trim t; kv_value := [] |}
  | t :: ts => Ok {| kv_key := tolower <$> trim t; kv_value := trim (List.last ts []) |}
  end.

(** [Key_Value::getKey] and [getValue]. *)
Definition getKey (kv : Key_Value) : str := kv_key kv.
Definition getValue (kv : Key_Value) : str := kv_value kv.

(** [Pandora::is_enabled]: the table, with the accented entry in its UTF-8
    encoding, is searched up to its empty entry. *)
Definition enabled_values : list str :=
  [&"enabled"; &"1"; &"on"; &"yes"; &"si"; [of_code 115; of_code 195; of_code 173];
   &"ok"; &"true"; []].

Fixpoint is_enabled_loop (values : list str) (value : str) : bool :=
  match values with
  | [] => false
  | v :: values =>
      if decide (v = []) then false
      else if decide (v = value) then true else is_enabled_loop values value
  end.

Definition is_enabled (value : str) : bool :=
  if decide (value = []) then false else is_enabled_loop enabled_values value.

(** ** Lemmas *)

Definition no_sep (separators s : str) : Prop :=
  Forall (λ c, isseparator separators c = false) s.

Lemma stringtok_eq s separators ts :
  Tokens (isseparator separators) s ts → stringtok s separators = ts.
Proof.
  intros H. eapply Tokens_fun; [|done]. apply stringtok_loop_tokens. lia.
Qed.

(** Two words with a separator between them and perhaps one after. *)
Lemma stringtok_two w1 c w2 s separators :
  w1 ≠ [] → w2 ≠ [] → no_sep separators w1 → no_sep separators w2 →
  isseparator separators c = true → Forall (λ c, isseparator separators c = true) s →
  stringtok (w1 ++ c :: w2 ++ s) separators = [w1; w2].
Proof.
  intros ???? Hc Hs. apply stringtok_eq. constructor; [done..|]. constructor; [done|].
  constructor; [done..| |].
  - destruct Hs; [done|]. done.
  - rewrite <- (app_nil_r s). by apply Tokens_skip; [|constructor].
Qed.

Lemma no_sep_intro separators s :
  NUL ∉ s → (∀ c, c ∈ separators → c ∉ s) → no_sep separators s.
Proof.
  intros Hn H. apply Forall_forall. intros c Hc. unfold isseparator.
  rewrite !bool_decide_false; [done| |by intros ->]. intros Hs. by eapply H.
Qed.

(** A plain word: not empty, without blanks, quotes or NUL. *)
Definition word (s : str) : Prop := s ≠ [] ∧ Forall (λ c, c ∉ NUL :: QUOTE :: blanks) s.

#[global] Instance word_dec s : Decision (word s).
Proof. unfold word. apply _. Defined.

Lemma word_not_in s c : word s → c ∈ NUL :: QUOTE :: blanks → c ∉ s.
Proof. intros [_ H] Hc Hin. rewrite Forall_forall in H. by eapply H. Qed.

Lemma word_stripped s : word s → stripped blanks s.
Proof.
  intros Hw. apply stripped_alt. split; intros c s' -> Hc;
    (eapply (word_not_in _ c Hw); [by do 2 right|set_solver]).
Qed.

Lemma word_no_sep s separators :
  word s → (∀ c, c ∈ separators → c ∈ NUL :: QUOTE :: blanks) → no_sep separators s.
Proof.
  intros Hw Hs. apply no_sep_intro; [by apply word_not_in; [|left]|].
  intros c Hc. apply word_not_in; auto.
Qed.

(** The ends of a concatenation are those of its outer parts. *)
Lemma stripped_app s1 s s2 :
  s1 ≠ [] → s2 ≠ [] → stripped blanks s1 → stripped blanks s2 → stripped blanks (s1 ++ s ++ s2).
Proof.
  rewrite !stripped_alt. intros H1 H2 [Hh _] [_ Hl]. split; intros c s' E.
  - destruct s1 as [|x s1]; [done|]. simplify_eq/=. by apply Hh with s1.
  - destruct s2 as [|x s2 _] using rev_ind; [done|]. rewrite !app_assoc in E.
    apply app_inj_tail in E as [_ ->]. by apply Hl with s2.
Qed.

Lemma parse_unquoted k v :
  word k → word v → parseLine (k ++ [SP] ++ v) = Ok {| kv_key := tolower <$> k; kv_value := v |}.
Proof.
  intros Hk Hv. unfold parseLine.
  rewrite trim_id by (apply stripped_app; auto using word_stripped; apply Hk || apply Hv).
  rewrite (proj2 (find_char_None _ _)).
  2:{ rewrite !elem_of_app, list_elem_of_singleton.
      intros [H|[H|H]]; [|done|]; eapply word_not_in in H; try done; by right; left. }
  rewrite <- (app_nil_r v) at 1. simpl app. rewrite stringtok_two; [..|done|constructor].
  - simpl. by rewrite !trim_id by auto using word_stripped.
  - apply Hk.
  - apply Hv.
  - apply word_no_sep; [done|]. unfold blanks. set_solver.
  - apply word_no_sep; [done|]. unfold blanks. set_solver.
Qed.

Lemma parse_quoted k q :
  word k → q ≠ [] → QUOTE ∉ q → NUL ∉ q → stripped blanks q →
  parseLine (k ++ [SP; QUOTE] ++ q ++ [QUOTE]) =
    Ok {| kv_key := tolower <$> k; kv_value := q |}.
Proof.
  intros Hk Hq Hqq Hqn Hqs. unfold parseLine.
  rewrite trim_id.
  2:{ rewrite app_assoc. rewrite <- app_assoc. apply (stripped_app k ([SP; QUOTE] ++ q) [QUOTE]);
        [apply Hk|done|by apply word_stripped|]. by apply (bool_decide_eq_true_1 _). }
  assert (k ++ [SP; QUOTE] ++ q ++ [QUOTE] = (k ++ [SP]) ++ QUOTE :: q ++ [QUOTE]) as ->
    by by rewrite <- app_assoc.
  assert (Hkq : QUOTE ∉ k ++ [SP]).
  { rewrite elem_of_app, list_elem_of_singleton. intros [H|H]; [|done].
    eapply word_not_in in H; [done|done|]. by right; left. }
  rewrite find_char_app by done. rewrite stringtok_two.
  - simpl. rewrite (trim_id q) by done.
    rewrite <- (app_nil_l (k ++ [SP])), trim_unique; [done|apply Hk|by apply word_stripped|done|].
    repeat constructor.
  - by destruct k.
  - done.
  - apply no_sep_intro; [|by intros c ->%list_elem_of_singleton].
    rewrite elem_of_app, list_elem_of_singleton. intros [H|H]; [|done].
    eapply word_not_in in H; [done|done|]. by left.
  - apply no_sep_intro; [done|by intros c ->%list_elem_of_singleton].
  - done.
  - by repeat constructor.
Qed.

Lemma parse_blank s : Forall (λ c, c ∈ blanks) s → parseLine s = Undef.
Proof. intros H. unfold parseLine. by rewrite trim_blanks. Qed.

(** ** Properties *)

(** A line [key value] and a line [key "value with blanks"] are read back
    as the lower-cased key and the value; a line of blanks, which the callers
    do not filter out, makes [parseLine] dereference the end of an empty token
    list. *)
Lemma parseLine_roundtrip k v q b :
  word k → word v → q ≠ [] → QUOTE ∉ q → NUL ∉ q → stripped blanks q →
  Forall (λ c, c ∈ blanks) b →
  parseLine (k ++ [SP] ++ v) = Ok {| kv_key := tolower <$> k; kv_value := v |} ∧
  parseLine (k ++ [SP; QUOTE] ++ q ++ [QUOTE]) =
    Ok {| kv_key := tolower <$> k; kv_value := q |} ∧
  parseLine b = Undef.
Proof. auto using parse_unquoted, parse_quoted, parse_blank. Qed.

Lemma parseLine_roundtrip_witness :
  parseLine (&"Server_IP" ++ [SP] ++ &"10.0.0.1") =
    Ok {| kv_key := &"server_ip"; kv_value := &"10.0.0.1" |} ∧
  parseLine (&"description" ++ [SP; QUOTE] ++ &"My agent" ++ [QUOTE]) =
    Ok {| kv_key := &"description"; kv_value := &"My agent" |} ∧
  parseLine [SP; TAB] = Undef.
Proof.
  split_and!.
  - apply (parseLine_roundtrip (&"Server_IP") (&"10.0.0.1") (&"x") []);
      by apply (bool_decide_eq_true_1 _); vm_compute.
  - apply (parseLine_roundtrip (&"description") (&"x") (&"My agent") []);
      by apply (bool_decide_eq_true_1 _); vm_compute.
  - apply (parseLine_roundtrip (&"k") (&"x") (&"x") [SP; TAB]);
      by apply (bool_decide_eq_true_1 _); vm_compute.
Defined.
