(* ===== verification/AgentConf.v ===== *)
(** * The agent configuration ([src/pandora_agent_conf.cc], [pandora_agent_conf.h])

    The key-value list, the file collections and the drone (broker) agents
    read from the configuration file.  Files are a map from paths to contents
    (after the text-mode conversion of line ends). *)
From S2P Require Import Prelude StdString Scanf Strutils Pandora.

Abbreviation files := (gmap str str).

(** [typedef struct ... Collection]. *)
Record Collection := { col_name : str; col_verify : Z }.

#[global] Instance Collection_eq_dec : EqDecision Collection.
Proof. solve_decision. Defined.

(** [class Pandora_Agent_Conf]: [None] is a null list pointer, the iterator is
    a position in the collection list. *)
Record Pandora_Agent_Conf := {
  key_values : option (list Key_Value);
  collection_list : option (list Collection);
  collection_it : nat;
  broker_enabled : bool
}.

(** [Pandora_Agent_Conf::Pandora_Agent_Conf]. *)
Definition new_conf : Pandora_Agent_Conf :=
  {| key_values := None; collection_list := None; collection_it := 0; broker_enabled := false |}.

Definition set_key_values kvs (c : Pandora_Agent_Conf) :=
  {| key_values := kvs; collection_list := collection_list c;
     collection_it := collection_it c; broker_enabled := broker_enabled c |}.
Definition set_collections cols (c : Pandora_Agent_Conf) :=
  {| key_values := key_values c; collection_list := cols;
     collection_it := collection_it c; broker_enabled := broker_enabled c |}.
Definition set_collection_it it (c : Pandora_Agent_Conf) :=
  {| key_values := key_values c; collection_list := collection_list c;
     collection_it := it; broker_enabled := broker_enabled c |}.
Definition set_broker_enabled b (c : Pandora_Agent_Conf) :=
  {| key_values := key_values c; collection_list := collection_list c;
     collection_it := collection_it c; broker_enabled := b |}.

(** ** Reading a file *)

(** Blank and commented lines. *)
Definition HASH : chr := of_code 35.
Definition ignored_line (buffer : str) : bool :=
  bool_decide (first_char buffer ∈ [HASH; LF; NUL]).

(** The branch for [file_collection] lines, shared by the three readers: the
    rest of the line names the collection, unless it contains [..]. *)
Definition push_collection (cols : list Collection) (buffer : str) (pos : nat) : list Collection :=
  let collection_name := drop (pos + 15) buffer in
  match find (&"..") collection_name with
  | None => cols ++ [{| col_name := trim collection_name; col_verify := 0 |}]
  | Some _ => cols
  end.

(** The loop of [parseFile]. *)
Fixpoint parseFile_lines (lines : list str) (cols : list Collection) : list Collection :=
  match lines with
  | [] => cols
  | buffer :: lines =>
      if ignored_line buffer then parseFile_lines lines cols
      else
        match find (&"file_collection") buffer with
        | Some pos => parseFile_lines lines (push_collection cols buffer pos)
        | None => parseFile_lines lines cols
        end
  end.

(** [Pandora_Agent_Conf::parseFile]. *)
Definition parseFile (fs : files) (path_file : str) (cols : list Collection) : list Collection :=
  match fs !! path_file with
  | None => cols
  | Some content => parseFile_lines (getlines content) cols
  end.

(** The loop that removes double quotes: after an erasure at [pos_c] the search
    goes on at [pos_c + 1], so the second of two adjacent quotes stays. *)
Fixpoint remove_quotes_loop (fuel : nat) (path : str) (pos_c : option nat) : str :=
  match fuel, pos_c with
  | S fuel, Some p =>
      let path := replace path p 1 [] in
      remove_quotes_loop fuel path (find_from [QUOTE] path (p + 1))
  | _, _ => path
  end.
Definition remove_quotes (path : str) : str :=
  remove_quotes_loop (length path) path (find [QUOTE] path).

(** The path of an [include] line: [buffer.substr (pos + 8)] is past the end,
    and raises, when the line ends right after the word. *)
Definition include_path (buffer : str) (pos : nat) : res str :=
  let! path_file := substr buffer (pos + 8) in Ok (remove_quotes path_file).

(** ** [writeBrokerConf] *)

Definition is_agent_name_line (buffer : str) : bool :=
  match find (&"agent_name") buffer with
  | Some pos => forallb (λ c, bool_decide (c ∈ [SP; TAB; HASH])) (take pos buffer)
  | None => false
  end.

Definition broker_line (name_broker buffer : str) : str :=
  let buffer :=
    if is_agent_name_line buffer then &"agent_name " ++ name_broker ++ [LF] else buffer in
  match find (&"broker_agent") buffer with
  | Some _ => []
  | None => buffer ++ [LF]
  end.

Definition writeBrokerConf (fs : files) (install_dir path_broker filename name_broker : str) : files :=
  let content := default [] (fs !! filename) in
  <[install_dir ++ path_broker := concat (broker_line name_broker <$> getlines content)]> fs.

(** ** [setFile] *)

(** What one line of the configuration file does after the include and broker
    branches: a collection, a key-value pair, or nothing for a module line. *)
Definition conf_line (c : Pandora_Agent_Conf) (buffer : str) : res Pandora_Agent_Conf :=
  match find (&"file_collection") buffer with
  | Some pos =>
      Ok (set_collections (Some (push_collection (default [] (collection_list c)) buffer pos)) c)
  | None =>
      match find (&"module_") buffer with
      | Some _ => Ok c
      | None =>
          let! kv := parseLine buffer in
          Ok (set_key_values (Some (default [] (key_values c) ++ [kv])) c)
      end
  end.

Definition include_line (fs : files) (c : Pandora_Agent_Conf) (buffer : str)
    : res Pandora_Agent_Conf :=
  match find (&"include") buffer with
  | None => Ok c
  | Some pos =>
      let! path_file := include_path buffer pos in
      Ok (set_collections (Some (parseFile fs path_file (default [] (collection_list c)))) c)
  end.

(** [setFile (string filename)]. *)
Fixpoint setFile_lines (fs : files) (lines : list str) (c : Pandora_Agent_Conf)
    : res Pandora_Agent_Conf :=
  match lines with
  | [] => Ok c
  | buffer :: lines =>
      if ignored_line buffer then setFile_lines fs lines c
      else
        let! c := include_line fs c buffer in
        let! c := conf_line c buffer in
        setFile_lines fs lines c
  end.

(** Both [setFile]s start by replacing the lists with empty ones. *)
Definition reset_lists (c : Pandora_Agent_Conf) : Pandora_Agent_Conf :=
  set_collections (Some []) (set_key_values (Some []) c).

Definition setFile (fs : files) (filename : str) (c : Pandora_Agent_Conf)
    : res Pandora_Agent_Conf :=
  let c := reset_lists c in
  match fs !! filename with
  | None => Ok c
  | Some content => setFile_lines fs (getlines content) c
  end.

(** The broker branch of [setFile (string *all_conf)]: [position] is a local
    of the loop body, so every broker goes to [all_conf[0]]. *)
Definition broker_branch (install_dir filename : str)
    (st : files * Pandora_Agent_Conf * list str) (buffer : str)
    : res (files * Pandora_Agent_Conf * list str) :=
  let '(fs, c, all_conf) := st in
  match find (&"broker_agent") buffer with
  | None => Ok st
  | Some pos =>
      let! name_broker := substr buffer (pos + 13) in
      let path_broker := name_broker ++ &".conf" in
      let path := install_dir ++ path_broker in
      let fs :=
        match fs !! path with
        | None => writeBrokerConf fs install_dir path_broker filename name_broker
        | Some _ => fs
        end in
      Ok (fs, set_broker_enabled true c, <[0 := path]> all_conf)
  end.

(** [setFile (string *all_conf)] *)
Fixpoint setFile_all_lines (install_dir filename : str) (lines : list str)
    (st : files * Pandora_Agent_Conf * list str)
    : res (files * Pandora_Agent_Conf * list str) :=
  match lines with
  | [] => Ok st
  | buffer :: lines =>
      if ignored_line buffer then setFile_all_lines install_dir filename lines st
      else
        let '(fs, c, all_conf) := st in
        let! c := include_line fs c buffer in
        let! (fs, c, all_conf) := broker_branch install_dir filename (fs, c, all_conf) buffer in
        let! c := conf_line c buffer in
        setFile_all_lines install_dir filename lines (fs, c, all_conf)
  end.

Definition setFile_all (install_dir : str) (fs : files) (all_conf : list str)
    (c : Pandora_Agent_Conf) : res (files * Pandora_Agent_Conf * list str) :=
  let filename := install_dir ++ &"pandora_agent.conf" in
  let c := reset_lists c in
  match fs !! filename with
  | None => Ok (fs, c, all_conf)
  | Some content => setFile_all_lines install_dir filename (getlines content) (fs, c, all_conf)
  end.

(** ** Queries *)

(** The loop of [Pandora_Agent_Conf::getValue]. *)
Fixpoint getValue_list (kvs : list Key_Value) (key : str) : str :=
  match kvs with
  | [] => []
  | kv :: kvs => if decide (getKey kv = key) then getValue kv else getValue_list kvs key
  end.

(** [Pandora_Agent_Conf::getValue]; a null list is dereferenced. *)
Definition conf_getValue (c : Pandora_Agent_Conf) (key : str) : res str :=
  match key_values c with Some kvs => Ok (getValue_list kvs key) | None => Undef end.

(** The collection iterator. *)
Definition current_collection (c : Pandora_Agent_Conf) : res Collection :=
  match collection_list c with
  | Some cols => match cols !! collection_it c with Some col => Ok col | None => Undef end
  | None => Undef
  end.
Definition getCurrentCollectionName (c : Pandora_Agent_Conf) : res str :=
  let! col := current_collection c in Ok (col_name col).
Definition getCurrentCollectionVerify (c : Pandora_Agent_Conf) : res Z :=
  let! col := current_collection c in Ok (col_verify col).
Definition setCurrentCollectionVerify (c : Pandora_Agent_Conf) : res Pandora_Agent_Conf :=
  let! col := current_collection c in
  Ok (set_collections
        (alter (λ col, {| col_name := col_name col; col_verify := 1 |}) (collection_it c)
           <$> collection_list c) c).

(** [strcmp] of two [c_str]s. *)
Definition c_eq (s1 s2 : str) : bool := bool_decide (c_str s1 = c_str s2).
Fixpoint isInCollectionList_loop (cols : list Collection) (name : str) : bool :=
  match cols with
  | [] => false
  | p :: cols =>
      if c_eq (col_name p) name || c_eq (col_name p ++ &".md5") name then true
      else isInCollectionList_loop cols name
  end.
Definition isInCollectionList (c : Pandora_Agent_Conf) (name : str) : res bool :=
  match collection_list c with
  | Some cols => Ok (isInCollectionList_loop cols name)
  | None => Undef
  end.
Definition goFirstCollection (c : Pandora_Agent_Conf) : Pandora_Agent_Conf :=
  set_collection_it 0 c.
Definition goNextCollection (c : Pandora_Agent_Conf) : Pandora_Agent_Conf :=
  set_collection_it (S (collection_it c)) c.
Definition isLastCollection (c : Pandora_Agent_Conf) : res bool :=
  match collection_list c with
  | Some cols => Ok (bool_decide (collection_it c = length cols))
  | None => Undef
  end.
Definition isBrokerEnabled (c : Pandora_Agent_Conf) : bool := broker_enabled c.

(** ** Lemmas *)

(** A collection name is safe when it cannot climb out of the directory. *)
Definition safe_name (name : str) : Prop := find (&"..") name = None.
Definition safe_collections (cols : list Collection) : Prop :=
  Forall (λ col, safe_name (col_name col)) cols.

Lemma push_collection_safe cols buffer pos :
  safe_collections cols → safe_collections (push_collection cols buffer pos).
Proof.
  intros H. unfold push_collection.
  destruct (find (&"..") (drop (pos + 15) buffer)) as [j|] eqn:E; [done|].
  apply Forall_app. split; [done|]. repeat constructor. unfold safe_name. cbn [col_name].
  destruct (trim_decompose (drop (pos + 15) buffer)) as (s1 & s2 & Eq & _).
  rewrite Eq in E. by apply find_substring in E.
Qed.

Lemma parseFile_safe fs path cols :
  safe_collections cols → safe_collections (parseFile fs path cols).
Proof.
  unfold parseFile. destruct (fs !! path) as [content|]; [|done].
  generalize (getlines content). intros ls.
  revert cols; induction ls as [|buffer ls IH]; intros cols H; [done|]. cbn [parseFile_lines].
  destruct (ignored_line buffer); [by apply IH|].
  destruct (find _ buffer); apply IH; [by apply push_collection_safe|done].
Qed.

Definition conf_safe (c : Pandora_Agent_Conf) : Prop :=
  safe_collections (default [] (collection_list c)).

Lemma include_line_safe fs c buffer c' :
  conf_safe c → include_line fs c buffer = Ok c' → conf_safe c'.
Proof.
  unfold include_line. intros H. destruct (find _ buffer) as [pos|]; [|by intros [= <-]].
  rewrite rbind_Ok. intros (path & _ & [= <-]). by apply parseFile_safe.
Qed.

Lemma conf_line_safe c buffer c' : conf_safe c → conf_line c buffer = Ok c' → conf_safe c'.
Proof.
  unfold conf_line. intros H. destruct (find _ buffer) as [pos|].
  - intros [= <-]. by apply push_collection_safe.
  - destruct (find (&"module_") buffer); [by intros [= <-]|].
    rewrite rbind_Ok. by intros (kv & _ & [= <-]).
Qed.

Lemma setFile_lines_safe fs ls c c' :
  conf_safe c → setFile_lines fs ls c = Ok c' → conf_safe c'.
Proof.
  revert c; induction ls as [|buffer ls IH]; intros c H; [by intros [= <-]|].
  cbn [setFile_lines]. destruct (ignored_line buffer); [by apply IH|].
  rewrite rbind_Ok. intros (c1 & H1 & H2). apply rbind_Ok in H2 as (c2 & H2 & H3).
  eapply IH; [|done]. eauto using include_line_safe, conf_line_safe.
Qed.

Lemma broker_branch_conf dir fn fs c ac buffer fs' c' ac' :
  broker_branch dir fn (fs, c, ac) buffer = Ok (fs', c', ac') →
  collection_list c' = collection_list c ∧ key_values c' = key_values c.
Proof.
  unfold broker_branch. destruct (find _ buffer) as [pos|]; [|by intros [= <- <- <-]].
  rewrite rbind_Ok. by intros (name & _ & [= <- <- <-]).
Qed.

Lemma setFile_all_lines_safe dir fn ls fs c ac fs' c' ac' :
  conf_safe c → setFile_all_lines dir fn ls (fs, c, ac) = Ok (fs', c', ac') → conf_safe c'.
Proof.
  revert fs c ac; induction ls as [|buffer ls IH]; intros fs c ac H; [by intros [= <- <- <-]|].
  cbn [setFile_all_lines]. destruct (ignored_line buffer); [by apply IH|].
  rewrite rbind_Ok. intros (c1 & H1 & H2). apply rbind_Ok in H2 as ([[fs2 c2] ac2] & H2 & H3).
  apply rbind_Ok in H3 as (c3 & H3 & H4). eapply IH; [|done].
  eapply conf_line_safe; [|done]. apply broker_branch_conf in H2 as [E _].
  unfold conf_safe. rewrite E. by eapply include_line_safe.
Qed.

(** The generated drone configuration. *)
Lemma broker_line_spec name buffer :
  broker_line name buffer = [] ∨
  ∃ l, broker_line name buffer = l ++ [LF] ∧ find (&"broker_agent") l = None.
Proof. unfold broker_line. destruct (find (&"broker_agent") _) eqn:E; eauto. Qed.

Lemma broker_content_clean name ls :
  find (&"broker_agent") (concat (broker_line name <$> ls)) = None.
Proof.
  induction ls as [|buffer ls IH]; [done|]. rewrite fmap_cons. cbn [concat].
  destruct (broker_line_spec name buffer) as [->|(l & -> & Hl)]; [done|].
  rewrite <- app_assoc. apply find_app_sep; [|by vm_compute|done|exact IH].
  apply (bool_decide_eq_true_1 _). by vm_compute.
Qed.

(** A configuration of plain [key value] lines. *)
Definition render_kv (kv : str * str) : str := kv.1 ++ [SP] ++ kv.2.
Definition plain_kv (kv : str * str) : Prop :=
  word kv.1 ∧ word kv.2 ∧ first_char kv.1 ≠ HASH ∧
  Forall (λ t, find t (render_kv kv) = None) [&"include"; &"file_collection"; &"module_"].
Definition parsed_kv (kv : str * str) : Key_Value :=
  {| kv_key := tolower <$> kv.1; kv_value := kv.2 |}.

#[global] Instance plain_kv_dec kv : Decision (plain_kv kv).
Proof. unfold plain_kv. apply _. Defined.

Lemma plain_kv_line fs c kv :
  plain_kv kv → include_line fs c (render_kv kv) = Ok c ∧
  conf_line c (render_kv kv) =
    Ok (set_key_values (Some (default [] (key_values c) ++ [parsed_kv kv])) c).
Proof.
  intros (Hk & Hv & _ & Hf). rewrite !Forall_cons in Hf. destruct Hf as (Hi & Hc & Hm & _).
  unfold include_line, conf_line. rewrite Hi, Hc, Hm. split; [done|].
  unfold render_kv. by rewrite parse_unquoted.
Qed.

Lemma plain_kv_not_ignored kv : plain_kv kv → ignored_line (render_kv kv) = false.
Proof.
  intros (Hk & _ & Hh & _). apply bool_decide_eq_false. unfold render_kv.
  destruct Hk as [Hk Hw]. destruct (kv.1) as [|c k]; [done|]. inv Hw.
  unfold first_char in *. simpl in *. unfold blanks in *. set_solver.
Qed.

Lemma setFile_lines_plain fs kvs ls c :
  Forall plain_kv kvs →
  setFile_lines fs ((render_kv <$> kvs) ++ ls) c =
  setFile_lines fs ls
    (if decide (kvs = []) then c
     else set_key_values (Some (default [] (key_values c) ++ (parsed_kv <$> kvs))) c).
Proof.
  revert c; induction kvs as [|kv kvs IH]; intros c H; [done|]. inv H.
  rewrite fmap_cons. cbn [setFile_lines app].
  rewrite plain_kv_not_ignored by done. destruct (plain_kv_line fs c kv ltac:(done)) as [E1 E]. rewrite E1.
  cbn [rbind]. rewrite E. cbn [rbind]. rewrite IH by done.
  case_decide; subst; [done|]. f_equal. unfold set_key_values. simpl.
  by rewrite <- app_assoc.
Qed.

(** ** Properties *)

Lemma getValue_list_first pre kv post key :
  Forall (λ kv, getKey kv ≠ key) pre → getKey kv = key →
  getValue_list (pre ++ kv :: post) key = getValue kv.
Proof.
  induction 1 as [|x l Hx _ IH]; intros E; cbn [app getValue_list].
  - by rewrite decide_True.
  - rewrite decide_False by done. by apply IH.
Qed.

Lemma getValue_list_absent kvs key :
  Forall (λ kv, getKey kv ≠ key) kvs → getValue_list kvs key = [].
Proof. induction 1; cbn [getValue_list]; [done|]. by rewrite decide_False. Qed.

Lemma plain_kv_no_lf kv : plain_kv kv → LF ∉ render_kv kv.
Proof.
  intros (Hk & Hv & _). unfold render_kv. rewrite !elem_of_app, list_elem_of_singleton.
  intros [H|[H|H]]; [|done|]; eapply word_not_in in H; try done;
    apply (bool_decide_eq_true_1 _); by vm_compute.
Qed.

(** C18. Reading a file of plain [key value] lines yields exactly those pairs,
    in order and with lower-case keys, and no collection; a query then returns
    the value of the first line with the key, or the empty string. *)
Theorem setFile_roundtrip fs fn kvs c :
  Forall plain_kv kvs →
  ∃ c', setFile (<[fn := concat ((λ kv, render_kv kv ++ [LF]) <$> kvs)]> fs) fn c = Ok c' ∧
    key_values c' = Some (parsed_kv <$> kvs) ∧ collection_list c' = Some [] ∧
    (∀ pre kv post, kvs = pre ++ kv :: post →
       Forall (λ x, tolower <$> x.1 ≠ tolower <$> kv.1) pre →
       conf_getValue c' (tolower <$> kv.1) = Ok kv.2) ∧
    (∀ key, Forall (λ x, tolower <$> x.1 ≠ key) kvs → conf_getValue c' key = Ok []).
Proof.
  intros H. unfold setFile. rewrite lookup_insert_eq.
  rewrite (list_fmap_compose render_kv (λ l, l ++ [LF])), getlines_concat
    by (apply Forall_fmap; eapply Forall_impl; [done|]; apply plain_kv_no_lf).
  rewrite setFile_lines_plain by done. cbn.
  eexists. split; [done|].
  assert (E : ∀ T (f : _ → T), f (if decide (kvs = []) then reset_lists c else
     set_key_values (Some (parsed_kv <$> kvs)) (reset_lists c)) =
     f (set_key_values (Some (parsed_kv <$> kvs)) (reset_lists c))).
  { intros T f. case_decide; subst; done. }
  unfold conf_getValue. rewrite !E. split_and!; [done..| |].
  - intros pre kv post -> Hpre. f_equal. rewrite fmap_app, fmap_cons.
    rewrite (getValue_list_first _ (parsed_kv kv)); [done|by apply Forall_fmap|done].
  - intros key Hkey. f_equal. by apply getValue_list_absent, Forall_fmap.
Qed.

Lemma setFile_roundtrip_witness :
  ∃ c', setFile {[ &"c" := &"Server_IP 10.0.0.1" ++ [LF] ++ &"temporal /tmp" ++ [LF] ]} (&"c")
          new_conf = Ok c' ∧ conf_getValue c' (&"server_ip") = Ok (&"10.0.0.1").
Proof.
  destruct (setFile_roundtrip ∅ (&"c") [(&"Server_IP", &"10.0.0.1"); (&"temporal", &"/tmp")] new_conf)
    as (c' & E & _ & _ & H & _).
  - apply (bool_decide_eq_true_1 _). by vm_compute.
  - exists c'. split; [exact E|].
    exact (H [] (&"Server_IP", &"10.0.0.1") [(&"temporal", &"/tmp")] eq_refl (Forall_nil_2 _)).
Defined.

(** Whatever the configuration and the included files hold, every
    collection that either reader stores has a name without [..]: a collection
    directory stays below the collections directory. *)
Lemma setFile_collections_safe fs fn dir ac c :
  (∀ c', setFile fs fn c = Ok c' → conf_safe c') ∧
  (∀ fs' c' ac', setFile_all dir fs ac c = Ok (fs', c', ac') → conf_safe c').
Proof.
  assert (H : conf_safe (reset_lists c)) by constructor. split.
  - intros c'. unfold setFile. destruct (fs !! fn); [by apply setFile_lines_safe|by intros [= <-]].
  - intros fs' c' ac'. unfold setFile_all.
    destruct (fs !! _); [by apply setFile_all_lines_safe|by intros [= <- <- <-]].
Qed.

Lemma find_unlines p ls : find p (unlines ls) = None → Forall (λ l, find p l = None) ls.
Proof.
  induction ls as [|l ls IH]; [constructor|]. intros H. cbn [unlines] in H.
  destruct ls as [|l' ls]; [by repeat constructor|]. constructor.
  - by apply (find_substring p [] l (LF :: unlines (l' :: ls))).
  - apply IH. apply (find_substring p (l ++ [LF]) _ []). by rewrite app_nil_r, <- app_assoc.
Qed.

(** The configuration written for a drone agent has no line that mentions
    [broker_agent], whatever the original file and the drone's name, so a drone
    never starts drones of its own; no other file changes. *)
Theorem writeBrokerConf_no_broker fs dir path fn name :
  ∃ content, writeBrokerConf fs dir path fn name = <[dir ++ path := content]> fs ∧
    Forall (λ l, find (&"broker_agent") l = None) (getlines content).
Proof.
  eexists. split; [done|]. apply find_unlines. rewrite getlines_unlines.
  apply broker_content_clean.
Qed.

(** An [include] or [broker_agent] line that ends right after the word
    makes the reader raise [out_of_range], which nothing catches; one more
    byte, even a blank, is enough to avoid it. *)
Theorem include_line_out_of_range fs c pre :
  find (&"include") (pre ++ &"include") = Some (length pre) →
  include_line fs c (pre ++ &"include") = Err Std_out_of_range ∧
  (∀ x path, find (&"include") (pre ++ &"include" ++ x :: path) = Some (length pre) →
     ∃ c', include_line fs c (pre ++ &"include" ++ x :: path) = Ok c').
Proof.
  intros H. unfold include_line, include_path, substr. split.
  - rewrite H. rewrite decide_False; [done|]. rewrite length_app.
    change (length (&"include")) with 7. lia.
  - intros x path ->. rewrite decide_True; [by eexists|].
    rewrite !length_app. simpl. lia.
Qed.

Lemma include_line_out_of_range_witness :
  include_line ∅ new_conf (&"include") = Err Std_out_of_range.
Proof. apply (include_line_out_of_range ∅ new_conf []). by vm_compute. Defined.
