(* ===== verification/PandoraFile.v ===== *)
(** * Files: [misc/pandora_file.cc]

    The files the agent reads and writes are a finite map from paths to contents;
    a directory tree, which [removeDir] walks, is modelled on its own. *)
From S2P Require Import Prelude StdString AgentConf.

(** ** Reading and writing *)

Definition FILE_NOT_FOUND : Z := 20.
Definition DELETE_ERROR : Z := 22.

Definition fileExists (fs : files) (filepath : str) : bool :=
  bool_decide (is_Some (fs !! filepath)).

(** [readFile]: the return code and the lines appended to [result]; the text
    after the last newline is a line too. *)
Definition readFile (fs : files) (filepath result : str) : Z * str :=
  match fs !! filepath with
  | None => (FILE_NOT_FOUND, result)
  | Some content => (0%Z, result ++ concat ((λ line, line ++ [LF]) <$> getlines content))
  end.

(** [readBinFile]: the buffer, whose length is the value returned; an empty
    file is refused. *)
Definition readBinFile (fs : files) (filepath : str) : res str :=
  match fs !! filepath with
  | None => Err File_Not_Found
  | Some [] => Err File_Exception
  | Some content => Ok content
  end.

(** [remove]: the C library's return code. *)
Definition remove (fs : files) (filepath : str) : Z * files :=
  match fs !! filepath with
  | None => ((-1)%Z, fs)
  | Some _ => (0%Z, delete filepath fs)
  end.

(** [removeFile] returns [DELETE_ERROR], or falls off its end. *)
Definition removeFile (fs : files) (filepath : str) : option Z * files :=
  let '(rc, fs) := remove fs filepath in
  (if decide (rc = -1)%Z then Some DELETE_ERROR else None, fs).

(** [writeFile], [writeBinFile]: [writable] tells the paths the system lets
    the agent open for writing. *)
Definition writeFile (writable : str → bool) (fs : files) (filepath data : str) : res files :=
  if writable filepath then Ok (<[filepath := data]> fs) else Err File_Not_Found.

(** A null buffer is [None]; [size] bytes of the buffer are written, and more
    than it holds is a read past its end. *)
Definition writeBinFile (writable : str → bool) (fs : files) (filepath : str)
    (buffer : option str) (size : nat) : res files :=
  match buffer with
  | None => Err File_Exception
  | Some data =>
      if negb (writable filepath) then Err File_Not_Found
      else if decide (size ≤ length data) then Ok (<[filepath := take size data]> fs) else Undef
  end.

(** [filepath.find_last_of ("\\")] *)
Definition BACKSLASH : chr := of_code 92.

Definition fileName (filepath : str) : res str :=
  match rfind [BACKSLASH] filepath with
  | Some pos => substr filepath (pos + 1)
  | None => Ok filepath
  end.

(** ** Directories *)

(** A file and whether [remove] can delete it; a directory with the entries
    [readdir] lists and whether [rmdir] can delete it once it is empty. *)
#[warnings="-register-all"]
Inductive node :=
  | N_file (deletable : bool)
  | N_dir (entries : list (str * node)) (deletable : bool).

(** What [opendir] finds at a path. *)
Inductive dir_state :=
  | D_missing
  | D_denied
  | D_node (n : node).

Definition dot (name : str) : bool := bool_decide (name = &"." ∨ name = &"..").

(** [removeDir]: the return code and what is left at the path. The first entry
    that cannot be deleted ends the walk. *)
Fixpoint removeNode (n : node) : Z * option node :=
  match n with
  | N_file true => (0%Z, None)
  | N_file false => (DELETE_ERROR, Some n)
  | N_dir entries deletable =>
      let fix walk (es : list (str * node)) : Z * list (str * node) :=
        match es with
        | [] => (0%Z, [])
        | (name, e) :: es =>
            if (match e with N_dir _ _ => dot name | _ => false end) then
              let '(rc, es) := walk es in (rc, (name, e) :: es)
            else
              match removeNode e with
              | (0%Z, _) => walk es
              | (rc, rest) =>
                  (rc, match rest with Some e => (name, e) :: es | None => es end)
              end
        end in
      match walk entries with
      | (0%Z, es) =>
          if deletable then (0%Z, None) else (DELETE_ERROR, Some (N_dir es deletable))
      | (rc, es) => (rc, Some (N_dir es deletable))
      end
  end.

Definition removeDir (d : dir_state) : Z * dir_state :=
  match d with
  | D_missing => (0%Z, D_missing)
  | D_denied => (DELETE_ERROR, D_denied)
  | D_node n =>
      match removeNode n with
      | (rc, None) => (rc, D_missing)
      | (rc, Some n) => (rc, D_node n)
      end
  end.

(** ** Properties *)

(** Everything below a node can be deleted. *)
Fixpoint all_deletable (n : node) : bool :=
  match n with
  | N_file b => b
  | N_dir es b =>
      b && (fix all (es : list (str * node)) : bool :=
              match es with
              | [] => true
              | (name, e) :: es =>
                  (match e with N_dir _ _ => dot name | _ => false end || all_deletable e) && all es
              end) es
  end.

(** The induction principle through the entries. *)
Lemma node_rect' (P : node → Prop)
    (Hf : ∀ b, P (N_file b))
    (Hd : ∀ es b, Forall (λ e, P e.2) es → P (N_dir es b)) : ∀ n, P n.
Proof.
  fix IH 1. intros [b|es b]; [apply Hf|]. apply Hd.
  induction es as [|[name e] es IHes]; constructor; [apply IH|apply IHes].
Qed.

Lemma removeNode_spec n :
  (removeNode n = (0%Z, None) ∧ all_deletable n = true) ∨
  (∃ n', removeNode n = (DELETE_ERROR, Some n') ∧ all_deletable n = false).
Proof.
  induction n as [[]|es b IH] using node_rect'; [by left|right; by eexists|].
  cbn [removeNode all_deletable].
  set (walk := fix walk (es : list (str * node)) : Z * list (str * node) := _).
  set (all := fix all (es : list (str * node)) : bool := _).
  assert (H : (∃ es', walk es = (0%Z, es') ∧ all es = true) ∨
              (∃ es', walk es = (DELETE_ERROR, es') ∧ all es = false)).
  { clear b. induction IH as [|[name e] es He _ IHes]; [left; by eexists|]. cbn [snd] in He.
    cbn [walk all]. fold walk all.
    destruct (match e with N_dir _ _ => dot name | _ => false end) eqn:E.
    - destruct IHes as [(es' & -> & ->)|(es' & -> & ->)]; [left|right]; by eexists.
    - destruct He as [[-> ->]|(e' & -> & ->)]; [exact IHes|]. right. by eexists. }
  destruct H as [(es' & -> & ->)|(es' & -> & ->)].
  - destruct b; [by left|right; by eexists].
  - right. rewrite andb_false_r. by eexists.
Qed.

(** [removeDir] returns 0 exactly when everything below the path can be
    deleted, and then nothing is left; otherwise it returns [Delete_Error]
    (or the path could not be read) and something is left. *)
Lemma removeDir_spec n :
  if all_deletable n then removeDir (D_node n) = (0%Z, D_missing)
  else ∃ n', removeDir (D_node n) = (DELETE_ERROR, D_node n').
Proof.
  unfold removeDir. destruct (removeNode_spec n) as [[-> ->]|(n' & -> & ->)]; [done|by eexists].
Qed.
