(* ===== verification/PandoraData.v ===== *)
(** * Module data ([src/modules/pandora_data.cc], [pandora_data.h])

    A value with the time it was taken and the module it comes from. *)
From S2P Require Import Prelude StdString Scanf.

(** The fields of [SYSTEMTIME] the class copies: 16-bit unsigned integers. *)
Record SYSTEMTIME := {
  wYear : Z; wMonth : Z; wDay : Z; wHour : Z; wMinute : Z; wSecond : Z
}.

(** [class Pandora_Data]. *)
Record Pandora_Data := {
  data_value : str;
  data_timestamp : SYSTEMTIME;
  data_origin : str
}.

Definition pandora_data_unknown_source : str := &"unknown_source".

(** The constructors; [now] is what [GetSystemTime] returns. *)
Definition new_data (now : SYSTEMTIME) (value : str) : Pandora_Data :=
  {| data_value := value; data_timestamp := now; data_origin := pandora_data_unknown_source |}.
Definition new_data_at (value : str) (system_time : SYSTEMTIME) : Pandora_Data :=
  {| data_value := value; data_timestamp := system_time;
     data_origin := pandora_data_unknown_source |}.
Definition new_data_origin (now : SYSTEMTIME) (value origin : str) : Pandora_Data :=
  {| data_value := value; data_timestamp := now; data_origin := origin |}.
Definition new_data_at_origin (value : str) (system_time : SYSTEMTIME) (origin : str)
    : Pandora_Data :=
  {| data_value := value; data_timestamp := system_time; data_origin := origin |}.
Definition new_data_blank (now : SYSTEMTIME) : Pandora_Data :=
  {| data_value := []; data_timestamp := now; data_origin := [] |}.

(** [getValue], [setValue], [getDataOrigin], [setDataOrigin]. *)
Definition data_getValue (d : Pandora_Data) : str := data_value d.
Definition data_setValue (value : str) (d : Pandora_Data) : Pandora_Data :=
  {| data_value := value; data_timestamp := data_timestamp d; data_origin := data_origin d |}.
Definition getDataOrigin (d : Pandora_Data) : str := data_origin d.
Definition setDataOrigin (origin : str) (d : Pandora_Data) : Pandora_Data :=
  {| data_value := data_value d; data_timestamp := data_timestamp d; data_origin := origin |}.

(** [getTimestamp]: the text [sprintf] writes to the buffer [strtime], and
    whether the text and its NUL fit the 20 bytes of the buffer. *)
Definition format_time (t : SYSTEMTIME) : str :=
  dec (wYear t) ++ &"-" ++ dec02 (wMonth t) ++ &"-" ++ dec02 (wDay t) ++ &" " ++
  dec02 (wHour t) ++ &":" ++ dec02 (wMinute t) ++ &":" ++ dec02 (wSecond t).

Definition data_getTimestamp (d : Pandora_Data) : res str :=
  let strtime := format_time (data_timestamp d) in
  if decide (length strtime < 20) then Ok strtime else Undef.

(** ** Lemmas *)

(** The dates [GetSystemTime] can return; years go up to 30827. *)
Definition system_time (t : SYSTEMTIME) : Prop :=
  (1601 ≤ wYear t ≤ 30827)%Z ∧ (1 ≤ wMonth t ≤ 12)%Z ∧ (1 ≤ wDay t ≤ 31)%Z ∧
  (0 ≤ wHour t ≤ 23)%Z ∧ (0 ≤ wMinute t ≤ 59)%Z ∧ (0 ≤ wSecond t ≤ 59)%Z.

Lemma dec_go_length fuel n acc k :
  (10 ^ Z.of_nat k ≤ n < 10 ^ Z.of_nat (S k))%Z → (n < 2 ^ Z.of_nat fuel)%Z →
  length (dec_go fuel n acc) = S k + length acc.
Proof.
  revert n acc k; induction fuel as [|fuel IH]; intros n acc k Hk Hf.
  { pose proof (Z.pow_pos_nonneg 10 (Z.of_nat k)). change (2 ^ Z.of_nat 0)%Z with 1%Z in Hf. lia. }
  cbn [dec_go]. destruct k as [|k].
  - change (10 ^ Z.of_nat 1)%Z with 10%Z in Hk.
    destruct (Z.ltb_spec n 10); [done|lia].
  - rewrite !Nat2Z.inj_succ, !Z.pow_succ_r in Hk by lia.
    rewrite Nat2Z.inj_succ, Z.pow_succ_r in Hf by lia.
    pose proof (Z.pow_pos_nonneg 10 (Z.of_nat k)).
    destruct (Z.ltb_spec n 10); [lia|]. pose proof (Z.div_mod n 10). pose proof (Z.mod_pos_bound n 10).
    rewrite (IH _ _ k); [simpl; lia| |lia]. rewrite Nat2Z.inj_succ, Z.pow_succ_r by lia. lia.
Qed.

Lemma dec_length n k :
  (10 ^ Z.of_nat k ≤ n < 10 ^ Z.of_nat (S k))%Z → length (dec n) = S k.
Proof.
  intros Hk. pose proof (Z.pow_pos_nonneg 10 (Z.of_nat k)). unfold dec, dec_nonneg.
  destruct (Z.ltb_spec n 0); [lia|]. rewrite (dec_go_length _ _ _ k); [simpl; lia|done|].
  rewrite Nat2Z.inj_succ, Z2Nat.id by apply Z.log2_nonneg. pose proof (Z.log2_spec n). lia.
Qed.

Lemma dec_length_4 n : (1000 ≤ n < 10000)%Z → length (dec n) = 4.
Proof. exact (dec_length n 3). Qed.

Lemma dec_length_5 n : (10000 ≤ n < 100000)%Z → length (dec n) = 5.
Proof. exact (dec_length n 4). Qed.

Lemma dec02_length n : (0 ≤ n < 100)%Z → length (dec02 n) = 2.
Proof.
  intros Hn. unfold dec02. destruct (decide (n < 10)%Z).
  - assert (length (dec n) = 1) as E.
    { destruct (decide (n = 0)%Z) as [->|]; [done|]. apply (dec_length n 0).
      change (1 ≤ n < 10)%Z. lia. }
    rewrite decide_True by lia. rewrite length_app, E. done.
  - assert (length (dec n) = 2) as E by (apply (dec_length n 1); change (10 ≤ n < 100)%Z; lia).
    by rewrite decide_False by lia.
Qed.

(** ** Properties *)

(** [getTimestamp] writes 19 characters and a NUL for a four-digit year,
    which fills its 20-byte buffer exactly; for the years from 10000 on, which
    a [SYSTEMTIME] can hold, it writes past the buffer. *)
Theorem getTimestamp_bounds d :
  system_time (data_timestamp d) →
  data_getTimestamp d =
    (if decide (wYear (data_timestamp d) < 10000)%Z
     then Ok (format_time (data_timestamp d)) else Undef) ∧
  ((wYear (data_timestamp d) < 10000)%Z → length (format_time (data_timestamp d)) = 19).
Proof.
  intros (Hy & Hm & Hd & Hh & Hmi & Hs).
  assert (E : length (format_time (data_timestamp d)) = length (dec (wYear (data_timestamp d))) + 15).
  { unfold format_time. rewrite !length_app, !dec02_length by lia. simpl. lia. }
  unfold data_getTimestamp. destruct (decide (wYear (data_timestamp d) < 10000)%Z) as [Hlt|Hlt].
  - rewrite dec_length_4 in E by lia. rewrite decide_True by lia. done.
  - rewrite dec_length_5 in E by lia. rewrite decide_False by lia. split; [done|lia].
Qed.

Lemma getTimestamp_bounds_witness :
  data_getTimestamp (new_data {| wYear := 2014; wMonth := 11; wDay := 9; wHour := 7;
    wMinute := 5; wSecond := 0 |} []) = Ok (&"2014-11-09 07:05:00").
Proof.
  destruct (getTimestamp_bounds (new_data {| wYear := 2014; wMonth := 11; wDay := 9; wHour := 7;
    wMinute := 5; wSecond := 0 |} [])) as [E _].
  - unfold system_time. simpl. lia.
  - rewrite E. by vm_compute.
Defined.
