(* ===== verification/Log.v ===== *)
(** * The process globals and the logs ([pandora.cc])

    The installation directory and path, the debug flag, and the two files that the
    messages of the agent go to. *)
From S2P Require Import Prelude StdString Scanf AgentConf PandoraData.

(** The globals; the version does not change. *)
Record globals := { pandora_path : str; pandora_dir : str; pandora_debug : bool }.
Definition getPandoraAgentVersion : str := &"6.0dev(Build 141109)".

Definition setPandoraInstallDir (dir : str) (g : globals) : globals :=
  {| pandora_path := pandora_path g; pandora_dir := dir; pandora_debug := pandora_debug g |}.
Definition setPandoraInstallPath (path : str) (g : globals) : globals :=
  {| pandora_path := path; pandora_dir := pandora_dir g; pandora_debug := pandora_debug g |}.
Definition setPandoraDebug (dbg : bool) (g : globals) : globals :=
  {| pandora_path := pandora_path g; pandora_dir := pandora_dir g; pandora_debug := dbg |}.
Definition getPandoraInstallDir : globals → str := pandora_dir.
Definition getPandoraInstallPath : globals → str := pandora_path.
Definition getPandoraDebug : globals → bool := pandora_debug.

Section logs.
(** The paths that can be opened for appending, and the local time. *)
Context (opens : str → bool) (now : SYSTEMTIME).

(** [pandoraWriteLog]: [str_time] holds 25 characters. *)
Definition pandoraWriteLog (g : globals) (filename line : str) (fs : files) : res files :=
  let str_time := format_time now ++ [SP] in
  if decide (25 ≤ length str_time) then Undef else
  let buffer := str_time ++ line in
  let filepath := c_str (pandora_dir g ++ filename) in
  if opens filepath
  then Ok (<[filepath := default [] (fs !! filepath) ++ c_str buffer ++ [LF]]> fs)
  else Ok fs.

(** [pandoraLog], [pandoraDebug]; [text] is what [vsprintf] makes of the format and the
    arguments, for a buffer of 5000 characters. *)
Definition MSG_SIZE : nat := 5000.
Definition pandoraLog (g : globals) (text : str) (fs : files) : res files :=
  if decide (length text < MSG_SIZE) then pandoraWriteLog g &"pandora_agent.log" text fs else Undef.
Definition pandoraDebug (g : globals) (text : str) (fs : files) : res files :=
  if pandora_debug g then
    if decide (length text < MSG_SIZE) then pandoraWriteLog g &"pandora_debug.log" text fs else Undef
  else Ok fs.

(** A message on a system date that fits the buffer is written, and nothing that was
    written before is lost. *)
Lemma pandoraWriteLog_appends g filename line fs :
  system_time now →
  ∃ fs', pandoraWriteLog g filename line fs = Ok fs' ∧
    ∀ path old, fs !! path = Some old → ∃ new, fs' !! path = Some (old ++ new).
Proof.
  intros (Hy & Hm & Hd & Hh & Hmi & Hs). unfold pandoraWriteLog.
  rewrite decide_False.
  2: { unfold format_time. rewrite !length_app, !dec02_length by lia. simpl.
       destruct (decide (wYear now < 10000)%Z).
       - rewrite dec_length_4 by lia. lia.
       - rewrite dec_length_5 by lia. lia. }
  destruct (opens _); eexists; (split; [done|]); intros path old E.
  - destruct (decide (path = c_str (pandora_dir g ++ filename))) as [->|Hne].
    + rewrite lookup_insert_eq, E. by eexists.
    + rewrite lookup_insert_ne by done. exists []. by rewrite app_nil_r.
  - exists []. by rewrite app_nil_r.
Qed.

Lemma pandoraLog_appends g text fs :
  system_time now → length text < MSG_SIZE →
  ∃ fs', pandoraLog g text fs = Ok fs' ∧
    ∀ path old, fs !! path = Some old → ∃ new, fs' !! path = Some (old ++ new).
Proof.
  intros Ht Hl. unfold pandoraLog. rewrite decide_True by done. by apply pandoraWriteLog_appends.
Qed.

(** Without the flag the debug file stays as it is. *)
Lemma pandoraDebug_off g text fs : pandora_debug g = false → pandoraDebug g text fs = Ok fs.
Proof. unfold pandoraDebug. by intros ->. Qed.
End logs.

(** A message of 5000 characters overflows the buffer. *)
Example long_message opens now g fs : pandoraLog opens now g (replicate 5000 SP) fs = Undef.
Proof. reflexivity. Qed.
