(* ===== verification/PandoraModule.v ===== *)
(** * The module superclass ([src/modules/pandora_module.cc], [pandora_module.h])

    Types and kinds, the execution interval, limits, output and its XML, the
    conditions and the cron schedule.  The regular-expression library and the
    processes the conditions start are parameters. *)
From stdpp Require Import functions.
From S2P Require Import Prelude StdString Scanf Strutils PandoraData.

(** ** Data *)

(** [Module_Type] and its names. *)
Inductive Module_Type :=
  | TYPE_0 | TYPE_GENERIC_DATA | TYPE_GENERIC_DATA_INC | TYPE_GENERIC_PROC
  | TYPE_GENERIC_DATA_STRING | TYPE_ASYNC_DATA | TYPE_ASYNC_PROC | TYPE_ASYNC_STRING
  | TYPE_LOG.

(** [Module_Kind]. *)
Inductive Module_Kind :=
  | MODULE_0 | MODULE_EXEC | MODULE_PROC | MODULE_SERVICE | MODULE_FREEDISK
  | MODULE_FREEDISK_PERCENT | MODULE_CPUUSAGE | MODULE_INVENTORY | MODULE_FREEMEMORY
  | MODULE_FREEMEMORY_PERCENT | MODULE_LOGEVENT | MODULE_WMIQUERY | MODULE_PERFCOUNTER
  | MODULE_TCPCHECK | MODULE_REGEXP | MODULE_PLUGIN | MODULE_PING | MODULE_SNMPGET.

#[global] Instance Module_Type_eq_dec : EqDecision Module_Type.
Proof. solve_decision. Defined.
#[global] Instance Module_Kind_eq_dec : EqDecision Module_Kind.
Proof. solve_decision. Defined.

(** The string constants of the types and kinds, in the order of the tests. *)
Definition module_type_strs : list (str * Module_Type) :=
  [(&"generic_data", TYPE_GENERIC_DATA); (&"generic_data_inc", TYPE_GENERIC_DATA_INC);
   (&"generic_data_string", TYPE_GENERIC_DATA_STRING); (&"generic_proc", TYPE_GENERIC_PROC);
   (&"async_data", TYPE_ASYNC_DATA); (&"async_proc", TYPE_ASYNC_PROC);
   (&"async_string", TYPE_ASYNC_STRING); (&"log", TYPE_LOG)].

Definition module_kind_strs : list (str * Module_Kind) :=
  [(&"module_exec", MODULE_EXEC); (&"module_proc", MODULE_PROC);
   (&"module_service", MODULE_SERVICE); (&"module_freedisk", MODULE_FREEDISK);
   (&"module_freedisk_percent", MODULE_FREEDISK_PERCENT);
   (&"module_freememory", MODULE_FREEMEMORY);
   (&"module_freememory_percent", MODULE_FREEMEMORY_PERCENT);
   (&"module_cpuusage", MODULE_CPUUSAGE); (&"module_inventory", MODULE_INVENTORY);
   (&"module_logevent", MODULE_LOGEVENT); (&"module_wmiquery", MODULE_WMIQUERY);
   (&"module_perfcounter", MODULE_PERFCOUNTER); (&"module_tcpcheck", MODULE_TCPCHECK);
   (&"module_regexp", MODULE_REGEXP); (&"module_plugin", MODULE_PLUGIN);
   (&"module_ping", MODULE_PING); (&"module_snmpget", MODULE_SNMPGET)].

(** A chain of [if (s == name) return value; else ...]. *)
Fixpoint string_switch {A} (rows : list (str * A)) (s : str) (dflt : A) : A :=
  match rows with
  | [] => dflt
  | (name, a) :: rows => if decide (s = name) then a else string_switch rows s dflt
  end.

(** [parseModuleTypeFromString]: the empty name is [generic_data]. *)
Definition parseModuleTypeFromString (type : str) : Module_Type :=
  if decide (type = []) then TYPE_GENERIC_DATA else string_switch module_type_strs type TYPE_0.

(** [parseModuleKindFromString]. *)
Definition parseModuleKindFromString (kind : str) : Module_Kind :=
  string_switch module_kind_strs kind MODULE_0.

(** [Condition]: [regexp] is the pattern [regcomp] compiled into the [regex_t],
    [None] while that field is unwritten. *)
Record Condition := {
  value_1 : double; value_2 : double;
  string_value : str; operation : str; command : str;
  regexp : option str
}.

(** [Cron]. *)
Record Cron := { utimestamp : Z; cron_interval : Z; params : list (Z * Z) }.

(** The string attributes of a module that the XML copies. *)
Inductive attr :=
  | post_process | min_critical | max_critical | min_warning | max_warning | disabled
  | min_ff_event | unit_attr | module_group | custom_id | str_warning | str_critical
  | critical_instructions | warning_instructions | unknown_instructions | tags
  | critical_inverse | warning_inverse | quiet | module_ff_interval.

#[global] Instance attr_eq_dec : EqDecision attr.
Proof. solve_decision. Defined.

(** [class Pandora_Module]; list pointers are options, the time stamps seconds,
    [attrs] the string fields that are only stored and printed. *)
Record Pandora_Module := mk_module {
  module_name : str;
  module_description : str;
  module_type_str : str;
  module_type : Module_Type;
  module_kind_str : str;
  module_kind : Module_Kind;
  module_interval : Z;
  module_timeout : Z;
  executions : Z;
  intensive_interval : Z;
  max : Z;
  min : Z;
  has_limits : bool;
  has_min : bool;
  has_max : bool;
  attrs : attr → str;
  save : str;
  async : bool;
  data_list : option (list Pandora_Data);
  inventory_list : option (list Pandora_Data);
  has_output : bool;
  latest_output : str;
  condition_list : option (list Condition);
  precondition_list : option (list Condition);
  intensive_condition_list : option (list Condition);
  cron : option Cron;
  timestamp : Z;
  intensive_match : Z
}.

(** Field updates. *)
Definition upd_module_description (v : str) (m : Pandora_Module) : Pandora_Module :=
  mk_module (module_name m) v (module_type_str m) (module_type m) (module_kind_str m)
    (module_kind m) (module_interval m) (module_timeout m) (executions m) (intensive_interval m)
    (max m) (min m) (has_limits m) (has_min m) (has_max m) (attrs m) (save m) (async m)
    (data_list m) (inventory_list m) (has_output m) (latest_output m) (condition_list m)
    (precondition_list m) (intensive_condition_list m) (cron m) (timestamp m) (intensive_match
    m).
Definition upd_module_type_str (v : str) (m : Pandora_Module) : Pandora_Module :=
  mk_module (module_name m) (module_description m) v (module_type m) (module_kind_str m)
    (module_kind m) (module_interval m) (module_timeout m) (executions m) (intensive_interval m)
    (max m) (min m) (has_limits m) (has_min m) (has_max m) (attrs m) (save m) (async m)
    (data_list m) (inventory_list m) (has_output m) (latest_output m) (condition_list m)
    (precondition_list m) (intensive_condition_list m) (cron m) (timestamp m) (intensive_match
    m).
Definition upd_module_type (v : Module_Type) (m : Pandora_Module) : Pandora_Module :=
  mk_module (module_name m) (module_description m) (module_type_str m) v (module_kind_str m)
    (module_kind m) (module_interval m) (module_timeout m) (executions m) (intensive_interval m)
    (max m) (min m) (has_limits m) (has_min m) (has_max m) (attrs m) (save m) (async m)
    (data_list m) (inventory_list m) (has_output m) (latest_output m) (condition_list m)
    (precondition_list m) (intensive_condition_list m) (cron m) (timestamp m) (intensive_match
    m).
Definition upd_module_kind_str (v : str) (m : Pandora_Module) : Pandora_Module :=
  mk_module (module_name m) (module_description m) (module_type_str m) (module_type m) v
    (module_kind m) (module_interval m) (module_timeout m) (executions m) (intensive_interval m)
    (max m) (min m) (has_limits m) (has_min m) (has_max m) (attrs m) (save m) (async m)
    (data_list m) (inventory_list m) (has_output m) (latest_output m) (condition_list m)
    (precondition_list m) (intensive_condition_list m) (cron m) (timestamp m) (intensive_match
    m).
Definition upd_module_kind (v : Module_Kind) (m : Pandora_Module) : Pandora_Module :=
  mk_module (module_name m) (module_description m) (module_type_str m) (module_type m)
    (module_kind_str m) v (module_interval m) (module_timeout m) (executions m)
    (intensive_interval m) (max m) (min m) (has_limits m) (has_min m) (has_max m) (attrs m)
    (save m) (async m) (data_list m) (inventory_list m) (has_output m) (latest_output m)
    (condition_list m) (precondition_list m) (intensive_condition_list m) (cron m) (timestamp m)
    (intensive_match m).
Definition upd_module_interval (v : Z) (m : Pandora_Module) : Pandora_Module :=
  mk_module (module_name m) (module_description m) (module_type_str m) (module_type m)
    (module_kind_str m) (module_kind m) v (module_timeout m) (executions m) (intensive_interval
    m) (max m) (min m) (has_limits m) (has_min m) (has_max m) (attrs m) (save m) (async m)
    (data_list m) (inventory_list m) (has_output m) (latest_output m) (condition_list m)
    (precondition_list m) (intensive_condition_list m) (cron m) (timestamp m) (intensive_match
    m).
Definition upd_module_timeout (v : Z) (m : Pandora_Module) : Pandora_Module :=
  mk_module (module_name m) (module_description m) (module_type_str m) (module_type m)
    (module_kind_str m) (module_kind m) (module_interval m) v (executions m) (intensive_interval
    m) (max m) (min m) (has_limits m) (has_min m) (has_max m) (attrs m) (save m) (async m)
    (data_list m) (inventory_list m) (has_output m) (latest_output m) (condition_list m)
    (precondition_list m) (intensive_condition_list m) (cron m) (timestamp m) (intensive_match
    m).
Definition upd_executions (v : Z) (m : Pandora_Module) : Pandora_Module :=
  mk_module (module_name m) (module_description m) (module_type_str m) (module_type m)
    (module_kind_str m) (module_kind m) (module_interval m) (module_timeout m) v
    (intensive_interval m) (max m) (min m) (has_limits m) (has_min m) (has_max m) (attrs m)
    (save m) (async m) (data_list m) (inventory_list m) (has_output m) (latest_output m)
    (condition_list m) (precondition_list m) (intensive_condition_list m) (cron m) (timestamp m)
    (intensive_match m).
Definition upd_intensive_interval (v : Z) (m : Pandora_Module) : Pandora_Module :=
  mk_module (module_name m) (module_description m) (module_type_str m) (module_type m)
    (module_kind_str m) (module_kind m) (module_interval m) (module_timeout m) (executions m) v
    (max m) (min m) (has_limits m) (has_min m) (has_max m) (attrs m) (save m) (async m)
    (data_list m) (inventory_list m) (has_output m) (latest_output m) (condition_list m)
    (precondition_list m) (intensive_condition_list m) (cron m) (timestamp m) (intensive_match
    m).
Definition upd_max (v : Z) (m : Pandora_Module) : Pandora_Module :=
  mk_module (module_name m) (module_description m) (module_type_str m) (module_type m)
    (module_kind_str m) (module_kind m) (module_interval m) (module_timeout m) (executions m)
    (intensive_interval m) v (min m) (has_limits m) (has_min m) (has_max m) (attrs m) (save m)
    (async m) (data_list m) (inventory_list m) (has_output m) (latest_output m) (condition_list
    m) (precondition_list m) (intensive_condition_list m) (cron m) (timestamp m)
    (intensive_match m).
Definition upd_min (v : Z) (m : Pandora_Module) : Pandora_Module :=
  mk_module (module_name m) (module_description m) (module_type_str m) (module_type m)
    (module_kind_str m) (module_kind m) (module_interval m) (module_timeout m) (executions m)
    (intensive_interval m) (max m) v (has_limits m) (has_min m) (has_max m) (attrs m) (save m)
    (async m) (data_list m) (inventory_list m) (has_output m) (latest_output m) (condition_list
    m) (precondition_list m) (intensive_condition_list m) (cron m) (timestamp m)
    (intensive_match m).
Definition upd_has_limits (v : bool) (m : Pandora_Module) : Pandora_Module :=
  mk_module (module_name m) (module_description m) (module_type_str m) (module_type m)
    (module_kind_str m) (module_kind m) (module_interval m) (module_timeout m) (executions m)
    (intensive_interval m) (max m) (min m) v (has_min m) (has_max m) (attrs m) (save m) (async
    m) (data_list m) (inventory_list m) (has_output m) (latest_output m) (condition_list m)
    (precondition_list m) (intensive_condition_list m) (cron m) (timestamp m) (intensive_match
    m).
Definition upd_has_min (v : bool) (m : Pandora_Module) : Pandora_Module :=
  mk_module (module_name m) (module_description m) (module_type_str m) (module_type m)
    (module_kind_str m) (module_kind m) (module_interval m) (module_timeout m) (executions m)
    (intensive_interval m) (max m) (min m) (has_limits m) v (has_max m) (attrs m) (save m)
    (async m) (data_list m) (inventory_list m) (has_output m) (latest_output m) (condition_list
    m) (precondition_list m) (intensive_condition_list m) (cron m) (timestamp m)
    (intensive_match m).
Definition upd_has_max (v : bool) (m : Pandora_Module) : Pandora_Module :=
  mk_module (module_name m) (module_description m) (module_type_str m) (module_type m)
    (module_kind_str m) (module_kind m) (module_interval m) (module_timeout m) (executions m)
    (intensive_interval m) (max m) (min m) (has_limits m) (has_min m) v (attrs m) (save m)
    (async m) (data_list m) (inventory_list m) (has_output m) (latest_output m) (condition_list
    m) (precondition_list m) (intensive_condition_list m) (cron m) (timestamp m)
    (intensive_match m).
Definition upd_attrs (v : attr → str) (m : Pandora_Module) : Pandora_Module :=
  mk_module (module_name m) (module_description m) (module_type_str m) (module_type m)
    (module_kind_str m) (module_kind m) (module_interval m) (module_timeout m) (executions m)
    (intensive_interval m) (max m) (min m) (has_limits m) (has_min m) (has_max m) v (save m)
    (async m) (data_list m) (inventory_list m) (has_output m) (latest_output m) (condition_list
    m) (precondition_list m) (intensive_condition_list m) (cron m) (timestamp m)
    (intensive_match m).
Definition upd_save (v : str) (m : Pandora_Module) : Pandora_Module :=
  mk_module (module_name m) (module_description m) (module_type_str m) (module_type m)
    (module_kind_str m) (module_kind m) (module_interval m) (module_timeout m) (executions m)
    (intensive_interval m) (max m) (min m) (has_limits m) (has_min m) (has_max m) (attrs m) v
    (async m) (data_list m) (inventory_list m) (has_output m) (latest_output m) (condition_list
    m) (precondition_list m) (intensive_condition_list m) (cron m) (timestamp m)
    (intensive_match m).
Definition upd_async (v : bool) (m : Pandora_Module) : Pandora_Module :=
  mk_module (module_name m) (module_description m) (module_type_str m) (module_type m)
    (module_kind_str m) (module_kind m) (module_interval m) (module_timeout m) (executions m)
    (intensive_interval m) (max m) (min m) (has_limits m) (has_min m) (has_max m) (attrs m)
    (save m) v (data_list m) (inventory_list m) (has_output m) (latest_output m) (condition_list
    m) (precondition_list m) (intensive_condition_list m) (cron m) (timestamp m)
    (intensive_match m).
Definition upd_data_list (v : option (list Pandora_Data)) (m : Pandora_Module) : Pandora_Module :=
  mk_module (module_name m) (module_description m) (module_type_str m) (module_type m)
    (module_kind_str m) (module_kind m) (module_interval m) (module_timeout m) (executions m)
    (intensive_interval m) (max m) (min m) (has_limits m) (has_min m) (has_max m) (attrs m)
    (save m) (async m) v (inventory_list m) (has_output m) (latest_output m) (condition_list m)
    (precondition_list m) (intensive_condition_list m) (cron m) (timestamp m) (intensive_match
    m).
Definition upd_inventory_list (v : option (list Pandora_Data)) (m : Pandora_Module) : Pandora_Module :=
  mk_module (module_name m) (module_description m) (module_type_str m) (module_type m)
    (module_kind_str m) (module_kind m) (module_interval m) (module_timeout m) (executions m)
    (intensive_interval m) (max m) (min m) (has_limits m) (has_min m) (has_max m) (attrs m)
    (save m) (async m) (data_list m) v (has_output m) (latest_output m) (condition_list m)
    (precondition_list m) (intensive_condition_list m) (cron m) (timestamp m) (intensive_match
    m).
Definition upd_has_output (v : bool) (m : Pandora_Module) : Pandora_Module :=
  mk_module (module_name m) (module_description m) (module_type_str m) (module_type m)
    (module_kind_str m) (module_kind m) (module_interval m) (module_timeout m) (executions m)
    (intensive_interval m) (max m) (min m) (has_limits m) (has_min m) (has_max m) (attrs m)
    (save m) (async m) (data_list m) (inventory_list m) v (latest_output m) (condition_list m)
    (precondition_list m) (intensive_condition_list m) (cron m) (timestamp m) (intensive_match
    m).
Definition upd_latest_output (v : str) (m : Pandora_Module) : Pandora_Module :=
  mk_module (module_name m) (module_description m) (module_type_str m) (module_type m)
    (module_kind_str m) (module_kind m) (module_interval m) (module_timeout m) (executions m)
    (intensive_interval m) (max m) (min m) (has_limits m) (has_min m) (has_max m) (attrs m)
    (save m) (async m) (data_list m) (inventory_list m) (has_output m) v (condition_list m)
    (precondition_list m) (intensive_condition_list m) (cron m) (timestamp m) (intensive_match
    m).
Definition upd_condition_list (v : option (list Condition)) (m : Pandora_Module) : Pandora_Module :=
  mk_module (module_name m) (module_description m) (module_type_str m) (module_type m)
    (module_kind_str m) (module_kind m) (module_interval m) (module_timeout m) (executions m)
    (intensive_interval m) (max m) (min m) (has_limits m) (has_min m) (has_max m) (attrs m)
    (save m) (async m) (data_list m) (inventory_list m) (has_output m) (latest_output m) v
    (precondition_list m) (intensive_condition_list m) (cron m) (timestamp m) (intensive_match
    m).
Definition upd_precondition_list (v : option (list Condition)) (m : Pandora_Module) : Pandora_Module :=
  mk_module (module_name m) (module_description m) (module_type_str m) (module_type m)
    (module_kind_str m) (module_kind m) (module_interval m) (module_timeout m) (executions m)
    (intensive_interval m) (max m) (min m) (has_limits m) (has_min m) (has_max m) (attrs m)
    (save m) (async m) (data_list m) (inventory_list m) (has_output m) (latest_output m)
    (condition_list m) v (intensive_condition_list m) (cron m) (timestamp m) (intensive_match
    m).
Definition upd_intensive_condition_list (v : option (list Condition)) (m : Pandora_Module) : Pandora_Module :=
  mk_module (module_name m) (module_description m) (module_type_str m) (module_type m)
    (module_kind_str m) (module_kind m) (module_interval m) (module_timeout m) (executions m)
    (intensive_interval m) (max m) (min m) (has_limits m) (has_min m) (has_max m) (attrs m)
    (save m) (async m) (data_list m) (inventory_list m) (has_output m) (latest_output m)
    (condition_list m) (precondition_list m) v (cron m) (timestamp m) (intensive_match m).
Definition upd_cron (v : option Cron) (m : Pandora_Module) : Pandora_Module :=
  mk_module (module_name m) (module_description m) (module_type_str m) (module_type m)
    (module_kind_str m) (module_kind m) (module_interval m) (module_timeout m) (executions m)
    (intensive_interval m) (max m) (min m) (has_limits m) (has_min m) (has_max m) (attrs m)
    (save m) (async m) (data_list m) (inventory_list m) (has_output m) (latest_output m)
    (condition_list m) (precondition_list m) (intensive_condition_list m) v (timestamp m)
    (intensive_match m).
Definition upd_timestamp (v : Z) (m : Pandora_Module) : Pandora_Module :=
  mk_module (module_name m) (module_description m) (module_type_str m) (module_type m)
    (module_kind_str m) (module_kind m) (module_interval m) (module_timeout m) (executions m)
    (intensive_interval m) (max m) (min m) (has_limits m) (has_min m) (has_max m) (attrs m)
    (save m) (async m) (data_list m) (inventory_list m) (has_output m) (latest_output m)
    (condition_list m) (precondition_list m) (intensive_condition_list m) (cron m) v
    (intensive_match m).
Definition upd_intensive_match (v : Z) (m : Pandora_Module) : Pandora_Module :=
  mk_module (module_name m) (module_description m) (module_type_str m) (module_type m)
    (module_kind_str m) (module_kind m) (module_interval m) (module_timeout m) (executions m)
    (intensive_interval m) (max m) (min m) (has_limits m) (has_min m) (has_max m) (attrs m)
    (save m) (async m) (data_list m) (inventory_list m) (has_output m) (latest_output m)
    (condition_list m) (precondition_list m) (intensive_condition_list m) (cron m) (timestamp m)
    v.

(** [Pandora_Module::Pandora_Module].  The constructor leaves [has_output], the
    type and the kind unwritten: they are arguments. *)
Definition new_module (has_output0 : bool) (type0 : Module_Type) (kind0 : Module_Kind)
    (name : str) : Pandora_Module :=
  {| module_name := name; module_description := []; module_type_str := [];
     module_type := type0; module_kind_str := []; module_kind := kind0;
     module_interval := 1; module_timeout := 15000; executions := 0; intensive_interval := 1;
     max := 0; min := 0; has_limits := false; has_min := false; has_max := false;
     attrs := λ _, []; save := []; async := false;
     data_list := None; inventory_list := None; has_output := has_output0; latest_output := [];
     condition_list := None; precondition_list := None; intensive_condition_list := None;
     cron := None; timestamp := 0; intensive_match := 0 |}.

(** ** Setters and getters *)

Definition setMax (value : Z) (m : Pandora_Module) : Pandora_Module :=
  upd_max value (upd_has_max true (upd_has_limits true m)).
Definition setMin (value : Z) (m : Pandora_Module) : Pandora_Module :=
  upd_min value (upd_has_min true (upd_has_limits true m)).

Definition set_attr (a : attr) (value : str) (m : Pandora_Module) : Pandora_Module :=
  upd_attrs (<[a := value]> (attrs m)) m.
Definition setPostProcess := set_attr post_process.
Definition setMinCritical := set_attr min_critical.
Definition setMaxCritical := set_attr max_critical.
Definition setMinWarning := set_attr min_warning.
Definition setMaxWarning := set_attr max_warning.
Definition setDisabled := set_attr disabled.
Definition setMinFFEvent := set_attr min_ff_event.
Definition setUnit := set_attr unit_attr.
Definition setModuleGroup := set_attr module_group.
Definition setCustomId := set_attr custom_id.
Definition setStrWarning := set_attr str_warning.
Definition setStrCritical := set_attr str_critical.
Definition setCriticalInstructions := set_attr critical_instructions.
Definition setWarningInstructions := set_attr warning_instructions.
Definition setUnknownInstructions := set_attr unknown_instructions.
Definition setTags := set_attr tags.
Definition setCriticalInverse := set_attr critical_inverse.
Definition setWarningInverse := set_attr warning_inverse.
Definition setQuiet := set_attr quiet.
Definition setModuleFFInterval := set_attr module_ff_interval.

Definition setAsync := upd_async.
Definition setType (type : str) (m : Pandora_Module) : Pandora_Module :=
  upd_module_type (parseModuleTypeFromString type) (upd_module_type_str type m).
Definition setKind (kind : str) (m : Pandora_Module) : Pandora_Module :=
  upd_module_kind (parseModuleKindFromString kind) (upd_module_kind_str kind m).
Definition setInterval := upd_module_interval.
Definition setIntensiveInterval := upd_intensive_interval.
(** Seconds to milliseconds, in [int]. *)
Definition setTimeout (timeout : Z) (m : Pandora_Module) : Pandora_Module :=
  if (timeout <? 0)%Z then m else upd_module_timeout (s32 (timeout * 1000)) m.
Definition setDescription := upd_module_description.
Definition setSave := upd_save.
Definition setTimestamp := upd_timestamp.
Definition setIntensiveMatch := upd_intensive_match.

Definition getName := module_name.
Definition getDescription := module_description.
Definition getTypeString := module_type_str.
Definition getTypeInt := module_type.
Definition getModuleKind := module_kind.
Definition getLatestOutput := latest_output.
Definition getModuleType := module_type.
Definition getInterval := module_interval.
Definition getIntensiveInterval := intensive_interval.
Definition getTimeout := module_timeout.
Definition getSave := save.
Definition getTimestamp := timestamp.
Definition getIntensiveMatch := intensive_match.
Definition hasOutput (m : Pandora_Module) : Z := if has_output m then 1 else 0.

(** ** Output *)

(** [cleanDataList]. *)
Definition cleanDataList (m : Pandora_Module) : Pandora_Module :=
  upd_inventory_list None (upd_data_list None m).

(** [setOutput (output)] at time [now], [setOutput (output, system_time)]. *)
Definition push_data (d : Pandora_Data) (m : Pandora_Module) : Pandora_Module :=
  upd_data_list (Some (default [] (data_list m) ++ [d])) m.
Definition setOutput (now : SYSTEMTIME) (output : str) (m : Pandora_Module) : Pandora_Module :=
  upd_latest_output output (push_data (new_data_origin now output (module_name m)) m).
Definition setOutput_at (output : str) (system_time : SYSTEMTIME) (m : Pandora_Module)
    : Pandora_Module :=
  push_data (new_data_at_origin output system_time (module_name m)) m.

(** [setNoOutput]. *)
Definition setNoOutput (m : Pandora_Module) : Pandora_Module :=
  upd_has_output false (cleanDataList m).

(** [run]: the new state, and whether [Interval_Not_Fulfilled] is thrown.  A
    zero interval divides by zero. *)
Definition run (m : Pandora_Module) : res (Pandora_Module * bool) :=
  if decide (intensive_interval m = 0)%Z then Undef
  else
    let executed := upd_executions (s32 (executions m + 1)) m in
    if decide (Z.rem (executions m) (intensive_interval m) ≠ 0)%Z
    then Ok (upd_has_output false executed, true)
    else Ok (upd_has_output true executed, false).

(** [getDataOutput]. *)
Definition is_string_type (t : Module_Type) : bool :=
  bool_decide (t = TYPE_GENERIC_DATA_STRING ∨ t = TYPE_ASYNC_STRING ∨ t = TYPE_LOG).

Definition getDataOutput (m : Pandora_Module) (d : Pandora_Data) : res str :=
  if is_string_type (module_type m) then Ok (data_getValue d)
  else
    match strtodouble (data_getValue d) with
    | Err Invalid_Conversion => Err Output_Error
    | Err e => Err e
    | Undef => Undef
    | Ok value =>
        if has_limits m
           && (double_leb (double_of_Z (max m)) value || double_leb value (double_of_Z (min m)))
        then Err Value_Error
        else Ok (trim (data_getValue d))
    end.

(** The first element of a list the code dereferences with [front]. *)
Definition front {A} (l : list A) : res A := match l with x :: _ => Ok x | [] => Undef end.

(** [exportDataOutput]: the string given to [putenv]. *)
Definition exportDataOutput (m : Pandora_Module) : res str :=
  let putenv_str := save m ++ &"=" in
  match has_output m, data_list m with
  | true, Some l => let! d := front l in Ok (putenv_str ++ data_getValue d)
  | _, _ => Ok putenv_str
  end.

(** ** [getXml] *)

(** [strreplace (..., "%", "%%")]. *)
Definition escape_percent (s : str) : res str :=
  from_option Ok Undef (strreplace s (&"%") (&"%%")).

(** [getDataOutput] and the escape, with the [catch (Output_Error)] around
    them: [None] is the caught exception. *)
Definition data_clean (m : Pandora_Module) (d : Pandora_Data) : res (option str) :=
  match getDataOutput m d with
  | Ok s => let! s := escape_percent s in Ok (Some s)
  | Err Output_Error => Ok None
  | Err e => Err e
  | Undef => Undef
  end.

(** The loop over the data list; [wrap] is the text around one value. *)
Fixpoint xml_data (m : Pandora_Module) (wrap : Pandora_Data → str → res str)
    (ds : list Pandora_Data) : res str :=
  match ds with
  | [] => Ok []
  | d :: ds =>
      let! c := data_clean m d in
      let! here := match c with Some s => wrap d s | None => Ok [] end in
      let! rest := xml_data m wrap ds in
      Ok (here ++ rest)
  end.

(** Two or more values, or the first one. *)
Definition xml_values (m : Pandora_Module) (wrap_one wrap_many : Pandora_Data → str → res str)
    (opening closing : str) (ds : list Pandora_Data) : res str :=
  if decide (1 < length ds) then
    let! body := xml_data m wrap_many ds in Ok (opening ++ body ++ closing)
  else
    let! d := front ds in xml_data m wrap_one [d].

Definition NL : str := [LF].
Definition TABS (n : nat) : str := replicate n TAB.

(** A [<tag><![CDATA[value]]></tag>] line, and one without CDATA. *)
Definition cdata_line (tag value : str) : str :=
  TABS 1 ++ &"<" ++ tag ++ &"><![CDATA[" ++ value ++ &"]]></" ++ tag ++ &">" ++ NL.
Definition plain_line (tag value : str) : str :=
  TABS 1 ++ &"<" ++ tag ++ &">" ++ value ++ &"</" ++ tag ++ &">" ++ NL.

(** The optional string attributes in the order of the code: attribute, tag,
    and whether the value is wrapped in CDATA. *)
Definition xml_attrs : list (attr * str * bool) :=
  [(post_process, &"post_process", true); (min_critical, &"min_critical", true);
   (max_critical, &"max_critical", true); (min_warning, &"min_warning", true);
   (max_warning, &"max_warning", true); (disabled, &"disabled", true);
   (min_ff_event, &"min_ff_event", true); (unit_attr, &"unit", true);
   (module_group, &"module_group", false); (custom_id, &"custom_id", false);
   (str_warning, &"str_warning", false); (str_critical, &"str_critical", false);
   (critical_instructions, &"critical_instructions", false);
   (warning_instructions, &"warning_instructions", false);
   (unknown_instructions, &"unknown_instructions", false); (tags, &"tags", false);
   (critical_inverse, &"critical_inverse", false); (warning_inverse, &"warning_inverse", false);
   (quiet, &"quiet", false); (module_ff_interval, &"module_ff_interval", false)].

Definition attr_line (m : Pandora_Module) (row : attr * str * bool) : str :=
  let '(a, tag, cdata) := row in
  if decide (attrs m a = []) then []
  else if (cdata : bool) then cdata_line tag (attrs m a) else plain_line tag (attrs m a).

(** Everything before the module data. *)
Definition xml_head (m : Pandora_Module) : str :=
  &"<module>" ++ NL ++ cdata_line (&"name") (module_name m) ++
  cdata_line (&"type") (module_type_str m) ++
  (if decide (module_description m = []) then []
   else cdata_line (&"description") (module_description m)) ++
  cdata_line (&"module_interval") (dec (module_interval m)) ++
  (if has_min m then cdata_line (&"min") (dec (min m)) else []) ++
  (if has_max m then cdata_line (&"max") (dec (max m)) else []) ++
  concat (attr_line m <$> xml_attrs).

(** One value of a [<datalist>], and a single value. *)
Definition datalist_item (d : Pandora_Data) (s : str) : res str :=
  let! t := data_getTimestamp d in
  Ok (TABS 2 ++ &"<data>" ++ NL ++ TABS 3 ++ &"<value><![CDATA[" ++ s ++ &"]]></value>" ++ NL ++
      TABS 3 ++ &"<timestamp><![CDATA[" ++ t ++ &"]]></timestamp>" ++ NL ++
      TABS 2 ++ &"</data>" ++ NL).
Definition single_item (d : Pandora_Data) (s : str) : res str := Ok (cdata_line (&"data") s).

Definition xml_log (m : Pandora_Module) (ds : list Pandora_Data) : res str :=
  let raw (d : Pandora_Data) (s : str) : res str := Ok s in
  let! body := xml_values m raw raw [] [] ds in
  Ok (&"<log_module>" ++ NL ++ TABS 1 ++ &"<source><![CDATA[" ++ module_name m ++
      &"]]></source>" ++ NL ++ TABS 1 ++ &"<data><![CDATA[" ++ body ++
      &"]]></data></log_module>").

Definition xml_module (m : Pandora_Module) (ds : list Pandora_Data) : res str :=
  let! body := xml_values m single_item datalist_item
                 (TABS 1 ++ &"<datalist>" ++ NL) (TABS 1 ++ &"</datalist>" ++ NL) ds in
  Ok (xml_head m ++ body ++ &"</module>" ++ NL).

(** [getXml]: the text and the module after the clean-up. *)
Definition getXml (m : Pandora_Module) : res (str * Pandora_Module) :=
  match has_output m, data_list m with
  | true, Some ds =>
      let! xml := if decide (module_type m = TYPE_LOG) then xml_log m ds else xml_module m ds in
      Ok (xml, cleanDataList m)
  | _, _ => Ok ([], m)
  end.

(** ** Conditions *)

Section conditions.
(** The regular-expression library: whether [regcomp] accepts a pattern, and
    whether [regexec] finds a compiled pattern in a string. *)
Context (regcomp_ok : str → bool) (regexec : str → str → bool).

Definition cmd_exe (command : str) : str :=
  &"cmd.exe /c " ++ [QUOTE] ++ command ++ [QUOTE].

(** The [sscanf] formats. *)
Definition fmt_numeric_cmd : list directive :=
  [D_str 255; D_space; D_double; D_space; D_not LF 1023; D_char "s"%char].
Definition fmt_regexp_cmd : list directive :=
  [D_char "="%char; D_char "~"%char; D_space; D_str 1023; D_space; D_not LF 1023;
   D_char "s"%char].
Definition fmt_interval_cmd : list directive :=
  [D_char "("%char; D_double; D_space; D_char ","%char; D_space; D_double; D_char ")"%char;
   D_space; D_not LF 1023; D_char "s"%char].
Definition fmt_numeric : list directive := [D_str 255; D_space; D_double].
Definition fmt_regexp : list directive :=
  [D_char "="%char; D_char "~"%char; D_space; D_str 1023].
Definition fmt_interval : list directive :=
  [D_char "("%char; D_double; D_space; D_char ","%char; D_space; D_double; D_char ")"%char].

Definition zero : double := S754_zero false.

(** What a failed [sscanf] left in [cond->value_1]. *)
Definition stored_value (vs : list scanned) : double :=
  match vs with _ :: S_double d :: _ => d | _ => zero end.

(** [addGenericCondition]: the new list; an invalid condition leaves the
    (created) list as it is. *)
Definition addGenericCondition (condition : str) (conditions : option (list Condition))
    : option (list Condition) :=
  let l := default [] conditions in
  match sscanf condition fmt_numeric_cmd with
  | (3%Z, [S_str op; S_double v; S_str cmd]) =>
      Some (l ++ [{| value_1 := v; value_2 := zero; string_value := []; operation := op;
                     command := cmd_exe cmd; regexp := None |}])
  | (_, vs) =>
      match sscanf condition fmt_regexp_cmd with
      | (2%Z, [S_str sv; S_str cmd]) =>
          if regcomp_ok sv then
            Some (l ++ [{| value_1 := stored_value vs; value_2 := zero; string_value := sv;
                           operation := &"=~"; command := cmd_exe cmd; regexp := Some sv |}])
          else Some l
      | _ =>
          match sscanf condition fmt_interval_cmd with
          | (3%Z, [S_double v1; S_double v2; S_str cmd]) =>
              Some (l ++ [{| value_1 := v1; value_2 := v2; string_value := [];
                             operation := &"()"; command := cmd_exe cmd; regexp := None |}])
          | _ => Some l
          end
      end
  end.

(** [addCondition], [addPreCondition]. *)
Definition addCondition (condition : str) (m : Pandora_Module) : Pandora_Module :=
  upd_condition_list (addGenericCondition condition (condition_list m)) m.
Definition addPreCondition (condition : str) (m : Pandora_Module) : Pandora_Module :=
  upd_precondition_list (addGenericCondition condition (precondition_list m)) m.

(** [addIntensiveCondition]: no command; on the list only. *)
Definition addIntensive (condition : str) (conditions : option (list Condition))
    : option (list Condition) :=
  let l := default [] conditions in
  match sscanf condition fmt_numeric with
  | (2%Z, [S_str op; S_double v]) =>
      Some (l ++ [{| value_1 := v; value_2 := zero; string_value := []; operation := op;
                     command := []; regexp := None |}])
  | (_, vs) =>
      match sscanf condition fmt_regexp with
      | (1%Z, [S_str sv]) =>
          if regcomp_ok sv then
            Some (l ++ [{| value_1 := stored_value vs; value_2 := zero; string_value := sv;
                           operation := &"=~"; command := []; regexp := Some sv |}])
          else Some l
      | _ =>
          match sscanf condition fmt_interval with
          | (2%Z, [S_double v1; S_double v2]) =>
              Some (l ++ [{| value_1 := v1; value_2 := v2; string_value := [];
                             operation := &"()"; command := []; regexp := None |}])
          | _ => Some l
          end
      end
  end.
Definition addIntensiveCondition (condition : str) (m : Pandora_Module) : Pandora_Module :=
  upd_intensive_condition_list (addIntensive condition (intensive_condition_list m)) m.

(** [evaluateCondition]: [=~] with an unwritten [regex_t] has no meaning. *)
Definition evaluateCondition (sv : str) (dv : double) (c : Condition) : res Z :=
  let op := operation c in
  if bool_decide (op = &">") && double_ltb (value_1 c) dv then Ok 1%Z
  else if bool_decide (op = &"<") && double_ltb dv (value_1 c) then Ok 1%Z
  else if bool_decide (op = &"=") && double_eqb dv (value_1 c) then Ok 1%Z
  else if bool_decide (op = &"!=") && negb (double_eqb dv (value_1 c)) then Ok 1%Z
  else if bool_decide (op = &"=~") then
    match regexp c with
    | None => Undef
    | Some re => Ok (if regexec re (c_str sv) then 1%Z else 0%Z)
    end
  else if bool_decide (op = &"()") && double_ltb (value_1 c) dv && double_ltb dv (value_2 c)
  then Ok 1%Z
  else Ok 0%Z.

(** [strtodouble] with [catch (Invalid_Conversion) { value = 0; }]. *)
Definition double_or_zero (s : str) : res double :=
  match strtodouble s with
  | Err Invalid_Conversion => Ok zero
  | r => r
  end.

(** *** [evaluatePreconditions] *)

(** What becomes of the process of a precondition: a failed job or pipe, a
    failed [CreateProcess], or an exit code and the output read.  A process
    that times out has a non-zero exit code ([STILL_ACTIVE]). *)
Inductive process :=
  | No_job_or_pipe
  | Not_created
  | Exited (retval : Z) (output : str).

(** [output] and [double_output] live across the iterations; when no process
    was created they keep what an earlier iteration left, at first nothing. *)
Fixpoint evaluatePreconditions_loop (exec : str → process) (conds : list Condition)
    (output : str) (double_output : option double) : res Z :=
  match conds with
  | [] => Ok 1%Z
  | precond :: conds =>
      match exec (command precond) with
      | No_job_or_pipe => Ok 0%Z
      | Not_created =>
          match double_output with
          | None => Undef
          | Some d =>
              let! r := evaluateCondition output d precond in
              if (r =? 0)%Z then Ok 0%Z
              else evaluatePreconditions_loop exec conds output double_output
          end
      | Exited retval output =>
          let! d := double_or_zero output in
          if negb (retval =? 0)%Z then Ok 0%Z
          else
            let! r := evaluateCondition output d precond in
            if (r =? 0)%Z then Ok 0%Z
            else evaluatePreconditions_loop exec conds output (Some d)
      end
  end.
Definition evaluatePreconditions (exec : str → process) (m : Pandora_Module) : res Z :=
  evaluatePreconditions_loop exec (default [] (precondition_list m)) [] None.

(** *** [evaluateConditions]: the commands started, in order; the loop stops
    at the first one [CreateProcess] refuses. *)
Fixpoint evaluateConditions_loop (spawn : str → bool) (sv : str) (dv : double)
    (conds : list Condition) : res (list str) :=
  match conds with
  | [] => Ok []
  | cond :: conds =>
      let! r := evaluateCondition sv dv cond in
      if (r =? 1)%Z then
        if spawn (command cond) then
          let! cmds := evaluateConditions_loop spawn sv dv conds in Ok (command cond :: cmds)
        else Ok []
      else evaluateConditions_loop spawn sv dv conds
  end.
Definition evaluateConditions (spawn : str → bool) (m : Pandora_Module) : res (list str) :=
  match has_output m, data_list m with
  | true, Some ds =>
      let! d := front ds in
      let! dv := double_or_zero (data_getValue d) in
      evaluateConditions_loop spawn (data_getValue d) dv (default [] (condition_list m))
  | _, _ => Ok []
  end.

(** *** [evaluateIntensiveConditions] *)
Fixpoint evaluateIntensive_loop (sv : str) (dv : double) (conds : list Condition) : res Z :=
  match conds with
  | [] => Ok 1%Z
  | cond :: conds =>
      let! r := evaluateCondition sv dv cond in
      if (r =? 0)%Z then Ok 0%Z else evaluateIntensive_loop sv dv conds
  end.
Definition evaluateIntensiveConditions (m : Pandora_Module) : res Z :=
  match default [] (intensive_condition_list m) with
  | [] => Ok 1%Z
  | conds =>
      match has_output m, data_list m with
      | true, Some ds =>
          let! d := front ds in
          let! dv := double_or_zero (data_getValue d) in
          evaluateIntensive_loop (data_getValue d) dv conds
      | _, _ => Ok 0%Z
      end
  end.
End conditions.

(** ** Cron *)

(** [struct tm] as [localtime] returns it, the fields the check uses. *)
Record tm := { tm_min : Z; tm_hour : Z; tm_mday : Z; tm_mon : Z; tm_wday : Z }.

Definition time_params (t : tm) : list Z :=
  [tm_min t; tm_hour t; tm_mday t; (tm_mon t + 1)%Z; tm_wday t].

(** One parameter against the interval of the cron. *)
Definition cron_param_ok (p : Z * Z) (t : Z) : bool :=
  let '(lo, hi) := p in
  if (lo <? 0)%Z then true
  else if (lo <=? hi)%Z then negb ((t <? lo)%Z || (hi <? t)%Z)
  else negb ((t <? lo)%Z && (hi <? t)%Z).

Fixpoint check_params (ps : list (Z * Z)) (ts : list Z) : bool :=
  match ps, ts with
  | p :: ps, t :: ts => if cron_param_ok p t then check_params ps ts else false
  | _, _ => true
  end.

(** The time before which the module is not checked again. *)
Definition cron_offset (c : Cron) : Z :=
  let low i := fst (nth i (params c) (0, 0)%Z) in
  if (0 <=? cron_interval c)%Z then cron_interval c
  else if (0 <=? low 0%nat)%Z then 60
  else if (0 <=? low 1%nat)%Z then 3600
  else if (0 <=? low 2%nat)%Z || (0 <=? low 4%nat)%Z then 86400
  else if (0 <=? low 3%nat)%Z then 2678400
  else 0.

(** [checkCron] at [current_time], which [localtime] breaks down to [tms];
    [time_t] has 32 bits. *)
Definition checkCron (current_time : Z) (tms : option tm) (m : Pandora_Module)
    : Z * Pandora_Module :=
  match cron m with
  | None => (1%Z, m)
  | Some c =>
      if (current_time <=? utimestamp c)%Z then (0%Z, m)
      else
        match tms with
        | None => (1%Z, m)
        | Some t =>
            if check_params (params c) (time_params t) then
              (1%Z, upd_cron (Some {| utimestamp := s32 (current_time + cron_offset c);
                                      cron_interval := cron_interval c;
                                      params := params c |}) m)
            else (0%Z, m)
        end
  end.

(** [new Cron ()]: zeroed. *)
Definition new_cron : Cron :=
  {| utimestamp := 0; cron_interval := 0; params := replicate 5 (0, 0)%Z |}.

(** One field of the cron string: a wildcard keeps the upper bound. *)
Definition cron_field (field : str) (old : Z * Z) : Z * Z :=
  match field with
  | c :: _ =>
      if decide (c = "*"%char) then ((-1)%Z, snd old)
      else
        match sscanf field [D_not MINUS 255; D_char MINUS; D_str 255] with
        | (2%Z, [S_str bottom; S_str top]) => (atoi bottom, atoi top)
        | _ => (atoi field, atoi field)
        end
  | [] => (atoi field, atoi field)
  end.

(** [setCron]. *)
Definition setCron (cron_string : str) (m : Pandora_Module) : Pandora_Module :=
  let c := default new_cron (cron m) in
  match sscanf cron_string
          [D_str 255; D_space; D_str 255; D_space; D_str 255; D_space; D_str 255; D_space;
           D_str 255] with
  | (5%Z, [S_str f0; S_str f1; S_str f2; S_str f3; S_str f4]) =>
      upd_cron (Some {| utimestamp := 0; cron_interval := -1;
                        params := zip_with cron_field [f0; f1; f2; f3; f4] (params c) |}) m
  | _ => upd_cron (Some c) m
  end.

(** [setCronInterval]. *)
Definition setCronInterval (interval : Z) (m : Pandora_Module) : Pandora_Module :=
  let c := default new_cron (cron m) in
  upd_cron (Some {| utimestamp := utimestamp c; cron_interval := interval;
                    params := params c |}) m.

(** ** Lemmas *)

(** *** The execution interval *)

Fixpoint run_times (n : nat) (m : Pandora_Module) : res Pandora_Module :=
  match n with
  | 0 => Ok m
  | S n => let! m := run_times n m in let! (m, _) := run m in Ok m
  end.

Lemma run_step m n :
  (0 < intensive_interval m)%Z → executions m = Z.of_nat n → (Z.of_nat n < 2 ^ 31 - 1)%Z →
  ∃ m', run m = Ok (m', negb (bool_decide (n mod Z.to_nat (intensive_interval m) = 0))) ∧
    has_output m' = bool_decide (n mod Z.to_nat (intensive_interval m) = 0) ∧
    executions m' = Z.of_nat (S n) ∧ intensive_interval m' = intensive_interval m.
Proof.
  intros Hk Hn Hb. unfold run. rewrite decide_False by lia. rewrite Hn.
  assert (Z.rem (Z.of_nat n) (intensive_interval m)
          = Z.of_nat (n mod Z.to_nat (intensive_interval m))) as ->.
  { rewrite Z.rem_mod_nonneg by lia. rewrite Nat2Z.inj_mod, Z2Nat.id by lia. done. }
  assert (s32 (Z.of_nat n + 1) = Z.of_nat (S n)) as E.
  { rewrite Nat2Z.inj_succ. apply wrap_s_small; [lia|]. unfold in_s. lia. }
  case_decide as D.
  - rewrite bool_decide_false by lia. eexists. split; [done|]. simpl. by rewrite E.
  - rewrite bool_decide_true by lia. eexists. split; [done|]. simpl. by rewrite E.
Qed.

Lemma run_times_spec m n :
  (0 < intensive_interval m)%Z → executions m = 0%Z → (Z.of_nat n < 2 ^ 31)%Z →
  ∃ m', run_times n m = Ok m' ∧ executions m' = Z.of_nat n ∧
    intensive_interval m' = intensive_interval m.
Proof.
  intros Hk H0. induction n as [|n IH]; intros Hn; [by exists m|].
  destruct IH as (m1 & E1 & He & Hi); [lia|]. cbn [run_times]. rewrite E1. cbn [rbind].
  destruct (run_step m1 n) as (m2 & E2 & _ & He2 & Hi2); [by rewrite Hi|done|lia|].
  rewrite E2. cbn [rbind]. exists m2. split_and!; congruence.
Qed.

(** *** XML *)

Lemma escape_percent_spec s :
  escape_percent s = Ok (s ≫= λ c, if decide (c = "%"%char) then &"%%" else [c]).
Proof. unfold escape_percent. by rewrite (strreplace_char "%"%char). Qed.

(** *** Conditions *)

Lemma scan_double_dec n r :
  (0 ≤ n)%Z → (match r with c :: _ => isdigit c = false ∧ c ≠ DOT ∧ (code c ≠ 101)%Z ∧ (code c ≠ 69)%Z
               | [] => True end) →
  scan_double (dec n ++ r) = Some (dec_to_double false n 0, r).
Proof.
  intros Hn Hr. unfold scan_double.
  assert (dec n = dec_nonneg n) as -> by (unfold dec; destruct (Z.ltb_spec n 0); [lia|done]).
  pose proof (dec_nonneg_digits n) as Hd.
  assert (scan_sign (dec_nonneg n ++ r) = (false, dec_nonneg n ++ r)) as ->.
  { pose proof (dec_nonneg_not_nil n). destruct (dec_nonneg n) as [|c ds]; [done|].
    inv Hd. destruct (isdigit_not_sign c) as (? & ? & _); [done|]. simpl. by rewrite !decide_False. }
  assert (takewhile isdigit (dec_nonneg n ++ r) = dec_nonneg n ∧
          dropwhile isdigit (dec_nonneg n ++ r) = r) as [-> ->].
  { destruct r as [|c r].
    - rewrite app_nil_r. split; [by apply takewhile_id|by apply dropwhile_nil].
    - destruct Hr as [? _]. split; [by apply takewhile_app_stop|by apply dropwhile_app_stop]. }
  destruct r as [|c r].
  - rewrite decide_False by (rewrite app_nil_r; apply dec_nonneg_not_nil).
    simpl. by rewrite app_nil_r, dec_nonneg_value.
  - destruct Hr as (? & ? & ? & ?). rewrite (decide_False (P := c = DOT)) by done.
    rewrite decide_False by (rewrite app_nil_r; apply dec_nonneg_not_nil).
    cbn [scan_exponent]. rewrite decide_False by lia. simpl. by rewrite app_nil_r, dec_nonneg_value.
Qed.

Lemma no_nul_c_str s : Forall (λ c, c ≠ NUL) s → c_str s = s.
Proof.
  intros H. apply takewhile_id. eapply Forall_impl; [done|]. intros c Hc.
  by apply bool_decide_eq_true.
Qed.

(** [=~ <number>] is read by the numeric format. *)
Lemma fmt_numeric_regexp_digits n :
  (0 ≤ n)%Z → sscanf (&"=~ " ++ dec n) fmt_numeric =
    (2%Z, [S_str (&"=~"); S_double (dec_to_double false n 0)]).
Proof.
  intros Hn. unfold sscanf. rewrite c_str_no_nul.
  2:{ destruct (dec_head n) as (?&?&_&_&H). rewrite elem_of_app. intros [H'|H']; [|done].
      revert H'. apply (bool_decide_eq_true_1 _). by vm_compute. }
  assert (scan fmt_numeric (&"=~ " ++ dec n) =
    let (vs, eof) := scan [D_space; D_double] (SP :: dec n) in (S_str (&"=~") :: vs, eof)) as ->
    by done.
  cbn [scan]. assert (skip_ws (SP :: dec n) = dec n) as -> by apply (skip_ws_dec n).
  rewrite skip_ws_dec. destruct (dec_head n) as (c & s & E & _). rewrite E, <- E.
  pose proof (scan_double_dec n [] Hn I) as H. rewrite app_nil_r in H. by rewrite H.
Qed.

(** *** Cron *)

(** The time a cron parameter allows; a window may wrap around. *)
Definition in_window (p : Z * Z) (t : Z) : Prop :=
  (p.1 < 0 ∨ p.1 ≤ t ≤ p.2 ∨ (p.2 < p.1 ∧ (p.1 ≤ t ∨ t ≤ p.2)))%Z.

Lemma cron_param_ok_spec p t : cron_param_ok p t = true ↔ in_window p t.
Proof.
  destruct p as [lo hi]. unfold cron_param_ok, in_window. simpl.
  destruct (Z.ltb_spec lo 0); [split; [by left|done]|].
  destruct (Z.leb_spec lo hi), (Z.ltb_spec t lo), (Z.ltb_spec hi t); simpl; split;
    intros ?; try done; lia.
Qed.

Lemma check_params_spec ps ts :
  length ps = length ts → check_params ps ts = true ↔ Forall2 in_window ps ts.
Proof.
  revert ts; induction ps as [|p ps IH]; intros [|t ts] Hl; simplify_eq/=; [by split|].
  rewrite Forall2_cons, <- cron_param_ok_spec. specialize (IH ts).
  destruct (cron_param_ok p t); [rewrite IH by lia; naive_solver|naive_solver].
Qed.

Lemma length_time_params t : length (time_params t) = 5.
Proof. done. Qed.

(** *** Reading a cron string *)

(** The fields a user writes: any time, one time, a window. *)
Inductive field := F_any | F_at (n : Z) | F_range (a b : Z).

Definition field_str (f : field) : str :=
  match f with
  | F_any => &"*"
  | F_at n => dec n
  | F_range a b => dec a ++ [MINUS] ++ dec b
  end.
Definition field_wf (f : field) : Prop :=
  match f with
  | F_any => True
  | F_at n => (0 ≤ n < 2 ^ 31)%Z
  | F_range a b => (0 ≤ a < 2 ^ 31)%Z ∧ (0 ≤ b < 2 ^ 31)%Z
  end.
Definition field_allows (f : field) (t : Z) : Prop :=
  match f with
  | F_any => True
  | F_at n => t = n
  | F_range a b => (a ≤ t ≤ b ∨ b < a ∧ (a ≤ t ∨ t ≤ b))%Z
  end.
Definition field_params (f : field) : Z * Z :=
  match f with F_any => (-1, 0) | F_at n => (n, n) | F_range a b => (a, b) end%Z.

#[global] Instance field_wf_dec f : Decision (field_wf f).
Proof. destruct f; simpl; apply _. Defined.

(** The fields separated by blanks. *)
Definition cron_str (f0 f1 f2 f3 f4 : field) : str :=
  field_str f0 ++ SP :: field_str f1 ++ SP :: field_str f2 ++ SP :: field_str f3 ++ SP ::
  field_str f4.

(** A word of a field: what [%255s] reads back. *)
Definition cron_word (s : str) : Prop :=
  s ≠ [] ∧ length s ≤ 255 ∧ Forall (λ c, negb (isspace c) = true ∧ c ≠ NUL) s.

Lemma digits_word s :
  Forall (λ c, isdigit c = true) s → Forall (λ c, negb (isspace c) = true ∧ c ≠ NUL) s.
Proof.
  intros H. eapply Forall_impl; [done|]. intros c Hc.
  apply isdigit_not_sign in Hc as (_ & _ & -> & ?). done.
Qed.

Lemma field_str_word f : field_wf f → cron_word (field_str f).
Proof.
  assert (Hnn : ∀ n, dec n ≠ []) by (intros n; destruct (dec_head n) as (?&?&->&_); done).
  destruct f as [|n|a b]; simpl; intros Hf.
  - split_and!; [done|simpl; lia|by repeat constructor].
  - split_and!; [done|pose proof (dec_length_le n); lia|]. apply digits_word, dec_digits. lia.
  - split_and!.
    + by destruct (dec a).
    + rewrite length_app. simpl. pose proof (dec_length_le a). pose proof (dec_length_le b). lia.
    + apply Forall_app. split; [apply digits_word, dec_digits; lia|].
      constructor; [done|]. apply digits_word, dec_digits. lia.
Qed.

Lemma scan_word w fmt r :
  cron_word w → (match r with [] => True | c :: _ => isspace c = true end) →
  scan (D_str 255 :: fmt) (w ++ r) =
    let (vs, eof) := scan fmt r in (S_str w :: vs, eof).
Proof.
  intros (Hne & Hlen & Hw) Hr. cbn [scan].
  assert (skip_ws (w ++ r) = w ++ r) as ->.
  { destruct w as [|c w]; [done|]. inversion_clear Hw as [|?? [Hc _] _].
    apply dropwhile_cons_false. by apply negb_true_iff. }
  assert (Hw' : Forall (λ c, negb (isspace c) = true) w) by (eapply Forall_impl; [done|]; naive_solver).
  assert (takewhile (λ c, negb (isspace c)) (w ++ r) = w) as Ht.
  { destruct r as [|c r]; [rewrite app_nil_r; by apply takewhile_id|].
    apply takewhile_app_stop; [done|]. by rewrite Hr. }
  destruct (w ++ r) as [|c l] eqn:E; [by destruct w|]. rewrite <- E in *. rewrite Ht.
  rewrite firstn_all2 by done. by rewrite drop_app_length.
Qed.

Lemma scan_space_word w fmt r :
  cron_word w → (match r with [] => True | c :: _ => isspace c = true end) →
  scan (D_space :: D_str 255 :: fmt) (SP :: w ++ r) =
    let (vs, eof) := scan fmt r in (S_str w :: vs, eof).
Proof.
  intros Hw Hr. rewrite <- (scan_word w fmt r) by done. cbn [scan].
  destruct Hw as (Hne & _ & Hw). destruct w as [|c w]; [done|]. inv Hw.
  unfold skip_ws. simpl. rewrite (proj1 (negb_true_iff _)) by naive_solver.
  rewrite dropwhile_cons_false by (apply negb_true_iff; naive_solver). done.
Qed.

Lemma cron_word_no_nul w : cron_word w → NUL ∉ w.
Proof. intros (_ & _ & H) Hin. rewrite Forall_forall in H. naive_solver. Qed.

Lemma sscanf_cron_str f0 f1 f2 f3 f4 :
  Forall field_wf [f0; f1; f2; f3; f4] →
  sscanf (cron_str f0 f1 f2 f3 f4)
    [D_str 255; D_space; D_str 255; D_space; D_str 255; D_space; D_str 255; D_space; D_str 255]
  = (5%Z, [S_str (field_str f0); S_str (field_str f1); S_str (field_str f2);
           S_str (field_str f3); S_str (field_str f4)]).
Proof.
  rewrite !Forall_cons. intros (H0 & H1 & H2 & H3 & H4 & _).
  apply field_str_word in H0, H1, H2, H3, H4.
  unfold sscanf. rewrite c_str_no_nul.
  2:{ unfold cron_str. repeat (rewrite elem_of_app || rewrite elem_of_cons).
      apply cron_word_no_nul in H0, H1, H2, H3, H4. intuition done. }
  unfold cron_str. rewrite scan_word by done. rewrite !scan_space_word by done.
  rewrite <- (app_nil_r (field_str f4)) at 1. by rewrite scan_space_word.
Qed.

Lemma cron_field_str f old :
  field_wf f → cron_field (field_str f) old = match f with F_any => (-1, snd old)%Z | _ => field_params f end.
Proof.
  assert (Hstar : ∀ n r, (0 ≤ n)%Z → ∃ c s, dec n ++ r = c :: s ∧ c ≠ "*"%char).
  { intros n r Hn. destruct (dec_head n) as (c & s & E & _). pose proof (dec_digits n Hn) as Hd.
    rewrite E in Hd |- *. inv Hd. eexists _, _. split; [done|]. by intros ->. }
  assert (Hmin : ∀ n, (0 ≤ n)%Z → Forall (λ d, bool_decide (d ≠ MINUS) = true) (dec n)).
  { intros n Hn. eapply Forall_impl; [by apply dec_digits|]. intros c Hc.
    apply bool_decide_eq_true. by apply isdigit_not_sign in Hc as (? & _). }
  assert (Hin : ∀ n, (0 ≤ n < 2 ^ 31)%Z → in_s 32 n) by (unfold in_s; lia).
  destruct f as [|n|a b]; intros Hf; [done|..]; simpl in Hf.
  - cbn [field_str field_params].
    destruct (Hstar n []) as (c & s & E & Hc); [lia|]. rewrite app_nil_r in E.
    unfold cron_field. rewrite E, decide_False, <- E by done.
    unfold sscanf. rewrite c_str_dec. cbn [scan]. rewrite takewhile_id by (apply Hmin; lia).
    rewrite E at 1. rewrite firstn_all2 by (pose proof (dec_length_le n); lia).
    rewrite decide_False by (rewrite E; done). rewrite drop_all. simpl.
    by rewrite atoi_dec by auto.
  - cbn [field_str field_params]. destruct Hf as [Ha Hb].
    destruct (Hstar a ([MINUS] ++ dec b)) as (c & s & E & Hc); [lia|].
    unfold cron_field. rewrite E, decide_False, <- E by done.
    unfold sscanf. rewrite c_str_no_nul by (apply cron_word_no_nul, (field_str_word (F_range a b)); done).
    remember [D_char MINUS; D_str 255] as fmt. cbn [scan]. subst fmt.
    change ([MINUS] ++ dec b) with (MINUS :: dec b) in *.
    rewrite (takewhile_app_stop _ (dec a)) by (done || apply Hmin; lia).
    rewrite E at 1. rewrite firstn_all2 by (pose proof (dec_length_le a); lia).
    rewrite decide_False by (destruct (dec_head a) as (?&?&->&_); done).
    rewrite drop_app_length.
    assert (scan [D_char MINUS; D_str 255] (MINUS :: dec b) = ([S_str (dec b)], false)) as ->.
    { change (scan [D_str 255] (dec b) = ([S_str (dec b)], false)).
      rewrite <- (app_nil_r (dec b)) at 1. rewrite scan_word; [done| |done].
      by apply (field_str_word (F_at b)). }
    simpl. by rewrite !atoi_dec by auto.
Qed.

Lemma setCron_str f0 f1 f2 f3 f4 m :
  cron m = None → Forall field_wf [f0; f1; f2; f3; f4] →
  cron (setCron (cron_str f0 f1 f2 f3 f4) m) =
    Some {| utimestamp := 0; cron_interval := -1;
            params := field_params <$> [f0; f1; f2; f3; f4] |}.
Proof.
  intros Hm Hf. unfold setCron. rewrite sscanf_cron_str, Hm by done.
  rewrite !Forall_cons in Hf. destruct Hf as (H0 & H1 & H2 & H3 & H4 & _).
  simpl. rewrite !cron_field_str by done. by destruct f0, f1, f2, f3, f4.
Qed.

Lemma field_params_window f t : field_wf f → in_window (field_params f) t ↔ field_allows f t.
Proof. destruct f; unfold in_window; simpl; lia. Qed.

Lemma evaluate_nonregexp_ok regexec sv dv c :
  operation c ≠ &"=~" → ∃ r, evaluateCondition regexec sv dv c = Ok r ∧ (r = 0 ∨ r = 1)%Z.
Proof.
  intros H. unfold evaluateCondition. rewrite (bool_decide_false (operation c = &"=~")) by done.
  repeat case_match; eauto.
Qed.

(** A condition list is evaluated as a conjunction. *)
Lemma evaluateIntensive_loop_spec regexec sv dv conds :
  Forall (λ c, ∃ r, evaluateCondition regexec sv dv c = Ok r ∧ (r = 0 ∨ r = 1)%Z) conds →
  ∃ r, evaluateIntensive_loop regexec sv dv conds = Ok r ∧ (r = 0 ∨ r = 1)%Z ∧
    (r = 1%Z ↔ Forall (λ c, evaluateCondition regexec sv dv c = Ok 1%Z) conds).
Proof.
  induction 1 as [|c conds (r & E & Hr) _ IH]; cbn [evaluateIntensive_loop].
  - exists 1%Z. split_and!; [done|by right|by split].
  - rewrite E. cbn [rbind]. destruct Hr as [-> | ->]; simpl.
    + exists 0%Z. split_and!; [done|by left|]. rewrite Forall_cons. split; [done|].
      intros [H _]. congruence.
    + destruct IH as (r & E' & Hr & Hiff). exists r. rewrite E'. split_and!; [done..|].
      rewrite Forall_cons, Hiff. naive_solver.
Qed.

(** ** Properties *)

(** A module with interval [k] produces output on its first run and then
    on every [k]-th one, and on no other: after [n + 1] runs [has_output] holds
    exactly when [k] divides [n]. *)
Lemma run_interval m k n :
  intensive_interval m = Z.of_nat k → (0 < k) → executions m = 0%Z → (Z.of_nat n < 2 ^ 31 - 1)%Z →
  ∃ m', run_times (S n) m = Ok m' ∧ executions m' = Z.of_nat (S n) ∧
    has_output m' = bool_decide (n mod k = 0).
Proof.
  intros Hk Hpos H0 Hn.
  destruct (run_times_spec m n) as (m1 & E1 & He & Hi); [lia..|].
  destruct (run_step m1 n) as (m2 & E2 & Ho & He2 & _); [lia|done|lia|].
  exists m2. cbn [run_times]. rewrite E1. cbn [rbind]. rewrite E2. cbn [rbind].
  split_and!; [done..|]. rewrite Ho, Hi, Hk, Nat2Z.id. done.
Qed.

Lemma run_interval_witness :
  ∃ m', run_times 7 (setIntensiveInterval 3 (new_module false TYPE_0 MODULE_0 (&"m"))) = Ok m' ∧
    has_output m' = true.
Proof.
  destruct (run_interval (setIntensiveInterval 3 (new_module false TYPE_0 MODULE_0 (&"m"))) 3 6)
    as (m' & E & _ & H); [done|lia|done|lia|].
  exists m'. split; [exact E|]. rewrite H. reflexivity.
Defined.

(** A numeric value passes [getDataOutput] exactly when it lies strictly
    between the limits: the bounds themselves are rejected although the setters
    document a closed range, and with only a minimum set the maximum is still 0,
    so every value from 0 up is rejected. *)
Lemma getDataOutput_limits m d v :
  is_string_type (module_type m) = false → strtodouble (data_getValue d) = Ok v →
  has_limits m = true →
  (getDataOutput m d = Ok (trim (data_getValue d)) ↔
     double_leb (double_of_Z (max m)) v = false ∧ double_leb v (double_of_Z (min m)) = false) ∧
  (getDataOutput m d ≠ Ok (trim (data_getValue d)) → getDataOutput m d = Err Value_Error) ∧
  (∀ n, max m = 0%Z → double_leb (double_of_Z 0) v = true →
     getDataOutput (setMin n m) d = Err Value_Error).
Proof.
  intros Ht Hv Hl. unfold getDataOutput. rewrite Ht, Hv, Hl. split_and!.
  - destruct (double_leb (double_of_Z (max m)) v), (double_leb v (double_of_Z (min m)));
      simpl; naive_solver.
  - destruct (_ && _); naive_solver.
  - intros n Hm H0. simpl. by rewrite Ht, Hm, H0.
Qed.

Lemma getDataOutput_limits_witness :
  getDataOutput (setMin 5 (setType (&"generic_data") (new_module true TYPE_0 MODULE_0 (&"m"))))
    {| data_value := &"50"; data_timestamp := Build_SYSTEMTIME 2014 1 1 0 0 0; data_origin := [] |}
  = Err Value_Error.
Proof.
  destruct (getDataOutput_limits
    (upd_has_limits true (setType (&"generic_data") (new_module true TYPE_0 MODULE_0 (&"m"))))
    {| data_value := &"50"; data_timestamp := Build_SYSTEMTIME 2014 1 1 0 0 0; data_origin := [] |}
    (double_of_Z 50)) as (_ & _ & H); [reflexivity|by vm_compute|reflexivity|].
  apply (H 5%Z); [reflexivity|by vm_compute].
Defined.

(** The XML of a module with one textual value is the head, the value
    with every percent sign doubled inside a CDATA section, and the closing
    tag; producing it consumes the value, so a second call gives nothing. *)
Lemma getXml_single m d :
  has_output m = true → data_list m = Some [d] →
  is_string_type (module_type m) = true → module_type m ≠ TYPE_LOG →
  ∃ m', getXml m =
      Ok (xml_head m ++
          cdata_line (&"data")
            (data_getValue d ≫= λ c, if decide (c = "%"%char) then &"%%" else [c]) ++
          &"</module>" ++ NL, m') ∧
    data_list m' = None ∧ inventory_list m' = None ∧ getXml m' = Ok ([], m').
Proof.
  intros Ho Hd Ht Hl. exists (cleanDataList m).
  unfold getXml. rewrite Ho, Hd, decide_False by done. split_and!; try done.
  - unfold xml_module, xml_values. cbn [length]. rewrite decide_False by lia. cbn [front rbind].
    cbn [xml_data]. unfold data_clean, getDataOutput. rewrite Ht, escape_percent_spec.
    cbn [rbind]. unfold single_item. cbn [rbind]. by rewrite app_nil_r.
  - simpl. by rewrite Ho.
Qed.

Lemma getXml_single_witness :
  ∃ x m', getXml (setOutput (Build_SYSTEMTIME 2014 1 1 0 0 0) (&"50%")
     (upd_has_output true (setType (&"generic_data_string") (new_module true TYPE_0 MODULE_0 (&"m")))))
    = Ok (x, m') ∧ data_list m' = None.
Proof.
  destruct (getXml_single (setOutput (Build_SYSTEMTIME 2014 1 1 0 0 0) (&"50%")
     (upd_has_output true (setType (&"generic_data_string") (new_module true TYPE_0 MODULE_0 (&"m")))))
     (new_data_origin (Build_SYSTEMTIME 2014 1 1 0 0 0) (&"50%") (&"m")))
    as (m' & E & H & _); [reflexivity|reflexivity|reflexivity|by vm_compute|].
  eexists _, m'. split; [exact E|exact H].
Defined.

(** The intensive conditions of a module with data hold exactly when all
    of them do: the result is 1 if and only if every condition evaluates to 1
    on the first value.  (Regular expressions written before compilation are
    excluded: see [addIntensive_regexp_digits].) *)
Lemma evaluateIntensiveConditions_all regexec m d ds dv conds :
  has_output m = true → data_list m = Some (d :: ds) →
  intensive_condition_list m = Some conds → conds ≠ [] →
  double_or_zero (data_getValue d) = Ok dv →
  Forall (λ c, operation c = &"=~" → is_Some (regexp c)) conds →
  ∃ r, evaluateIntensiveConditions regexec m = Ok r ∧ (r = 0 ∨ r = 1)%Z ∧
    (r = 1%Z ↔ Forall (λ c, evaluateCondition regexec (data_getValue d) dv c = Ok 1%Z) conds).
Proof.
  intros Ho Hd Hc Hne Hdv Hre. unfold evaluateIntensiveConditions.
  rewrite Hc, Ho, Hd. cbn [front rbind]. rewrite Hdv. cbn [rbind].
  destruct conds as [|c conds]; [done|]. cbn [default from_option id].
  apply evaluateIntensive_loop_spec.
  eapply Forall_impl; [exact Hre|]. intros x Hx. simpl in Hx.
  destruct (decide (operation x = &"=~")) as [E|E]; [|by apply evaluate_nonregexp_ok].
  destruct (Hx E) as [re Hre']. unfold evaluateCondition. rewrite E, Hre'.
  rewrite !(bool_decide_false (&"=~" = _)) by (by vm_compute).
  rewrite (bool_decide_true (&"=~" = &"=~")) by done. simpl. case_match; eauto.
Qed.

Lemma evaluateIntensiveConditions_all_witness :
  ∃ r, evaluateIntensiveConditions (λ _ _, true)
    (addIntensiveCondition (λ _, true) (&"> 10") (setOutput (Build_SYSTEMTIME 2014 1 1 0 0 0) (&"12")
       (new_module true TYPE_0 MODULE_0 (&"m")))) = Ok r ∧ (r = 0 ∨ r = 1)%Z.
Proof.
  edestruct (evaluateIntensiveConditions_all (λ _ _, true)
    (addIntensiveCondition (λ _, true) (&"> 10") (setOutput (Build_SYSTEMTIME 2014 1 1 0 0 0) (&"12")
       (new_module true TYPE_0 MODULE_0 (&"m"))))
     (new_data_origin (Build_SYSTEMTIME 2014 1 1 0 0 0) (&"12") (&"m")) [] (double_of_Z 12)
     [{| value_1 := double_of_Z 10; value_2 := zero; string_value := []; operation := &">";
         command := []; regexp := None |}]) as (r & E & Hr & _);
    [reflexivity|reflexivity|by vm_compute|done|by vm_compute|repeat constructor; done|].
  exists r. split; [exact E|exact Hr].
Defined.

(** An intensive condition [=~ <number>], a regular expression of digits,
    is taken by the numeric format first: it is stored without a compiled
    expression, and evaluating it has no defined result. *)
Theorem addIntensive_regexp_digits regcomp_ok regexec n m :
  (0 ≤ n)%Z → intensive_condition_list m = None →
  ∃ c, intensive_condition_list (addIntensiveCondition regcomp_ok (&"=~ " ++ dec n) m) = Some [c] ∧
    operation c = &"=~" ∧ regexp c = None ∧
    ∀ sv dv, evaluateCondition regexec sv dv c = Undef.
Proof.
  intros Hn Hm. unfold addIntensiveCondition, addIntensive.
  rewrite fmt_numeric_regexp_digits, Hm by done. eexists. split_and!; [done..|].
  intros sv dv. unfold evaluateCondition. cbn [operation regexp].
  rewrite !(bool_decide_false (&"=~" = _)) by (by vm_compute).
  by rewrite (bool_decide_true (&"=~" = &"=~")).
Qed.

Lemma addIntensive_regexp_digits_witness :
  ∃ c, intensive_condition_list
         (addIntensiveCondition (λ _, true) (&"=~ " ++ dec 404) (new_module true TYPE_0 MODULE_0 [])) = Some [c]
       ∧ evaluateCondition (λ _ _, true) (&"404") zero c = Undef.
Proof.
  destruct (addIntensive_regexp_digits (λ _, true) (λ _ _, true) 404 (new_module true TYPE_0 MODULE_0 []))
    as (c & E & _ & _ & H); [done|reflexivity|]. exists c. split; [exact E|apply H].
Defined.



(** A module that passed the cron check is not run again before its
    cron offset has elapsed, whatever the clock and the schedule. *)
Lemma checkCron_once m m' c now t :
  cron m = Some c → checkCron now (Some t) m = (1%Z, m') → in_s 32 (now + cron_offset c) →
  ∀ now' tms', (now' ≤ now + cron_offset c)%Z → fst (checkCron now' tms' m') = 0%Z.
Proof.
  intros Hc H Hs now' tms' Hn. unfold checkCron in H. rewrite Hc in H.
  destruct (now <=? utimestamp c)%Z; [done|]. destruct (check_params _ _); [|done].
  injection H as <-. unfold checkCron. cbn [cron upd_cron utimestamp].
  rewrite wrap_s_small by (done || lia). by rewrite (proj2 (Z.leb_le _ _)).
Qed.

Lemma checkCron_once_witness :
  fst (checkCron 1030 None (snd (checkCron 1000
    (Some {| tm_min := 30; tm_hour := 23; tm_mday := 5; tm_mon := 0; tm_wday := 1 |})
    (setCron (&"30 * * * *") (new_module true TYPE_0 MODULE_0 []))))) = 0%Z.
Proof.
  apply (checkCron_once (setCron (&"30 * * * *") (new_module true TYPE_0 MODULE_0 [])) _
           {| utimestamp := 0; cron_interval := -1;
              params := [(30, 30); (-1, 0); (-1, 0); (-1, 0); (-1, 0)]%Z |} 1000
           {| tm_min := 30; tm_hour := 23; tm_mday := 5; tm_mon := 0; tm_wday := 1 |}).
  - by vm_compute.
  - by vm_compute.
  - unfold in_s, cron_offset. simpl. lia.
  - unfold cron_offset. simpl. lia.
Defined.

(** A cron string without five fields leaves a zeroed schedule, whose
    day-of-month 0 never comes: the module is silently never run. *)
Lemma setCron_invalid_never_runs s m now t :
  cron m = None → fst (sscanf s [D_str 255; D_space; D_str 255; D_space; D_str 255; D_space;
                                 D_str 255; D_space; D_str 255]) ≠ 5%Z →
  (1 ≤ tm_mday t ≤ 31)%Z → fst (checkCron now (Some t) (setCron s m)) = 0%Z.
Proof.
  intros Hm Hs Ht. unfold setCron.
  assert (E : ∀ c, cron (upd_cron (Some c) m) = Some c) by done.
  destruct (sscanf s _) as [n vs] eqn:Es. simpl in Hs.
  assert (Hnew : fst (checkCron now (Some t) (upd_cron (Some (default new_cron (cron m))) m)) = 0%Z).
  { unfold checkCron. rewrite E, Hm. cbn [default utimestamp new_cron].
    destruct (now <=? 0)%Z; [done|].
    change (params _) with (replicate 5 (0, 0)%Z).
    assert (check_params (replicate 5 (0, 0)%Z) (time_params t) = false) as ->; [|done].
    apply not_true_iff_false. rewrite check_params_spec by done.
    intros H. apply (Forall2_lookup_lr _ _ _ 2 (0, 0)%Z (tm_mday t)) in H; [|done..].
    unfold in_window in H. simpl in H. lia. }
  destruct n as [|p|p]; try exact Hnew. do 3 (destruct p as [p|p|]; try exact Hnew). done.
Qed.

Lemma setCron_invalid_never_runs_witness :
  fst (checkCron 1000 (Some {| tm_min := 0; tm_hour := 0; tm_mday := 5; tm_mon := 0; tm_wday := 1 |})
    (setCron (&"0 0 * *") (new_module true TYPE_0 MODULE_0 []))) = 0%Z.
Proof.
  apply setCron_invalid_never_runs; [reflexivity|by vm_compute|simpl; lia].
Defined.
