(* ===== verification/Wmi.v ===== *)
(** * WMI queries ([src/windows/pandora_wmi.cc])

    The COM side is the argument [ExecQuery]: a query yields the objects the
    enumeration delivers and whether it ends in an error (the [string]
    exception every function catches).  An object answers [dhGetValue]: [%s],
    [%e] and [%d] may fail (a NULL property does not convert), and then leave
    the variable as it was. *)
From S2P Require Import Prelude StdString Scanf Strutils.

(** ** Doubles: division, truncation and [ostream <<] *)

Definition double_div (x y : double) : double := SFdiv 53 1024 x y.
Definition double_mul (x y : double) : double := SFmul 53 1024 x y.

(** Conversion to a [w]-bit integer type: truncation; no meaning out of range. *)
Definition double_trunc (x : double) : option Z :=
  match x with
  | S754_zero _ => Some 0%Z
  | S754_finite s m e =>
      let v := if (0 <=? e)%Z then (Z.pos m * 2 ^ e)%Z else (Z.pos m / 2 ^ (- e))%Z in
      Some (if (s : bool) then - v else v)%Z
  | _ => None
  end.
Definition to_ulong (x : double) : res Z :=
  match double_trunc x with
  | Some z => if decide (in_u 32 z) then Ok z else Undef
  | None => Undef
  end.
Definition to_long (x : double) : res Z :=
  match double_trunc x with
  | Some z => if decide (in_s 32 z) then Ok z else Undef
  | None => Undef
  end.

(** [atof]. *)
Definition atof (s : str) : double :=
  match scan_double (skip_ws (c_str s)) with Some (d, _) => d | None => S754_zero false end.

(** [n / d] rounded half to even. *)
Definition round_div (n d : Z) : Z :=
  let q := (n / d)%Z in
  let r := (2 * (n mod d))%Z in
  if (r <? d)%Z then q else if (d <? r)%Z then (q + 1)%Z
  else if Z.even q then q else (q + 1)%Z.

(** [n / d] at six significant digits: the digits and the decimal exponent.
    [x] is a lower bound of the exponent; it grows until six digits suffice. *)
Fixpoint six_digits (fuel : nat) (n d x : Z) : Z * Z :=
  let s := (5 - x)%Z in
  let q := if (0 <=? s)%Z then round_div (n * 10 ^ s) d else round_div n (d * 10 ^ (- s)) in
  match fuel with
  | O => (q, x)
  | S fuel => if (q <? 1000000)%Z then (q, x) else six_digits fuel n d (x + 1)
  end.

Definition strip_zeros (s : str) : str :=
  reverse (dropwhile (λ c, bool_decide (c = "0"%char)) (reverse s)).
Definition fraction (s : str) : str := if decide (s = []) then [] else DOT :: s.

(** [ostream << double]: [%g] with six significant digits; the run-time library
    writes at least three digits of exponent. *)
Definition show_double (x : double) : str :=
  match x with
  | S754_zero s => if (s : bool) then &"-0" else &"0"
  | S754_infinity s => if (s : bool) then &"-1.#INF" else &"1.#INF"
  | S754_nan => &"1.#QNAN"
  | S754_finite s m e =>
      let '(n, d) := if (0 <=? e)%Z then (Z.pos m * 2 ^ e, 1)%Z else (Z.pos m, 2 ^ (- e))%Z in
      let low := (((Z.log2 n - Z.log2 d - 1) * 30103) / 100000 - 1)%Z in
      let '(q, x) := six_digits 6 n d low in
      let ds := dec q in
      let sign := if (s : bool) then [MINUS] else [] in
      sign ++
      if ((-4 <=? x) && (x <? 0))%Z%bool then
        &"0" ++ fraction (strip_zeros (replicate (Z.to_nat (- x - 1)) "0"%char ++ ds))
      else if ((0 <=? x) && (x <? 6))%Z%bool then
        take (Z.to_nat (x + 1)) ds ++ fraction (strip_zeros (drop (Z.to_nat (x + 1)) ds))
      else
        let ax := dec (Z.abs x) in
        take 1 ds ++ fraction (strip_zeros (drop 1 ds)) ++
        (if (x <? 0)%Z then &"e-" else &"e+") ++ replicate (3 - length ax) "0"%char ++ ax
  end.

(** ** The answers of WMI *)

(** An object: its properties as [%s], [%e], [%d]; [%v] as the strings of an
    array of variants ([None] for an element that is no string), nothing when
    the property is no array. *)
Record object := mk_object {
  as_s : str → option str;
  as_e : str → option double;
  as_d : str → option Z;
  as_v : str → option (list (option str))
}.
Record answer := { objects : list object; failed : bool }.

Section wmi.
Context (ExecQuery : str → answer).

Definition quoted (s : str) : str := [QUOTE] ++ s ++ [QUOTE].

(** [isProcessRunning]: the instances counted, also when the enumeration fails. *)
Definition isProcessRunning (process_name : str) : Z :=
  let query := &"SELECT * FROM Win32_Process WHERE Name=" ++ quoted process_name in
  s32 (Z.of_nat (length (objects (ExecQuery query)))).

(** [isServiceRunning]: the first object decides; a NULL state is used as a
    string. *)
Definition isServiceRunning (service_name : str) : res Z :=
  let query := &"SELECT * FROM Win32_Service WHERE Name = " ++ quoted service_name in
  match objects (ExecQuery query) with
  | [] => Ok 0%Z
  | quickfix :: _ =>
      match as_s quickfix (&"State") with
      | None => Undef
      | Some state =>
          Ok (if decide (state = &"Running") then 1
              else if decide (state = &"Stopped") then 0 else -1)%Z
      end
  end.

(** The functions that throw [Pandora_Wmi_Exception] return [None] then. *)
Definition getDiskFreeSpace (disk_id : str) : res (option Z) :=
  let query := &"SELECT FreeSpace FROM Win32_LogicalDisk WHERE DeviceID = " ++ quoted disk_id in
  match objects (ExecQuery query) with
  | [] => Ok None
  | quickfix :: _ =>
      let free_space := default (S754_zero false) (as_e quickfix (&"FreeSpace")) in
      let! z := to_ulong (double_div free_space (double_of_Z 1048576)) in Ok (Some z)
  end.

Definition getDiskFreeSpacePercent (disk_id : str) : res (option Z) :=
  let query := &"SELECT Size, FreeSpace FROM Win32_LogicalDisk WHERE DeviceID = "
                 ++ quoted disk_id in
  match objects (ExecQuery query) with
  | [] => Ok None
  | quickfix :: _ =>
      let free_space := default (S754_zero false) (as_e quickfix (&"FreeSpace")) in
      let size := default (S754_zero false) (as_e quickfix (&"Size")) in
      if double_eqb size (S754_zero false) then Ok (Some 0%Z)
      else let! z := to_ulong (double_div (double_mul free_space (double_of_Z 100)) size) in
           Ok (Some z)
  end.

(** [getCpuUsagePercentage]: [load] is the variable [load_percentage], which
    starts unwritten. *)
Fixpoint cpu_loop (cpus : list object) (load : option Z) (total_cpus total_load : Z)
    : res (Z * Z) :=
  match cpus with
  | [] => Ok (total_cpus, total_load)
  | quickfix :: cpus =>
      let load := match as_d quickfix (&"LoadPercentage") with Some l => Some l | None => load end in
      match load with
      | None => Undef
      | Some l =>
          if ((0 <=? l) && (l <=? 100))%Z%bool
          then cpu_loop cpus load (total_cpus + 1)%Z (s32 (total_load + l))
          else cpu_loop cpus load total_cpus total_load
      end
  end.
Definition getCpuUsagePercentage (cpu_id : Z) : res (option Z) :=
  let query := if (cpu_id <? 0)%Z then &"SELECT * FROM Win32_Processor"
               else &"SELECT * FROM Win32_Processor WHERE DeviceID = "
                      ++ quoted (&"CPU" ++ dec cpu_id) in
  let a := ExecQuery query in
  let! (total_cpus, total_load) := cpu_loop (objects a) None 0 0 in
  if failed a then Ok None
  else if decide (total_cpus = 0)%Z then Ok (Some 0%Z)
  else Ok (Some (Z.quot total_load total_cpus)).

(** [getFreememory], [getFreememoryPercent]: the variables start unwritten. *)
Definition getFreememory : res (option Z) :=
  match objects (ExecQuery (&"SELECT * FROM Win32_PerfRawData_PerfOS_Memory ")) with
  | [] => Ok None
  | quickfix :: _ =>
      match as_d quickfix (&"AvailableMBytes") with Some z => Ok (Some z) | None => Undef end
  end.

Definition getFreememoryPercent : res (option Z) :=
  match objects (ExecQuery (&"SELECT FreePhysicalMemory, TotalVisibleMemorySize FROM Win32_OperatingSystem ")) with
  | [] => Ok None
  | quickfix :: _ =>
      match as_e quickfix (&"FreePhysicalMemory"), as_e quickfix (&"TotalVisibleMemorySize") with
      | Some free_memory, Some total_memory =>
          if double_eqb total_memory (S754_zero false) then Ok (Some 0%Z)
          else let! z := to_long (double_div (double_mul free_memory (double_of_Z 100))
                                    total_memory) in
               Ok (Some z)
      | _, _ => Undef
      end
  end.

(** ** String columns *)

(** A [char *] variable: NULL, or pointing to a string already freed. *)
Inductive ptr := P_null | P_freed.

(** [dhGetValue (L"%s", &p, object, column)], the use of [p], and
    [dhFreeString (p)].  When the property does not convert, [p] keeps what
    an earlier object left: NULL, or a freed string. *)
Definition fetch (p : ptr) (o : object) (column : str) : res (option str * ptr) :=
  match as_s o column with
  | Some s => Ok (Some (c_str s), P_freed)
  | None => match p with P_null => Ok (None, P_null) | P_freed => Undef end
  end.

(** [getOSName], [getOSVersion]: the last object wins; the byte 0xAE becomes
    a blank. *)
Definition no_registered (s : str) : str :=
  (λ c, if decide (code c = 174)%Z then SP else c) <$> s.
Fixpoint os_loop (column : str) (os : list object) (p : ptr) (ret : str) : res str :=
  match os with
  | [] => Ok ret
  | o :: os =>
      let! (v, p) := fetch p o column in
      os_loop column os p (from_option no_registered ret v)
  end.
Definition os_query : str := &"SELECT * FROM Win32_OperatingSystem ".
Definition getOSName : res str :=
  os_loop (&"Caption") (objects (ExecQuery os_query)) P_null [].
Definition getOSVersion : res str :=
  os_loop (&"CSDVersion") (objects (ExecQuery os_query)) P_null [].

(** [getOSBuild], [getSystemName]: the pointer is used unchecked. *)
Fixpoint unchecked_loop (column : str) (os : list object) (ret : str) : res str :=
  match os with
  | [] => Ok ret
  | o :: os =>
      match as_s o column with
      | None => Undef
      | Some s => unchecked_loop column os (c_str s)
      end
  end.
Definition getOSBuild : res str :=
  unchecked_loop (&"Version") (objects (ExecQuery os_query)) [].
Definition getSystemName : res str :=
  unchecked_loop (&"CSName") (objects (ExecQuery os_query)) [].

(** [runWMIQuery]: the rows after [rows]. *)
Fixpoint query_loop (column : str) (os : list object) (p : ptr) (rows : list str)
    : res (list str) :=
  match os with
  | [] => Ok rows
  | o :: os =>
      let! (v, p) := fetch p o column in
      query_loop column os p (rows ++ option_list v)
  end.
Definition runWMIQuery (wmi_query column : str) (rows : list str) : res (list str) :=
  query_loop (c_str column) (objects (ExecQuery (c_str wmi_query))) P_null rows.

(** ** Inventory *)

Definition inventory_field_separator : str := &";".

(** One row: the columns in order with their decoration, a separator between
    two columns.  [ps] are the pointers of the columns. *)
Fixpoint inventory_row (fields : list (str * (str → str))) (ps : list ptr) (o : object)
    : res (str * list ptr) :=
  match fields, ps with
  | (column, show) :: fields, p :: ps =>
      let! (v, p) := fetch p o column in
      let! (rest, ps) := inventory_row fields ps o in
      Ok (from_option show [] v ++
          (if decide (fields = []) then [] else inventory_field_separator) ++ rest, p :: ps)
  | _, _ => Ok ([], [])
  end.

Fixpoint inventory_loop (fields : list (str * (str → str))) (os : list object)
    (ps : list ptr) (rows : list str) : res (list str) :=
  match os with
  | [] => Ok rows
  | o :: os =>
      let! (ret, ps) := inventory_row fields ps o in
      inventory_loop fields os ps (rows ++ [ret])
  end.

(** The rows appended, and the number of objects the function returns. *)
Definition inventory (query : str) (fields : list (str * (str → str))) (rows : list str)
    : res (list str * Z) :=
  let os := objects (ExecQuery query) in
  let! rows := inventory_loop fields os ((λ _, P_null) <$> fields) rows in
  Ok (rows, s32 (Z.of_nat (length os))).

Definition plain (s : str) : str := s.
Definition in_parens (s : str) : str := &" (" ++ s ++ &")".
(** [atof (s) / unit] in text. *)
Definition scaled (unit : Z) (s : str) : str :=
  show_double (double_div (atof s) (double_of_Z unit)).

Definition getCdRomInfo : list str → res (list str * Z) :=
  inventory (&"SELECT  Name, Description, Drive FROM Win32_CDROMDrive ")
    [(&"Name", plain); (&"Description", λ s, &" " ++ s); (&"Drive", in_parens)].
Definition getVideoInfo : list str → res (list str * Z) :=
  inventory (&"SELECT Caption, AdapterRAM, VideoProcessor FROM Win32_VideoController ")
    [(&"Caption", plain); (&"AdapterRAM", λ s, &" " ++ scaled 1048576 s ++ &" MBytes");
     (&"VideoProcessor", plain)].
Definition getHDsInfo : list str → res (list str * Z) :=
  inventory (&"SELECT Model, Size, SystemName FROM Win32_DiskDrive ")
    [(&"Model", plain); (&"Size", λ s, scaled 1073741824 s ++ &" GBs");
     (&"SystemName", in_parens)].
Definition getCPUsInfo : list str → res (list str * Z) :=
  inventory (&"SELECT Name, MaxClockSpeed, Description FROM Win32_Processor ")
    [(&"Name", plain); (&"MaxClockSpeed", λ s, s ++ &" MHz"); (&"Description", plain)].
Definition getPatchInfo : list str → res (list str * Z) :=
  inventory (&"SELECT HotFixID, Description, FixComments, ServicePackInEffect FROM Win32_QuickFixEngineering ")
    [(&"HotFixID", plain); (&"Description", plain); (&"FixComments", plain);
     (&"ServicePackInEffect", plain)].
Definition getRAMInfo : list str → res (list str * Z) :=
  inventory (&"SELECT Tag, Capacity, Name FROM Win32_PhysicalMemory ")
    [(&"Tag", plain); (&"Capacity", λ s, scaled 1048576 s ++ &" MBs"); (&"Name", plain)].
Definition getServices : list str → res (list str * Z) :=
  inventory (&"SELECT Name, PathName, State FROM Win32_Service")
    [(&"Name", plain); (&"PathName", plain); (&"State", plain)].

(** [getSoftware]: name and version are separate rows. *)
Fixpoint software_loop (os : list object) (pn pv : ptr) (rows : list str) : res (list str) :=
  match os with
  | [] => Ok rows
  | o :: os =>
      let! (name, pn) := fetch pn o (&"Name") in
      let! (version, pv) := fetch pv o (&"Version") in
      software_loop os pn pv (rows ++ option_list name ++ option_list version)
  end.
Definition getSoftware (rows : list str) : res (list str * Z) :=
  let os := objects (ExecQuery (&"SELECT * FROM Win32_Product ")) in
  let! rows := software_loop os P_null P_null rows in
  Ok (rows, s32 (Z.of_nat (length os))).

(** [getIPs]: a separator before every string element but the first element
    of the array. *)
Fixpoint getIPs_loop (i : nat) (ips : list (option str)) : str :=
  match ips with
  | [] => []
  | Some ip :: ips =>
      (if decide (0 < i) then &" , " else []) ++ ip ++ getIPs_loop (S i) ips
  | None :: ips => getIPs_loop (S i) ips
  end.
Definition getIPs (ip_array : option (list (option str))) : str :=
  from_option (getIPs_loop 0) [] ip_array.

Fixpoint nics_loop (os : list object) (pc pm : ptr) (rows : list str) : res (list str) :=
  match os with
  | [] => Ok rows
  | o :: os =>
      let! (caption, pc) := fetch pc o (&"Caption") in
      let! (mac_address, pm) := fetch pm o (&"MACAddress") in
      nics_loop os pc pm
        (rows ++ [default [] caption ++ inventory_field_separator ++ default [] mac_address
                  ++ inventory_field_separator ++ getIPs (as_v o (&"IPAddress"))])
  end.
Definition getNICsInfo (rows : list str) : res (list str * Z) :=
  let os := objects (ExecQuery
    (&"SELECT Caption, MACAddress, IPAddress FROM Win32_NetworkAdapterConfiguration ")) in
  let! rows := nics_loop os P_null P_null rows in
  Ok (rows, s32 (Z.of_nat (length os))).

(** [getSystemAddress]: the first address that is not 0.0.0.0, else the last. *)
Fixpoint address_loop (os : list object) (ret : str) : str :=
  match os with
  | [] => ret
  | o :: os =>
      let ret := getIPs (as_v o (&"IPAddress")) in
      if decide (ret ≠ &"0.0.0.0") then ret else address_loop os ret
  end.
Definition getSystemAddress : str :=
  address_loop (objects (ExecQuery
    (&"SELECT IPAddress FROM Win32_NetworkAdapterConfiguration WHERE IPEnabled = True"))) [].
End wmi.

(** ** Lemmas *)

Section cpu.
Context (load : object → Z).
Definition sane (o : object) : bool := (0 <=? load o)%Z && (load o <=? 100)%Z.

Lemma cpu_loop_spec cpus l n t :
  (∀ o, o ∈ cpus → as_d o (&"LoadPercentage") = Some (load o)) →
  (0 ≤ n)%Z → (0 ≤ t ≤ 100 * n)%Z → (n + Z.of_nat (length cpus) < 2 ^ 24)%Z →
  ∃ n' t', cpu_loop cpus l n t = Ok (n', t') ∧
    (n' = n + Z.of_nat (length (filter (λ o, sane o = true) cpus)))%Z ∧
    (t' = t + foldr (λ o z, load o + z) 0 (filter (λ o, sane o = true) cpus))%Z ∧
    (0 ≤ t' ≤ 100 * n')%Z.
Proof.
  revert l n t; induction cpus as [|o cpus IH]; intros l n t Hd Hn Ht Hlen.
  { exists n, t. simpl. split_and!; [done|lia..]. }
  cbn [cpu_loop]. rewrite (Hd o) by set_solver. fold (sane o).
  rewrite length_cons, Nat2Z.inj_succ in Hlen.
  rewrite filter_cons. destruct (sane o) eqn:E.
  - unfold sane in E. bools.
    rewrite wrap_s_small by (unfold in_s; lia).
    destruct (IH (Some (load o)) (n + 1)%Z (t + load o)%Z) as (n' & t' & -> & H1 & H2 & H3);
      [set_solver|lia..|].
    exists n', t'. rewrite decide_True by done. simpl. split_and!; [done|lia..].
  - destruct (IH (Some (load o)) n t) as (n' & t' & -> & H); [set_solver|lia..|].
    exists n', t'. rewrite decide_False by done. done.
Qed.
End cpu.

(** The columns an object has, and the row it gives. *)
Definition has_columns (fields : list (str * (str → str))) (o : object) : bool :=
  forallb (λ f, bool_decide (is_Some (as_s o f.1))) fields.
Fixpoint render (fields : list (str * (str → str))) (o : object) : str :=
  match fields with
  | [] => []
  | [(column, show)] => show (c_str (default [] (as_s o column)))
  | (column, show) :: fields =>
      show (c_str (default [] (as_s o column))) ++ inventory_field_separator ++ render fields o
  end.

Lemma render_cons column show fields o :
  render ((column, show) :: fields) o =
  show (c_str (default [] (as_s o column))) ++
  (if decide (fields = []) then [] else inventory_field_separator) ++ render fields o.
Proof. destruct fields as [|f fields]; [by rewrite !app_nil_r|done]. Qed.

Lemma inventory_row_spec fields ps o :
  length ps = length fields → has_columns fields o = true →
  inventory_row fields ps o = Ok (render fields o, (λ _, P_freed) <$> fields).
Proof.
  revert ps; induction fields as [|[column show] fields IH]; intros [|p ps] Hl H; try done.
  simpl in H. bools. cbn [inventory_row]. unfold fetch.
  destruct (as_s o column) as [s|] eqn:E; [|by destruct H]. cbn [rbind].
  rewrite (IH ps) by (done || (simpl in Hl; lia)). cbn [rbind].
  rewrite render_cons, E. done.
Qed.

Lemma inventory_row_stale fields o :
  has_columns fields o = false →
  inventory_row fields ((λ _, P_freed) <$> fields) o = Undef.
Proof.
  induction fields as [|[column show] fields IH]; [done|]. cbn [has_columns forallb fmap list_fmap fst].
  intros [H|H]%andb_false_iff; cbn [inventory_row]; unfold fetch.
  - bools. destruct (as_s o column); [by destruct H|done].
  - destruct (as_s o column); [|done]. cbn [rbind].
    change (list_fmap _ _ ?f fields) with (f <$> fields). by rewrite IH.
Qed.

Lemma inventory_loop_freed fields os rows :
  inventory_loop fields os ((λ _, P_freed) <$> fields) rows =
  if forallb (has_columns fields) os then Ok (rows ++ (render fields <$> os)) else Undef.
Proof.
  revert rows; induction os as [|o os IH]; intros rows; cbn [inventory_loop forallb fmap list_fmap].
  { by rewrite app_nil_r. }
  destruct (has_columns fields o) eqn:E; cbn [andb].
  - rewrite inventory_row_spec by (done || apply length_fmap). cbn [rbind].
    rewrite IH. destruct (forallb _ os); [by rewrite <- app_assoc|done].
  - by rewrite inventory_row_stale.
Qed.

(** ** Properties *)

(** [getCpuUsagePercentage]: when every processor reports a load, the
    result is the average of the loads between 0 and 100 (others are left
    out), rounded down; it is a percentage, and 0 when no load is sane. *)
Lemma getCpuUsagePercentage_average ExecQuery cpu_id cpus load :
  (∀ query, ExecQuery query = {| objects := cpus; failed := false |}) →
  (∀ o, o ∈ cpus → as_d o (&"LoadPercentage") = Some (load o)) →
  (Z.of_nat (length cpus) < 2 ^ 20)%Z →
  let ok := filter (λ o, sane load o = true) cpus in
  let avg := (foldr (λ o z, load o + z) 0 ok / Z.of_nat (length ok))%Z in
  getCpuUsagePercentage ExecQuery cpu_id = Ok (Some avg) ∧ (0 ≤ avg ≤ 100)%Z.
Proof.
  intros HQ Hd Hlen ok avg. unfold getCpuUsagePercentage. rewrite HQ. cbn [objects failed].
  destruct (cpu_loop_spec load cpus None 0 0 Hd) as (n & t & -> & Hn & Ht & Hb); [lia..|].
  cbn [rbind]. fold ok in Hn, Ht. rewrite Z.add_0_l in Hn, Ht.
  destruct (decide (n = 0)%Z) as [->|Hnz].
  - subst avg. rewrite <- Hn. rewrite Z.div_0_r. split; [done|lia].
  - rewrite Z.quot_div_nonneg by lia. subst avg. rewrite <- Hn, <- Ht.
    split; [done|]. split; [apply Z.div_pos; lia|].
    apply Z.div_le_upper_bound; lia.
Qed.

Definition cpu_object (z : Z) : object := mk_object (λ _, None) (λ _, None) (λ _, Some z) (λ _, None).

Lemma getCpuUsagePercentage_average_witness :
  getCpuUsagePercentage
    (λ _, {| objects := cpu_object <$> [40; 61]%Z; failed := false |}) (-1) = Ok (Some 50%Z).
Proof.
  destruct (getCpuUsagePercentage_average
    (λ _, {| objects := cpu_object <$> [40; 61]%Z; failed := false |}) (-1)
    (cpu_object <$> [40; 61]%Z) (λ o, default 0%Z (as_d o []))) as [H _].
  - done.
  - intros o Ho. simpl in Ho. set_unfold. naive_solver.
  - vm_compute. reflexivity.
  - exact H.
Defined.

(** The inventory queries, when the first object has every column: if the
    others have every column too, the rows are appended in order, one per
    object, with the columns separated by [;], and the number of objects is
    returned; but as soon as a later object misses a column (a NULL property)
    the function reads the freed string an earlier object left. *)
Lemma inventory_rows ExecQuery query fields o os rows b :
  ExecQuery query = {| objects := o :: os; failed := b |} →
  has_columns fields o = true → (Z.of_nat (length (o :: os)) < 2 ^ 31)%Z →
  inventory ExecQuery query fields rows =
    if forallb (has_columns fields) os
    then Ok (rows ++ (render fields <$> o :: os), Z.of_nat (length (o :: os)))
    else Undef.
Proof.
  intros HQ H1 Hlen. unfold inventory. rewrite HQ. cbn [objects inventory_loop].
  rewrite inventory_row_spec by (done || apply length_fmap). cbn [rbind].
  rewrite inventory_loop_freed. destruct (forallb _ os); [|done]. cbn [rbind].
  rewrite wrap_s_small by (unfold in_s; lia). by rewrite <- app_assoc.
Qed.

Definition row_object (row : gmap str str) : object :=
  mk_object (λ c, row !! c) (λ _, None) (λ _, None) (λ _, None).
Definition cdrom_1 : object :=
  row_object (list_to_map [(&"Name", &"HL"); (&"Description", &"CD"); (&"Drive", &"D:")]).
Definition cdrom_2 : object := row_object (list_to_map [(&"Name", &"HP"); (&"Drive", &"E:")]).

Lemma inventory_rows_witness :
  getCdRomInfo (λ _, {| objects := [cdrom_1]; failed := false |}) [] =
    Ok ([&"HL; CD; (D:)"], 1%Z) ∧
  getCdRomInfo (λ _, {| objects := [cdrom_1; cdrom_2]; failed := false |}) [] = Undef.
Proof.
  split; unfold getCdRomInfo.
  - rewrite (inventory_rows (λ _, {| objects := [cdrom_1]; failed := false |}) _ _ cdrom_1 [] [] false);
      vm_compute; reflexivity.
  - rewrite (inventory_rows (λ _, {| objects := [cdrom_1; cdrom_2]; failed := false |}) _ _
               cdrom_1 [cdrom_2] [] false); vm_compute; reflexivity.
Defined.
