(* ===== verification/Unicode.v ===== *)
(** * Wide strings ([pandora_strutils.cc])

    [strUnicodeToAnsi] and [strAnsiToUnicode] on the conversions of Windows, which
    the class [code_page] gives. *)
From S2P Require Import Prelude StdString.

(** A wide string: its 16-bit units, the terminator not among them. *)
Abbreviation wstr := (list Z).

(** [WideCharToMultiByte] and [MultiByteToWideChar] with the code page of the
    system: the text they write, [None] when they fail. *)
Class code_page := {
  WideCharToMultiByte : wstr → option str;
  MultiByteToWideChar : str → option wstr }.

(** What is in front of the terminator: [lstrlenW]. *)
Fixpoint w_str (w : wstr) : wstr :=
  match w with
  | [] => []
  | c :: w => if decide (c = 0)%Z then [] else c :: w_str w
  end.

Section conversions.
Context `{cp : code_page}.

(** [strUnicodeToAnsi]: a null pointer becomes a string made of a null pointer. *)
Definition strUnicodeToAnsi (s : option wstr) : res str :=
  match s with
  | None => Undef
  | Some s =>
      if decide (w_str s = []) then Ok [] else Ok (c_str (default [] (WideCharToMultiByte (w_str s))))
  end.

(** [strAnsiToUnicode]. *)
Definition strAnsiToUnicode (s : str) : res wstr :=
  match MultiByteToWideChar (c_str s) with
  | None => Undef
  | Some w => Ok (w_str w)
  end.

(** A text that the code page can write comes back. *)
Lemma unicode_roundtrip s w :
  NUL ∉ s → 0%Z ∉ w → (s = [] ↔ w = []) →
  MultiByteToWideChar s = Some w → WideCharToMultiByte w = Some s →
  strAnsiToUnicode s = Ok w ∧ strUnicodeToAnsi (Some w) = Ok s.
Proof.
  intros Hs Hw Hn H1 H2.
  assert (w_str w = w) as Ew.
  { clear -Hw. induction w as [|c w IH]; [done|]. apply not_elem_of_cons in Hw as [Hc Hw].
    cbn [w_str]. rewrite decide_False by done. by rewrite IH. }
  assert (c_str s = s) as Es by (by apply c_str_no_nul).
  unfold strAnsiToUnicode, strUnicodeToAnsi. rewrite Es, H1, Ew. split; [done|].
  case_decide as E; [|rewrite H2; exact (f_equal Ok Es)].
  f_equal. symmetry. by apply Hn.
Qed.
End conversions.

(** A code page with one byte for each unit below 256. *)
Definition latin1 : code_page := {|
  WideCharToMultiByte w := Some (of_code <$> w);
  MultiByteToWideChar s := Some (code <$> s) |}.
