(* ===== verification/Modules.v ===== *)
(** * The module classes ([src/modules/pandora_module_*.cc])

    One constructor and one [run] per class; the state a class adds to
    [Pandora_Module] is a constructor of [child].  The operating system (WMI,
    processes, sockets, performance counters, event log, files) answers through
    arguments; the time of the run is the argument [now]. *)
From S2P Require Import Prelude StdString Scanf Strutils PandoraData PandoraModule.
From S2P Require Wmi.

(** ** The standard library *)

(** [transform (..., toupper)] in the C locale. *)
Definition toupper (c : chr) : chr :=
  if decide (97 ≤ code c ≤ 122)%Z then of_code (code c - 32) else c.

(** [strtoul (s, NULL, 0)]: sign, base prefix, digits of the base; the value
    saturates and is negated modulo 2^32 when the sign is a minus. *)
Definition digit_of (c : chr) : Z :=
  let k := code c in
  if ((48 <=? k) && (k <=? 57))%Z%bool then (k - 48)%Z
  else if ((97 <=? k) && (k <=? 122))%Z%bool then (k - 87)%Z
  else if ((65 <=? k) && (k <=? 90))%Z%bool then (k - 55)%Z
  else 36%Z.
Definition in_base (b : Z) (c : chr) : bool := (digit_of c <? b)%Z.
Definition base_of (s : str) : Z * str :=
  match s with
  | z :: x :: d :: s' =>
      if bool_decide (z = "0"%char ∧ (x = "x"%char ∨ x = "X"%char)) && in_base 16 d
      then (16%Z, d :: s')
      else if bool_decide (z = "0"%char) then (8%Z, s) else (10%Z, s)
  | z :: _ => if bool_decide (z = "0"%char) then (8%Z, s) else (10%Z, s)
  | [] => (10%Z, s)
  end.
Definition strtoul0 (s : str) : Z :=
  let '(neg, s) := scan_sign (skip_ws (c_str s)) in
  let '(b, s) := base_of s in
  let v := fold_left (λ a c, (b * a + digit_of c)%Z) (takewhile (in_base b) s) 0%Z in
  if (2 ^ 32 <=? v)%Z then (2 ^ 32 - 1)%Z
  else u32 (if (neg : bool) then - v else v).

(** ** The state of the classes *)

Inductive child :=
  | C_exec (module_exec : str) (proc : Z)
  | C_plugin (module_exec : str) (proc : Z)
  | C_proc (process_name : str) (watchdog : bool) (start_command : str)
           (retries start_delay retry_delay : Z)
  | C_service (service_name : str) (watchdog : bool)
  | C_freedisk (disk_id : str)
  | C_freedisk_percent (disk_id : str)
  | C_freememory
  | C_freememory_percent
  | C_cpuusage (cpu_id : Z)
  | C_inventory (options : str) (interval_fixed : Z)
  | C_logevent (source : str) (type : Z) (id : Z) (pattern application : str) (first_run : Z)
               (log_event : bool)
  | C_wmiquery (query column : str)
  | C_perfcounter (source : str) (cooked : Z)
  | C_tcpcheck (address : str) (port timeout : Z)
  | C_regexp (source pattern : str) (no_seek_eof : Z) (size : Z) (position : option nat).

(** A module object: the fields of the base class and those of its own. *)
Record object := { base : Pandora_Module; own : child }.

(** ** Constructors *)

(** Each takes the base object that [Pandora_Module (name)] made. *)
Definition Exec_new (exec : str) (m : Pandora_Module) : object :=
  {| base := setKind (&"module_exec") m; own := C_exec (cmd_exe exec) 0 |}.

Definition Proc_new (process_name : str) (m : Pandora_Module) : object :=
  {| base := setKind (&"module_proc") m;
     own := C_proc (tolower <$> process_name) false [] 3 5000 2000 |}.

Definition Service_new (service_name : str) (m : Pandora_Module) : object :=
  {| base := setKind (&"module_service") m; own := C_service (tolower <$> service_name) false |}.

Definition Freedisk_new (disk_id : str) (m : Pandora_Module) : object :=
  {| base := setKind (&"module_freedisk") m; own := C_freedisk (toupper <$> disk_id) |}.
Definition Freedisk_Percent_new (disk_id : str) (m : Pandora_Module) : object :=
  {| base := setKind (&"module_freedisk_percent") m;
     own := C_freedisk_percent (toupper <$> disk_id) |}.
Definition Freememory_new (m : Pandora_Module) : object :=
  {| base := setKind (&"module_freememory") m; own := C_freememory |}.
Definition Freememory_Percent_new (m : Pandora_Module) : object :=
  {| base := setKind (&"module_freememory_percent") m; own := C_freememory_percent |}.
Definition Cpuusage_new (cpu_id : Z) (m : Pandora_Module) : object :=
  {| base := setKind (&"module_cpuusage") m; own := C_cpuusage cpu_id |}.
Definition Inventory_new (options : str) (m : Pandora_Module) : object :=
  {| base := setKind (&"module_inventory") m; own := C_inventory options 0 |}.

(** The event types of [winnt.h]. *)
Definition event_types : list (str * Z) :=
  [(&"ERROR", 1%Z); (&"WARNING", 2%Z); (&"INFORMATION", 4%Z); (&"AUDIT SUCCESS", 8%Z);
   (&"AUDIT FAILURE", 16%Z)].
Definition Logevent_new (source type id pattern application : str) (m : Pandora_Module)
    : object :=
  {| base := setKind (&"module_logevent") m;
     own := C_logevent source (string_switch event_types (toupper <$> type) (-1)%Z)
              (strtoul0 id) pattern application 1 false |}.
Definition WMIQuery_new (query column : str) (m : Pandora_Module) : object :=
  {| base := setKind (&"module_wmiquery") m; own := C_wmiquery query column |}.
Definition Perfcounter_new (source cooked : str) (m : Pandora_Module) : object :=
  {| base := setKind (&"module_perfcounter") m;
     own := C_perfcounter source (if decide (first_char cooked = "1"%char) then 1 else 0) |}.
Definition Tcpcheck_new (address port timeout : str) (m : Pandora_Module) : object :=
  {| base := setKind (&"module_tcpcheck") m;
     own := C_tcpcheck address (atoi port)
              (if (atoi timeout <? 1)%Z then 3%Z else atoi timeout) |}.
Definition Regexp_new (source pattern : str) (no_seek_eof : Z) (m : Pandora_Module) : object :=
  {| base := setKind (&"module_regexp") m; own := C_regexp source pattern no_seek_eof 0 None |}.

Definition INT_MAX : Z := 2147483647.

(** The base object is the one [Pandora_Module ("plugin")] made. *)
Definition Plugin_new (plugin : str) (m : Pandora_Module) : object :=
  {| base := setTimeout INT_MAX (setKind (&"module_plugin") (base (Exec_new plugin m)));
     own := C_plugin (cmd_exe plugin) 0 |}.

Definition ping_command (host count timeout advanced_options : str) : str :=
  &"ping -n " ++ count ++ &" -w " ++ timeout ++ &" " ++ advanced_options ++ &" " ++ host.
Definition Ping_new (host count timeout advanced_options : str) (m : Pandora_Module) : object :=
  {| base := setKind (&"module_ping")
               (base (Exec_new (ping_command host count timeout advanced_options) m));
     own := C_exec (cmd_exe (ping_command host count timeout advanced_options)) 1 |}.

(** The command ends in [tr.exe -d \], a quotation mark, [\n]. *)
Definition snmpget_command (version community agent oid advanced_options : str) : str :=
  &"snmpget.exe -OUevqt -v " ++ version ++ &" -c " ++ community ++ &" " ++
  advanced_options ++ &" " ++ agent ++ &" " ++ oid ++ &" 2>nul | tr.exe -d \" ++ [QUOTE] ++
  &"\n".
Definition SNMPGet_new (version community agent oid advanced_options : str)
    (m : Pandora_Module) : object :=
  {| base := setKind (&"module_snmpget")
       (base (Exec_new (snmpget_command version community agent oid advanced_options) m));
     own := C_exec (cmd_exe (snmpget_command version community agent oid advanced_options)) 0 |}.

(** ** Accessors of the watchdog classes *)

Definition setWatchdog (w : bool) (o : object) : object :=
  match own o with
  | C_proc p _ sc r sd rd => {| base := base o; own := C_proc p w sc r sd rd |}
  | C_service s _ => {| base := base o; own := C_service s w |}
  | _ => o
  end.
Definition setStartCommand (command : str) (o : object) : object :=
  match own o with
  | C_proc p w _ r sd rd => {| base := base o; own := C_proc p w command r sd rd |}
  | _ => o
  end.
Definition setRetries (retries : Z) (o : object) : object :=
  match own o with
  | C_proc p w sc r sd rd =>
      if (retries <? 1)%Z then o else {| base := base o; own := C_proc p w sc retries sd rd |}
  | _ => o
  end.
Definition setStartDelay (mseconds : Z) (o : object) : object :=
  match own o with
  | C_proc p w sc r sd rd =>
      if (mseconds <? 0)%Z then o else {| base := base o; own := C_proc p w sc r mseconds rd |}
  | _ => o
  end.
Definition setRetryDelay (mseconds : Z) (o : object) : object :=
  match own o with
  | C_proc p w sc r sd rd =>
      if (mseconds <? 0)%Z then o else {| base := base o; own := C_proc p w sc r sd mseconds |}
  | _ => o
  end.

(** ** [run]: the common pattern *)

(** [try { Pandora_Module::run (); } catch (Interval_Not_Fulfilled) { return; }]
    followed by [k]. *)
Definition on_interval (k : Pandora_Module → res Pandora_Module) (m : Pandora_Module)
    : res Pandora_Module :=
  let! (m, thrown) := run m in
  if (thrown : bool) then Ok m else k m.

(** A measurement that throws [Pandora_Wmi_Exception] ([None]) leaves no
    output. *)
Definition measured (now : SYSTEMTIME) (value : option str) (m : Pandora_Module)
    : res Pandora_Module :=
  match value with
  | Some v => Ok (setOutput now v m)
  | None => Ok (upd_has_output false m)
  end.

(** ** [Pandora_Module_Exec::run] *)

(** One turn of the wait loop: what [WaitForSingleObject] returns, the bytes
    read from the pipe (none when nothing is available), the tick count. *)
Inductive wait := WAIT_OBJECT_0 | WAIT_TIMEOUT | WAIT_ABANDONED | WAIT_FAILED.
Record poll := { dwRet : wait; chunk : str; tick : Z }.

#[global] Instance wait_eq_dec : EqDecision wait.
Proof. solve_decision. Defined.

(** The wait loop: the output collected and whether the process was
    terminated; [None] when the polls end before the loop does. *)
Fixpoint wait_loop (timeout tickbase : Z) (polls : list poll) (output : str)
    : option (str * bool) :=
  match polls with
  | [] => None
  | p :: polls =>
      if decide (dwRet p = WAIT_ABANDONED) then Some (output, false)
      else
        let output := output ++ c_str (chunk p) in
        if decide (dwRet p = WAIT_OBJECT_0) then Some (output, false)
        else if (u32 timeout <? u32 (tick p - tickbase))%Z then Some (output, true)
        else wait_loop timeout tickbase polls output
  end.

(** The fate of the process: no job or pipe, no process, or the polls and the
    exit code read after the loop. *)
Inductive launch :=
  | No_job
  | No_pipe
  | No_process
  | Launched (tickbase : Z) (polls : list poll) (retval : Z).

(** [Pandora_Module_Exec::run] ([None]: the wait loop has not ended). *)
Definition Exec_run (l : launch) (now : SYSTEMTIME) (proc : Z) (m : Pandora_Module)
    : option (res Pandora_Module) :=
  match run m with
  | Ok (m, true) => Some (Ok (upd_has_output false m))
  | Ok (m, false) =>
      match l with
      | No_job | No_pipe | No_process => Some (Ok (upd_has_output false m))
      | Launched tickbase polls retval =>
          match wait_loop (getTimeout m) tickbase polls [] with
          | None => None
          | Some (output, _) =>
              let m := if decide (retval ≠ 0)%Z then upd_has_output false m else m in
              if decide (proc = 1)%Z then
                if decide (retval = 0)%Z then Some (Ok (setOutput now (&"1") m))
                else Some (Ok (upd_has_output true (setOutput now (&"0") m)))
              else Some (Ok (setOutput now output m))
          end
      end
  | Err e => Some (Err e)
  | Undef => Some Undef
  end.

(** [Pandora_Module_Plugin::getXml]: the first value as it is. *)
Definition Plugin_getXml (m : Pandora_Module) : res (str * Pandora_Module) :=
  let! value := match data_list m with
                | None => Ok []
                | Some ds => let! d := front ds in Ok (data_getValue d)
                end in
  Ok (value, cleanDataList m).

(** ** The modules that query WMI *)

Section wmi_modules.
Context (ExecQuery : str → Wmi.answer).

(** [Pandora_Module_Proc::run], [Pandora_Module_Service::run]: the module,
    and whether the thread of an asynchronous module is started. *)
Definition start_async (m : Pandora_Module) : Pandora_Module * bool :=
  if async m then (upd_async false m, true) else (m, false).

Definition Proc_run (process_name : str) (now : SYSTEMTIME) (m : Pandora_Module)
    : res (Pandora_Module * bool) :=
  let! (m, thrown) := run m in
  if (thrown : bool) then Ok (m, false)
  else
    Ok (start_async (setOutput now (inttostr (Wmi.isProcessRunning ExecQuery process_name)) m)).

Definition Service_run (service_name : str) (now : SYSTEMTIME) (m : Pandora_Module)
    : res (Pandora_Module * bool) :=
  let! (m, thrown) := run m in
  if (thrown : bool) then Ok (m, false)
  else
    let! res := Wmi.isServiceRunning ExecQuery service_name in
    Ok (start_async (setOutput now (inttostr res) m)).

(** The [long res] the functions assign their result to, in text. *)
Definition long_output (z : Z) : str := longtostr (s32 z).

Definition Freedisk_run (disk_id : str) (now : SYSTEMTIME) : Pandora_Module → res Pandora_Module :=
  on_interval (λ m,
    let! r := Wmi.getDiskFreeSpace ExecQuery disk_id in measured now (long_output <$> r) m).
Definition Freedisk_Percent_run (disk_id : str) (now : SYSTEMTIME)
    : Pandora_Module → res Pandora_Module :=
  on_interval (λ m,
    let! r := Wmi.getDiskFreeSpacePercent ExecQuery disk_id in
    measured now (long_output <$> r) m).
Definition Freememory_run (now : SYSTEMTIME) : Pandora_Module → res Pandora_Module :=
  on_interval (λ m,
    let! r := Wmi.getFreememory ExecQuery in measured now (long_output <$> r) m).
Definition Freememory_Percent_run (now : SYSTEMTIME) : Pandora_Module → res Pandora_Module :=
  on_interval (λ m,
    let! r := Wmi.getFreememoryPercent ExecQuery in measured now (long_output <$> r) m).
Definition Cpuusage_run (cpu_id : Z) (now : SYSTEMTIME) : Pandora_Module → res Pandora_Module :=
  on_interval (λ m,
    let! r := Wmi.getCpuUsagePercentage ExecQuery cpu_id in
    measured now (inttostr <$> r) m).

(** [Pandora_Module_WMIQuery::run]. *)
Definition WMIQuery_run (query column : str) (now : SYSTEMTIME)
    : Pandora_Module → res Pandora_Module :=
  on_interval (λ m,
    if decide (query = [] ∨ column = []) then Ok m
    else
      let! rows := Wmi.runWMIQuery ExecQuery query column [] in
      match rows with
      | [] => Ok (setOutput now [] m)
      | _ => Ok (fold_left (λ m row, setOutput now row m) rows m)
      end).

(** ** [Pandora_Module_Inventory] *)

(** [setOutput (output)] and [setOutput (output, data_origin)] of the class:
    the inventory list. *)
Definition push_inventory (d : Pandora_Data) (m : Pandora_Module) : Pandora_Module :=
  upd_inventory_list (Some (default [] (inventory_list m) ++ [d])) m.
Definition Inventory_setOutput (now : SYSTEMTIME) (output : str) (m : Pandora_Module)
    : Pandora_Module :=
  upd_latest_output output (push_inventory (new_data now output) m).
Definition Inventory_setOutput_from (now : SYSTEMTIME) (output origin : str)
    (m : Pandora_Module) : Pandora_Module :=
  push_inventory (new_data_origin now output origin) m.

(** The sections of [run] in order: the word of [options], the query, and
    whether a row sets [has_output]. [getSoftware] of [pandora_windows_info]
    reads the registry: it is the argument [software]. *)
Definition sections (software : list str) : list (str * (list str → res (list str * Z)) * bool) :=
  [(&"CDROM", Wmi.getCdRomInfo ExecQuery, true); (&"Video", Wmi.getVideoInfo ExecQuery, true);
   (&"HD", Wmi.getHDsInfo ExecQuery, true); (&"CPU", Wmi.getCPUsInfo ExecQuery, true);
   (&"NIC", Wmi.getNICsInfo ExecQuery, true); (&"Patches", Wmi.getPatchInfo ExecQuery, true);
   (&"RAM", Wmi.getRAMInfo ExecQuery, true);
   (&"Software", λ rows, Ok (rows ++ software, Z.of_nat (length software)), false);
   (&"Services", Wmi.getServices ExecQuery, false)].

Fixpoint inventory_sections (now : SYSTEMTIME) (options : str)
    (secs : list (str * (list str → res (list str * Z)) * bool)) (m : Pandora_Module)
    : res Pandora_Module :=
  match secs with
  | [] => Ok m
  | (word, get, sets) :: secs =>
      match find word options with
      | None => inventory_sections now options secs m
      | Some _ =>
          let! (rows, _) := get [] in
          let add m row :=
            let m := Inventory_setOutput_from now row word m in
            if (sets : bool) then upd_has_output true m else m in
          inventory_sections now options secs (fold_left add rows m)
      end
  end.

(** [run] with [agent_interval] in milliseconds ([Pandora_Windows_Service::interval]):
    the new [interval_fixed] and module. *)
Definition Inventory_run (agent_interval : Z) (software : list str) (options : str)
    (interval_fixed : Z) (now : SYSTEMTIME) (m : Pandora_Module) : res (Pandora_Module * Z) :=
  let! (m, interval_fixed) :=
    if decide (interval_fixed = 0)%Z then
      if decide (Z.quot agent_interval 1000 = 0)%Z then Undef
      else Ok (setInterval
             (Z.quot (s32 (getInterval m * 86400)) (Z.quot agent_interval 1000)) m, 1%Z)
    else Ok (m, interval_fixed) in
  let! (m, thrown) := run (upd_has_output false m) in
  if (thrown : bool) then Ok (m, interval_fixed)
  else let! m := inventory_sections now options (sections software) m in Ok (m, interval_fixed).
End wmi_modules.

(** [Pandora_Module_Inventory::getXml]: the loop with [prev_module]. *)
Fixpoint inventory_xml_loop (m : Pandora_Module) (ds : list Pandora_Data) (prev_module : str)
    : res str :=
  match ds with
  | [] => Ok []
  | d :: ds =>
      let current_module := getDataOrigin d in
      let head :=
        if decide (current_module = prev_module) then []
        else
          (if decide (prev_module = []) then []
           else TABS 3 ++ &"</datalist>" ++ NL ++ TABS 2 ++ &"</inventory_module>" ++ NL) ++
          TABS 2 ++ &"<inventory_module>" ++ NL ++ TABS 3 ++ &"<name><![CDATA[" ++
          current_module ++ &"]]></name>" ++ NL ++ TABS 3 ++ &"<type><![CDATA[" ++
          module_type_str m ++ &"]]></type>" ++ NL ++ TABS 3 ++ &"<datalist>" ++ NL in
      let! c := data_clean m d in
      match c with
      | None => let! rest := inventory_xml_loop m ds prev_module in Ok (head ++ rest)
      | Some value =>
          let! rest := inventory_xml_loop m ds current_module in
          Ok (head ++ TABS 4 ++ &"<data><![CDATA[" ++ value ++ &"]]></data>" ++ NL ++ rest)
      end
  end.
Definition Inventory_getXml (m : Pandora_Module) : res (str * Pandora_Module) :=
  match has_output m, inventory_list m with
  | true, Some ds =>
      let! xml :=
        if decide (1 < length ds) then
          let! body := inventory_xml_loop m ds [] in
          Ok (TABS 1 ++ &"<inventory>" ++ NL ++ body ++ TABS 3 ++ &"</datalist>" ++ NL ++
              TABS 2 ++ &"</inventory_module>" ++ NL ++ TABS 1 ++ &"</inventory>" ++ NL)
        else Ok [] in
      Ok (xml, cleanDataList m)
  | _, _ => Ok ([], m)
  end.

(** ** [Pandora_Module_Perfcounter::run] *)

(** The calls of [pdh.dll] that succeed, in the order of the code, and the
    value read: the last call's status is not looked at ([None]: the variable
    was not written). *)
Record pdh := { pdh_loaded : bool; open_query : bool; add_counter : bool; collect : bool;
                collect_again : bool; formatted : option Z; raw : option Z }.
Definition Perfcounter_run (p : pdh) (cooked : Z) (now : SYSTEMTIME)
    : Pandora_Module → res Pandora_Module :=
  on_interval (λ m,
    if negb (pdh_loaded p && open_query p && add_counter p && collect p) then Ok m
    else if decide (cooked = 1)%Z then
      if negb (collect_again p) then Ok m
      else match formatted p with Some v => Ok (setOutput now (dec v) m) | None => Undef end
    else match raw p with Some v => Ok (setOutput now (dec v) m) | None => Undef end).

(** ** [Pandora_Module_Tcpcheck::run] *)

Inductive connection := Connected | Would_block | Connect_error.
Record network := { socket_ok : bool; resolved : bool; connect : connection; select : Z }.
Definition Tcpcheck_run (n : network) (address : str) (now : SYSTEMTIME)
    : Pandora_Module → res Pandora_Module :=
  on_interval (λ m,
    if decide (address = []) then Ok m
    else if negb (socket_ok n) then Ok m
    else if negb (resolved n) then Ok m
    else match connect n with
         | Connect_error => Ok m
         | _ => Ok (setOutput now (if decide (select n = 0)%Z then &"0" else &"1") m)
         end).

(** ** [Pandora_Module_Regexp] *)

Section regexp.
(** What [regcomp] makes of an extended pattern, as [regexec] uses it: whether a string
    matches.  [None] when the pattern is rejected; the constructor logs that and goes on,
    and [regexec] on such a [regex_t] has no meaning. *)
Context (regcomp : str → option (str → bool)).

(** A file on disk: its size ([st_size]) and its text; [None] when it cannot
    be opened.  The open stream of the module is a position in the text. *)
Definition file := option (Z * str).

(** [restart]: opens the file again, at the end unless [no_seek_eof]. *)
Definition restart (f : file) (no_seek_eof : Z) : option nat :=
  match f with
  | None => None
  | Some (_, text) => Some (if decide (no_seek_eof = 0)%Z then length text else 0)
  end.

(** The opening steps of [run]: the new size and stream. *)
Definition reopen (f : file) (no_seek_eof size : Z) (position : option nat)
    : Z * option nat :=
  let position := match position with None => restart f no_seek_eof | p => p end in
  match f with
  | Some (st_size, _) =>
      if decide (no_seek_eof = 0)%Z then
        (st_size, if (st_size <? size)%Z then restart f 1 else position)
      else (size, position)
  | None => (size, position)
  end.

(** The reading loop: the module after the outputs, the number of matches. *)
Fixpoint match_lines (pattern : str) (now : SYSTEMTIME) (type : Module_Type) (lines : list str)
    (m : Pandora_Module) (count : Z) : res (Pandora_Module * Z) :=
  match lines with
  | [] => Ok (m, count)
  | line :: lines =>
      if decide (line = []) then match_lines pattern now type lines m count
      else
        match regcomp pattern with
        | None => Undef
        | Some regexec =>
            if regexec (c_str line) then
              let m := if decide (type = TYPE_GENERIC_DATA_STRING ∨ type = TYPE_ASYNC_STRING)
                       then setOutput now line m
                       else if decide (type = TYPE_LOG) then setOutput now (line ++ [LF]) m
                       else m in
              match_lines pattern now type lines m (s32 (count + 1))
            else match_lines pattern now type lines m count
        end
  end.

(** [run]: the module, the size and the stream. *)
Definition Regexp_run (f : file) (pattern : str) (no_seek_eof size : Z)
    (position : option nat) (now : SYSTEMTIME) (m : Pandora_Module)
    : res (Pandora_Module * Z * option nat) :=
  let type := getModuleType m in
  let! (m, thrown) := run m in
  if (thrown : bool) then Ok (m, size, position)
  else
    let '(size, position) := reopen f no_seek_eof size position in
    match position with
    | None => Ok (m, size, None)
    | Some pos =>
        let text := default [] (snd <$> f) in
        let lines := getlines (drop pos text) in
        let! (m, count) := match_lines (c_str pattern) now type lines m 0 in
        let m :=
          if is_string_type type then m
          else if decide (type = TYPE_GENERIC_PROC ∨ type = TYPE_ASYNC_PROC)
          then setOutput now (if (0 <? count)%Z then &"1" else &"0") m
          else setOutput now (dec count) m in
        Ok (m, size, if decide (no_seek_eof = 1)%Z then None
                     else Some (Nat.max pos (length text)))
    end.
End regexp.

(** ** [Pandora_Module_Logevent] *)

(** A record of the event log; the strings follow the fixed part. *)
Record event := mk_event { EventID : Z; EventType : Z; TimeGenerated : Z; SourceName : str;
                           ComputerName : str; UserName : option str; Strings : list str }.

(** The answers of [ReadEventLog]: a buffer too small (and whether [realloc]
    succeeds), the log cleared or corrupt, another error, or events (none when
    the end is reached). *)
Inductive read_result :=
  | Insufficient_buffer (realloc_ok : bool)
  | Log_changed
  | Read_error
  | Events (es : list event).

Definition TIMESTAMP_LEN : nat := 19.
Definition EVENT_ID_MASK : Z := 65535.

Section logevent.
(** As for the lines of a file. *)
Context (regcomp : str → option (str → bool)).
(** [localtime]; what [getEventDescriptionXPATH] and [getEventDescription] (by the
    flags of [LoadLibraryEx]) give. *)
Context (localtime : Z → SYSTEMTIME) (xpath : event → res str) (message : Z → event → res str).

(** [filterEvent]. *)
Definition filterEvent (type id : Z) (pattern application : str) (e : event)
    (description : str) : res Z :=
  if ((0 <? id) && negb (id =? Z.land (EventID e) EVENT_ID_MASK))%Z%bool then Ok (-1)%Z
  else if (negb (type =? -1) && negb (type =? EventType e))%Z%bool then Ok (-1)%Z
  else if bool_decide (application ≠ []) && bool_decide (application ≠ SourceName e)
  then Ok (-1)%Z
  else if decide (pattern = []) then Ok 0%Z
  else
    match regcomp (c_str pattern) with
    | None => Undef
    | Some regexec => Ok (if regexec (c_str description) then 0 else -1)%Z
    end.

Definition or_else (d : str) (k : res str) : res str := if decide (d ≠ []) then Ok d else k.
Definition description_of (e : event) : res str :=
  let! d := xpath e in
  or_else d (let! d := message 34 e in
  or_else d (let! d := message 1 e in
  or_else d (Ok &"N/A"))).

(** The text of one event; the time does not fit its buffer from year 10000 on. *)
Definition event_text (type : Module_Type) (e : event) (description : str) : res str :=
  let timestamp := format_time (localtime (TimeGenerated e)) in
  if decide (length timestamp ≠ TIMESTAMP_LEN) then Undef
  else Ok (timestamp ++
    (if decide (type = TYPE_LOG) then
       &"[Timestamp: " ++ timestamp ++ &"]" ++
       &"[ID: " ++ dec (Z.land (EventID e) 1073741823) ++ &"]" ++
       &" [Source: " ++ SourceName e ++ &"]" ++
       &" [Computer: " ++ ComputerName e ++ &"]" ++
       &" [User: " ++ default (&"N/A") (UserName e) ++ &"]"
     else []) ++ &" " ++ description).

Fixpoint events_text (mtype : Module_Type) (type id : Z) (pattern application : str)
    (es : list event) : res (list str) :=
  match es with
  | [] => Ok []
  | e :: es =>
      let! description := description_of e in
      let! filtered := filterEvent type id pattern application e description in
      if decide (filtered = 0)%Z then
        let! t := event_text mtype e description in
        let! ts := events_text mtype type id pattern application es in Ok (t :: ts)
      else events_text mtype type id pattern application es
  end.

(** [getLogEvents]: the events after [acc], the result, and whether the log is
    still open; [None] when the answers end before the loop does. *)
Fixpoint read_loop (mtype : Module_Type) (type id : Z) (pattern application : str)
    (discard : bool) (reads : list read_result) (acc : list str)
    : option (res (list str * Z * bool)) :=
  match reads with
  | [] => None
  | Insufficient_buffer true :: reads => read_loop mtype type id pattern application discard reads acc
  | Insufficient_buffer false :: _ => Some (Ok (acc, -1, true))%Z
  | Log_changed :: _ => Some (Ok (acc, -1, false))%Z
  | Read_error :: _ => Some (Ok (acc, -1, true))%Z
  | Events [] :: _ => Some (Ok (acc, 0, true))%Z
  | Events es :: reads =>
      if discard then read_loop mtype type id pattern application discard reads acc
      else
        match events_text mtype type id pattern application es with
        | Ok ts => read_loop mtype type id pattern application discard reads (acc ++ ts)
        | Err x => Some (Err x)
        | Undef => Some Undef
        end
  end.

(** [timestampToSystemtime]: the fields are 16-bit. *)
Definition field_at (timestamp : str) (pos len : nat) : Z :=
  u16 (atoi (take len (drop pos timestamp))).
Definition timestampToSystemtime (timestamp : str) : SYSTEMTIME :=
  {| wYear := field_at timestamp 0 4; wMonth := field_at timestamp 5 2;
     wDay := field_at timestamp 8 2; wHour := field_at timestamp 11 2;
     wMinute := field_at timestamp 14 2; wSecond := field_at timestamp 17 2 |}.

(** The loop of [run] over the list of events. *)
Definition store_event (m : Pandora_Module) (ev : str) : Pandora_Module :=
  if decide (length ev < TIMESTAMP_LEN) then m
  else setOutput_at (drop TIMESTAMP_LEN ev) (timestampToSystemtime (take TIMESTAMP_LEN ev)) m.

(** [openLogEvent]: whether the log is open afterwards, and [first_run].
    [opens] is the answer of [OpenEventLog], [old] those to the reads that
    discard the events already there (not in debug mode). *)
Definition openLogEvent (mtype : Module_Type) (opens debug : bool) (old : list read_result)
    (first_run : Z) (log_event : bool) : option (res (Z * bool)) :=
  if log_event then Some (Ok (first_run, true))
  else if negb opens then Some (Ok (first_run, false))
  else if decide (first_run = 1)%Z then
    if debug then Some (Ok (0%Z, true))
    else match read_loop mtype (-1) 0 [] [] true old [] with
         | None => None
         | Some (Ok (_, _, still)) => Some (Ok (0%Z, still))
         | Some (Err e) => Some (Err e)
         | Some Undef => Some Undef
         end
  else Some (Ok (first_run, true)).

(** [run]: the module, [first_run] and whether the log stays open. *)
Definition Logevent_run (opens debug : bool) (old reads : list read_result)
    (type id : Z) (pattern application : str) (first_run : Z) (log_event : bool)
    (m : Pandora_Module) : option (res (Pandora_Module * Z * bool)) :=
  match run m with
  | Err e => Some (Err e)
  | Undef => Some Undef
  | Ok (m, true) => Some (Ok (m, first_run, log_event))
  | Ok (m, false) =>
      match openLogEvent (getModuleType m) opens debug old first_run log_event with
      | None => None
      | Some (Err e) => Some (Err e)
      | Some Undef => Some Undef
      | Some (Ok (first_run, false)) => Some (Ok (m, first_run, false))
      | Some (Ok (first_run, true)) =>
          match read_loop (getModuleType m) type id pattern application false reads [] with
          | None => None
          | Some (Err e) => Some (Err e)
          | Some Undef => Some Undef
          | Some (Ok (event_list, _, still)) =>
              Some (Ok (fold_left store_event event_list m, first_run, still))
          end
      end
  end.
End logevent.

(** ** Lemmas *)

Lemma wait_loop_output timeout tickbase ws last output :
  Forall (λ p, (dwRet p = WAIT_TIMEOUT ∨ dwRet p = WAIT_FAILED) ∧
               (u32 (tick p - tickbase) ≤ u32 timeout)%Z) ws →
  dwRet last = WAIT_OBJECT_0 →
  wait_loop timeout tickbase (ws ++ [last]) output =
    Some (output ++ concat ((λ p, c_str (chunk p)) <$> ws ++ [last]), false).
Proof.
  intros Hws Hl. revert output; induction Hws as [|p ws [Hp Ht] _ IH]; intros output; simpl.
  - rewrite decide_False, decide_True by congruence. by rewrite app_nil_r.
  - rewrite decide_False, decide_False by (destruct Hp; congruence).
    destruct (Z.ltb_spec (u32 timeout) (u32 (tick p - tickbase))); [lia|].
    rewrite IH, <- app_assoc. done.
Qed.

Lemma wait_loop_ends timeout tickbase polls output i p :
  polls !! i = Some p → (u32 timeout < u32 (tick p - tickbase))%Z →
  is_Some (wait_loop timeout tickbase polls output).
Proof.
  revert i output; induction polls as [|q polls IH]; intros i output Hi Ht; [done|].
  cbn [wait_loop]. case_decide; [by eexists|]. case_decide; [by eexists|].
  destruct (Z.ltb_spec (u32 timeout) (u32 (tick q - tickbase))); [by eexists|].
  destruct i as [|i]; simplify_eq/=; [lia|]. by apply (IH i).
Qed.

(** [run] on an interval that is due. *)
Definition due (m : Pandora_Module) : Prop :=
  (intensive_interval m ≠ 0 ∧ Z.rem (executions m) (intensive_interval m) = 0)%Z.

Lemma run_due m : due m →
  run m = Ok (upd_has_output true (upd_executions (s32 (executions m + 1)) m), false).
Proof. intros [H0 H]. unfold run. rewrite decide_False by done. by rewrite decide_False by lia. Qed.

(** The loop has a meaning when the pattern compiles, or no line is tried. *)
Lemma match_lines_spec regcomp regexec pattern now type lines m count :
  let ok := filter (λ l, l ≠ [] ∧ regexec (c_str l) = true) lines in
  regcomp pattern = Some regexec →
  in_s 32 count → in_s 32 (count + Z.of_nat (length lines)) →
  match_lines regcomp pattern now type lines m count =
    Ok (fold_left (λ m l,
       if decide (type = TYPE_GENERIC_DATA_STRING ∨ type = TYPE_ASYNC_STRING)
       then setOutput now l m
       else if decide (type = TYPE_LOG) then setOutput now (l ++ [LF]) m else m) ok m,
     count + Z.of_nat (length ok))%Z.
Proof.
  simpl. intros Hre. revert m count; induction lines as [|l lines IH]; intros m count Hc Hl.
  { simpl. by rewrite Z.add_0_r. }
  cbn [match_lines]. rewrite Hre. rewrite length_cons in Hl. unfold in_s in *. rewrite filter_cons.
  destruct (decide (l = [])) as [->|Hne].
  { destruct (decide ([] ≠ [] ∧ _)) as [[]|_]; [done|]. apply IH; unfold in_s; lia. }
  destruct (decide (l ≠ [] ∧ _)) as [[_ E]|E].
  - rewrite E, wrap_s_small by (unfold in_s; lia).
    rewrite IH by (unfold in_s; lia). do 2 f_equal. rewrite length_cons. lia.
  - destruct (regexec (c_str l)); [by destruct E|]. apply IH; unfold in_s; lia.
Qed.

Lemma match_lines_rejected regcomp pattern now type line lines m count :
  regcomp pattern = None → line ≠ [] →
  match_lines regcomp pattern now type (line :: lines) m count = Undef.
Proof. intros Hre Hne. cbn [match_lines]. by rewrite decide_False, Hre. Qed.

Lemma atoi_dec02 z : (0 ≤ z < 100)%Z → atoi (dec02 z) = z.
Proof.
  intros Hz. assert (∃ n, n < 100 ∧ z = Z.of_nat n) as (n & Hn & ->) by (exists (Z.to_nat z); lia).
  clear Hz. do 100 (destruct n as [|n]; [vm_compute; reflexivity|]). lia.
Qed.

(** The local times of events: four-digit years. *)
Definition event_time (t : SYSTEMTIME) : Prop :=
  (1000 ≤ wYear t < 10000)%Z ∧ (1 ≤ wMonth t ≤ 12)%Z ∧ (1 ≤ wDay t ≤ 31)%Z ∧
  (0 ≤ wHour t ≤ 23)%Z ∧ (0 ≤ wMinute t ≤ 59)%Z ∧ (0 ≤ wSecond t ≤ 60)%Z.

Lemma format_time_length t : event_time t → length (format_time t) = TIMESTAMP_LEN.
Proof.
  intros (Hy & Hm & Hd & Hh & Hmi & Hs). unfold format_time.
  rewrite !length_app, !dec02_length, dec_length_4 by lia. done.
Qed.

Lemma length_2_inv {A} (l : list A) : length l = 2 → ∃ a b, l = [a; b].
Proof. destruct l as [|a [|b [|]]]; simpl; intros; simplify_eq; eauto. Qed.
Lemma length_4_inv {A} (l : list A) : length l = 4 → ∃ a b c d, l = [a; b; c; d].
Proof. destruct l as [|a [|b [|c [|d [|]]]]]; simpl; intros; simplify_eq; eauto 6. Qed.

Lemma timestampToSystemtime_format t :
  event_time t → timestampToSystemtime (format_time t) = t.
Proof.
  intros (Hy & Hm & Hd & Hh & Hmi & Hs).
  assert (E4 : u16 (atoi (dec (wYear t))) = wYear t)
    by (rewrite atoi_dec by (unfold in_s; lia); apply wrap_u_small; unfold in_u; lia).
  assert (E2 : ∀ z, (0 ≤ z < 100)%Z → u16 (atoi (dec02 z)) = z)
    by (intros z Hz; rewrite atoi_dec02 by lia; apply wrap_u_small; unfold in_u; lia).
  pose proof (E2 (wMonth t)) as Em. pose proof (E2 (wDay t)) as Ed.
  pose proof (E2 (wHour t)) as Eh. pose proof (E2 (wMinute t)) as Ei.
  pose proof (E2 (wSecond t)) as Es. clear E2.
  unfold timestampToSystemtime, field_at, format_time. destruct t as [y mo d h mi s]. simpl in *.
  destruct (length_4_inv (dec y)) as (? & ? & ? & ? & Ey); [by apply dec_length_4|].
  destruct (length_2_inv (dec02 mo)) as (? & ? & Emo); [apply dec02_length; lia|].
  destruct (length_2_inv (dec02 d)) as (? & ? & Edd); [apply dec02_length; lia|].
  destruct (length_2_inv (dec02 h)) as (? & ? & Ehh); [apply dec02_length; lia|].
  destruct (length_2_inv (dec02 mi)) as (? & ? & Emi); [apply dec02_length; lia|].
  destruct (length_2_inv (dec02 s)) as (? & ? & Ess); [apply dec02_length; lia|].
  rewrite Ey, Emo, Edd, Ehh, Emi, Ess in *.
  f_equal; [exact E4|apply Em|apply Ed|apply Eh|apply Ei|apply Es]; lia.
Qed.

(** What a matching event becomes: the text after the timestamp, at the local
    time of the event. *)
Definition event_data (localtime : Z → SYSTEMTIME) (describe : event → str)
    (m : Pandora_Module) (e : event) : Pandora_Data :=
  new_data_at_origin (SP :: describe e) (localtime (TimeGenerated e)) (module_name m).

Lemma setOutput_at_data v t m :
  data_list (setOutput_at v t m) =
  Some (default [] (data_list m) ++ [new_data_at_origin v t (module_name m)]).
Proof. done. Qed.

Section logevent_facts.
Context (regcomp : str → option (str → bool)) (localtime : Z → SYSTEMTIME)
  (xpath : event → res str) (message : Z → event → res str) (describe : event → str)
  (mtype : Module_Type) (type id : Z) (pattern application : str).

Definition matching (e : event) : Prop :=
  filterEvent regcomp type id pattern application e (describe e) = Ok 0%Z.
#[global] Instance matching_dec e : Decision (matching e).
Proof. unfold matching. apply _. Defined.

Definition plain_text (e : event) : str :=
  format_time (localtime (TimeGenerated e)) ++ SP :: describe e.

(** The filter gives an answer when there is no pattern or it compiles. *)
Definition compiles : Prop := pattern = [] ∨ is_Some (regcomp (c_str pattern)).

Lemma filterEvent_Ok e description :
  compiles → ∃ r, filterEvent regcomp type id pattern application e description = Ok r.
Proof.
  unfold filterEvent. intros [->|[regexec ->]].
  all: repeat match goal with |- context [if ?b then _ else _] => destruct b end; naive_solver.
Qed.

Lemma events_text_spec es :
  compiles → mtype ≠ TYPE_LOG → (∀ e, e ∈ es → event_time (localtime (TimeGenerated e))) →
  (∀ e, e ∈ es → description_of xpath message e = Ok (describe e)) →
  events_text regcomp localtime xpath message mtype type id pattern application es =
    Ok (plain_text <$> filter matching es).
Proof.
  intros Hre Hlog. induction es as [|e es IH]; intros Ht Hd; [done|]. cbn [events_text].
  rewrite filter_cons, Hd by set_solver. cbn [rbind].
  destruct (filterEvent_Ok e (describe e) Hre) as [r E].
  destruct (decide (matching e)) as [Hm|Hm]; unfold matching in Hm; rewrite E in Hm |- *; cbn [rbind];
    [rewrite decide_True by congruence|rewrite decide_False by congruence].
  - unfold event_text. rewrite format_time_length by (apply Ht; set_solver).
    rewrite (decide_False (P := TIMESTAMP_LEN ≠ TIMESTAMP_LEN)) by naive_solver.
    rewrite (decide_False (P := mtype = TYPE_LOG)) by done. cbn [rbind].
    by rewrite IH by set_solver.
  - apply IH; set_solver.
Qed.

Lemma store_event_plain_text e m :
  event_time (localtime (TimeGenerated e)) →
  store_event m (plain_text e) =
    push_data (event_data localtime describe m e) m.
Proof.
  intros Ht. pose proof (format_time_length _ Ht) as Hl. unfold store_event, plain_text.
  rewrite (decide_False (P := _ < TIMESTAMP_LEN)) by (rewrite length_app, Hl; unfold TIMESTAMP_LEN; lia).
  rewrite take_app_length', drop_app_length' by done.
  by rewrite timestampToSystemtime_format.
Qed.

Lemma fold_store_event es m :
  (∀ e, e ∈ es → event_time (localtime (TimeGenerated e))) →
  fold_left store_event (plain_text <$> es) m =
    fold_left (λ m e, push_data (event_data localtime describe m e) m) es m.
Proof.
  revert m; induction es as [|e es IH]; intros m Ht; [done|]. cbn [fmap list_fmap fold_left].
  rewrite store_event_plain_text by (apply Ht; set_solver). apply IH. set_solver.
Qed.

Lemma fold_push_event es m :
  data_list (fold_left (λ m e, push_data (event_data localtime describe m e) m) es m) =
  match es with
  | [] => data_list m
  | _ => Some (default [] (data_list m) ++ (event_data localtime describe m <$> es))
  end.
Proof.
  revert m; induction es as [|e es IH]; intros m; [done|]. cbn [fold_left]. rewrite IH.
  destruct es as [|e' es]; [done|]. cbn [data_list push_data upd_data_list]. simpl.
  by rewrite <- app_assoc.
Qed.
End logevent_facts.

(** ** Properties *)

(** C32. The wait loop of [Pandora_Module_Exec::run] ends: if each wait takes
    500 ms or more while the process runs, and the tick counter does not wrap
    around, the loop returns within [timeout / 500 + 2] turns, whatever the
    process does. *)
Theorem Exec_run_ends tickbase polls retval now proc m :
  due m → (0 ≤ module_timeout m < 2 ^ 31)%Z →
  (∀ i p, polls !! i = Some p → (500 * Z.of_nat i ≤ u32 (tick p - tickbase))%Z) →
  (module_timeout m / 500 + 2 ≤ Z.of_nat (length polls))%Z →
  ∃ m', Exec_run (Launched tickbase polls retval) now proc m = Some (Ok m').
Proof.
  intros Hdue Ht Htick Hlen. unfold Exec_run. rewrite run_due by done.
  set (i := Z.to_nat (module_timeout m / 500 + 1)).
  assert (0 ≤ module_timeout m / 500)%Z by (apply Z.div_pos; lia).
  destruct (lookup_lt_is_Some_2 polls i) as [p Hp]; [subst i; lia|].
  destruct (wait_loop_ends (getTimeout m) tickbase polls [] i p) as [[output killed] E]; [done| |].
  { unfold getTimeout. rewrite (wrap_u_small 32) by (unfold in_u; lia). specialize (Htick i p Hp).
    pose proof (Z.mul_succ_div_gt (module_timeout m) 500). subst i. lia. }
  unfold getTimeout in *. cbn [module_timeout upd_has_output upd_executions]. rewrite E.
  repeat case_decide; eauto.
Qed.

Definition never_ending (n : nat) : list poll :=
  (λ i, {| dwRet := WAIT_TIMEOUT; chunk := []; tick := 500 * Z.of_nat i |}) <$> seq 0 n.

Lemma Exec_run_ends_witness :
  ∃ m', Exec_run (Launched 0 (never_ending 32) 259)
    {| wYear := 2014; wMonth := 1; wDay := 1; wHour := 0; wMinute := 0; wSecond := 0 |} 0
    (new_module false TYPE_0 MODULE_0 (&"load")) = Some (Ok m').
Proof.
  apply Exec_run_ends.
  - split; done.
  - simpl. lia.
  - intros i p Hp. unfold never_ending in Hp. apply list_lookup_fmap_Some in Hp as (k & -> & Hk).
    apply lookup_seq in Hk as [-> Hk]. simpl. unfold wrap_u. rewrite Z.sub_0_r, Z.mod_small; lia.
  - unfold never_ending. rewrite length_fmap, length_seq. simpl. vm_compute. discriminate.
Defined.




Definition test_time : SYSTEMTIME :=
  {| wYear := 2014; wMonth := 11; wDay := 9; wHour := 7; wMinute := 5; wSecond := 0 |}.
Definition test_module : Pandora_Module :=
  upd_module_type TYPE_ASYNC_STRING (new_module false TYPE_0 MODULE_0 (&"events")).


(** C0. [Pandora_Module_Regexp::run] on a file that has grown since the last
    run (seek mode, file still open at the old end): exactly the non-empty
    lines of the appended text are matched, once each, in order.  A string
    module gets every matching line, a data module their number, a proc module
    whether there is one; the stream stays at the new end. *)
Lemma Regexp_run_appended regcomp regexec before new st_size size pattern now m :
  due m → regcomp (c_str pattern) = Some regexec → (size ≤ st_size)%Z → (Z.of_nat (length (getlines new)) < 2 ^ 31)%Z →
  let ok := filter (λ l, l ≠ [] ∧ regexec (c_str l) = true) (getlines new) in
  let n := Z.of_nat (length ok) in
  ∃ m', Regexp_run regcomp (Some (st_size, before ++ new)) pattern 0 size (Some (length before))
          now m = Ok (m', st_size, Some (length (before ++ new))) ∧
    default [] (data_list m') = default [] (data_list m) ++
      ((λ v, new_data_origin now v (module_name m)) <$>
       match module_type m with
       | TYPE_GENERIC_DATA_STRING | TYPE_ASYNC_STRING => ok
       | TYPE_LOG => (λ l, l ++ [LF]) <$> ok
       | TYPE_GENERIC_PROC | TYPE_ASYNC_PROC => [if decide (0 < n)%Z then &"1" else &"0"]
       | _ => [dec n]
       end).
Proof.
  intros Hdue Hre Hsize Hlen ok n. unfold Regexp_run. rewrite run_due by done. cbn [rbind reopen].
  rewrite decide_True by done.
  destruct (Z.ltb_spec st_size size); [lia|].
  change (default [] (snd <$> Some (st_size, before ++ new))) with (before ++ new).
  rewrite drop_app_length. rewrite (match_lines_spec _ regexec) by (done || (unfold in_s; lia)). fold ok. fold n.
  cbn [rbind]. rewrite Z.add_0_l. rewrite (decide_False (P := (0 = 1)%Z)) by done.
  eexists. split.
  { do 3 f_equal. rewrite length_app. lia. }
  set (m1 := upd_has_output true _). unfold getModuleType.
  assert (Hnone : ∀ ls, fold_left (λ (m : Pandora_Module) (_ : str), m) ls m1 = m1)
    by (intros ls; induction ls; done).
  assert (Hpush : ∀ (f : str → str) ls m0, module_name m0 = module_name m →
    default [] (data_list (fold_left (λ m l, setOutput now (f l) m) ls m0)) =
    default [] (data_list m0) ++ ((λ v, new_data_origin now v (module_name m)) <$> (f <$> ls))).
  { intros f ls. induction ls as [|l ls IH]; intros m0 Hm; [by rewrite app_nil_r|].
    cbn [fold_left]. rewrite IH by done. cbn. by rewrite <- app_assoc, Hm. }
  assert (Hproc : (if (0 <? n)%Z then &"1" else &"0") = if decide (0 < n)%Z then &"1" else &"0")
    by (destruct (Z.ltb_spec 0 n); [by rewrite decide_True|by rewrite decide_False by lia]).
  assert (Hcount : ∀ v,
    default [] (data_list (setOutput now v (fold_left (λ m (_ : str), m) ok m1))) =
    default [] (data_list m) ++ [new_data_origin now v (module_name m)])
    by (intros v; by rewrite Hnone).
  destruct (module_type m) eqn:E.
  all: try exact (Hcount (dec n)).
  1, 3: rewrite Hproc; apply Hcount.
  1, 2: etransitivity; [exact (Hpush (λ l, l) ok m1 eq_refl)|]; by rewrite list_fmap_id.
  exact (Hpush (λ l, l ++ [LF]) ok m1 eq_refl).
Qed.

Lemma Regexp_run_appended_witness :
  ∃ m', Regexp_run (λ p, Some (λ s, bool_decide (is_Some (find p s))))
      (Some (30%Z, &"old error" ++ [LF] ++ (&"error 1" ++ LF :: &"ok" ++ [LF]))) (&"error") 0 10
      (Some (length (&"old error" ++ [LF]))) test_time test_module
    = Ok (m', 30%Z, Some 21) ∧
    default [] (data_list m') = [new_data_origin test_time (&"error 1") (&"events")].
Proof.
  destruct (Regexp_run_appended (λ p, Some (λ s, bool_decide (is_Some (find p s))))
    (λ s, bool_decide (is_Some (find (&"error") s))) (&"old error" ++ [LF]) (&"error 1" ++ LF :: &"ok" ++ [LF]) 30 10 (&"error") test_time
    test_module) as (m' & E & H).
  - split; done.
  - done.
  - lia.
  - vm_compute. reflexivity.
  - exists m'. split; [exact E|]. rewrite H. vm_compute. reflexivity.
Defined.

(** [Pandora_Module_Inventory::getXml] drops an inventory of one row: the
    text is empty, although the module has output, and the data is cleared. *)
Lemma Inventory_getXml_single m d :
  has_output m = true → inventory_list m = Some [d] →
  Inventory_getXml m = Ok ([], cleanDataList m).
Proof. intros Ho Hi. unfold Inventory_getXml. by rewrite Ho, Hi. Qed.
