(* ===== verification/EventText.v ===== *)
(** * The descriptions of events ([pandora_module_logevent.cc])

    [getEventDescriptionXPATH] asks the event log of Windows for the message of an
    event, [getEventDescription] looks for it in the message files that the registry
    names.  Both are given what Windows answers, and tell what they opened and what
    they closed. *)
From S2P Require Import Prelude StdString Strutils Unicode PandoraModule Modules.

(** What a function opens: handles, memory, registry keys and libraries. *)
Inductive resource :=
  | Handle (h : Z)
  | Rendered_values
  | Message_buffer
  | Registry_key (h : Z)
  | Event_strings
  | Library (h : Z).

(** An answer, and what was opened and closed for it, in order. *)
Record traced (A : Type) := { answer : A; opened : list resource; closed : list resource }.
Arguments Build_traced {A}.
Arguments answer {A}.
Arguments opened {A}.
Arguments closed {A}.

(** [EvtRender]: it writes the first value, or fails; what [GetLastError] says
    afterwards and the size that was needed. [EvtFormatMessage] likewise. *)
Inductive render_answer := Rendered (last_error : Z) (value : wstr) | Render_failed (last_error used : Z).
Inductive format_answer := Formatted (text : wstr) | Format_failed (last_error used : Z).

(** What Windows answers. *)
Record event_api := {
  codes : code_page;
  winevent : bool;
  EvtQuery : wstr → wstr → option Z;
  EvtNext : Z → option Z;
  EvtCreateRenderContext : option Z;
  EvtRender : Z → Z → Z → render_answer;
  EvtOpenPublisherMetadata : wstr → option Z;
  EvtFormatMessage : Z → Z → Z → Z → format_answer;
  allocates : resource → bool;
  RegOpenKeyEx : str → option Z;
  RegQueryValueEx : Z → str → option str;
  ExpandEnvironmentStrings : str → option str;
  string_allocated : nat → bool;
  LoadLibraryEx : str → Z → option Z;
  FormatMessage : Z → Z → list str → option str }.

(** The constructor of [Pandora_Module_Logevent] loads the library of the event log, once
    for all modules; without one of its functions it is unloaded again. *)
Definition evt_functions : list str :=
  [&"EvtQuery"; &"EvtNext"; &"EvtCreateRenderContext"; &"EvtRender"; &"EvtClose";
   &"EvtFormatMessage"; &"EvtOpenPublisherMetadata"].
Definition load_winevent (WINEVENT LoadLibrary : option Z) (GetProcAddress : str → bool) : option Z :=
  match WINEVENT, LoadLibrary with
  | Some h, _ => Some h
  | None, Some h => if forallb GetProcAddress evt_functions then Some h else None
  | None, None => None
  end.

Definition MAX_PATH : nat := 260.
Definition ERROR_SUCCESS : Z := 0.
Definition ERROR_INSUFFICIENT_BUFFER : Z := 122.
Definition EvtFormatMessageEvent : Z := 1.
Definition EvtFormatMessageKeyword : Z := 5.

Section events.
Context (a : event_api) (source : str).

(** ** The event log of Windows *)

(** [GetMessageString]: the buffer is null at the first call, so a list of keywords
    would be ended in front of it. *)
Definition GetMessageString (hMetadata hEvent FormatId : Z) : res (option wstr) :=
  match EvtFormatMessage a hMetadata hEvent FormatId 0 with
  | Formatted _ => Ok None
  | Format_failed status used =>
      if decide (status = ERROR_INSUFFICIENT_BUFFER) then
        if decide (FormatId = EvtFormatMessageKeyword) then Undef
        else if allocates a Message_buffer then
          match EvtFormatMessage a hMetadata hEvent FormatId used with
          | Formatted text => Ok (Some text)
          | Format_failed _ _ => Undef
          end
        else Ok None
      else Ok None
  end.

(** The name of the provider, and whether memory was taken for it; [None] when the
    function gives up.  A null [pRenderedValues] is followed. *)
Definition provider_name (hContext hEvent : Z) : res (option wstr * bool) :=
  match EvtRender a hContext hEvent 0 with
  | Rendered _ _ => Undef
  | Render_failed status used =>
      if decide (status = ERROR_INSUFFICIENT_BUFFER) then
        if allocates a Rendered_values then
          match EvtRender a hContext hEvent used with
          | Rendered status name => Ok (if decide (status = ERROR_SUCCESS) then Some name else None, true)
          | Render_failed status _ => if decide (status = ERROR_SUCCESS) then Undef else Ok (None, true)
          end
        else Ok (None, false)
      else if decide (status = ERROR_SUCCESS) then Undef else Ok (None, false)
  end.

Definition xpath_query (e : event) : str :=
  &"Event/System[EventID=" ++ inttostr (Z.land (EventID e) EVENT_ID_MASK) ++ &"]".

(** The message of an event that was found and whose values are rendered. *)
Definition rendered_message (hResults hEvent hContext : Z) (name : wstr) : res (traced str) :=
  let opened := [Handle hResults; Handle hEvent; Handle hContext; Rendered_values] in
  let closed := [Handle hContext; Handle hEvent; Handle hResults] in
  match EvtOpenPublisherMetadata a name with
  | None => Ok (Build_traced [] opened (Rendered_values :: closed))
  | Some hMetadata =>
      let! message := GetMessageString hMetadata hEvent EvtFormatMessageEvent in
      match message with
      | None =>
          Ok (Build_traced [] (opened ++ [Handle hMetadata])
                (Rendered_values :: Handle hMetadata :: closed))
      | Some pwsMessage =>
          let! description := strUnicodeToAnsi (cp := codes a) (Some pwsMessage) in
          Ok (Build_traced description (opened ++ [Handle hMetadata; Message_buffer])
                (Message_buffer :: Rendered_values :: Handle hMetadata :: closed))
      end
  end.

Definition getEventDescriptionXPATH (e : event) : res (traced str) :=
  if negb (winevent a) then Ok (Build_traced [] [] []) else
  let! query := strAnsiToUnicode (cp := codes a) (xpath_query e) in
  let! path := strAnsiToUnicode (cp := codes a) source in
  match EvtQuery a path query with
  | None => Ok (Build_traced [] [] [])
  | Some hResults =>
      match EvtNext a hResults with
      | None => Ok (Build_traced [] [Handle hResults] [Handle hResults])
      | Some hEvent =>
          match EvtCreateRenderContext a with
          | None =>
              Ok (Build_traced [] [Handle hResults; Handle hEvent] [Handle hEvent; Handle hResults])
          | Some hContext =>
              let! (name, taken) := provider_name hContext hEvent in
              match name with
              | Some name => rendered_message hResults hEvent hContext name
              | None =>
                  Ok (Build_traced []
                        ([Handle hResults; Handle hEvent; Handle hContext] ++
                         if taken then [Rendered_values] else [])
                        [Handle hContext; Handle hEvent; Handle hResults])
              end
          end
      end
  end.

(** ** The message files *)

(** The loop over the files of a list with semicolons: the message, the libraries
    loaded, and what [module] was set to last.  No semicolon lies at the end of the
    buffer, so the second test of [dll_end] never holds. *)
Fixpoint dll_loop (fuel : nat) (flags EventID : Z) (strings : list str) (dll_start message : str)
    (loaded : list Z) : res (str * list Z * option Z) :=
  match fuel with
  | 0 => Undef
  | S fuel =>
      let dll_end := find &";" dll_start in
      let dll := match dll_end with Some i => take i dll_start | None => dll_start end in
      let module := LoadLibraryEx a dll flags in
      let message := match module with
                     | Some h => default message (c_str <$> FormatMessage a h EventID strings)
                     | None => message
                     end in
      let loaded := loaded ++ option_list module in
      match dll_end with
      | None => Ok (message, loaded, module)
      | Some i => dll_loop fuel flags EventID strings (drop (S i) dll_start) message loaded
      end
  end.

Definition event_key (e : event) : str :=
  &"SYSTEM\CurrentControlSet\Services\EventLog\" ++ c_str source ++ &"\" ++ SourceName e.

(** The list of message files of the key: a value without a zero byte is read past its
    end, and an expansion that does not fit leaves the buffer as it is. *)
Definition message_files (value : str) : res str :=
  if decide (NUL ∈ value) then
    match ExpandEnvironmentStrings a (c_str value) with
    | None => Ok (c_str value)
    | Some path => if decide (length path ≤ MAX_PATH) then Ok (c_str path) else Undef
    end
  else Undef.

Definition getEventDescription (e : event) (flags : Z) : res (traced str) :=
  let key_name := event_key e in
  if decide (MAX_PATH < length key_name) then Undef else
  match RegOpenKeyEx a key_name with
  | None => Ok (Build_traced [] [] [])
  | Some hk =>
      match RegQueryValueEx a hk &"EventMessageFile" with
      | None => Ok (Build_traced [] [Registry_key hk] [Registry_key hk])
      | Some value =>
          let! exe_file_path := message_files value in
          if negb (allocates a Event_strings) then
            Ok (Build_traced [] [Registry_key hk] [Registry_key hk])
          else if negb (forallb (string_allocated a) (seq 0 (length (Strings e)))) then Undef
          else
            let! (message, loaded, module) :=
              dll_loop (S (length exe_file_path)) flags (EventID e) (Strings e) exe_file_path [] [] in
            Ok (Build_traced message
                  (Registry_key hk :: Event_strings :: (Library <$> loaded))
                  ([Event_strings] ++ (Library <$> option_list module) ++ [Registry_key hk]))
      end
  end.

(** What [getLogEvents] reads of the two. *)
Definition xpath_text (e : event) : res str := let! t := getEventDescriptionXPATH e in Ok (answer t).
Definition message_text (flags : Z) (e : event) : res str :=
  let! t := getEventDescription e flags in Ok (answer t).
End events.

(** ** Lemmas *)

(** The event found for the identifier of [e], and [d] its message. *)
Definition found (a : event_api) (source : str) (e : event) (d : str) : Prop :=
  ∃ query path hResults hEvent hMetadata used text,
    strAnsiToUnicode (cp := codes a) (xpath_query e) = Ok query ∧
    strAnsiToUnicode (cp := codes a) source = Ok path ∧
    EvtQuery a path query = Some hResults ∧ EvtNext a hResults = Some hEvent ∧
    EvtFormatMessage a hMetadata hEvent EvtFormatMessageEvent used = Formatted text ∧
    strUnicodeToAnsi (cp := codes a) (Some text) = Ok d.

Lemma GetMessageString_formatted a hMetadata hEvent id text :
  GetMessageString a hMetadata hEvent id = Ok (Some text) →
  ∃ used, EvtFormatMessage a hMetadata hEvent id used = Formatted text.
Proof.
  unfold GetMessageString. intros H.
  destruct (EvtFormatMessage a hMetadata hEvent id 0) as [|status used]; [done|].
  destruct (decide (status = _)); [|done]. destruct (decide (id = _)); [done|].
  destruct (allocates a _); [|done]. exists used.
  by destruct (EvtFormatMessage a hMetadata hEvent id used); simplify_eq.
Qed.

(** What is left of the values when their name could not be had. *)
Definition kept (taken : bool) : list resource := if taken then [Rendered_values] else [].

Lemma rendered_message_spec a hResults hEvent hContext name t :
  rendered_message a hResults hEvent hContext name = Ok t →
  opened t ≡ₚ closed t ∧
  (answer t ≠ [] → ∃ hMetadata used text,
     EvtFormatMessage a hMetadata hEvent EvtFormatMessageEvent used = Formatted text ∧
     strUnicodeToAnsi (cp := codes a) (Some text) = Ok (answer t)).
Proof.
  unfold rendered_message. destruct (EvtOpenPublisherMetadata a name) as [hm|].
  2: { intros [= <-]. cbn. split; [solve_Permutation|done]. }
  intros (m & E & H)%rbind_Ok. destruct m as [text|].
  2: { injection H as <-. cbn. split; [solve_Permutation|done]. }
  apply rbind_Ok in H as (d & Hd & [= <-]). cbn. split; [solve_Permutation|]. intros _.
  apply GetMessageString_formatted in E as [used E]. by exists hm, used, text.
Qed.

(** The answer depends on the log and the identifier only. *)
Lemma xpath_by_id a source e1 e2 :
  Z.land (EventID e1) EVENT_ID_MASK = Z.land (EventID e2) EVENT_ID_MASK →
  getEventDescriptionXPATH a source e1 = getEventDescriptionXPATH a source e2.
Proof. intros E. unfold getEventDescriptionXPATH, xpath_query. by rewrite E. Qed.

(** *** Message files *)

(** The pieces of a text between semicolons. *)
Fixpoint split_at (c : chr) (s : str) : list str :=
  match s with
  | [] => [[]]
  | d :: s =>
      if decide (d = c) then [] :: split_at c s
      else match split_at c s with [] => [[d]] | p :: ps => (d :: p) :: ps end
  end.

Lemma split_at_find c s :
  split_at c s =
  match find [c] s with
  | Some i => take i s :: split_at c (drop (S i) s)
  | None => [s]
  end.
Proof.
  induction s as [|d s IH]; [done|]. cbn [split_at find prefixb].
  destruct (decide (d = c)) as [->|Hd].
  - by rewrite bool_decide_true.
  - rewrite bool_decide_false by done. cbn [andb]. rewrite IH. by destruct (find [c] s).
Qed.

Section message_files.
Context (a : event_api) (flags EventID : Z) (strings : list str).

(** The message of one file. *)
Definition file_message (file : str) : option str :=
  h ← LoadLibraryEx a file flags; c_str <$> FormatMessage a h EventID strings.

Definition libraries (files : list str) : list Z := omap (λ f, LoadLibraryEx a f flags) files.

Lemma dll_loop_spec fuel start message loaded :
  length start < fuel →
  dll_loop a fuel flags EventID strings start message loaded =
  let files := split_at ";" start in
  Ok (default message (last (omap file_message files)), loaded ++ libraries files,
      last files ≫= λ f, LoadLibraryEx a f flags).
Proof.
  revert start message loaded; induction fuel as [|fuel IH]; intros start message loaded Hf; [lia|].
  cbn [dll_loop]. rewrite split_at_find. change (&";") with [";"%char].
  assert (Hm : ∀ file k, default message (last (option_list (file_message file) ++ k)) =
    default (match LoadLibraryEx a file flags with
             | Some h => default message (c_str <$> FormatMessage a h EventID strings)
             | None => message
             end) (last k)).
  { intros file k. unfold file_message. destruct (LoadLibraryEx a file flags) as [h|]; [|done].
    cbn. destruct (FormatMessage a h EventID strings) as [m|]; [|done]. cbn.
    rewrite last_cons. by destruct (last k). }
  assert (Hc : ∀ {B} (g : str → option B) file k, omap g (file :: k) = option_list (g file) ++ omap g k).
  { intros B g file k. cbn. by destruct (g file). }
  destruct (find _ start) as [i|] eqn:E.
  - rewrite IH.
    2: { apply find_Some_le in E. cbn in E. rewrite length_drop. lia. }
    cbv zeta. unfold libraries. rewrite !Hc, Hm, app_assoc. f_equal. f_equal.
    destruct (split_at _ (drop _ _)) eqn:Es; [|done].
    rewrite split_at_find in Es. by repeat case_match.
  - unfold libraries. rewrite !Hc. cbn [omap list_omap app last mbind option_bind].
    rewrite Hm, app_nil_r. done.
Qed.
End message_files.

(** The description that [getEventDescription] gives: the key is found and names the
    files [path] with a semicolon between them; the last file that has a message for the
    event gives it.  Of the libraries loaded only the last file's is freed. *)
Lemma getEventDescription_files a source e flags hk value path :
  length (event_key source e) ≤ MAX_PATH → RegOpenKeyEx a (event_key source e) = Some hk →
  RegQueryValueEx a hk &"EventMessageFile" = Some value → message_files a value = Ok path →
  allocates a Event_strings = true → (∀ i, i < length (Strings e) → string_allocated a i = true) →
  ∃ t, getEventDescription a source e flags = Ok t ∧
    let files := split_at ";" path in
    answer t = default [] (last (omap (file_message a flags (EventID e) (Strings e)) files)) ∧
    opened t ≡ₚ closed t ++ (Library <$> libraries a flags (removelast files)).
Proof.
  intros Hk Hopen Hv Hp Hs Hi. unfold getEventDescription.
  rewrite decide_False, Hopen, Hv, Hp, Hs by lia. cbn [rbind negb].
  assert (forallb (string_allocated a) (seq 0 (length (Strings e))) = true) as ->.
  { apply forallb_forall. intros i Hin%in_seq. apply Hi. lia. }
  rewrite dll_loop_spec by lia. cbn [negb rbind]. cbv zeta. eexists. split; [done|].
  cbn [answer opened closed]. split; [done|]. cbn [app].
  destruct (split_at ";" path) as [|f fs] eqn:E.
  { rewrite split_at_find in E. by repeat case_match. }
  destruct (exists_last (l := f :: fs)) as (ini & l & ->); [done|].
  rewrite last_snoc, removelast_last. unfold libraries. rewrite omap_app. cbn [omap list_omap mbind option_bind].
  destruct (LoadLibraryEx a l flags) as [h|]; cbn; rewrite ?fmap_app; cbn; solve_Permutation.
Qed.

(** ** Property *)


(** A log with one event, whose message needs 10 units. *)
Definition demo_event_api : event_api := {|
  codes := latin1; winevent := true; EvtQuery _ _ := Some 1%Z; EvtNext _ := Some 2%Z;
  EvtCreateRenderContext := Some 3%Z;
  EvtRender _ _ size := if decide (size = 0)%Z then Render_failed 122 16 else Rendered 0 [65%Z];
  EvtOpenPublisherMetadata _ := Some 4%Z;
  EvtFormatMessage _ _ _ size :=
    if decide (size = 0)%Z then Format_failed 122 10 else Formatted (code <$> &"disk full");
  allocates _ := true;
  RegOpenKeyEx _ := Some 5%Z; RegQueryValueEx _ _ := Some (&"a.dll;b.dll" ++ [NUL]);
  ExpandEnvironmentStrings s := Some s; string_allocated _ := true;
  LoadLibraryEx f _ := if decide (f = &"a.dll") then Some 6%Z else Some 7%Z;
  FormatMessage h _ _ := if decide (h = 6)%Z then Some &"started" else None |}.
Definition demo_event : event := mk_event 1005 1 0 (&"disk") (&"pc") None [].


(** The library of the first of two files stays loaded. *)
Example first_library_left_loaded :
  getEventDescription demo_event_api (&"System") demo_event 1 =
    Ok {| answer := &"started";
          opened := [Registry_key 5; Event_strings; Library 6; Library 7];
          closed := [Event_strings; Library 7; Registry_key 5] |}.
Proof. vm_compute. reflexivity. Qed.
