(* ===== verification/ModuleFactory.v ===== *)
(** * The module factory ([src/modules/pandora_module_factory.cc])

    [getModuleFromDefinition] turns the text of a module definition into a
    module object.  Its seventy-odd local strings are the constructors of
    [var]; the long runs of identical statements over them are tables in the
    order of the code ([scan_rows_1] and [scan_rows_2] for the token scan,
    [macro_rows_1] to [macro_rows_4] for the macro substitution). *)
From stdpp Require Import functions.
From S2P Require Import Prelude StdString Scanf Strutils Pandora PandoraData PandoraModule Modules.

(** [parseLine]: what follows the token at the start of the line; a blank when
    nothing does. *)
Definition parseLine (line token : str) : str :=
  match find token line with
  | Some 0 => let retstr := drop (length token) line in
              if decide (retstr = []) then &" " else retstr
  | _ => []
  end.

(** ** The local variables *)

Inductive var :=
  | v_module_name | v_module_type | v_module_precondition | v_module_interval | v_module_exec
  | v_module_proc | v_module_service | v_module_freedisk | v_module_freedisk_percent
  | v_module_freememory | v_module_freememory_percent | v_module_cpuusage | v_module_inventory
  | v_module_max | v_module_min | v_module_post_process | v_module_min_critical
  | v_module_max_critical | v_module_min_warning | v_module_max_warning | v_module_disabled
  | v_module_min_ff_event | v_module_description | v_module_logevent | v_module_source
  | v_module_eventtype | v_module_eventcode | v_module_pattern | v_module_application
  | v_module_async | v_module_start_command | v_module_watchdog | v_module_wmiquery
  | v_module_wmicolumn | v_module_retries | v_module_startdelay | v_module_retrydelay
  | v_module_perfcounter | v_module_tcpcheck | v_module_port | v_module_timeout | v_module_regexp
  | v_module_plugin | v_module_save | v_module_condition | v_module_crontab
  | v_module_cron_interval | v_module_noseekeof | v_module_ping | v_module_ping_count
  | v_module_ping_timeout | v_module_snmpget | v_module_snmp_version | v_module_snmp_community
  | v_module_snmp_agent | v_module_snmp_oid | v_module_advanced_options | v_module_cooked
  | v_module_intensive_condition | v_module_unit | v_module_group | v_module_custom_id
  | v_module_str_warning | v_module_str_critical | v_module_critical_instructions
  | v_module_warning_instructions | v_module_unknown_instructions | v_module_tags
  | v_module_critical_inverse | v_module_warning_inverse | v_module_quiet | v_module_ff_interval
  | v_macro.


Inductive lvar := l_precondition_list | l_condition_list | l_intensive_condition_list
  | l_macro_list.

#[global] Instance var_eq_dec : EqDecision var.
Proof. solve_decision. Defined.
#[global] Instance lvar_eq_dec : EqDecision lvar.
Proof. solve_decision. Defined.

Record locals := { vals : var → str; lists : lvar → list str }.

(** All variables are set to the empty string first. *)
Definition init : locals := {| vals := λ _, []; lists := λ _, [] |}.
Definition set_var (v : var) (s : str) (st : locals) : locals :=
  {| vals := <[v := s]> (vals st); lists := lists st |}.
Definition set_list (l : lvar) (ls : list str) (st : locals) : locals :=
  {| vals := vals st; lists := <[l := ls]> (lists st) |}.

(** ** The token scan *)

(** [if (v == "") v = parseLine (line, token)], and the variant that moves the
    value to a list and clears [v] again. *)
Inductive row := R_var (v : var) (token : str) | R_queue (v : var) (l : lvar) (token : str).

Definition scan_rows_1 : list row :=
  [R_var v_module_name (&"module_name "); R_var v_module_type (&"module_type ");
   R_queue v_module_precondition l_precondition_list (&"module_precondition ");
   R_var v_module_interval (&"module_interval "); R_var v_module_exec (&"module_exec ");
   R_var v_module_proc (&"module_proc "); R_var v_module_service (&"module_service ");
   R_var v_module_freedisk (&"module_freedisk ");
   R_var v_module_freedisk_percent (&"module_freepercentdisk ");
   R_var v_module_freememory (&"module_freememory");
   R_var v_module_freememory_percent (&"module_freepercentmemory");
   R_var v_module_cpuusage (&"module_cpuusage "); R_var v_module_inventory (&"module_inventory");
   R_var v_module_max (&"module_max "); R_var v_module_min (&"module_min ");
   R_var v_module_post_process (&"module_postprocess ");
   R_var v_module_min_critical (&"module_min_critical ");
   R_var v_module_max_critical (&"module_max_critical ");
   R_var v_module_min_warning (&"module_min_warning ");
   R_var v_module_max_warning (&"module_max_warning ");
   R_var v_module_disabled (&"module_disabled ");
   R_var v_module_min_ff_event (&"module_min_ff_event ");
   R_var v_module_description (&"module_description ");
   R_var v_module_logevent (&"module_logevent"); R_var v_module_source (&"module_source ");
   R_var v_module_eventtype (&"module_eventtype ");
   R_var v_module_eventcode (&"module_eventcode "); R_var v_module_pattern (&"module_pattern ");
   R_var v_module_application (&"module_application "); R_var v_module_async (&"module_async");
   R_var v_module_start_command (&"module_start_command ");
   R_var v_module_watchdog (&"module_watchdog "); R_var v_module_wmiquery (&"module_wmiquery ");
   R_var v_module_wmicolumn (&"module_wmicolumn "); R_var v_module_retries (&"module_retries ");
   R_var v_module_startdelay (&"module_startdelay ");
   R_var v_module_retrydelay (&"module_retrydelay ");
   R_var v_module_perfcounter (&"module_perfcounter ");
   R_var v_module_tcpcheck (&"module_tcpcheck ")].

Definition scan_rows_2 : list row :=
  [R_var v_module_port (&"module_port "); R_var v_module_timeout (&"module_timeout ");
   R_var v_module_regexp (&"module_regexp "); R_var v_module_plugin (&"module_plugin ");
   R_var v_module_save (&"module_save ");
   R_queue v_module_condition l_condition_list (&"module_condition ");
   R_var v_module_crontab (&"module_crontab ");
   R_var v_module_cron_interval (&"module_cron_interval ");
   R_var v_module_noseekeof (&"module_noseekeof "); R_var v_module_ping (&"module_ping ");
   R_var v_module_ping_count (&"module_ping_count ");
   R_var v_module_ping_timeout (&"module_ping_timeout ");
   R_var v_module_snmpget (&"module_snmpget");
   R_var v_module_snmp_version (&"module_snmp_version ");
   R_var v_module_snmp_community (&"module_snmp_community ");
   R_var v_module_snmp_agent (&"module_snmp_agent ");
   R_var v_module_snmp_oid (&"module_snmp_oid ");
   R_var v_module_advanced_options (&"module_advanced_options ");
   R_var v_module_cooked (&"module_cooked ");
   R_queue v_module_intensive_condition l_intensive_condition_list (&"module_intensive_condition ");
   R_var v_module_unit (&"module_unit "); R_var v_module_group (&"module_group ");
   R_var v_module_custom_id (&"module_custom_id ");
   R_var v_module_str_warning (&"module_str_warning ");
   R_var v_module_str_critical (&"module_str_critical ");
   R_var v_module_critical_instructions (&"module_critical_instructions ");
   R_var v_module_warning_instructions (&"module_warning_instructions ");
   R_var v_module_unknown_instructions (&"module_unknown_instructions ");
   R_var v_module_tags (&"module_tags ");
   R_var v_module_critical_inverse (&"module_critical_inverse ");
   R_var v_module_warning_inverse (&"module_warning_inverse ");
   R_var v_module_quiet (&"module_quiet "); R_var v_module_ff_interval (&"module_ff_interval ");
   R_queue v_macro l_macro_list (&"module_macro")].


Definition scan_row (line : str) (st : locals) (r : row) : locals :=
  match r with
  | R_var v token =>
      if decide (vals st v = []) then set_var v (parseLine line token) st else st
  | R_queue v l token =>
      if decide (vals st v = []) then
        let st := set_var v (parseLine line token) st in
        if decide (vals st v ≠ []) then set_var v [] (set_list l (lists st l ++ [vals st v]) st)
        else st
      else st
  end.

(** One token of the definition. *)
Definition scan_line (st : locals) (token : str) : locals :=
  let line := trim token in
  fold_left (scan_row line) scan_rows_2 (fold_left (scan_row line) scan_rows_1 st).

Definition scan (definition : str) : locals :=
  fold_left scan_line (stringtok definition [LF]) init.

(** ** Macros *)

Inductive target := T_var (v : var) | T_list (l : lvar).
#[global] Instance target_eq_dec : EqDecision target.
Proof. solve_decision. Defined.

Definition macro_rows_1 : list target :=
  [T_var v_module_name; T_var v_module_type; T_list l_precondition_list;
   T_var v_module_precondition; T_var v_module_interval; T_var v_module_exec;
   T_var v_module_proc; T_var v_module_service; T_var v_module_freedisk;
   T_var v_module_freedisk_percent; T_var v_module_freememory; T_var v_module_freememory_percent;
   T_var v_module_cpuusage; T_var v_module_inventory; T_var v_module_max; T_var v_module_min;
   T_var v_module_post_process; T_var v_module_min_critical; T_var v_module_max_critical].

Definition macro_rows_2 : list target :=
  [T_var v_module_min_warning; T_var v_module_max_warning; T_var v_module_disabled;
   T_var v_module_min_ff_event; T_var v_module_description; T_var v_module_logevent;
   T_var v_module_source; T_var v_module_eventtype; T_var v_module_eventcode;
   T_var v_module_pattern; T_var v_module_application; T_var v_module_async;
   T_var v_module_start_command; T_var v_module_watchdog; T_var v_module_wmiquery;
   T_var v_module_wmicolumn; T_var v_module_retries; T_var v_module_startdelay;
   T_var v_module_retrydelay; T_var v_module_perfcounter].

Definition macro_rows_3 : list target :=
  [T_var v_module_tcpcheck; T_var v_module_port; T_var v_module_timeout; T_var v_module_regexp;
   T_var v_module_plugin; T_var v_module_save; T_list l_condition_list; T_var v_module_crontab;
   T_var v_module_cron_interval; T_var v_module_noseekeof; T_var v_module_ping;
   T_var v_module_ping_count; T_var v_module_ping_timeout; T_var v_module_snmpget;
   T_var v_module_snmp_version; T_var v_module_snmp_community; T_var v_module_snmp_agent;
   T_var v_module_snmp_oid; T_var v_module_advanced_options].

Definition macro_rows_4 : list target :=
  [T_var v_module_cooked; T_list l_intensive_condition_list; T_var v_module_unit;
   T_var v_module_group; T_var v_module_custom_id; T_var v_module_str_warning;
   T_var v_module_str_critical; T_var v_module_critical_instructions;
   T_var v_module_warning_instructions; T_var v_module_unknown_instructions; T_var v_module_tags;
   T_var v_module_critical_inverse; T_var v_module_warning_inverse; T_var v_module_quiet;
   T_var v_module_ff_interval].

(** The first occurrence of the macro in a string; nothing when there is none. *)
Definition subst_in (macro_name macro_value s : str) : str :=
  match find macro_name s with
  | Some pos_macro => replace s pos_macro (length macro_name) macro_value
  | None => s
  end.
Definition subst_target (macro_name macro_value : str) (st : locals) (t : target) : locals :=
  match t with
  | T_var v =>
      if decide (vals st v ≠ []) then set_var v (subst_in macro_name macro_value (vals st v)) st
      else st
  | T_list l => set_list l (subst_in macro_name macro_value <$> lists st l) st
  end.

(** One element of [macro_list]: name and value are split at the first blank. *)
Definition apply_macro (st : locals) (macro : str) : locals :=
  match find (&" ") macro with
  | None => st
  | Some pos =>
      let macro_value := drop (pos + 1) macro in
      let macro_name := erase_from macro pos in
      let go := fold_left (subst_target macro_name macro_value) in
      go macro_rows_4 (go macro_rows_3 (go macro_rows_2 (go macro_rows_1 st)))
  end.
Definition apply_macros (st : locals) : locals :=
  fold_left apply_macro (lists st l_macro_list) st.

(** ** The module object *)

Section factory.
(** What [Pandora_Module (name)] leaves unwritten, the regular-expression
    compiler, and the intervals of the running service. *)
Context (has_output0 : bool) (type0 : Module_Type) (kind0 : Module_Kind).
Context (regcomp_ok : str → bool).
Context (service_interval service_intensive_interval : Z).

Definition given (st : locals) (v : var) : bool := bool_decide (vals st v ≠ []).
Definition int_of (st : locals) (v : var) : Z := atoi (vals st v).
Definition or_default (st : locals) (v : var) (dflt : str) : str :=
  if given st v then vals st v else dflt.
Definition named (st : locals) : Pandora_Module :=
  new_module has_output0 type0 kind0 (vals st v_module_name).

Definition map_base (f : Pandora_Module → Pandora_Module) (o : object) : object :=
  {| base := f (base o); own := own o |}.

(** [if (module_timeout != "") module->setTimeout (atoi (...))]. *)
Definition timeout_from (st : locals) (o : object) : object :=
  if given st v_module_timeout then map_base (setTimeout (int_of st v_module_timeout)) o else o.

(** The process branch: [None] for a watchdog without a start command. *)
Definition create_proc (st : locals) : option object :=
  let o := Proc_new (vals st v_module_proc) (named st) in
  if given st v_module_watchdog && is_enabled (vals st v_module_watchdog) then
    if given st v_module_start_command then
      Some (setRetryDelay (int_of st v_module_retrydelay)
             (setStartDelay (int_of st v_module_startdelay)
             (setRetries (int_of st v_module_retries)
             (setStartCommand (vals st v_module_start_command) (setWatchdog true o)))))
    else None
  else Some o.

(** The chain that picks the class: the first token of the chain that was
    given. *)
Definition create_module (st : locals) : res (option object) :=
  if given st v_module_exec then
    Ok (Some (timeout_from st (Exec_new (vals st v_module_exec) (named st))))
  else if given st v_module_proc then Ok (create_proc st)
  else if given st v_module_service then
    let o := Service_new (vals st v_module_service) (named st) in
    Ok (Some (if given st v_module_watchdog
              then setWatchdog (is_enabled (vals st v_module_watchdog)) o else o))
  else if given st v_module_freedisk then
    Ok (Some (Freedisk_new (vals st v_module_freedisk) (named st)))
  else if given st v_module_freedisk_percent then
    Ok (Some (Freedisk_Percent_new (vals st v_module_freedisk_percent) (named st)))
  else if given st v_module_freememory then Ok (Some (Freememory_new (named st)))
  else if given st v_module_freememory_percent then Ok (Some (Freememory_Percent_new (named st)))
  else if given st v_module_cpuusage then
    match strtoint (vals st v_module_cpuusage) with
    | Ok cpu_id => Ok (Some (Cpuusage_new cpu_id (named st)))
    | Err Invalid_Conversion => Ok (Some (Cpuusage_new (-1) (named st)))
    | Err e => Err e
    | Undef => Undef
    end
  else if given st v_module_inventory then
    Ok (Some (Inventory_new (vals st v_module_inventory) (named st)))
  else if given st v_module_logevent then
    Ok (Some (Logevent_new (vals st v_module_source) (vals st v_module_eventtype)
                (vals st v_module_eventcode) (vals st v_module_pattern)
                (vals st v_module_application) (named st)))
  else if given st v_module_wmiquery then
    Ok (Some (WMIQuery_new (vals st v_module_wmiquery) (vals st v_module_wmicolumn) (named st)))
  else if given st v_module_perfcounter then
    Ok (Some (Perfcounter_new (vals st v_module_perfcounter) (vals st v_module_cooked) (named st)))
  else if given st v_module_tcpcheck then
    Ok (Some (Tcpcheck_new (vals st v_module_tcpcheck) (vals st v_module_port)
                (vals st v_module_timeout) (named st)))
  else if given st v_module_regexp then
    Ok (Some (Regexp_new (vals st v_module_regexp) (vals st v_module_pattern)
                (u8 (int_of st v_module_noseekeof)) (named st)))
  else if given st v_module_plugin then
    Ok (Some (Plugin_new (vals st v_module_plugin)
                (new_module has_output0 type0 kind0 (&"plugin"))))
  else if given st v_module_ping then
    Ok (Some (timeout_from st
      (Ping_new (vals st v_module_ping) (or_default st v_module_ping_count (&"1"))
         (or_default st v_module_ping_timeout (&"1000")) (vals st v_module_advanced_options)
         (named st))))
  else if given st v_module_snmpget then
    Ok (Some (timeout_from st
      (SNMPGet_new (or_default st v_module_snmp_version (&"1"))
         (or_default st v_module_snmp_community (&"public"))
         (or_default st v_module_snmp_agent (&"localhost")) (vals st v_module_snmp_oid)
         (vals st v_module_advanced_options) (named st))))
  else Ok None.

(** [if (v != "") set (v)]. *)
Definition set_if (st : locals) (v : var) (set : str → Pandora_Module → Pandora_Module)
    (m : Pandora_Module) : Pandora_Module :=
  if given st v then set (vals st v) m else m.

(** Description, save, asynchronous mode, the two lists of conditions. *)
Definition configure_common (st : locals) (m : Pandora_Module) : Pandora_Module :=
  let m := set_if st v_module_description setDescription m in
  let m := set_if st v_module_save setSave m in
  let m := if given st v_module_async then setAsync true m else m in
  let m := fold_left (λ m c, addPreCondition regcomp_ok c m) (lists st l_precondition_list) m in
  fold_left (λ m c, addCondition regcomp_ok c m) (lists st l_condition_list) m.

(** The interval; a malformed one is logged and ignored. *)
Definition configure_interval (st : locals) (m : Pandora_Module) : res Pandora_Module :=
  if given st v_module_interval then
    match strtoint (vals st v_module_interval) with
    | Ok interval => Ok (setIntensiveInterval interval (setInterval interval m))
    | Err Invalid_Conversion => Ok m
    | Err e => Err e
    | Undef => Undef
    end
  else Ok m.

(** Intensive conditions, or the interval in intensive steps.  An intensive
    interval of zero divides by zero. *)
Definition configure_intensive (st : locals) (m : Pandora_Module) : res Pandora_Module :=
  match lists st l_intensive_condition_list with
  | [] =>
      if decide (service_intensive_interval = 0)%Z then Undef
      else Ok (setIntensiveInterval
             (s32 (getInterval m * Z.quot service_interval service_intensive_interval)) m)
  | conds => Ok (fold_left (λ m c, addIntensiveCondition regcomp_ok c m) conds m)
  end.

Definition configure_cron (st : locals) (m : Pandora_Module) : Pandora_Module :=
  if given st v_module_crontab then
    let m := setCron (vals st v_module_crontab) m in
    if given st v_module_cron_interval then setCronInterval (int_of st v_module_cron_interval) m
    else m
  else m.

(** The type, and whether it is numeric; [None] for a bad type. *)
Definition configure_type (st : locals) (m : Pandora_Module) : option (Pandora_Module * bool) :=
  if given st v_module_plugin then Some (setType (&"generic_data_string") m, false)
  else
    match parseModuleTypeFromString (vals st v_module_type) with
    | TYPE_GENERIC_DATA | TYPE_GENERIC_DATA_INC | TYPE_GENERIC_PROC | TYPE_ASYNC_DATA
    | TYPE_ASYNC_PROC => Some (setType (vals st v_module_type) m, true)
    | TYPE_GENERIC_DATA_STRING | TYPE_ASYNC_STRING | TYPE_LOG =>
        Some (setType (vals st v_module_type) m, false)
    | TYPE_0 => None
    end.

(** [max] and [min] of a numeric module. *)
Definition configure_limit (st : locals) (v : var)
    (set : Z → Pandora_Module → Pandora_Module) (m : Pandora_Module) : res Pandora_Module :=
  if given st v then
    match strtoint (vals st v) with
    | Ok value => Ok (set value m)
    | Err Invalid_Conversion => Ok m
    | Err e => Err e
    | Undef => Undef
    end
  else Ok m.
Definition configure_limits (st : locals) (numeric : bool) (m : Pandora_Module)
    : res Pandora_Module :=
  if numeric then
    let! m := configure_limit st v_module_max setMax m in configure_limit st v_module_min setMin m
  else Ok m.

(** The string attributes, in the order of the code. *)
Definition attr_rows : list (var * (str → Pandora_Module → Pandora_Module)) :=
  [(v_module_post_process, setPostProcess); (v_module_min_critical, setMinCritical);
   (v_module_max_critical, setMaxCritical); (v_module_min_warning, setMinWarning);
   (v_module_max_warning, setMaxWarning); (v_module_disabled, setDisabled);
   (v_module_min_ff_event, setMinFFEvent); (v_module_unit, setUnit);
   (v_module_group, setModuleGroup); (v_module_custom_id, setCustomId);
   (v_module_str_warning, setStrWarning); (v_module_str_critical, setStrCritical);
   (v_module_critical_instructions, setCriticalInstructions);
   (v_module_warning_instructions, setWarningInstructions);
   (v_module_unknown_instructions, setUnknownInstructions); (v_module_tags, setTags);
   (v_module_critical_inverse, setCriticalInverse);
   (v_module_warning_inverse, setWarningInverse); (v_module_quiet, setQuiet);
   (v_module_ff_interval, setModuleFFInterval)].
Definition configure_attrs (st : locals) (m : Pandora_Module) : Pandora_Module :=
  fold_left (λ m '(v, set), set_if st v set m) attr_rows m.

(** Everything after the creation. *)
Definition configure (st : locals) (m : Pandora_Module) : res (option Pandora_Module) :=
  let m := configure_common st m in
  let! m := configure_interval st m in
  let! m := configure_intensive st m in
  let m := configure_cron st m in
  match configure_type st m with
  | None => Ok None
  | Some (m, numeric) =>
      let! m := configure_limits st numeric m in Ok (Some (configure_attrs st m))
  end.

(** [getModuleFromDefinition]. *)
Definition getModuleFromDefinition (definition : str) : res (option object) :=
  let st := apply_macros (scan definition) in
  let! o := create_module st in
  match o with
  | None => Ok None
  | Some o => let! m := configure st (base o) in
              Ok ((λ m, {| base := m; own := own o |}) <$> m)
  end.
End factory.

(** ** Lemmas *)

Lemma parseLine_prefix line token :
  parseLine line token =
  if prefixb token line then
    let retstr := drop (length token) line in if decide (retstr = []) then &" " else retstr
  else [].
Proof.
  unfold parseLine. destruct line as [|c line].
  { simpl. destruct token; done. }
  cbn [find]. destruct (prefixb token (c :: line)); [done|]. by destruct (find token line).
Qed.

(** The variable and the list a row writes. *)
Definition row_var (r : row) : var := match r with R_var v _ | R_queue v _ _ => v end.
Definition row_list (r : row) : option lvar :=
  match r with R_var _ _ => None | R_queue _ l _ => Some l end.
Definition row_token (r : row) : str := match r with R_var _ t | R_queue _ _ t => t end.

Definition all_rows : list row := scan_rows_1 ++ scan_rows_2.
Definition row_of (v : var) : row :=
  default (R_var v []) (head (filter (λ r, row_var r = v) all_rows)).

Lemma row_of_elem v : row_of v ∈ all_rows ∧ row_var (row_of v) = v.
Proof.
  assert (∃ r, head (filter (λ r, row_var r = v) all_rows) = Some r) as [r Hr]
    by (destruct v; eexists; reflexivity).
  unfold row_of. rewrite Hr. cbn [default].
  assert (Hin : r ∈ filter (λ r, row_var r = v) all_rows).
  { destruct (filter _ all_rows); simplify_eq/=. left. }
  apply list_elem_of_filter in Hin. tauto.
Qed.

Lemma scan_row_other line st r v : row_var r ≠ v → vals (scan_row line st r) v = vals st v.
Proof.
  intros Hv. destruct r as [w t|w l t]; simpl in *; case_decide; try done; simpl.
  - by apply fn_lookup_insert_ne.
  - case_decide; simpl; rewrite ?fn_lookup_insert_ne by done; done.
Qed.

Lemma scan_row_other_list line st r l :
  row_list r ≠ Some l → lists (scan_row line st r) l = lists st l.
Proof.
  intros Hl. destruct r as [w t|w l' t]; simpl in *; case_decide; try done; simpl.
  case_decide; [|done]. simpl. apply fn_lookup_insert_ne. congruence.
Qed.

(** What the row of a variable does to the variable and to its list. *)
Definition scan_value (line : str) (r : row) (old : str) : str :=
  match r with
  | R_var _ token => if decide (old = []) then parseLine line token else old
  | R_queue _ _ _ => old
  end.

Lemma scan_row_vals line st r :
  vals (scan_row line st r) (row_var r) = scan_value line r (vals st (row_var r)).
Proof.
  destruct r as [v t|v l t]; simpl; case_decide; simpl; try done.
  - by rewrite fn_lookup_insert.
  - rewrite fn_lookup_insert. case_decide as E; simpl; rewrite fn_lookup_insert; [done|].
    destruct (decide (parseLine line t = [])); [congruence|done].
Qed.

Lemma scan_row_lists line st v l t :
  vals st v = [] →
  lists (scan_row line st (R_queue v l t)) l =
    lists st l ++ (if decide (parseLine line t = []) then [] else [parseLine line t]).
Proof.
  intros Hv. simpl. rewrite decide_True by done. rewrite fn_lookup_insert.
  destruct (decide (parseLine line t = [])) as [E|E].
  - rewrite decide_False by naive_solver. simpl. by rewrite app_nil_r.
  - rewrite decide_True by done. simpl. by rewrite fn_lookup_insert.
Qed.

(** A line through rows that write different variables and lists. *)
Lemma fold_rows_other line rows st v :
  v ∉ row_var <$> rows → vals (fold_left (scan_row line) rows st) v = vals st v.
Proof.
  revert st; induction rows as [|r rows IH]; intros st Hv; [done|]. cbn in Hv.
  apply not_elem_of_cons in Hv as [Hr Hv]. cbn [fold_left]. rewrite IH by done.
  by apply scan_row_other.
Qed.

Lemma fold_rows_other_list line rows st l :
  Some l ∉ row_list <$> rows → lists (fold_left (scan_row line) rows st) l = lists st l.
Proof.
  revert st; induction rows as [|r rows IH]; intros st Hv; [done|]. cbn in Hv.
  apply not_elem_of_cons in Hv as [Hr Hv]. cbn [fold_left]. rewrite IH by done.
  by apply scan_row_other_list.
Qed.

Lemma fold_rows_vals line rows st r :
  NoDup (row_var <$> rows) → r ∈ rows →
  vals (fold_left (scan_row line) rows st) (row_var r) = scan_value line r (vals st (row_var r)).
Proof.
  revert st; induction rows as [|r' rows IH]; intros st Hnd Hr; [by apply not_elem_of_nil in Hr|].
  cbn [fmap list_fmap] in Hnd. apply NoDup_cons in Hnd as [Hr' Hnd]. cbn [fold_left].
  apply elem_of_cons in Hr as [->|Hr].
  - rewrite fold_rows_other by done. apply scan_row_vals.
  - rewrite IH by done. rewrite scan_row_other; [done|]. intros E. apply Hr'. rewrite E.
    by apply list_elem_of_fmap_2.
Qed.

Lemma fold_rows_var line rows st v t :
  NoDup (row_var <$> rows) → R_var v t ∈ rows →
  vals (fold_left (scan_row line) rows st) v =
    if decide (vals st v = []) then parseLine line t else vals st v.
Proof. apply (fold_rows_vals line rows st (R_var v t)). Qed.

Lemma fold_rows_queue line rows st v l t :
  NoDup (row_var <$> rows) → R_queue v l t ∈ rows →
  vals (fold_left (scan_row line) rows st) v = vals st v.
Proof. apply (fold_rows_vals line rows st (R_queue v l t)). Qed.

(** The lists that rows write, without repetition. *)
Fixpoint row_lists (rows : list row) : list lvar :=
  match rows with
  | [] => []
  | R_var _ _ :: rows => row_lists rows
  | R_queue _ l _ :: rows => l :: row_lists rows
  end.

Lemma row_lists_elem rows l : Some l ∈ row_list <$> rows → l ∈ row_lists rows.
Proof.
  induction rows as [|[v t|v l' t] rows IH]; cbn [fmap list_fmap row_list row_lists].
  - by intros ?%not_elem_of_nil.
  - intros [?|?]%elem_of_cons; [done|auto].
  - intros [?|?]%elem_of_cons; simplify_eq; [by left|right; auto].
Qed.

Lemma fold_rows_lists line rows st v l t :
  NoDup (row_var <$> rows) → NoDup (row_lists rows) → R_queue v l t ∈ rows → vals st v = [] →
  lists (fold_left (scan_row line) rows st) l =
    lists st l ++ (if decide (parseLine line t = []) then [] else [parseLine line t]).
Proof.
  revert st; induction rows as [|r' rows IH]; intros st Hnd Hnl Hr Hv;
    [by apply not_elem_of_nil in Hr|].
  cbn [fmap list_fmap] in Hnd. apply NoDup_cons in Hnd as [Hr' Hnd]. cbn [fold_left].
  apply elem_of_cons in Hr as [<-|Hr].
  - cbn [row_lists] in Hnl. apply NoDup_cons in Hnl as [Hl Hnl].
    rewrite fold_rows_other_list by (intros H%row_lists_elem; done). by apply scan_row_lists.
  - assert (Hne : row_var r' ≠ v).
    { intros <-. apply Hr'. change (row_var r') with (row_var (R_queue (row_var r') l t)).
      by apply list_elem_of_fmap_2. }
    rewrite IH; [|done| |done|by rewrite scan_row_other].
    + rewrite scan_row_other_list; [done|]. intros E. destruct r' as [|w l' t']; simplify_eq/=.
      apply NoDup_cons in Hnl as [Hl _]. apply Hl, row_lists_elem.
      change (Some l) with (row_list (R_queue v l t)). by apply list_elem_of_fmap_2.
    + destruct r'; cbn [row_lists] in Hnl; [done|]. by apply NoDup_cons in Hnl as [_ ?].
Qed.

Lemma all_rows_nodup : NoDup (row_var <$> all_rows) ∧ NoDup (row_lists all_rows).
Proof. split; apply (bool_decide_unpack _); vm_compute; exact I. Qed.

(** What the lines of a definition give for a token. *)
Definition given_lines (tokens : list str) (token : str) : list str :=
  filter (λ s, s ≠ []) ((λ l, parseLine (trim l) token) <$> tokens).

Lemma given_lines_cons l tokens token :
  given_lines (l :: tokens) token =
  (if decide (parseLine (trim l) token = []) then [] else [parseLine (trim l) token]) ++
  given_lines tokens token.
Proof.
  unfold given_lines. rewrite fmap_cons, filter_cons.
  repeat case_decide; naive_solver.
Qed.

(** The scan, for any table of rows that write different variables and lists. *)
Definition scan_with (rows : list row) (st : locals) (token : str) : locals :=
  fold_left (scan_row (trim token)) rows st.

Section scan_with.
Context (rows : list row).
Context (Hvars : NoDup (row_var <$> rows)) (Hlists : NoDup (row_lists rows)).

Lemma scan_with_var tokens st v t :
  R_var v t ∈ rows →
  vals (fold_left (scan_with rows) tokens st) v =
    if decide (vals st v = []) then default [] (head (given_lines tokens t)) else vals st v.
Proof using Hvars.
  intros Hr. revert st; induction tokens as [|l tokens IH]; intros st; cbn [fold_left].
  { by case_decide. }
  assert (E : vals (scan_with rows st l) v =
              if decide (vals st v = []) then parseLine (trim l) t else vals st v)
    by exact (fold_rows_var _ _ _ _ _ Hvars Hr).
  rewrite IH, given_lines_cons, E.
  destruct (decide (vals st v = [])) as [Hv|Hv]; [|by rewrite decide_False].
  by destruct (decide (parseLine (trim l) t = [])).
Qed.

Lemma scan_with_queue tokens st v l t :
  R_queue v l t ∈ rows → vals st v = [] →
  vals (fold_left (scan_with rows) tokens st) v = [] ∧
  lists (fold_left (scan_with rows) tokens st) l = lists st l ++ given_lines tokens t.
Proof using Hvars Hlists.
  intros Hr. revert st; induction tokens as [|x tokens IH]; intros st Hv; cbn [fold_left].
  { by rewrite app_nil_r. }
  destruct (IH (scan_with rows st x)) as [IH1 IH2].
  { unfold scan_with. by rewrite (fold_rows_queue _ _ _ _ _ _ Hvars Hr). }
  split; [done|]. rewrite IH2, given_lines_cons. unfold scan_with.
  rewrite (fold_rows_lists _ _ _ _ _ _ Hvars Hlists Hr) by done.
  by rewrite app_assoc.
Qed.
End scan_with.

Lemma scan_line_all st token : scan_line st token = scan_with all_rows st token.
Proof. unfold scan_line, scan_with, all_rows. by rewrite fold_left_app. Qed.

Lemma scan_all definition :
  scan definition = fold_left (scan_with all_rows) (stringtok definition [LF]) init.
Proof. apply (fold_left_ext _ _ scan_line_all). Qed.

(** *** Macros *)

Definition target_vars (ts : list target) : list var :=
  omap (λ t, match t with T_var v => Some v | T_list _ => None end) ts.
Definition target_lists (ts : list target) : list lvar :=
  omap (λ t, match t with T_list l => Some l | T_var _ => None end) ts.
Definition all_targets : list target :=
  macro_rows_1 ++ macro_rows_2 ++ macro_rows_3 ++ macro_rows_4.

Lemma apply_macro_all st macro pos :
  find (&" ") macro = Some pos →
  apply_macro st macro =
    fold_left (subst_target (erase_from macro pos) (drop (pos + 1) macro)) all_targets st.
Proof. intros H. unfold apply_macro, all_targets. rewrite H. by rewrite !fold_left_app. Qed.

Lemma subst_target_vals n w st t v :
  vals (subst_target n w st t) v =
  if decide (t = T_var v ∧ vals st v ≠ []) then subst_in n w (vals st v) else vals st v.
Proof.
  destruct t as [x|l]; cbn [subst_target].
  - destruct (decide (x = v)) as [->|Hne].
    + destruct (decide (vals st v ≠ [])) as [Hv|Hv].
      * rewrite decide_True by done. cbn [vals lists set_var]. by rewrite fn_lookup_insert.
      * rewrite decide_False; [done|]. naive_solver.
    + rewrite (decide_False (P := T_var x = T_var v ∧ _)) by naive_solver.
      case_decide; [|done]. cbn [vals lists set_var]. by apply fn_lookup_insert_ne.
  - by rewrite decide_False by naive_solver.
Qed.

Lemma subst_target_lists n w st t l :
  lists (subst_target n w st t) l =
  if decide (t = T_list l) then subst_in n w <$> lists st l else lists st l.
Proof.
  destruct t as [x|l']; cbn [subst_target].
  - rewrite (decide_False (P := T_var x = T_list l)) by done. by case_decide.
  - cbn [set_list lists]. destruct (decide (l' = l)) as [->|Hne].
    + rewrite decide_True by done. by rewrite fn_lookup_insert.
    + rewrite decide_False by congruence. by apply fn_lookup_insert_ne.
Qed.

Lemma fold_targets_vals n w ts st v :
  NoDup ts →
  vals (fold_left (subst_target n w) ts st) v =
  if decide (T_var v ∈ ts ∧ vals st v ≠ []) then subst_in n w (vals st v) else vals st v.
Proof.
  revert st; induction ts as [|t ts IH]; intros st Hnd; cbn [fold_left].
  { rewrite decide_False; [done|]. intros [H _]. by apply not_elem_of_nil in H. }
  apply NoDup_cons in Hnd as [Ht Hnd]. rewrite IH, subst_target_vals by done.
  destruct (decide (t = T_var v)) as [->|Hne].
  - rewrite (decide_False (P := T_var v ∈ ts ∧ _)) by tauto.
    destruct (decide (vals st v ≠ [])) as [Hv|Hv].
    + by rewrite !decide_True by (split; [left|done] || done).
    + by rewrite !decide_False by tauto.
  - rewrite (decide_False (P := t = T_var v ∧ _)) by tauto.
    apply decide_ext. rewrite elem_of_cons. naive_solver.
Qed.

Lemma fold_targets_lists n w ts st l :
  NoDup ts →
  lists (fold_left (subst_target n w) ts st) l =
  if decide (T_list l ∈ ts) then subst_in n w <$> lists st l else lists st l.
Proof.
  revert st; induction ts as [|t ts IH]; intros st Hnd; cbn [fold_left].
  { rewrite decide_False; [done|]. by apply not_elem_of_nil. }
  apply NoDup_cons in Hnd as [Ht Hnd]. rewrite IH, subst_target_lists by done.
  destruct (decide (t = T_list l)) as [->|Hne].
  - rewrite (decide_False (P := T_list l ∈ ts)) by done. by rewrite decide_True by left.
  - apply decide_ext. rewrite elem_of_cons. naive_solver.
Qed.

Lemma all_targets_nodup : NoDup all_targets.
Proof. apply (bool_decide_unpack _). vm_compute. exact I. Qed.

(** The variables and lists a macro does not reach. *)
Lemma all_targets_vars v :
  T_var v ∈ all_targets ↔ v ∉ [v_module_condition; v_module_intensive_condition; v_macro].
Proof.
  apply (bool_decide_unpack (T_var v ∈ all_targets ↔ _)).
  destruct v; vm_compute; exact I.
Qed.

Lemma all_targets_lists l : T_list l ∈ all_targets ↔ l ≠ l_macro_list.
Proof. apply (bool_decide_unpack (T_list l ∈ all_targets ↔ _)). destruct l; vm_compute; exact I. Qed.

(** *** Writing a definition and reading it back *)

(** Lines that each end in a line feed. *)
Definition text_of (ls : list str) : str := concat ((λ l, l ++ [LF]) <$> ls).

Lemma stringtok_text_of ls :
  Forall (λ l, l ≠ [] ∧ NUL ∉ l ∧ LF ∉ l) ls → stringtok (text_of ls) [LF] = ls.
Proof.
  intros H. apply stringtok_eq. induction H as [|l ls (Hne & H0 & HL) _ IH]; [constructor|].
  change (text_of (l :: ls)) with ((l ++ [LF]) ++ text_of ls). rewrite <- app_assoc.
  constructor; [done| |done|].
  - apply no_sep_intro; [done|]. intros c. rewrite list_elem_of_singleton. by intros ->.
  - constructor; [done|]. exact IH.
Qed.

(** An entry: a row of the table and the value its line carries. *)
Definition entry_line (e : row * str) : str := row_token e.1 ++ e.2.
Definition entry_ok (e : row * str) : Prop :=
  (e.1) ∈ all_rows ∧ e.2 ≠ [] ∧ NUL ∉ e.2 ∧ LF ∉ e.2 ∧ from_option (λ c, c ∉ blanks) True (last e.2).

Definition prefix_free (t1 t2 : str) : bool := negb (prefixb t1 t2) && negb (prefixb t2 t1).

Lemma prefixb_app_free t1 t2 s : prefix_free t1 t2 = true → prefixb t1 (t2 ++ s) = false.
Proof.
  unfold prefix_free. revert t2; induction t1 as [|c t1 IH]; intros [|d t2]; simpl; try done.
  case_bool_decide as E; simpl; [|done]. intros H. apply IH.
  destruct (bool_decide (d = c)) eqn:E'; [done|]. bools. congruence.
Qed.

Lemma tokens_ok :
  forallb (λ r, bool_decide (row_token r ≠ []) && bool_decide (NUL ∉ row_token r) &&
                bool_decide (LF ∉ row_token r) &&
                from_option (λ c, bool_decide (c ∉ blanks)) false (head (row_token r)) &&
                forallb (λ r', bool_decide (row_var r = row_var r') ||
                               prefix_free (row_token r) (row_token r')) all_rows) all_rows = true.
Proof. vm_compute. reflexivity. Qed.

Lemma token_props r :
  r ∈ all_rows →
  row_token r ≠ [] ∧ NUL ∉ row_token r ∧ LF ∉ row_token r ∧
  from_option (λ c, c ∉ blanks) True (head (row_token r)) ∧
  (∀ r', r' ∈ all_rows → row_var r ≠ row_var r' →
         prefix_free (row_token r) (row_token r') = true).
Proof.
  intros Hr. pose proof tokens_ok as H. rewrite forallb_forall in H.
  apply list_elem_of_In in Hr. specialize (H r Hr). bools. split_and!; try done.
  - destruct (head (row_token r)); [|done]. simpl in *. by bools.
  - intros r' Hr' Hne. apply list_elem_of_In in Hr'.
    match goal with H : forallb _ _ = true |- _ => rewrite forallb_forall in H; specialize (H r' Hr') end.
    rewrite bool_decide_false in * by done. done.
Qed.

Lemma entry_line_trim e : entry_ok e → trim (entry_line e) = entry_line e.
Proof.
  intros (Hr & Hne & _ & _ & Hl). destruct (token_props _ Hr) as (Ht & _ & _ & Hh & _).
  apply trim_id. split; unfold entry_line.
  - destruct (row_token e.1); [done|exact Hh].
  - destruct (e.2) as [|x l] using rev_ind; [done|]. rewrite app_assoc, last_snoc.
    by rewrite last_snoc in Hl.
Qed.

Lemma row_inj r r' : r ∈ all_rows → r' ∈ all_rows → row_var r = row_var r' → r = r'.
Proof.
  intros Hr Hr' E.
  assert (Hinj : ∀ rows, NoDup (row_var <$> rows) → r ∈ rows → r' ∈ rows → r = r').
  { clear Hr Hr'. induction rows as [|x rows IH]; intros Hnd Hr Hr'; [by apply not_elem_of_nil in Hr|].
    cbn [fmap list_fmap] in Hnd. apply NoDup_cons in Hnd as [Hx Hnd].
    apply elem_of_cons in Hr as [->|Hr]; apply elem_of_cons in Hr' as [->|Hr']; try done.
    - exfalso. apply Hx. rewrite E. by apply list_elem_of_fmap_2.
    - exfalso. apply Hx. rewrite <- E. by apply list_elem_of_fmap_2.
    - by apply IH. }
  exact (Hinj _ (proj1 all_rows_nodup) Hr Hr').
Qed.

#[global] Instance row_eq_dec : EqDecision row.
Proof. solve_decision. Defined.

Lemma parse_entry r e :
  r ∈ all_rows → entry_ok e →
  parseLine (entry_line e) (row_token r) = if decide ((e.1) = r) then e.2 else [].
Proof.
  intros Hr (He & Hne & _). rewrite parseLine_prefix. unfold entry_line.
  destruct (decide ((e.1) = r)) as [<-|Hd].
  - rewrite prefixb_app, drop_app_length. by rewrite decide_False.
  - destruct (token_props _ Hr) as (_ & _ & _ & _ & Hp).
    rewrite prefixb_app_free; [done|]. apply Hp; [done|].
    intros E. apply Hd. by apply row_inj.
Qed.

(** The values of the entries of a row, in order. *)
Definition values_of (r : row) (entries : list (row * str)) : list str :=
  (filter (λ e, (e.1) = r) entries).*2.

Lemma given_lines_entries r entries :
  r ∈ all_rows → Forall entry_ok entries →
  given_lines (entry_line <$> entries) (row_token r) = values_of r entries.
Proof.
  intros Hr. induction 1 as [|e entries He _ IH]; [done|].
  rewrite fmap_cons, given_lines_cons, IH, entry_line_trim, parse_entry by done.
  unfold values_of. rewrite filter_cons. destruct (decide ((e.1) = r)); [|done].
  destruct He as (_ & Hne & _). by rewrite decide_False.
Qed.

Lemma stringtok_entries entries :
  Forall entry_ok entries →
  stringtok (text_of (entry_line <$> entries)) [LF] = entry_line <$> entries.
Proof.
  intros H. apply stringtok_text_of. rewrite Forall_fmap. eapply Forall_impl; [done|].
  intros e (Hr & Hne & H0 & HL & _). destruct (token_props _ Hr) as (Ht & Ht0 & HtL & _).
  simpl. unfold entry_line. split_and!; [by destruct (row_token e.1)|..]; rewrite elem_of_app; tauto.
Qed.

Lemma scan_entries entries v :
  Forall entry_ok entries →
  vals (scan (text_of (entry_line <$> entries))) v =
  match row_of v with
  | R_var _ _ => default [] (head (values_of (row_of v) entries))
  | R_queue _ _ _ => []
  end.
Proof.
  intros He. destruct (row_of_elem v) as [Hr Hv]. rewrite scan_all, stringtok_entries by done.
  destruct (row_of v) as [w t|w l t] eqn:E; simpl in Hv; subst w.
  - rewrite (scan_with_var _ (proj1 all_rows_nodup) _ _ _ t Hr).
    cbn [vals init]. rewrite decide_True by done.
    by rewrite (given_lines_entries (R_var v t)).
  - by apply (scan_with_queue _ (proj1 all_rows_nodup) (proj2 all_rows_nodup) _ _ _ l t Hr).
Qed.

Lemma scan_entries_list entries v l t :
  Forall entry_ok entries → R_queue v l t ∈ all_rows →
  lists (scan (text_of (entry_line <$> entries))) l = values_of (R_queue v l t) entries.
Proof.
  intros He Hr. rewrite scan_all, stringtok_entries by done.
  destruct (scan_with_queue _ (proj1 all_rows_nodup) (proj2 all_rows_nodup)
              (entry_line <$> entries) init v l t Hr) as [_ ->]; [done|].
  by rewrite (given_lines_entries (R_queue v l t)).
Qed.

(** *** Building the module *)

Section building.
Context (has_output0 : bool) (type0 : Module_Type) (kind0 : Module_Kind)
  (regcomp_ok : str → bool) (service_interval service_intensive_interval : Z).

Lemma set_if_not_given st v f m : given st v = false → set_if st v f m = m.
Proof. unfold set_if. by intros ->. Qed.

Lemma configure_attrs_not_given st m :
  Forall (λ p, given st (fst p) = false) attr_rows → configure_attrs st m = m.
Proof.
  unfold configure_attrs. generalize attr_rows. intros rows H. revert m.
  induction H as [|[v f] rows Hv _ IH]; intros m; [done|]. cbn [fold_left]. simpl in Hv.
  rewrite set_if_not_given by done. apply IH.
Qed.

Lemma apply_macros_none st : lists st l_macro_list = [] → apply_macros st = st.
Proof. unfold apply_macros. by intros ->. Qed.

(** A number that was not given or that has something but white space. *)
Definition readable (st : locals) (v : var) : Prop :=
  vals st v = [] ∨ skip_ws (c_str (vals st v)) ≠ [].
#[global] Instance readable_dec st v : Decision (readable st v).
Proof. unfold readable. apply _. Defined.

Lemma strtoint_given P st v (A : Type) (f : Z → res A) (dflt : res A) :
  (P → readable st v) → given st v = true → (∀ z, safe_if P (f z)) → safe_if P dflt →
  safe_if P (match strtoint (vals st v) with
             | Ok z => f z | Err Invalid_Conversion => dflt | Err e => Err e | Undef => Undef
             end).
Proof.
  intros HP Hv Hf Hd. apply bool_decide_eq_true in Hv. pose proof (strtoint_cases (vals st v)) as H.
  destruct (strtoint (vals st v)); subst; [apply Hf|done|]. intros HP'.
  destruct (HP HP'); tauto.
Qed.

Lemma create_module_safe P st :
  (P → readable st v_module_cpuusage) → safe_if P (create_module has_output0 type0 kind0 st).
Proof.
  intros HP. unfold create_module. repeat (case_match; [done|]).
  destruct (given st v_module_cpuusage) eqn:E; [by apply (strtoint_given P st)|].
  by repeat case_match.
Qed.

Lemma configure_limit_safe P st v set m :
  (P → readable st v) → safe_if P (configure_limit st v set m).
Proof.
  intros HP. unfold configure_limit. destruct (given st v) eqn:E; [|done].
  by apply (strtoint_given P st).
Qed.

Lemma configure_interval_safe P st m :
  (P → readable st v_module_interval) → safe_if P (configure_interval st m).
Proof.
  intros HP. unfold configure_interval. destruct (given st v_module_interval) eqn:E; [|done].
  by apply (strtoint_given P st).
Qed.

(** Name, type, command and interval of an exec module. *)
Definition exec_entries (name type exec interval : str) : list (row * str) :=
  [(row_of v_module_name, name); (row_of v_module_type, type); (row_of v_module_exec, exec);
   (row_of v_module_interval, interval)].

Lemma exec_entries_vals name type exec interval v :
  match row_of v with
  | R_var _ _ => default [] (head (values_of (row_of v) (exec_entries name type exec interval)))
  | R_queue _ _ _ => []
  end =
  match v with
  | v_module_name => name
  | v_module_type => type
  | v_module_exec => exec
  | v_module_interval => interval
  | _ => []
  end.
Proof. destruct v; vm_compute; reflexivity. Qed.

Lemma exec_entries_lists name type exec interval v l t :
  R_queue v l t ∈ all_rows →
  values_of (R_queue v l t) (exec_entries name type exec interval) = [].
Proof.
  intros _. unfold values_of, exec_entries. rewrite !filter_cons.
  by rewrite !decide_False by done.
Qed.

Lemma queue_rows :
  Forall (λ l, ∃ v t, R_queue v l t ∈ all_rows)
    [l_precondition_list; l_condition_list; l_intensive_condition_list; l_macro_list].
Proof.
  repeat constructor;
    [exists v_module_precondition, (&"module_precondition ")
    |exists v_module_condition, (&"module_condition ")
    |exists v_module_intensive_condition, (&"module_intensive_condition ")
    |exists v_macro, (&"module_macro")];
    apply (bool_decide_unpack _); vm_compute; exact I.
Qed.
End building.

(** ** Properties *)

(** C8. The token scan, for any definition text: each local string gets the
    value of the first line that carries its token (lines are trimmed; later
    lines with the same token are ignored), and each of the four lists gets the
    values of all the lines that carry its token, in order. *)
Theorem scan_first_wins definition r :
  r ∈ all_rows →
  let lines := stringtok definition [LF] in
  match r with
  | R_var v token =>
      vals (scan definition) v =
        default [] (head (filter (λ s, s ≠ []) ((λ l, parseLine (trim l) token) <$> lines)))
  | R_queue v l token =>
      vals (scan definition) v = [] ∧
      lists (scan definition) l = filter (λ s, s ≠ []) ((λ l, parseLine (trim l) token) <$> lines)
  end.
Proof.
  intros Hr lines. rewrite scan_all. fold lines. clearbody lines. destruct r as [v t|v l t].
  - rewrite (scan_with_var _ (proj1 all_rows_nodup) _ _ _ t Hr). cbn [vals init].
    by rewrite decide_True.
  - destruct (scan_with_queue _ (proj1 all_rows_nodup) (proj2 all_rows_nodup) lines init v l t Hr)
      as [E1 E2]; [reflexivity|].
    split; [exact E1|]. rewrite E2. reflexivity.
Qed.

Lemma scan_first_wins_witness :
  vals (scan (text_of [&"module_name load"; &"  module_max 10 "; &"module_max 20"])) v_module_max
    = &"10".
Proof.
  rewrite (scan_first_wins _ (R_var v_module_max (&"module_max "))).
  - vm_compute. reflexivity.
  - apply (bool_decide_unpack _). vm_compute. exact I.
Defined.

(** A macro line [name value] replaces the first occurrence of [name] in
    every parameter that was given and in every condition, and nothing else;
    an empty name (a blank right after [module_macro]) puts the value in front
    of every parameter. *)
Lemma apply_macro_spec st name value :
  SP ∉ name →
  let st' := apply_macro st (name ++ SP :: value) in
  (∀ v, v ∉ [v_module_condition; v_module_intensive_condition; v_macro] →
    vals st' v = if decide (vals st v = []) then [] else subst_in name value (vals st v)) ∧
  (∀ l, l ≠ l_macro_list → lists st' l = subst_in name value <$> lists st l) ∧
  (∀ a b, find name (a ++ name ++ b) = Some (length a) →
    subst_in name value (a ++ name ++ b) = a ++ value ++ b) ∧
  (∀ s, find name s = None → subst_in name value s = s) ∧
  (∀ s, subst_in [] value s = value ++ s).
Proof.
  intros Hsp st'. assert (Hf : find (&" ") (name ++ SP :: value) = Some (length name))
    by (apply (find_char_app SP); done).
  assert (E : st' = fold_left (subst_target name value) all_targets st).
  { assert (E1 : erase_from (name ++ SP :: value) (length name) = name) by apply take_app_length.
    assert (E2 : drop (length name + 1) (name ++ SP :: value) = value) by (by rewrite drop_app_add).
    subst st'. by rewrite (apply_macro_all _ _ _ Hf), E1, E2. }
  rewrite E. split_and!.
  - intros v Hv. rewrite fold_targets_vals by apply all_targets_nodup.
    apply all_targets_vars in Hv. destruct (decide (vals st v = [])) as [Hv'|Hv'].
    + by rewrite decide_False by tauto.
    + by rewrite decide_True.
  - intros l Hl. rewrite fold_targets_lists by apply all_targets_nodup.
    by rewrite decide_True by (by apply all_targets_lists).
  - intros a b Hab. unfold subst_in. rewrite Hab. unfold replace.
    rewrite take_app_length. f_equal. f_equal. by rewrite drop_app_add, drop_app_length.
  - intros s Hs. unfold subst_in. by rewrite Hs.
  - intros [|c s]; unfold subst_in; simpl; [done|]. done.
Qed.

Lemma apply_macro_spec_witness :
  vals (apply_macro (set_var v_module_exec (&"ping _host_ _host_") init) (&"_host_ srv1"))
    v_module_exec = &"ping srv1 _host_".
Proof.
  destruct (apply_macro_spec (set_var v_module_exec (&"ping _host_ _host_") init) (&"_host_")
    (&"srv1")) as [H _].
  - apply (bool_decide_unpack _). vm_compute. exact I.
  - change (&"_host_ srv1") with (&"_host_" ++ SP :: &"srv1").
    rewrite (H v_module_exec).
    + vm_compute. reflexivity.
    + apply (bool_decide_unpack _). vm_compute. exact I.
Defined.

(** C17. The text of a plain command module is read back: for a name, a type of
    the table, a command and an interval, written one per line, the factory
    returns an exec module with exactly these, whose interval in intensive
    steps is the interval times the steps per agent interval. *)
Theorem getModuleFromDefinition_exec has_output0 type0 kind0 regcomp_ok svc_interval svc_intensive
    name type exec interval :
  let entries := exec_entries name type exec (dec interval) in
  Forall entry_ok entries → in_s 32 interval → svc_intensive ≠ 0%Z →
  parseModuleTypeFromString type ≠ TYPE_0 →
  ∃ o, getModuleFromDefinition has_output0 type0 kind0 regcomp_ok svc_interval svc_intensive
         (text_of (entry_line <$> entries)) = Ok (Some o) ∧
    own o = C_exec (cmd_exe exec) 0 ∧ getName (base o) = name ∧
    getModuleKind (base o) = MODULE_EXEC ∧
    getTypeString (base o) = type ∧ getModuleType (base o) = parseModuleTypeFromString type ∧
    getInterval (base o) = interval ∧
    getIntensiveInterval (base o) = s32 (interval * Z.quot svc_interval svc_intensive).
Proof.
  intros entries He Hi Hsvc Htype. unfold getModuleFromDefinition.
  set (st := scan (text_of (entry_line <$> entries))).
  assert (Hv : ∀ v, vals st v = _) by (intros v; etransitivity;
    [apply (scan_entries _ v He)|apply exec_entries_vals]).
  assert (Hl : ∀ l, lists st l = []).
  { intros l. destruct (proj1 (Forall_forall _ _) queue_rows l) as (v & t & Hr).
    { destruct l; set_solver. }
    etransitivity; [apply (scan_entries_list _ _ _ _ He Hr)|by apply (exec_entries_lists _ _ _ _ v)]. }
  clearbody st. rewrite apply_macros_none by done.
  assert (Hne : name ≠ [] ∧ exec ≠ []).
  { rewrite Forall_forall in He. split.
    - by destruct (He (row_of v_module_name, name)) as (_ & ? & _); [left|].
    - destruct (He (row_of v_module_exec, exec)) as (_ & ? & _); [|done]. right. right. left. }
  assert (Hg : ∀ v, given st v = _) by (intros v; unfold given; rewrite Hv; reflexivity).
  assert (Hexec : given st v_module_exec = true) by (rewrite Hg; apply bool_decide_true, Hne).
  unfold create_module, timeout_from. rewrite Hexec.
  assert (Hno : ∀ v, bool_decide (v ∈ [v_module_name; v_module_type; v_module_exec;
                                       v_module_interval]) = false → given st v = false).
  { intros v Hn. rewrite Hg. apply bool_decide_false. intros []. by destruct v. }
  assert (Hint : given st v_module_interval = true).
  { rewrite Hg. apply bool_decide_true. by destruct (dec_head interval) as (? & ? & -> & _). }
  rewrite (Hno v_module_timeout eq_refl). unfold named. rewrite !Hv.
  cbn [rbind base own Exec_new].
  unfold configure, configure_common, configure_interval, configure_intensive, configure_cron,
    configure_type.
  rewrite Hint, !Hl, !Hv, !set_if_not_given, (Hno v_module_async eq_refl),
    (Hno v_module_crontab eq_refl), (Hno v_module_plugin eq_refl) by (by apply Hno).
  cbn [fold_left]. rewrite strtoint_dec by done. cbn [rbind]. rewrite decide_False by done.
  cbn [rbind].
  set (m0 := setIntensiveInterval _ _).
  assert (Hlim : ∀ b m, configure_limits st b m = Ok m).
  { intros b m. unfold configure_limits, configure_limit.
    rewrite (Hno v_module_max eq_refl), (Hno v_module_min eq_refl). by destruct b. }
  assert (Hattr : ∀ m, configure_attrs st m = m).
  { intros m. apply configure_attrs_not_given. unfold attr_rows.
    repeat (constructor; [by apply Hno|]). constructor. }
  destruct (parseModuleTypeFromString type) eqn:E; try done.
  all: rewrite Hlim; cbn [rbind]; rewrite Hattr; eexists; split; [reflexivity|].
  all: by rewrite <- ?E.
Qed.

Lemma getModuleFromDefinition_exec_witness :
  let entries := exec_entries (&"load") (&"generic_data") (&"load.bat -c") (&"2") in
  ∃ o, getModuleFromDefinition false TYPE_0 MODULE_0 (λ _, true) 300 60
         (text_of (entry_line <$> entries)) = Ok (Some o) ∧ getIntensiveInterval (base o) = 10%Z.
Proof.
  destruct (getModuleFromDefinition_exec false TYPE_0 MODULE_0 (λ _, true) 300 60 (&"load")
    (&"generic_data") (&"load.bat -c") 2) as (o & E & _ & _ & _ & _ & _ & _ & Hi).
  - unfold exec_entries. repeat (constructor; [apply (bool_decide_unpack _); vm_compute; exact I|]).
    constructor.
  - unfold in_s. lia.
  - done.
  - vm_compute. discriminate.
  - exists o. split; [exact E|]. rewrite Hi. vm_compute. reflexivity.
Defined.

(** Building a module never ends in an exception, whatever the definition
    and the macros; and it returns (a module or NULL) whenever the intensive
    interval of the service is not zero and each of the four numbers that were
    given has something but white space in it. *)
Lemma getModuleFromDefinition_total has_output0 type0 kind0 regcomp_ok svc_interval svc_intensive
    definition :
  let st := apply_macros (scan definition) in
  let r := getModuleFromDefinition has_output0 type0 kind0 regcomp_ok svc_interval svc_intensive
             definition in
  (∀ e, r ≠ Err e) ∧
  (svc_intensive ≠ 0%Z ∧ readable st v_module_interval ∧ readable st v_module_max ∧
   readable st v_module_min ∧ readable st v_module_cpuusage → ∃ o, r = Ok o).
Proof.
  intros st r. apply safe_if_spec. subst r. unfold getModuleFromDefinition. fold st.
  apply safe_if_bind.
  { apply create_module_safe. tauto. }
  intros [o|]; [|done]. apply safe_if_bind; [|done].
  unfold configure. apply safe_if_bind; [apply configure_interval_safe; tauto|intros m].
  apply safe_if_bind; [|intros m'].
  { unfold configure_intensive. destruct (lists st l_intensive_condition_list); [|done].
    case_decide; [|done]. simpl. tauto. }
  destruct (configure_type st _) as [[m'' b]|]; [|done].
  apply safe_if_bind; [|done]. unfold configure_limits. destruct b; [|done].
  apply safe_if_bind; [|intros m3]; apply configure_limit_safe; tauto.
Qed.

Lemma getModuleFromDefinition_total_witness :
  ∃ o, getModuleFromDefinition false TYPE_0 MODULE_0 (λ _, true) 300 60
    (text_of [&"module_name cpu"; &"module_type generic_data"; &"module_cpuusage all";
              &"module_max 1x"]) = Ok o.
Proof.
  apply (proj2 (getModuleFromDefinition_total false TYPE_0 MODULE_0 (λ _, true) 300 60
    (text_of [&"module_name cpu"; &"module_type generic_data"; &"module_cpuusage all";
              &"module_max 1x"]))).
  repeat split; apply (bool_decide_unpack _); vm_compute; exact I.
Defined.
