(* ===== verification/ModuleList.v ===== *)
(** * The list of modules ([src/modules/pandora_module_list.cc], [.h])

    Reads the module definitions of the configuration file and of the files it
    includes, builds the modules with the factory, and iterates over them with
    an internal cursor. *)
From S2P Require Import Prelude StdString Scanf Strutils Pandora AgentConf PandoraData PandoraModule Modules ModuleFactory.

(** [class Pandora_Module_List]: [current] is a pointer to an iterator, which
    the constructor leaves unwritten when the file cannot be opened. *)
Inductive cursor := C_unwritten | C_at (i : nat) | C_end.
Record Pandora_Module_List := { modules : list object; current : cursor }.

(** [modules->begin ()]. *)
Definition begin_of (ms : list object) : cursor := match ms with [] => C_end | _ => C_at 0 end.

(** [Pandora_Module_List ()], [addModule]. *)
Definition new_list : Pandora_Module_List := {| modules := []; current := begin_of [] |}.
Definition addModule (m : object) (l : Pandora_Module_List) : Pandora_Module_List :=
  {| modules := modules l ++ [m]; current := current l |}.

(** The kinds under which a module of the class is cast to that class: the
    casts of [parseModuleDefinition]. *)
Definition kinds_of (c : child) : list Module_Kind :=
  match c with
  | C_exec _ _ => [MODULE_EXEC; MODULE_PING; MODULE_SNMPGET]
  | C_plugin _ _ => [MODULE_PLUGIN]
  | C_proc _ _ _ _ _ _ => [MODULE_PROC]
  | C_service _ _ => [MODULE_SERVICE]
  | C_freedisk _ => [MODULE_FREEDISK]
  | C_freedisk_percent _ => [MODULE_FREEDISK_PERCENT]
  | C_freememory => [MODULE_FREEMEMORY]
  | C_freememory_percent => [MODULE_FREEMEMORY_PERCENT]
  | C_cpuusage _ => [MODULE_CPUUSAGE]
  | C_inventory _ _ => [MODULE_INVENTORY]
  | C_logevent _ _ _ _ _ _ _ => [MODULE_LOGEVENT]
  | C_wmiquery _ _ => [MODULE_WMIQUERY]
  | C_perfcounter _ _ => [MODULE_PERFCOUNTER]
  | C_tcpcheck _ _ _ => [MODULE_TCPCHECK]
  | C_regexp _ _ _ _ _ => [MODULE_REGEXP]
  end.

(** The kind of the object is one of its class. *)
Definition well_typed (o : object) : Prop := getModuleKind (base o) ∈ kinds_of (own o).
#[global] Instance well_typed_dec o : Decision (well_typed o).
Proof. unfold well_typed. apply _. Defined.

Section parse.
(** The factory. *)
Context (build : str → res (option object)).

(** [parseModuleDefinition]: a module of unknown kind is not added. *)
Definition parseModuleDefinition (definition : str) (ms : list object) : res (list object) :=
  let! module := build definition in
  match module with
  | None => Ok ms
  | Some o => match getModuleKind (base o) with MODULE_0 => Ok ms | _ => Ok (ms ++ [o]) end
  end.

(** The inner loop, after [module_begin]: lines are collected up to the one
    with [module_end] or the end of the file. *)
Fixpoint module_block (lines : list str) (str_module : str) : str * list str :=
  match lines with
  | [] => (str_module, [])
  | buffer :: lines =>
      let str_module := str_module ++ buffer ++ [LF] in
      match find (&"module_end") buffer with
      | Some _ => (str_module, lines)
      | None => module_block lines str_module
      end
  end.

(** The [module_begin] and [module_plugin] branches, for the line [buffer]
    and the lines after it: the list and the lines still to read. *)
Definition module_line (buffer : str) (lines : list str) (ms : list object)
    : res (list object * list str) :=
  match find (&"module_begin") buffer with
  | Some _ =>
      let '(str_module, rest) := module_block lines (buffer ++ [LF]) in
      let! ms := parseModuleDefinition str_module ms in Ok (ms, rest)
  | None =>
      match find (&"module_plugin") buffer with
      | Some _ => let! ms := parseModuleDefinition buffer ms in Ok (ms, lines)
      | None => Ok (ms, lines)
      end
  end.

(** [parseModuleConf]: the outer loop reads at least one line each time. *)
Fixpoint conf_loop (fuel : nat) (lines : list str) (ms : list object) : res (list object) :=
  match fuel, lines with
  | S fuel, buffer :: lines =>
      if ignored_line buffer then conf_loop fuel lines ms
      else let! (ms, lines) := module_line buffer lines ms in conf_loop fuel lines ms
  | _, _ => Ok ms
  end.
Definition parseModuleConf (fs : files) (path_file : str) (ms : list object)
    : res (list object) :=
  match fs !! c_str path_file with
  | None => Ok ms
  | Some content => let lines := getlines content in conf_loop (length lines) lines ms
  end.

(** [Pandora_Module_List (filename)]: also follows [include] lines, one level
    deep. *)
Definition include_modules (fs : files) (buffer : str) (ms : list object) : res (list object) :=
  match find (&"include") buffer with
  | None => Ok ms
  | Some pos => let! path_file := include_path buffer pos in parseModuleConf fs path_file ms
  end.
Fixpoint list_loop (fuel : nat) (fs : files) (lines : list str) (ms : list object)
    : res (list object) :=
  match fuel, lines with
  | S fuel, buffer :: lines =>
      if ignored_line buffer then list_loop fuel fs lines ms
      else
        let! ms := include_modules fs buffer ms in
        let! (ms, lines) := module_line buffer lines ms in list_loop fuel fs lines ms
  | _, _ => Ok ms
  end.
Definition new_list_from (fs : files) (filename : str) : res Pandora_Module_List :=
  match fs !! c_str filename with
  | None => Ok {| modules := []; current := C_unwritten |}
  | Some content =>
      let lines := getlines content in
      let! ms := list_loop (length lines) fs lines [] in
      Ok {| modules := ms; current := begin_of ms |}
  end.
End parse.

(** ** The cursor *)

Definition set_current (c : cursor) (l : Pandora_Module_List) : Pandora_Module_List :=
  {| modules := modules l; current := c |}.

(** Every operation reads the pointer [current]. *)
Definition with_current {A} (l : Pandora_Module_List) (k : cursor → res A) : res A :=
  match current l with C_unwritten => Undef | c => k c end.

Definition getCurrentValue (l : Pandora_Module_List) : res object :=
  with_current l (λ c, match c with
                       | C_at i => from_option Ok Undef (modules l !! i)
                       | _ => Undef
                       end).
Definition goFirst (l : Pandora_Module_List) : res Pandora_Module_List :=
  with_current l (λ _, Ok (set_current (begin_of (modules l)) l)).
Definition goLast (l : Pandora_Module_List) : res Pandora_Module_List :=
  with_current l (λ _, Ok (set_current C_end l)).

#[global] Instance cursor_eq_dec : EqDecision cursor.
Proof. solve_decision. Defined.

Definition isLast (l : Pandora_Module_List) : res bool :=
  with_current l (λ c, Ok (bool_decide (c = C_end))).
Definition isFirst (l : Pandora_Module_List) : res bool :=
  with_current l (λ c, Ok (bool_decide (c = begin_of (modules l)))).

Definition goNext (l : Pandora_Module_List) : res Pandora_Module_List :=
  let! last := isLast l in
  if (last : bool) then Ok l
  else match current l with
       | C_at i => Ok (set_current (if decide (S i < length (modules l)) then C_at (S i) else C_end) l)
       | _ => Undef
       end.
Definition goPrev (l : Pandora_Module_List) : res Pandora_Module_List :=
  let! first := isFirst l in
  if (first : bool) then Ok l
  else match current l with
       | C_at i => Ok (set_current (C_at (i - 1)) l)
       | C_end => Ok (set_current (C_at (length (modules l) - 1)) l)
       | C_unwritten => Undef
       end.

(** The module under the cursor changes state (it is shared by pointer). *)
Definition update_current (f : object → object) (l : Pandora_Module_List) : Pandora_Module_List :=
  match current l with
  | C_at i => {| modules := alter f i (modules l); current := current l |}
  | _ => l
  end.

(** ** Traversal *)

(** [goFirst (); while (! isLast ()) { module = getCurrentValue (); ...;
    goNext (); }]: [body] is the loop body on the module and a state. *)
Section foreach.
Context {S : Type} (body : object → S → res (object * S)).

Fixpoint foreach_loop (fuel : nat) (l : Pandora_Module_List) (s : S)
    : res (Pandora_Module_List * S) :=
  match fuel with
  | 0 => Ok (l, s)
  | Datatypes.S fuel =>
      let! last := isLast l in
      if (last : bool) then Ok (l, s)
      else
        let! m := getCurrentValue l in
        let! (m, s) := body m s in
        let! l := goNext (update_current (λ _, m) l) in
        foreach_loop fuel l s
  end.
Definition foreach (l : Pandora_Module_List) (s : S) : res (Pandora_Module_List * S) :=
  let! l := goFirst l in foreach_loop (Datatypes.S (length (modules l))) l s.

(** The specification: the body on every module, in order. *)
Fixpoint map_modules (ms : list object) (s : S) : res (list object * S) :=
  match ms with
  | [] => Ok ([], s)
  | m :: ms =>
      let! (m, s) := body m s in
      let! (ms, s) := map_modules ms s in Ok (m :: ms, s)
  end.

Lemma foreach_loop_spec fuel done_ todo s :
  length todo < fuel →
  foreach_loop fuel
    {| modules := done_ ++ todo;
       current := match todo with [] => C_end | _ => C_at (length done_) end |} s =
  let! (ms, s) := map_modules todo s in Ok ({| modules := done_ ++ ms; current := C_end |}, s).
Proof.
  revert done_ todo s; induction fuel as [|fuel IH]; intros done_ todo s Hf; [lia|].
  cbn [foreach_loop]. destruct todo as [|m todo]; [done|].
  unfold isLast at 1, with_current at 1. cbn [current rbind]. rewrite bool_decide_false by done.
  unfold getCurrentValue, with_current. cbn [current modules].
  rewrite list_lookup_middle by done. cbn [from_option rbind map_modules].
  rewrite rbind_assoc. destruct (body m s) as [[m' s']|e|]; [|done|done]. cbn [rbind].
  unfold update_current, goNext, isLast, with_current. cbn [current modules rbind].
  rewrite bool_decide_false by done. cbn [rbind modules].
  assert (alter (λ _ : object, m') (length done_) (done_ ++ m :: todo) = done_ ++ m' :: todo) as ->.
  { pose proof (alter_app_r (λ _ : object, m') done_ (m :: todo) 0) as E.
    by rewrite Nat.add_0_r in E. }
  assert (Hl : done_ ++ m' :: todo = (done_ ++ [m']) ++ todo) by by rewrite <- app_assoc.
  rewrite Hl. simpl in Hf.
  replace (if decide _ then _ else _) with
    (match todo with [] => C_end | _ => C_at (length (done_ ++ [m'])) end).
  2: { rewrite !length_app. simpl. destruct todo; simpl.
       - by rewrite decide_False by lia.
       - rewrite decide_True by lia. f_equal. lia. }
  unfold set_current. cbn [modules]. rewrite IH by lia. rewrite rbind_assoc.
  destruct (map_modules todo s') as [[ms s'']|e|]; [|done|done]. cbn [rbind].
  by rewrite <- app_assoc.
Qed.

Lemma foreach_spec l s :
  current l ≠ C_unwritten →
  foreach l s =
  let! (ms, s) := map_modules (modules l) s in Ok ({| modules := ms; current := C_end |}, s).
Proof.
  destruct l as [ms c]. cbn [current modules]. intros Hc.
  transitivity (foreach_loop (Datatypes.S (length ms))
                  {| modules := [] ++ ms;
                     current := match ms with [] => C_end | _ => C_at (length (@nil object)) end |} s).
  - by destruct c, ms.
  - apply foreach_loop_spec. lia.
Qed.
End foreach.

(** ** What a configuration file defines *)

(** The pieces of a file: a module block (the lines from [module_begin] to
    [module_end]), a plugin line, and lines of other kinds. *)
Inductive item :=
  | I_block (first : str) (body : list str) (last : str)
  | I_plugin (line : str)
  | I_other (line : str).

Definition item_lines (i : item) : list str :=
  match i with
  | I_block first body last => first :: body ++ [last]
  | I_plugin line | I_other line => [line]
  end.

(** The text handed to the factory. *)
Definition item_definitions (i : item) : list str :=
  match i with
  | I_block first body last => [text_of (first :: body ++ [last])]
  | I_plugin line => [line]
  | I_other _ => []
  end.

Definition lacks (words : list str) (line : str) : Prop := Forall (λ w, find w line = None) words.
Definition has (w line : str) : Prop := is_Some (find w line).
#[global] Instance lacks_dec ws l : Decision (lacks ws l).
Proof. unfold lacks. apply _. Defined.
#[global] Instance has_dec w l : Decision (has w l).
Proof. unfold has. apply _. Defined.

Definition item_ok (i : item) : Prop :=
  match i with
  | I_block first body last =>
      ignored_line first = false ∧ lacks [&"include"] first ∧ has (&"module_begin") first ∧
      Forall (lacks [&"module_end"]) body ∧ has (&"module_end") last
  | I_plugin line =>
      ignored_line line = false ∧ lacks [&"include"; &"module_begin"] line ∧
      has (&"module_plugin") line
  | I_other line =>
      ignored_line line = true ∨ lacks [&"include"; &"module_begin"; &"module_plugin"] line
  end ∧ Forall (λ l, LF ∉ l) (item_lines i).
#[global] Instance item_ok_dec i : Decision (item_ok i).
Proof. destruct i; unfold item_ok; apply _. Defined.

Lemma lacks_cons w ws l : lacks (w :: ws) l → find w l = None ∧ lacks ws l.
Proof. unfold lacks. by rewrite Forall_cons. Qed.

(** The modules of a list of definitions. *)
Fixpoint parse_definitions (build : str → res (option object)) (ds : list str)
    (ms : list object) : res (list object) :=
  match ds with
  | [] => Ok ms
  | d :: ds => let! ms := parseModuleDefinition build d ms in parse_definitions build ds ms
  end.

Lemma text_of_app ls1 ls2 : text_of (ls1 ++ ls2) = text_of ls1 ++ text_of ls2.
Proof. unfold text_of. by rewrite fmap_app, concat_app. Qed.

Lemma module_block_spec body last rest acc :
  Forall (lacks [&"module_end"]) body → has (&"module_end") last →
  module_block (body ++ last :: rest) acc = (acc ++ text_of (body ++ [last]), rest).
Proof.
  intros Hb [i Hl]. revert acc; induction Hb as [|l body H _ IH]; intros acc; cbn [app module_block].
  - rewrite Hl. f_equal. unfold text_of. simpl. by rewrite app_nil_r.
  - apply lacks_cons in H as [H _]. rewrite H, IH.
    change (text_of (l :: body ++ [last])) with ((l ++ [LF]) ++ text_of (body ++ [last])).
    by rewrite !app_assoc.
Qed.

Lemma list_loop_items build fs items rest fuel ms :
  Forall item_ok items → length (concat (item_lines <$> items) ++ rest) ≤ fuel →
  ∃ fuel', length rest ≤ fuel' ∧
  list_loop build fuel fs (concat (item_lines <$> items) ++ rest) ms =
  let! ms := parse_definitions build (concat (item_definitions <$> items)) ms in
  list_loop build fuel' fs rest ms.
Proof.
  intros Hok. revert fuel ms; induction Hok as [|i items Hi _ IH]; intros fuel ms Hf.
  { by exists fuel. }
  rewrite !fmap_cons in *. cbn [concat] in *. rewrite <- app_assoc in *.
  destruct i as [first body last|line|line]; cbn [item_lines item_definitions] in *;
    destruct fuel as [|fuel]; simpl in Hf; try lia; cbn [app list_loop];
    destruct Hi as [Hi _].
  - destruct Hi as (H1 & [H2 _]%lacks_cons & [p H3] & H4 & H5). rewrite H1.
    unfold include_modules. rewrite H2. cbn [rbind]. unfold module_line. rewrite H3.
    rewrite <- app_assoc. cbn [app]. rewrite module_block_spec by done.
    change ((first ++ [LF]) ++ text_of (body ++ [last])) with (text_of (first :: body ++ [last])).
    cbn [parse_definitions].
    rewrite !length_app in Hf. simpl in Hf.
    destruct (parseModuleDefinition build _ ms) as [ms'|e|]; cbn [rbind].
    + apply IH. rewrite length_app. lia.
    + exists (length rest). done.
    + exists (length rest). done.
  - destruct Hi as (H1 & [H2 [H4 _]%lacks_cons]%lacks_cons & [p H3]). rewrite H1.
    unfold include_modules. rewrite H2. cbn [rbind]. unfold module_line. rewrite H4, H3.
    cbn [parse_definitions].
    destruct (parseModuleDefinition build _ ms) as [ms'|e|]; cbn [rbind].
    + apply IH. lia.
    + exists (length rest). done.
    + exists (length rest). done.
  - destruct Hi as [H1|H1].
    + rewrite H1. apply IH. lia.
    + destruct (ignored_line line); [apply IH; lia|].
      apply lacks_cons in H1 as [H1 [H2 [H3 _]%lacks_cons]%lacks_cons].
      unfold include_modules. rewrite H1. cbn [rbind]. unfold module_line. rewrite H2, H3. cbn [rbind]. apply IH. lia.
Qed.

(** Every module the factory builds has a kind of its class, so it joins the
    list. *)
Lemma well_typed_kind o : well_typed o → getModuleKind (base o) ≠ MODULE_0.
Proof.
  unfold well_typed. intros H E. rewrite E in H.
  assert (∀ c, MODULE_0 ∉ kinds_of c) as Hc by (intros c; destruct c; compute_done).
  by eapply Hc.
Qed.

Section kinds.
Context (has_output0 : bool) (type0 : Module_Type) (kind0 : Module_Kind)
  (regcomp_ok : str → bool) (svc_interval svc_intensive : Z).
Implicit Types (st : locals) (m : Pandora_Module).

Lemma create_module_typed st o :
  create_module has_output0 type0 kind0 st = Ok (Some o) → well_typed o.
Proof.
  unfold create_module, create_proc, timeout_from, map_base. intros H.
  assert (∀ k c, bool_decide (k ∈ kinds_of c) = true → k ∈ kinds_of c) as Hc
    by (intros k c; by rewrite bool_decide_eq_true).
  repeat (case_match; simplify_eq/=; try done);
    unfold setTimeout, setRetryDelay, setStartDelay, setRetries in *; simpl in *;
    repeat (case_match; simplify_eq/=; try done); apply Hc; reflexivity.
Qed.

(** What no setter of the factory touches: the kind, and the data of the module. *)
Definition kind_data m : Module_Kind * option (list Pandora_Data) := (module_kind m, data_list m).

Lemma fold_left_kind {A} (f : Pandora_Module → A → Pandora_Module) xs m :
  (∀ m x, kind_data (f m x) = kind_data m) →
  kind_data (fold_left f xs m) = kind_data m.
Proof. intros H. revert m; induction xs as [|x xs IH]; intros m; simpl; [done|]. by rewrite IH, H. Qed.

Lemma set_if_kind st v set m :
  (∀ s m, kind_data (set s m) = kind_data m) →
  kind_data (set_if st v set m) = kind_data m.
Proof. intros H. unfold set_if. by destruct (given st v). Qed.

Lemma configure_kind st m m' :
  configure regcomp_ok svc_interval svc_intensive st m = Ok (Some m') →
  kind_data m' = kind_data m.
Proof.
  unfold configure. intros (m1 & E1 & H)%rbind_Ok. apply rbind_Ok in H as (m2 & E2 & H).
  assert (K0 : kind_data (configure_common regcomp_ok st m) = kind_data m).
  { unfold configure_common. rewrite !fold_left_kind by done.
    destruct (given st v_module_async);
      [change (kind_data (setAsync true ?x)) with (kind_data x)|]; by rewrite !set_if_kind. }
  assert (K1 : kind_data m1 = kind_data m).
  { rewrite <- K0. unfold configure_interval in E1. repeat case_match; by simplify_eq/=. }
  assert (K2 : kind_data m2 = kind_data m1).
  { unfold configure_intensive in E2. destruct (lists st l_intensive_condition_list).
    - case_decide; by simplify_eq/=.
    - injection E2 as <-. by rewrite fold_left_kind. }
  assert (K3 : kind_data (configure_cron st m2) = kind_data m2).
  { unfold configure_cron, setCron, setCronInterval. by repeat case_match. }
  destruct (configure_type st (configure_cron st m2)) as [[m3 b]|] eqn:E3; [|done].
  apply rbind_Ok in H as (m4 & E4 & [= <-]).
  assert (K4 : kind_data m3 = kind_data m2).
  { rewrite <- K3. unfold configure_type in E3. repeat case_match; by simplify_eq/=. }
  assert (K5 : kind_data m4 = kind_data m3).
  { unfold configure_limits, configure_limit, rbind in E4.
    repeat case_match; by simplify_eq/=. }
  assert (K6 : kind_data (configure_attrs st m4) = kind_data m4).
  { unfold configure_attrs, attr_rows. cbn [fold_left]. by rewrite !set_if_kind. }
  congruence.
Qed.

Lemma factory_typed d o :
  getModuleFromDefinition has_output0 type0 kind0 regcomp_ok svc_interval svc_intensive d
    = Ok (Some o) → well_typed o.
Proof.
  unfold getModuleFromDefinition. intros ([o1|] & E1 & H)%rbind_Ok; [|done].
  apply rbind_Ok in H as (m & E2 & [= H]). destruct m as [m|]; [|done]. simplify_eq/=.
  apply create_module_typed in E1. apply configure_kind in E2. injection E2 as E2 _.
  unfold well_typed, getModuleKind in *. cbn [base own]. by rewrite E2.
Qed.

(** A new module has no data. *)
Lemma create_module_empty st o :
  create_module has_output0 type0 kind0 st = Ok (Some o) → data_list (base o) = None.
Proof.
  unfold create_module, create_proc, timeout_from, map_base. intros H.
  repeat (case_match; simplify_eq/=; try done);
    unfold setTimeout, setRetryDelay, setStartDelay, setRetries in *; simpl in *;
    repeat (case_match; simplify_eq/=; try done).
Qed.

Lemma factory_empty d o :
  getModuleFromDefinition has_output0 type0 kind0 regcomp_ok svc_interval svc_intensive d
    = Ok (Some o) → data_list (base o) = None.
Proof.
  unfold getModuleFromDefinition. intros ([o1|] & E1 & H)%rbind_Ok; [|done].
  apply rbind_Ok in H as (m & E2 & [= H]). destruct m as [m|]; [|done]. simplify_eq/=.
  apply create_module_empty in E1. apply configure_kind in E2. injection E2 as _ E2.
  cbn [base]. by rewrite E2.
Qed.

Lemma parse_definitions_factory ds os ms :
  Forall2 (λ d o, getModuleFromDefinition has_output0 type0 kind0 regcomp_ok svc_interval
                    svc_intensive d = Ok o) ds os →
  parse_definitions (getModuleFromDefinition has_output0 type0 kind0 regcomp_ok svc_interval
                       svc_intensive) ds ms = Ok (ms ++ omap id os).
Proof.
  intros H. revert ms; induction H as [|d o ds os Ho _ IH]; intros ms; cbn [parse_definitions].
  { by rewrite app_nil_r. }
  unfold parseModuleDefinition. rewrite Ho. cbn [rbind].
  destruct o as [o|]; cbn [rbind]; [|apply IH].
  apply factory_typed, well_typed_kind in Ho. unfold getModuleKind in *.
  destruct (module_kind (base o)); [done|..]; cbn [rbind]; rewrite IH, <- app_assoc; done.
Qed.
End kinds.

Lemma getlines_text ls rest :
  Forall (λ l, LF ∉ l) ls → LF ∉ rest → getlines (text_of ls ++ rest) = ls ++ [rest].
Proof.
  intros Hls Hrest. induction Hls as [|l ls Hl _ IH].
  - cbn [text_of fmap list_fmap concat app]. induction rest as [|c rest IHr]; [done|].
    apply not_elem_of_cons in Hrest as [Hc Hrest]. cbn [getlines]. rewrite IHr by done.
    by rewrite decide_False by done.
  - change (text_of (l :: ls)) with ((l ++ [LF]) ++ text_of ls). rewrite <- !app_assoc. cbn [app].
    by rewrite getlines_app, IH.
Qed.

Lemma new_list_from_lines build fs filename items rest :
  fs !! c_str filename = Some (text_of (concat (item_lines <$> items)) ++ rest) →
  Forall item_ok items → ignored_line rest = true → LF ∉ rest →
  new_list_from build fs filename =
    let! ms := parse_definitions build (concat (item_definitions <$> items)) [] in
    Ok {| modules := ms; current := begin_of ms |}.
Proof.
  intros Hf Hok Hrest HLF. unfold new_list_from. rewrite Hf.
  rewrite getlines_text; [|apply Forall_concat, Forall_fmap; eapply Forall_impl;
                           [done|by intros i [_ H]]|done].
  cbv zeta. destruct (list_loop_items build fs items [rest] _ [] Hok (le_n _)) as (fuel & Hfuel & ->).
  rewrite rbind_assoc. destruct (parse_definitions build _ []) as [ms|e|]; [|done|done].
  cbn [rbind]. destruct fuel as [|fuel]; [simpl in Hfuel; lia|]. cbn [list_loop]. rewrite Hrest.
  by destruct fuel.
Qed.

(** [n] times [goNext]. *)
Fixpoint goNexts (n : nat) (l : Pandora_Module_List) : res Pandora_Module_List :=
  match n with 0 => Ok l | S n => let! l := goNexts n l in goNext l end.

Lemma goNexts_at ms k :
  k ≤ length ms →
  goNexts k {| modules := ms; current := begin_of ms |} =
    Ok {| modules := ms; current := if decide (k < length ms) then C_at k else C_end |}.
Proof.
  induction k as [|k IH]; intros Hk; [by destruct ms|]. cbn [goNexts]. rewrite IH by lia.
  cbn [rbind]. rewrite decide_True by lia. unfold goNext, isLast, with_current.
  cbn [current rbind modules]. rewrite bool_decide_false by done. done.
Qed.

(** ** Properties *)

(** C16. The modules of a configuration file: for a file made of module blocks,
    plugin lines and other lines, each block is handed to the factory as the
    text from its [module_begin] line to its [module_end] line, each plugin
    line on its own, in order; the list holds exactly the modules that were
    not NULL, in that order, and the cursor is at the first. *)
Theorem new_list_from_items has_output0 type0 kind0 regcomp_ok svc_interval svc_intensive fs
    filename items rest os :
  let build := getModuleFromDefinition has_output0 type0 kind0 regcomp_ok svc_interval
                 svc_intensive in
  fs !! c_str filename = Some (text_of (concat (item_lines <$> items)) ++ rest) →
  Forall item_ok items → ignored_line rest = true → LF ∉ rest →
  Forall2 (λ d o, build d = Ok o) (concat (item_definitions <$> items)) os →
  new_list_from build fs filename =
    Ok {| modules := omap id os; current := begin_of (omap id os) |}.
Proof.
  intros build Hf Hok Hrest HLF Hos. rewrite (new_list_from_lines build fs filename items rest) by done.
  subst build. by rewrite (parse_definitions_factory _ _ _ _ _ _ _ os).
Qed.

Definition demo_items : list item :=
  [I_other (&"# agent"); I_other (&"agent_name pc1");
   I_block (&"module_begin")
     [&"module_name load"; &"module_type generic_data"; &"module_exec load.bat"] (&"module_end");
   I_other [];
   I_block (&"module_begin") [&"module_name x"; &"module_type bad"; &"module_exec x"] (&"module_end")].

Lemma new_list_from_items_witness :
  let build := getModuleFromDefinition false TYPE_0 MODULE_0 (λ _, true) 300 60 in
  ∃ l, new_list_from build {[ &"pandora_agent.conf" := text_of (concat (item_lines <$> demo_items)) ]}
         (&"pandora_agent.conf") = Ok l ∧
    (λ o, module_name (base o)) <$> modules l = [&"load"].
Proof.
  intros build.
  destruct (build (text_of [&"module_begin"; &"module_name load"; &"module_type generic_data";
    &"module_exec load.bat"; &"module_end"])) as [[o|]| |] eqn:E;
    try (exfalso; vm_compute in E; discriminate).
  exists {| modules := [o]; current := C_at 0 |}. split.
  - apply (new_list_from_items false TYPE_0 MODULE_0 (λ _, true) 300 60 _ _ demo_items [] [Some o; None]).
    + rewrite app_nil_r. by rewrite lookup_singleton_eq.
    + apply (bool_decide_unpack _). vm_compute. exact I.
    + done.
    + apply not_elem_of_nil.
    + constructor; [exact E|]. constructor; [vm_compute; reflexivity|constructor].
  - vm_compute in E. injection E as <-. reflexivity.
Defined.

(** The cursor: after [goFirst] and [k] times [goNext] the cursor is at the
    [k]-th module, [isLast] says whether there is none left, [isFirst] whether
    [k] is 0, and [goPrev] goes back one; [goLast] is the position after the
    last module. *)
Lemma cursor_laws l :
  current l ≠ C_unwritten →
  ∃ l0, goFirst l = Ok l0 ∧ goNexts (length (modules l)) l0 = goLast l ∧
  ∀ k, k ≤ length (modules l) →
    ∃ lk, goNexts k l0 = Ok lk ∧ modules lk = modules l ∧
      isLast lk = Ok (bool_decide (k = length (modules l))) ∧
      isFirst lk = Ok (bool_decide (k = 0)) ∧
      getCurrentValue lk = from_option Ok Undef (modules l !! k) ∧
      (∀ j, k = S j → goPrev lk = goNexts j l0).
Proof.
  destruct l as [ms c]. cbn [current modules]. intros Hc.
  exists {| modules := ms; current := begin_of ms |}. split_and!; [by destruct c|..].
  { rewrite goNexts_at, decide_False by lia. by destruct c. }
  intros k Hk. rewrite goNexts_at by done. eexists. split_and!; [done|done|..].
  - unfold isLast, with_current. cbn [current].
    destruct (decide (k < length ms)); f_equal; [|rewrite !bool_decide_true by (done || lia); done].
    rewrite !bool_decide_false by (done || lia). done.
  - unfold isFirst, with_current. cbn [current modules].
    destruct ms as [|m ms]; simpl in *.
    + assert (k = 0) as -> by lia. done.
    + destruct (decide (k < S (length ms))); f_equal.
      * apply bool_decide_ext. split; congruence.
      * by rewrite bool_decide_false by lia.
  - unfold getCurrentValue, with_current. cbn [current modules].
    destruct (decide (k < length ms)); [done|]. by rewrite lookup_ge_None_2 by lia.
  - intros j ->. rewrite goNexts_at, (decide_True (P := j < length ms)) by lia.
    unfold goPrev, isFirst, with_current. cbn [current modules].
    destruct ms as [|m ms]; [simpl in Hk; lia|]. cbn [begin_of].
    destruct (decide (S j < length (m :: ms))); cbn [rbind].
    + rewrite bool_decide_false by done. cbn [rbind current]. unfold set_current.
      do 3 f_equal. lia.
    + rewrite bool_decide_false by done. cbn [rbind current modules]. unfold set_current.
      do 3 f_equal. lia.
Qed.

Lemma cursor_laws_witness :
  ∃ l0, goFirst new_list = Ok l0 ∧ isLast l0 = Ok true.
Proof.
  destruct (cursor_laws new_list) as (l0 & E & _ & H); [done|].
  exists l0. split; [exact E|]. destruct (H 0 (le_n 0)) as (lk & Ek & _ & Hl & _).
  simpl in Ek. injection Ek as <-. exact Hl.
Defined.
