(* ===== verification/Lifetime.v ===== *)
(** * Deleting the modules ([pandora_module.cc], [pandora_module_list.cc])

    What a module has taken from the heap, from the regular-expression library and from
    Windows, and what the destructors give back: every part once, nothing that was never
    taken, and all but the parts that have no owner in the code ([leaked_object]). *)
From S2P Require Import Prelude StdString Scanf Strutils Pandora AgentConf PandoraFile PandoraData PandoraModule Wmi Modules ModuleFactory ModuleList.

(** ** What is taken and given back *)

(** [Regex] is the memory that [regcomp] takes, [Stream] the open file of a regular
    expression module, [Event_log] the handle that [OpenEventLog] gives. *)
Inductive part :=
  | Data (d : Pandora_Data) | Data_list | Inventory_list
  | Regex (pattern : str) | A_condition (c : Condition) | Condition_list
  | A_cron | Stream | Event_log | The_module (o : object) | Modules_list | Iterator.

Definition data_parts (list_part : part) (l : option (list Pandora_Data)) : list part :=
  match l with None => [] | Some ds => (Data <$> ds) ++ [list_part] end.

Definition regex_part (r : option str) : list part :=
  match r with None => [] | Some pattern => [Regex pattern] end.

Definition conditions_parts (l : option (list Condition)) : list part :=
  match l with
  | None => []
  | Some cs => flat_map (λ c, regex_part (regexp c) ++ [A_condition c]) cs ++ [Condition_list]
  end.

Definition cron_part (m : Pandora_Module) : list part :=
  match cron m with None => [] | Some _ => [A_cron] end.

Definition module_parts (m : Pandora_Module) : list part :=
  data_parts Data_list (data_list m) ++ data_parts Inventory_list (inventory_list m) ++
  conditions_parts (precondition_list m) ++ conditions_parts (condition_list m) ++
  conditions_parts (intensive_condition_list m) ++ cron_part m.

(** *** [Pandora_Module::~Pandora_Module] *)

(** One of its three loops.  [regfree] on an unwritten [regex_t] has no meaning. *)
Fixpoint free_conditions (cs : list Condition) : res (list part) :=
  match cs with
  | [] => Ok []
  | c :: cs =>
      let! re := if decide (string_value c = []) then Ok []
                 else match regexp c with None => Undef | Some pattern => Ok [Regex pattern] end in
      let! ps := free_conditions cs in
      Ok (re ++ A_condition c :: ps)
  end.

(** A list without conditions is not deleted. *)
Definition delete_conditions (l : option (list Condition)) : res (list part) :=
  match l with
  | Some (c :: cs) => let! ps := free_conditions (c :: cs) in Ok (ps ++ [Condition_list])
  | _ => Ok []
  end.

Definition delete_Pandora_Module (m : Pandora_Module) : res (list part) :=
  let! preconditions := delete_conditions (precondition_list m) in
  let! conditions := delete_conditions (condition_list m) in
  let! intensive := delete_conditions (intensive_condition_list m) in
  Ok (data_parts Data_list (data_list m) ++ data_parts Inventory_list (inventory_list m) ++
      preconditions ++ conditions ++ intensive ++ cron_part m).

(** What it leaves behind: the lists whose conditions were all rejected. *)
Definition leaked_conditions (l : option (list Condition)) : list part :=
  match l with Some [] => [Condition_list] | _ => [] end.
Definition leaked (m : Pandora_Module) : list part :=
  leaked_conditions (precondition_list m) ++ leaked_conditions (condition_list m) ++
  leaked_conditions (intensive_condition_list m).

(** *** The virtual destructors *)

Section delete.
Context (regcomp : str → option (str → bool)).

Definition compiled (pattern : str) : list part :=
  match regcomp (c_str pattern) with None => [] | Some _ => [Regex pattern] end.

Definition own_parts (c : child) : list part :=
  match c with
  | C_regexp _ pattern _ _ position =>
      compiled pattern ++ match position with None => [] | Some _ => [Stream] end
  | C_logevent _ _ _ pattern _ _ log_event =>
      (if decide (pattern = []) then [] else compiled pattern) ++
      (if log_event : bool then [Event_log] else [])
  | _ => []
  end.

Definition object_parts (o : object) : list part :=
  own_parts (own o) ++ module_parts (base o) ++ [The_module o].

(** [Pandora_Module_Regexp::~Pandora_Module_Regexp]; those of the other classes do
    nothing, and the one of the event log is not written. *)
Definition delete_own (c : child) : res (list part) :=
  match c with
  | C_regexp _ pattern _ _ position =>
      match regcomp (c_str pattern) with
      | None => Undef
      | Some _ => Ok (Regex pattern :: match position with None => [] | Some _ => [Stream] end)
      end
  | _ => Ok []
  end.

Definition delete_object (o : object) : res (list part) :=
  let! mine := delete_own (own o) in
  let! inherited := delete_Pandora_Module (base o) in
  Ok (mine ++ inherited ++ [The_module o]).

Definition leaked_own (c : child) : list part :=
  match c with C_logevent _ _ _ _ _ _ _ => own_parts c | _ => [] end.
Definition leaked_object (o : object) : list part := leaked_own (own o) ++ leaked (base o).

(** *** [Pandora_Module_List::~Pandora_Module_List] *)

Fixpoint delete_modules (ms : list object) : res (list part) :=
  match ms with
  | [] => Ok []
  | o :: ms =>
      let! ps := delete_object o in
      let! qs := delete_modules ms in
      Ok (ps ++ qs)
  end.

Definition delete_list (l : Pandora_Module_List) : res (list part) :=
  let! ps := delete_modules (ModuleList.modules l) in
  match current l with
  | C_unwritten => Undef
  | _ => Ok (ps ++ [Modules_list; Iterator])
  end.

Definition list_parts (l : Pandora_Module_List) : list part :=
  flat_map object_parts (ModuleList.modules l) ++ [Modules_list; Iterator].
End delete.

(** ** The conditions of a module *)

(** What [addGenericCondition] and [addIntensiveCondition] see to: [string_value] says
    whether the [regex_t] was compiled. *)
Definition condition_ok (c : Condition) : Prop :=
  regexp c = if decide (string_value c = []) then None else Some (string_value c).

Definition conditions_of (m : Pandora_Module) : list Condition :=
  default [] (precondition_list m) ++ default [] (condition_list m) ++
  default [] (intensive_condition_list m).

Definition conditions_ok (m : Pandora_Module) : Prop := Forall condition_ok (conditions_of m).

Lemma scan_str_not_nil w fmt s t vs eof :
  0 < w → Scanf.scan (D_str w :: fmt) s = (S_str t :: vs, eof) → t ≠ [].
Proof.
  intros Hw. cbn [Scanf.scan]. destruct (skip_ws s) as [|c s1] eqn:E; [done|].
  assert (isspace c = false) as Hc.
  { by eapply dropwhile_head. }
  destruct (Scanf.scan fmt _) as [vs1 eof1]. intros [= <- _ _]. cbn [takewhile]. rewrite Hc.
  destruct w; [lia|done].
Qed.

Lemma scan_regexp_not_nil fmt s t vs eof :
  Scanf.scan (D_char "="%char :: D_char "~"%char :: D_space :: D_str 1023 :: fmt) s =
    (S_str t :: vs, eof) → t ≠ [].
Proof.
  cbn [Scanf.scan]. destruct s as [|c s]; [done|]. case_decide; [|done].
  destruct s as [|d s]; [done|]. case_decide; [|done].
  apply scan_str_not_nil. lia.
Qed.

Lemma sscanf_scan s fmt n v vs : sscanf s fmt = (n, v :: vs) → ∃ eof, Scanf.scan fmt (c_str s) = (v :: vs, eof).
Proof. unfold sscanf. destruct (Scanf.scan fmt (c_str s)) as [vs' eof]. intros [= _ ->]. by exists eof. Qed.

Lemma sscanf_regexp_not_nil fmt s n t vs :
  sscanf s (D_char "="%char :: D_char "~"%char :: D_space :: D_str 1023 :: fmt) = (n, S_str t :: vs) →
  t ≠ [].
Proof. intros (eof & E)%sscanf_scan. by eapply scan_regexp_not_nil. Qed.

Lemma condition_pushed l c :
  Forall condition_ok l → condition_ok c → Forall condition_ok (l ++ [c]).
Proof. intros Hl Hc. by apply Forall_app, conj, Forall_singleton. Qed.

Section adding.
Context (regcomp_ok : str → bool).

Lemma regexp_condition_ok c sv : sv ≠ [] → string_value c = sv → regexp c = Some sv → condition_ok c.
Proof. intros Hne Hs Hr. unfold condition_ok. by rewrite Hs, Hr, decide_False. Qed.

Lemma addGenericCondition_ok s l :
  Forall condition_ok (default [] l) →
  Forall condition_ok (default [] (addGenericCondition regcomp_ok s l)).
Proof.
  intros Hl. unfold addGenericCondition.
  destruct (sscanf s fmt_numeric_cmd) as [n1 vs1], (sscanf s fmt_interval_cmd) as [n3 vs3].
  assert (∀ t vs n, sscanf s fmt_regexp_cmd = (n, S_str t :: vs) → t ≠ []) as Hre
    by (intros t vs n; apply sscanf_regexp_not_nil).
  destruct (sscanf s fmt_regexp_cmd) as [n2 vs2].
  repeat case_match; subst; try done; apply condition_pushed; try done.
  all: by eapply regexp_condition_ok; [eapply Hre|..].
Qed.

Lemma addIntensive_ok s l :
  Forall condition_ok (default [] l) →
  Forall condition_ok (default [] (addIntensive regcomp_ok s l)).
Proof.
  intros Hl. unfold addIntensive.
  destruct (sscanf s fmt_numeric) as [n1 vs1], (sscanf s fmt_interval) as [n3 vs3].
  assert (∀ t vs n, sscanf s fmt_regexp = (n, S_str t :: vs) → t ≠ []) as Hre
    by (intros t vs n; apply sscanf_regexp_not_nil).
  destruct (sscanf s fmt_regexp) as [n2 vs2].
  repeat case_match; subst; try done; apply condition_pushed; try done.
  all: by eapply regexp_condition_ok; [eapply Hre|..].
Qed.

Implicit Types (m : Pandora_Module) (st : locals).

Lemma addCondition_ok s m : conditions_ok m → conditions_ok (addCondition regcomp_ok s m).
Proof.
  unfold conditions_ok, conditions_of. rewrite !Forall_app. intros (H1 & H2 & H3).
  split_and!; [done| |done]. by apply addGenericCondition_ok.
Qed.

Lemma addPreCondition_ok s m : conditions_ok m → conditions_ok (addPreCondition regcomp_ok s m).
Proof.
  unfold conditions_ok, conditions_of. rewrite !Forall_app. intros (H1 & H2 & H3).
  split_and!; [|done|done]. by apply addGenericCondition_ok.
Qed.

Lemma addIntensiveCondition_ok s m :
  conditions_ok m → conditions_ok (addIntensiveCondition regcomp_ok s m).
Proof.
  unfold conditions_ok, conditions_of. rewrite !Forall_app. intros (H1 & H2 & H3).
  split_and!; [done|done|]. by apply addIntensive_ok.
Qed.

(** The other setters leave the conditions alone. *)
Abbreviation same_conditions m m' := (conditions_of m' = conditions_of m).

Lemma same_conditions_ok m m' : same_conditions m m' → conditions_ok m → conditions_ok m'.
Proof. unfold conditions_ok. by intros ->. Qed.

Lemma set_if_conditions st v set m :
  (∀ s m, same_conditions m (set s m)) → same_conditions m (set_if st v set m).
Proof. intros H. unfold set_if. by destruct (given st v). Qed.

Lemma fold_left_ok {A} (f : Pandora_Module → A → Pandora_Module) xs m :
  (∀ m x, conditions_ok m → conditions_ok (f m x)) →
  conditions_ok m → conditions_ok (fold_left f xs m).
Proof. intros H. revert m; induction xs as [|x xs IH]; intros m Hm; [done|]. apply IH, H, Hm. Qed.

Lemma configure_common_ok st m : conditions_ok m → conditions_ok (configure_common regcomp_ok st m).
Proof.
  intros H. unfold configure_common.
  apply fold_left_ok; [intros; by apply addCondition_ok|].
  apply fold_left_ok; [intros; by apply addPreCondition_ok|].
  eapply same_conditions_ok; [|exact H].
  destruct (given st v_module_async);
    [change (conditions_of (setAsync true ?x)) with (conditions_of x)|]; by rewrite !set_if_conditions.
Qed.

Lemma configure_intensive_ok iv im st m m' :
  configure_intensive regcomp_ok iv im st m = Ok m' → conditions_ok m → conditions_ok m'.
Proof.
  unfold configure_intensive. destruct (lists st l_intensive_condition_list) as [|c cs].
  - case_decide; [done|]. intros [= <-]. by apply same_conditions_ok.
  - intros [= <-] H. apply fold_left_ok; [|by apply addIntensiveCondition_ok].
    intros. by apply addIntensiveCondition_ok.
Qed.

Lemma configure_ok iv im st m m' :
  configure regcomp_ok iv im st m = Ok (Some m') → conditions_ok m → conditions_ok m'.
Proof.
  unfold configure. intros (m1 & E1 & H)%rbind_Ok Hm. apply rbind_Ok in H as (m2 & E2 & H).
  apply (configure_common_ok st) in Hm.
  assert (conditions_ok m1) as Hm1.
  { eapply same_conditions_ok; [|exact Hm].
    unfold configure_interval in E1. repeat case_match; by simplify_eq/=. }
  apply configure_intensive_ok in E2; [|done].
  destruct (configure_type st (configure_cron st m2)) as [[m3 b]|] eqn:E3; [|done].
  apply rbind_Ok in H as (m4 & E4 & [= <-]). eapply same_conditions_ok; [|exact E2].
  assert (same_conditions m2 (configure_cron st m2)) as <-
    by (unfold configure_cron, setCron, setCronInterval; by repeat case_match).
  assert (same_conditions (configure_cron st m2) m3) as <-
    by (unfold configure_type in E3; repeat case_match; by simplify_eq/=).
  assert (same_conditions m3 m4) as <-
    by (unfold configure_limits, configure_limit, rbind in E4; repeat case_match; by simplify_eq/=).
  unfold configure_attrs, attr_rows. cbn [fold_left]. by rewrite !set_if_conditions.
Qed.
End adding.

Lemma create_module_conditions has_output0 type0 kind0 st o :
  create_module has_output0 type0 kind0 st = Ok (Some o) → conditions_of (base o) = [].
Proof.
  unfold create_module, create_proc, timeout_from, map_base. intros H.
  repeat (case_match; simplify_eq/=; try done);
    unfold setTimeout, setRetryDelay, setStartDelay, setRetries in *; simpl in *;
    repeat (case_match; simplify_eq/=; try done).
Qed.

Lemma factory_conditions_ok has_output0 type0 kind0 regcomp_ok iv im d o :
  getModuleFromDefinition has_output0 type0 kind0 regcomp_ok iv im d = Ok (Some o) →
  conditions_ok (base o).
Proof.
  unfold getModuleFromDefinition. intros ([o1|] & E1 & H)%rbind_Ok; [|done].
  apply rbind_Ok in H as (m & E2 & [= H]). destruct m as [m|]; [|done]. simplify_eq/=.
  apply create_module_conditions in E1. eapply configure_ok; [exact E2|].
  unfold conditions_ok. by rewrite E1.
Qed.

(** ** What is given back *)

Lemma free_conditions_spec cs :
  Forall condition_ok cs →
  free_conditions cs = Ok (flat_map (λ c, regex_part (regexp c) ++ [A_condition c]) cs).
Proof.
  induction 1 as [|c cs Hc _ IH]; [done|]. cbn [free_conditions flat_map]. rewrite IH. rewrite Hc.
  destruct (decide (string_value c = [])); done.
Qed.

Lemma delete_conditions_spec l :
  Forall condition_ok (default [] l) →
  ∃ ps, delete_conditions l = Ok ps ∧ conditions_parts l = ps ++ leaked_conditions l.
Proof.
  destruct l as [[|c cs]|]; intros H; [by exists []| |by exists []].
  unfold delete_conditions. rewrite free_conditions_spec by done. eexists. split; [done|].
  cbn [leaked_conditions]. by rewrite app_nil_r.
Qed.

Lemma delete_module_spec m :
  conditions_ok m →
  ∃ ps, delete_Pandora_Module m = Ok ps ∧ module_parts m ≡ₚ ps ++ leaked m.
Proof.
  unfold conditions_ok, conditions_of. rewrite !Forall_app. intros (H1 & H2 & H3).
  destruct (delete_conditions_spec _ H1) as (p1 & E1 & Hp1).
  destruct (delete_conditions_spec _ H2) as (p2 & E2 & Hp2).
  destruct (delete_conditions_spec _ H3) as (p3 & E3 & Hp3).
  unfold delete_Pandora_Module, module_parts, leaked. rewrite E1, E2, E3, Hp1, Hp2, Hp3.
  eexists. split; [done|]. solve_Permutation.
Qed.

Section deleting.
Context (regcomp : str → option (str → bool)).

(** The pattern of a regular expression module was accepted. *)
Definition pattern_ok (o : object) : Prop :=
  match own o with C_regexp _ pattern _ _ _ => is_Some (regcomp (c_str pattern)) | _ => True end.

Lemma delete_own_spec o :
  pattern_ok o →
  ∃ ps, delete_own regcomp (own o) = Ok ps ∧
    own_parts regcomp (own o) = ps ++ leaked_own regcomp (own o).
Proof.
  unfold pattern_ok. destruct (own o); try (intros _; by exists []).
  intros [f Hf]. cbn [delete_own own_parts leaked_own]. unfold compiled. rewrite Hf.
  eexists. split; [done|]. by rewrite app_nil_r.
Qed.

Lemma delete_object_spec o :
  conditions_ok (base o) → pattern_ok o →
  ∃ ps, delete_object regcomp o = Ok ps ∧
    object_parts regcomp o ≡ₚ ps ++ leaked_object regcomp o.
Proof.
  intros (p1 & E1 & H1)%delete_module_spec (p2 & E2 & H2)%delete_own_spec.
  unfold delete_object, object_parts, leaked_object. rewrite E1, E2, H2.
  eexists. split; [done|]. rewrite H1. solve_Permutation.
Qed.

Lemma delete_modules_spec ms :
  Forall (λ o, conditions_ok (base o) ∧ pattern_ok o) ms →
  ∃ ps, delete_modules regcomp ms = Ok ps ∧
    flat_map (object_parts regcomp) ms ≡ₚ ps ++ flat_map (leaked_object regcomp) ms.
Proof.
  induction 1 as [|o ms [Hc Hp] _ (qs & Eq & Hq)]; [by exists []|].
  destruct (delete_object_spec o Hc Hp) as (ps & Ep & Hps).
  cbn [delete_modules flat_map]. rewrite Ep, Eq. eexists. split; [done|].
  rewrite Hps, Hq. solve_Permutation.
Qed.

(** [regfree] is called on what [regcomp] has rejected. *)
Lemma delete_own_rejected source pattern no_seek size position :
  regcomp (c_str pattern) = None →
  delete_own regcomp (C_regexp source pattern no_seek size position) = Undef.
Proof. intros E. cbn. by rewrite E. Qed.
End deleting.

(** Nothing is left behind by a module none of whose lists of conditions is empty, unless
    it reads the event log. *)
Lemma leaked_object_nil regcomp o :
  precondition_list (base o) ≠ Some [] → condition_list (base o) ≠ Some [] →
  intensive_condition_list (base o) ≠ Some [] → getModuleKind (base o) ≠ MODULE_LOGEVENT →
  well_typed o → leaked_object regcomp o = [].
Proof.
  intros Hp Hc Hi Hk Ht. unfold leaked_object, leaked, leaked_conditions.
  assert (leaked_own regcomp (own o) = []) as ->
    by (unfold well_typed in Ht; destruct (own o); try done; by apply list_elem_of_singleton in Ht).
  by destruct (precondition_list _) as [[]|], (condition_list _) as [[]|],
    (intensive_condition_list _) as [[]|].
Qed.
