(* ===== verification/ServiceState.v ===== *)
(** * The state of the service and its surroundings

    [class Pandora_Windows_Service] ([pandora_windows_service.h]), the singletons
    and statics it shares with the rest of the agent, the files, and the requests
    it makes to other programs. Service code is written in a monad of world
    transformers with C++ exceptions that keep the world they were thrown in. *)
From S2P Require Import Prelude StdString Scanf AgentConf PandoraData PandoraModule Wmi Modules EventText ModuleFactory ModuleList.

(** ** Requests to the surroundings *)

(** A process that is started, and waited for during [timeout] milliseconds
    ([-1] is [INFINITE], [None] is no wait); [system]; the SSH and FTP clients;
    [CopyFile]; [Sleep]; the service manager; a process nobody waits for. *)
Inductive request :=
  | R_process (cmd : str) (timeout : option Z)
  | R_system (cmd : str)
  | R_ssh_connect (host : str) (port : Z) (user pubkey privkey : str)
  | R_scp (remote local : str)
  | R_ftp_connect (host : str) (port : Z) (user password : str)
  | R_ftp_put (remote local : str)
  | R_copy_file (from to : str)
  | R_chdir (dir : str)
  | R_mkdir (dir : str)
  | R_remove_dir (dir : str)
  | R_sleep (milliseconds : Z)
  | R_start_service (name : str)
  | R_stop_service (name : str)
  | R_run_program (command : str) (flags : Z).

(** The process could not be started, the wait timed out, or the code returned. *)
Inductive reply := No_process_started | Wait_timed_out | Code (rc : Z).

#[global] Instance request_eq_dec : EqDecision request.
Proof. solve_decision. Defined.
#[global] Instance reply_eq_dec : EqDecision reply.
Proof. solve_decision. Defined.

(** What the agent does that others can see: a request, or the start of the
    command of a module condition. *)
Inductive event :=
  | E_request (r : request)
  | E_command (cmd : str).

(** The machine of the modules at one moment: the answers that [run] reads. *)
Record machine := {
  m_now : SYSTEMTIME;
  m_exec : str → launch;
  m_query : str → Wmi.answer;
  m_software : list str;
  m_pdh : str → pdh;
  m_net : str → Z → network;
  m_file : str → Modules.file;
  m_log_opens : bool;
  m_log_old : list read_result;
  m_log_reads : list read_result;
  m_event_api : event_api }.

(** The computer: constants, and the answers to the [n]-th question. Other
    programs may change the files while they serve a request. [regcomp_ok] and
    [regexec] are for basic patterns, [regcomp_extended] for extended ones. *)
Record platform := {
  install_dir : str;
  system_name : str;
  os_name : str;
  os_version : str;
  system_address : str;
  gis_exec : nat → str → launch;
  writable : str → bool;
  clock : nat → Z;
  localtime : Z → SYSTEMTIME;
  break_time : Z → option tm;
  rand : nat → Z;
  free_space : nat → str → option Z;
  find_files : files → str → list str;
  collection_dir : files → option (list str);
  serve : nat → request → files → reply * files;
  at_run : nat → machine;
  pre_process : nat → str → process;
  spawn : nat → str → bool;
  regcomp_ok : str → bool;
  regexec : str → str → bool;
  regcomp_extended : str → option (str → bool);
  new_has_output : bool;
  new_type : Module_Type;
  new_kind : Module_Kind }.

(** ** The world *)

(** The members of the service, the statics of its functions ([startup],
    [first_run]), the debug flag, the strings given to [putenv] (newest first),
    the files, the number of questions asked so far and what has been done.
    [interval_sec] is not set by [setValues]. *)
Record world := mk_world {
  conf : option Pandora_Agent_Conf;
  modules : option Pandora_Module_List;
  timestamp : Z;
  run_time : Z;
  interval : Z;
  interval_sec : option Z;
  intensive_interval : Z;
  sleep_time : Z;
  execution_number : Z;
  tentacle_proxy : bool;
  udp_server : option (str * str * Z);
  startup : bool;
  first_run : bool;
  debug : bool;
  environ : list str;
  fs : files;
  calls : nat;
  trace : list event }.
Definition set_conf (v : option Pandora_Agent_Conf) (w : world) : world :=
  mk_world v (modules w) (timestamp w) (run_time w) (interval w) (interval_sec w)
    (intensive_interval w) (sleep_time w) (execution_number w) (tentacle_proxy w)
    (udp_server w) (startup w) (first_run w) (debug w) (environ w) (fs w) (calls w) (trace
    w).
Definition set_modules (v : option Pandora_Module_List) (w : world) : world :=
  mk_world (conf w) v (timestamp w) (run_time w) (interval w) (interval_sec w)
    (intensive_interval w) (sleep_time w) (execution_number w) (tentacle_proxy w)
    (udp_server w) (startup w) (first_run w) (debug w) (environ w) (fs w) (calls w) (trace
    w).
Definition set_timestamp (v : Z) (w : world) : world :=
  mk_world (conf w) (modules w) v (run_time w) (interval w) (interval_sec w)
    (intensive_interval w) (sleep_time w) (execution_number w) (tentacle_proxy w)
    (udp_server w) (startup w) (first_run w) (debug w) (environ w) (fs w) (calls w) (trace
    w).
Definition set_run_time (v : Z) (w : world) : world :=
  mk_world (conf w) (modules w) (timestamp w) v (interval w) (interval_sec w)
    (intensive_interval w) (sleep_time w) (execution_number w) (tentacle_proxy w)
    (udp_server w) (startup w) (first_run w) (debug w) (environ w) (fs w) (calls w) (trace
    w).
Definition set_interval (v : Z) (w : world) : world :=
  mk_world (conf w) (modules w) (timestamp w) (run_time w) v (interval_sec w)
    (intensive_interval w) (sleep_time w) (execution_number w) (tentacle_proxy w)
    (udp_server w) (startup w) (first_run w) (debug w) (environ w) (fs w) (calls w) (trace
    w).
Definition set_interval_sec (v : option Z) (w : world) : world :=
  mk_world (conf w) (modules w) (timestamp w) (run_time w) (interval w) v
    (intensive_interval w) (sleep_time w) (execution_number w) (tentacle_proxy w)
    (udp_server w) (startup w) (first_run w) (debug w) (environ w) (fs w) (calls w) (trace
    w).
Definition set_intensive_interval (v : Z) (w : world) : world :=
  mk_world (conf w) (modules w) (timestamp w) (run_time w) (interval w) (interval_sec w) v
    (sleep_time w) (execution_number w) (tentacle_proxy w) (udp_server w) (startup w)
    (first_run w) (debug w) (environ w) (fs w) (calls w) (trace w).
Definition set_sleep_time (v : Z) (w : world) : world :=
  mk_world (conf w) (modules w) (timestamp w) (run_time w) (interval w) (interval_sec w)
    (intensive_interval w) v (execution_number w) (tentacle_proxy w) (udp_server w)
    (startup w) (first_run w) (debug w) (environ w) (fs w) (calls w) (trace w).
Definition set_execution_number (v : Z) (w : world) : world :=
  mk_world (conf w) (modules w) (timestamp w) (run_time w) (interval w) (interval_sec w)
    (intensive_interval w) (sleep_time w) v (tentacle_proxy w) (udp_server w) (startup w)
    (first_run w) (debug w) (environ w) (fs w) (calls w) (trace w).
Definition set_tentacle_proxy (v : bool) (w : world) : world :=
  mk_world (conf w) (modules w) (timestamp w) (run_time w) (interval w) (interval_sec w)
    (intensive_interval w) (sleep_time w) (execution_number w) v (udp_server w) (startup
    w) (first_run w) (debug w) (environ w) (fs w) (calls w) (trace w).
Definition set_udp_server (v : option (str * str * Z)) (w : world) : world :=
  mk_world (conf w) (modules w) (timestamp w) (run_time w) (interval w) (interval_sec w)
    (intensive_interval w) (sleep_time w) (execution_number w) (tentacle_proxy w) v
    (startup w) (first_run w) (debug w) (environ w) (fs w) (calls w) (trace w).
Definition set_startup (v : bool) (w : world) : world :=
  mk_world (conf w) (modules w) (timestamp w) (run_time w) (interval w) (interval_sec w)
    (intensive_interval w) (sleep_time w) (execution_number w) (tentacle_proxy w)
    (udp_server w) v (first_run w) (debug w) (environ w) (fs w) (calls w) (trace w).
Definition set_first_run (v : bool) (w : world) : world :=
  mk_world (conf w) (modules w) (timestamp w) (run_time w) (interval w) (interval_sec w)
    (intensive_interval w) (sleep_time w) (execution_number w) (tentacle_proxy w)
    (udp_server w) (startup w) v (debug w) (environ w) (fs w) (calls w) (trace w).
Definition set_debug (v : bool) (w : world) : world :=
  mk_world (conf w) (modules w) (timestamp w) (run_time w) (interval w) (interval_sec w)
    (intensive_interval w) (sleep_time w) (execution_number w) (tentacle_proxy w)
    (udp_server w) (startup w) (first_run w) v (environ w) (fs w) (calls w) (trace w).
Definition set_environ (v : list str) (w : world) : world :=
  mk_world (conf w) (modules w) (timestamp w) (run_time w) (interval w) (interval_sec w)
    (intensive_interval w) (sleep_time w) (execution_number w) (tentacle_proxy w)
    (udp_server w) (startup w) (first_run w) (debug w) v (fs w) (calls w) (trace w).
Definition set_fs (v : files) (w : world) : world :=
  mk_world (conf w) (modules w) (timestamp w) (run_time w) (interval w) (interval_sec w)
    (intensive_interval w) (sleep_time w) (execution_number w) (tentacle_proxy w)
    (udp_server w) (startup w) (first_run w) (debug w) (environ w) v (calls w) (trace w).
Definition set_calls (v : nat) (w : world) : world :=
  mk_world (conf w) (modules w) (timestamp w) (run_time w) (interval w) (interval_sec w)
    (intensive_interval w) (sleep_time w) (execution_number w) (tentacle_proxy w)
    (udp_server w) (startup w) (first_run w) (debug w) (environ w) (fs w) v (trace w).
Definition set_trace (v : list event) (w : world) : world :=
  mk_world (conf w) (modules w) (timestamp w) (run_time w) (interval w) (interval_sec w)
    (intensive_interval w) (sleep_time w) (execution_number w) (tentacle_proxy w)
    (udp_server w) (startup w) (first_run w) (debug w) (environ w) (fs w) (calls w) v.

(** ** The monad *)

(** A value, an exception, or an execution the code gives no result to
    (undefined behaviour, or a loop that does not end); the first two with the
    world they leave. *)
Inductive out (A : Type) :=
  | Ret (a : A) (w : world)
  | Throw (e : exn) (w : world)
  | Stuck.
Arguments Ret {A} a w.
Arguments Throw {A} e w.
Arguments Stuck {A}.

Definition M (A : Type) : Type := world → out A.

#[global] Instance M_ret : MRet M := λ A a w, Ret a w.
#[global] Instance M_bind : MBind M := λ A B k m w,
  match m w with
  | Ret a w => k a w
  | Throw e w => Throw e w
  | Stuck => Stuck
  end.

Definition get_world : M world := λ w, Ret w w.
Definition gets {A} (f : world → A) : M A := λ w, Ret (f w) w.
Definition modify (f : world → world) : M () := λ w, Ret () (f w).
Definition throw {A} (e : exn) : M A := λ w, Throw e w.
Definition stuck {A} : M A := λ _, Stuck.

Definition lift {A} (r : res A) : M A := λ w,
  match r with Ok a => Ret a w | Err e => Throw e w | Undef => Stuck end.

(** [try { m } catch (...) { h }] *)
Definition try_catch {A} (m h : M A) : M A := λ w,
  match m w with
  | Throw _ w => h w
  | o => o
  end.

(** [try { m } catch (Invalid_Conversion e) { h }] *)
Definition try_conversion {A} (m h : M A) : M A := λ w,
  match m w with
  | Throw Invalid_Conversion w => h w
  | o => o
  end.

Definition to_res {A} (o : out A) : res (A * world) :=
  match o with Ret a w => Ok (a, w) | Throw e _ => Err e | Stuck => Undef end.

Definition of_res {A} (r : res (A * world)) (w : world) : out A :=
  match r with Ok (a, w) => Ret a w | Err e => Throw e w | Undef => Stuck end.

Definition when (b : bool) (m : M ()) : M () := if b then m else mret ().

(** The next question to the surroundings. *)
Definition ask : M nat := λ w, Ret (calls w) (set_calls (S (calls w)) w).

Definition emit (e : event) : M () := modify (λ w, set_trace (trace w ++ [e]) w).

Section requests.
Context (p : platform).

Definition request_ (r : request) : M reply :=
  n ← ask;
  emit (E_request r);;
  w ← get_world;
  let '(answer, files) := serve p n r (fs w) in
  modify (set_fs files);;
  mret answer.
End requests.

(** ** Configuration values and paths *)

(** [conf->getValue (key)]: a null [conf] has no members. *)
Definition getValue_of (key : str) : M str :=
  c ← gets conf;
  match c with
  | Some c => lift (conf_getValue c key)
  | None => stuck
  end.

(** [if (s[s.length () - 1] != c) s += c]: an empty string is indexed out of
    its bounds. *)
Definition ends_with (c : chr) (s : str) : res str :=
  match last_char s with
  | None => Undef
  | Some d => Ok (if decide (d = c) then s else s ++ [c])
  end.

Definition SLASH : chr := of_code 47.
Definition temporal_dir : M str :=
  t ← getValue_of &"temporal";
  lift (ends_with (of_code 92) t).

(** [getenv]: the newest assignment of the name. *)
Fixpoint getenv (env : list str) (name : str) : option str :=
  match env with
  | [] => None
  | s :: env =>
      if prefixb (name ++ &"=") s then Some (drop (length name + 1) s) else getenv env name
  end.

Definition putenv (s : str) : M () := modify (λ w, set_environ (s :: environ w) w).

(** ** What a computation keeps *)

(** [keeps R m]: the world [m] leaves, by a value or an exception, is related to
    the one it started in. *)
Definition keeps (R : world → world → Prop) {A} (m : M A) : Prop :=
  ∀ w, match m w with Ret _ w' | Throw _ w' => R w w' | Stuck => True end.

Section keeps.
Context (R : world → world → Prop) `{!PreOrder R}.

Lemma keeps_ret {A} (a : A) : keeps R (mret a).
Proof. intros w. cbn. reflexivity. Qed.

Lemma keeps_bind {A B} (m : M A) (k : A → M B) :
  keeps R m → (∀ a, keeps R (k a)) → keeps R (m ≫= k).
Proof.
  intros Hm Hk w. specialize (Hm w). unfold mbind, M_bind.
  destruct (m w) as [a w1|e w1|]; [|done|done].
  specialize (Hk a w1). destruct (k a w1); [..|done]; by etrans.
Qed.

Lemma keeps_lift {A} (r : res A) : keeps R (lift r).
Proof. intros w. unfold lift. destruct r; cbn; reflexivity || done. Qed.

Lemma keeps_gets {A} (f : world → A) : keeps R (gets f).
Proof. intros w. cbn. reflexivity. Qed.

Lemma keeps_get_world : keeps R get_world.
Proof. intros w. cbn. reflexivity. Qed.

Lemma keeps_throw {A} e : keeps R (throw (A:=A) e).
Proof. intros w. cbn. reflexivity. Qed.

Lemma keeps_stuck {A} : keeps R (stuck (A:=A)).
Proof. intros w. cbn. reflexivity. Qed.

Lemma keeps_try_catch {A} (m h : M A) : keeps R m → keeps R h → keeps R (try_catch m h).
Proof.
  intros Hm Hh w. specialize (Hm w). unfold try_catch.
  destruct (m w) as [a w1|e w1|]; [done| |done].
  specialize (Hh w1). destruct (h w1); [..|done]; by etrans.
Qed.

Lemma keeps_modify f : (∀ w, R w (f w)) → keeps R (modify f).
Proof. intros H w. apply H. Qed.

Lemma keeps_getValue_of key : keeps R (getValue_of key).
Proof. intros w. unfold getValue_of, mbind, M_bind, gets. destruct (conf w); [apply (keeps_lift _)|done]. Qed.

Lemma keeps_temporal_dir : keeps R temporal_dir.
Proof. apply keeps_bind; [apply keeps_getValue_of|]. intros t. apply keeps_lift. Qed.

Lemma keeps_Ret {A} (m : M A) w a w' : keeps R m → m w = Ret a w' → R w w'.
Proof. intros H E. specialize (H w). by rewrite E in H. Qed.
End keeps.

Lemma bind_Ret {A B} (m : M A) (k : A → M B) w b w' :
  (m ≫= k) w = Ret b w' ↔ ∃ a w1, m w = Ret a w1 ∧ k a w1 = Ret b w'.
Proof. unfold mbind, M_bind. destruct (m w); naive_solver. Qed.

Lemma try_catch_Ret {A} (m h : M A) w a w' :
  try_catch m h w = Ret a w' ↔
  m w = Ret a w' ∨ ∃ e w1, m w = Throw e w1 ∧ h w1 = Ret a w'.
Proof. unfold try_catch. destruct (m w); naive_solver. Qed.

Lemma lift_Ret {A} (r : res A) w a w' : lift r w = Ret a w' ↔ r = Ok a ∧ w' = w.
Proof. unfold lift. destruct r; naive_solver. Qed.

Create HintDb keeps discriminated.
#[export] Hint Constants Opaque : keeps.
#[export] Hint Resolve keeps_ret keeps_lift keeps_gets keeps_get_world keeps_throw keeps_stuck
  keeps_getValue_of keeps_temporal_dir : keeps.

#[export] Hint Extern 1 (PreOrder _) => typeclasses eauto : keeps.

(** [keeping] walks a computation with the lemmas above and the hints. *)
Ltac keeping :=
  repeat first
    [ progress eauto with keeps
    | match goal with
      | |- keeps _ (mbind _ _) => apply keeps_bind; [..|intros ?]
      | |- keeps _ (try_catch _ _) => apply keeps_try_catch
      | |- keeps _ (if decide ?P then _ else _) => destruct (decide P)
      | |- keeps _ (if ?b then _ else _) => destruct b
      | |- keeps _ (match ?x with _ => _ end) => destruct x
      | |- keeps _ (let '_ := ?x in _) => destruct x
      end ].

Lemma getValue_of_same key w v w' : getValue_of key w = Ret v w' → w' = w.
Proof.
  unfold getValue_of. rewrite bind_Ret. intros (c & ? & [= <- <-] & H).
  destruct (conf w); [|done]. by apply lift_Ret in H as [_ ->].
Qed.

(** ** A small platform, on which the examples run *)

Definition demo_machine : machine := {|
  m_now := {| wYear := 2014; wMonth := 1; wDay := 1; wHour := 0; wMinute := 0; wSecond := 0 |};
  m_exec _ := No_process; m_query _ := {| Wmi.objects := []; Wmi.failed := false |};
  m_software := [];
  m_pdh _ := {| pdh_loaded := false; open_query := false; add_counter := false; collect := false;
                collect_again := false; formatted := None; raw := None |};
  m_net _ _ := {| socket_ok := false; resolved := false; connect := Connect_error; select := 0 |};
  m_file _ := None; m_log_opens := false; m_log_old := []; m_log_reads := [];
  m_event_api := demo_event_api |}.

Definition demo_platform (serve : nat → request → files → reply * files) : platform := {|
  install_dir := &"C:\agent\"; system_name := &"host"; os_name := &"Windows"; os_version := &"7";
  system_address := &"10.0.0.1"; gis_exec _ _ := No_process; writable _ := true;
  clock _ := 1000%Z; localtime _ := m_now demo_machine; break_time _ := None; rand _ := 7%Z;
  free_space _ _ := None; find_files _ _ := []; collection_dir _ := Some [];
  serve := serve; at_run _ := demo_machine; pre_process _ _ := No_job_or_pipe; spawn _ _ := true;
  regcomp_ok _ := true; regexec _ _ := true; regcomp_extended _ := Some (λ _, true);
  new_has_output := false; new_type := TYPE_0; new_kind := MODULE_0 |}.

(** Key-value pairs in memory. *)
Definition demo_conf (kvs : list (str * str)) : Pandora_Agent_Conf := {|
  key_values := Some ((λ kv, {| Pandora.kv_key := kv.1; Pandora.kv_value := kv.2 |}) <$> kvs);
  collection_list := Some []; collection_it := 0; broker_enabled := false |}.

Definition demo_world (c : Pandora_Agent_Conf) (m : files) : world := {|
  conf := Some c; modules := None; timestamp := 0; run_time := 0; interval := 300000;
  interval_sec := Some 300%Z; intensive_interval := 300000; sleep_time := 300000;
  execution_number := 0; tentacle_proxy := false; udp_server := None; startup := false;
  first_run := false; debug := false; environ := [&"PATH=C:\bin"]; fs := m; calls := 0;
  trace := [] |}.
