(* ===== verification/Transfer.v ===== *)
(** * Sending and retrieving files

    The transfer functions of [pandora_windows_service.cc]: Tentacle, SSH, FTP
    and local copies, the primary and secondary servers of [copyDataFile], and
    [recvDataFile]. *)
From S2P Require Import Prelude StdString Scanf Strutils AgentConf PandoraFile PandoraModule ServiceState.

Definition PANDORA_EXCEPTION : Z := 11.
Definition AUTHENTICATION_FAILED : Z := 12.
Definition UNKNOWN_HOST : Z := 13.
Definition FTP_EXCEPTION : Z := 14.
Definition FTP_DEFAULT_PORT : Z := 21.
Definition SSH_DEFAULT_PORT : Z := 22.
Definition INFINITE : Z := -1.

Section transfer.
Context (p : platform).

(** The code of a request that returns an [int]. *)
Definition request_rc (r : request) : M Z :=
  a ← request_ p r;
  mret (match a with Code rc => rc | _ => (-1)%Z end).

(** ** Sending *)

(** The command line of the Tentacle client, after [-a host]. *)
Definition tentacle_options (port ssl pass opts : str) : str :=
  (if decide (port = []) then [] else &" -p " ++ port) ++
  (if decide (ssl = &"1") then &" -c" else []) ++
  (if decide (pass = []) then [] else &" -x " ++ pass) ++
  (if decide (opts = []) then [] else SP :: opts).

Definition tentacle_command (host port ssl pass opts filepath : str) : str :=
  &"tentacle_client.exe -a " ++ host ++ tentacle_options port ssl pass opts ++
  &" " ++ [QUOTE] ++ filepath ++ [QUOTE].

(** [tentacle_timeout]: in milliseconds; the product is computed in [int]. *)
Definition tentacle_wait (value : str) : Z :=
  if (atoi value <=? 0)%Z then INFINITE else s32 (atoi value * 1000).

Definition copyTentacleDataFile (host filename port ssl pass opts : str) : M Z :=
  var ← temporal_dir;
  timeout ← getValue_of &"tentacle_timeout";
  a ← request_ p (R_process (tentacle_command host port ssl pass opts (var ++ filename))
                    (Some (tentacle_wait timeout)));
  mret (match a with Code 0 => 0%Z | _ => (-1)%Z end).

(** The port of the SSH and FTP transfers: [strtoint] may throw. *)
Definition server_port (dflt : Z) : M Z :=
  port_str ← getValue_of &"server_port";
  if decide (port_str = []) then mret dflt else lift (strtoint port_str).

Definition copyScpDataFile (host remote_path filename : str) : M Z :=
  tmp_dir ← temporal_dir;
  port ← server_port SSH_DEFAULT_PORT;
  rc ← request_rc (R_ssh_connect host port &"pandora"
                     (install_dir p ++ &"key\id_dsa.pub") (install_dir p ++ &"key\id_dsa"));
  if decide (rc = AUTHENTICATION_FAILED ∨ rc = PANDORA_EXCEPTION) then mret rc
  else request_rc (R_scp (remote_path ++ filename) (tmp_dir ++ filename)).

Definition copyFtpDataFile (host remote_path filename password : str) : M Z :=
  filepath ← temporal_dir;
  port ← server_port FTP_DEFAULT_PORT;
  _ ← request_ p (R_ftp_connect host port &"pandora" password);
  request_rc (R_ftp_put (remote_path ++ filename) (filepath ++ filename)).

(** [copyLocalDataFile] has no [return] after a copy that succeeds: the value
    is not defined, and [copyDataFile] reads it. *)
Definition copyLocalDataFile (remote_path filename : str) : M Z :=
  local_path ← temporal_dir;
  a ← request_ p (R_copy_file (local_path ++ filename) (remote_path ++ filename));
  match a with
  | Code rc => if decide (rc = 0)%Z then mret PANDORA_EXCEPTION else stuck
  | _ => mret PANDORA_EXCEPTION
  end.

(** The two servers of [copyDataFile] differ in the prefix of their options. *)
Definition fix_remote_path (mode remote_path : str) : M str :=
  lift (ends_with (if decide (mode = &"local") then of_code 92 else SLASH) remote_path).

(** The branches the two servers share. *)
Definition send_common (prefix mode host remote_path filename : str) (otherwise : M Z) : M Z :=
  if decide (mode = &"ftp") then
    pwd ← getValue_of (prefix ++ &"server_pwd");
    copyFtpDataFile host remote_path filename pwd
  else if decide (mode = &"tentacle" ∨ mode = []) then
    port ← getValue_of (prefix ++ &"server_port");
    ssl ← getValue_of (prefix ++ &"server_ssl");
    pwd ← getValue_of (prefix ++ &"server_pwd");
    opts ← getValue_of (prefix ++ &"server_opts");
    copyTentacleDataFile host filename port ssl pwd opts
  else if decide (mode = &"ssh") then copyScpDataFile host remote_path filename
  else otherwise.

Definition send_primary (filename : str) : M Z :=
  mode ← getValue_of &"transfer_mode";
  host ← getValue_of &"server_ip";
  remote_path ← getValue_of &"server_path";
  remote_path ← fix_remote_path mode remote_path;
  send_common [] mode host remote_path filename
    (if decide (mode = &"local") then copyLocalDataFile remote_path filename
     else mret PANDORA_EXCEPTION).

Definition send_secondary (filename : str) : M Z :=
  mode ← getValue_of &"secondary_transfer_mode";
  host ← getValue_of &"secondary_server_ip";
  remote_path ← getValue_of &"secondary_server_path";
  remote_path ← fix_remote_path mode remote_path;
  send_common &"secondary_" mode host remote_path filename (mret PANDORA_EXCEPTION).

(** [copyDataFile] *)
Definition copyDataFile (filename : str) : M Z :=
  rc ← send_primary filename;
  secondary_mode ← getValue_of &"secondary_mode";
  if decide (((rc ≠ 0)%Z ∧ secondary_mode = &"on_error") ∨ secondary_mode = &"always")
  then send_secondary filename
  else mret rc.

(** ** Retrieving *)

Definition recvTentacleDataFile (host filename : str) : M () :=
  dir ← getValue_of &"temporal";
  rc ← request_rc (R_chdir dir);
  if decide (rc ≠ 0)%Z then throw Pandora_Exception else
  port ← getValue_of &"server_port";
  ssl ← getValue_of &"server_ssl";
  pwd ← getValue_of &"server_pwd";
  opts ← getValue_of &"server_opts";
  rc ← request_rc (R_system (&"tentacle_client.exe -g -a " ++ host ++
                             tentacle_options port ssl pwd opts ++ &" " ++ filename));
  if decide (rc = 0)%Z then mret () else throw Pandora_Exception.

Definition recvDataFile (filename : str) : M () :=
  mode ← getValue_of &"transfer_mode";
  host ← getValue_of &"server_ip";
  remote_path ← getValue_of &"server_path";
  _ ← lift (ends_with SLASH remote_path);
  if decide (mode = &"tentacle") then recvTentacleDataFile host filename
  else throw Pandora_Exception.

(** ** Files through the service *)

Definition readBin (path : str) : M str := w ← get_world; lift (readBinFile (fs w) path).
Definition removeFile_ (path : str) : M () :=
  modify (λ w, set_fs (removeFile (fs w) path).2 w).
Definition writeBin (path data : str) (size : nat) : M () :=
  w ← get_world;
  fs ← lift (writeBinFile (writable p) (fs w) path (Some data) size);
  modify (set_fs fs).
End transfer.

(** ** What the transfers keep *)

Section keeps_transfer.
Context (p : platform) (R : world → world → Prop) `{!PreOrder R}.
Context (Hreq : ∀ r, keeps R (request_ p r)).

Lemma keeps_request_rc r : keeps R (request_rc p r).
Proof. unfold request_rc. keeping. Qed.

#[local] Hint Resolve keeps_request_rc Hreq : keeps.

Lemma keeps_copyDataFile filename : keeps R (copyDataFile p filename).
Proof.
  unfold copyDataFile, send_primary, send_secondary, send_common, copyFtpDataFile,
    copyTentacleDataFile, copyScpDataFile, copyLocalDataFile, fix_remote_path, server_port.
  keeping.
Qed.

Lemma keeps_recvDataFile filename : keeps R (recvDataFile p filename).
Proof. unfold recvDataFile, recvTentacleDataFile. keeping. Qed.
End keeps_transfer.

(** ** Tentacle transfers to two servers *)

Section two_servers.
Context (p : platform) (kvs : list Pandora.Key_Value) (filename : str).

Abbreviation value key := (getValue_list kvs key).

(** The world holds the configuration [kvs]. *)
Definition configured (w : world) : Prop :=
  ∃ c, conf w = Some c ∧ key_values c = Some kvs.

Lemma getValue_of_configured w key : configured w → getValue_of key w = Ret (value key) w.
Proof.
  intros (c & Hc & Hk). unfold getValue_of, mbind, M_bind, gets. rewrite Hc.
  unfold conf_getValue. by rewrite Hk.
Qed.

(** The command line for the server whose options have the prefix. *)
Definition server_command (prefix dir : str) : str :=
  tentacle_command (value (prefix ++ &"server_ip")) (value (prefix ++ &"server_port"))
    (value (prefix ++ &"server_ssl")) (value (prefix ++ &"server_pwd"))
    (value (prefix ++ &"server_opts")) (dir ++ filename).

(** One request: its answer, and the world after it. *)
Definition served (r : request) (w : world) : reply * world :=
  let '(a, m) := serve p (calls w) r (fs w) in
  (a, set_fs m (set_trace (trace w ++ [E_request r]) (set_calls (S (calls w)) w))).

Lemma request_served r w : request_ p r w = Ret (served r w).1 (served r w).2.
Proof.
  unfold request_, served, mbind, M_bind, ask, emit, modify, get_world. cbn.
  by destruct (serve p (calls w) r (fs w)).
Qed.

Lemma served_configured r w : configured w → configured (served r w).2.
Proof. unfold served. by destruct (serve p (calls w) r (fs w)). Qed.

Definition tentacle_code (a : reply) : Z := match a with Code 0 => 0 | _ => (-1)%Z end.

Lemma copyTentacle_spec host port ssl pass opts dir w :
  configured w → ends_with (of_code 92) (value &"temporal") = Ok dir →
  let r := R_process (tentacle_command host port ssl pass opts (dir ++ filename))
             (Some (tentacle_wait (value &"tentacle_timeout"))) in
  copyTentacleDataFile p host filename port ssl pass opts w =
  Ret (tentacle_code (served r w).1) (served r w).2.
Proof.
  intros Hw Hdir r. unfold copyTentacleDataFile, temporal_dir, mbind at 1, M_bind at 1.
  unfold mbind at 1, M_bind at 1.
  rewrite (getValue_of_configured w) by done. rewrite Hdir. cbn [lift].
  unfold mbind at 1, M_bind at 1. rewrite (getValue_of_configured w) by done.
  unfold mbind, M_bind. fold r. by rewrite request_served.
Qed.

Lemma bind_value {A} key (k : str → M A) w :
  configured w → (getValue_of key ≫= k) w = k (value key) w.
Proof. intros H. unfold mbind, M_bind. by rewrite getValue_of_configured. Qed.

Lemma send_tentacle prefix other host path dir w :
  configured w → ends_with (of_code 92) (value &"temporal") = Ok dir →
  host = value (prefix ++ &"server_ip") →
  let r := R_process (server_command prefix dir)
             (Some (tentacle_wait (value &"tentacle_timeout"))) in
  send_common p prefix &"tentacle" host path filename other w =
  Ret (tentacle_code (served r w).1) (served r w).2.
Proof.
  intros Hw Hdir -> r. unfold send_common.
  rewrite decide_False by done. rewrite decide_True by (by left).
  rewrite !bind_value by done. by apply copyTentacle_spec.
Qed.

Lemma send_server prefix f dir path w :
  configured w → ends_with (of_code 92) (value &"temporal") = Ok dir →
  ends_with SLASH (value (prefix ++ &"server_path")) = Ok path →
  value (prefix ++ &"transfer_mode") = &"tentacle" →
  (f = send_primary ∧ prefix = [] ∨ f = send_secondary ∧ prefix = &"secondary_") →
  let r := R_process (server_command prefix dir)
             (Some (tentacle_wait (value &"tentacle_timeout"))) in
  f p filename w = Ret (tentacle_code (served r w).1) (served r w).2.
Proof.
  intros Hw Hdir Hpath Hmode Hf r.
  destruct Hf as [[-> ->]|[-> ->]];
    [change (value &"transfer_mode" = &"tentacle") in Hmode;
     change (ends_with SLASH (value &"server_path") = Ok path) in Hpath
    |change (value &"secondary_transfer_mode" = &"tentacle") in Hmode;
     change (ends_with SLASH (value &"secondary_server_path") = Ok path) in Hpath];
    unfold send_primary, send_secondary; rewrite !bind_value by done; rewrite Hmode; unfold fix_remote_path;
    rewrite decide_False by done; rewrite Hpath; unfold mbind at 1, M_bind at 1; cbn [lift];
    by apply (send_tentacle _ _ _ _ dir).
Qed.

(** C36. with a Tentacle primary and secondary server, the file goes to the
    primary first; it goes to the secondary too when [secondary_mode] is [always],
    or when it is [on_error] and the primary's client did not exit with 0. The
    result is 0 exactly when the client of the last server tried exited with 0. *)
Theorem copyDataFile_servers dir path path2 w :
  configured w → ends_with (of_code 92) (value &"temporal") = Ok dir →
  ends_with SLASH (value &"server_path") = Ok path →
  ends_with SLASH (value &"secondary_server_path") = Ok path2 →
  value &"transfer_mode" = &"tentacle" → value &"secondary_transfer_mode" = &"tentacle" →
  let wait := Some (tentacle_wait (value &"tentacle_timeout")) in
  let first := served (R_process (server_command [] dir) wait) w in
  let second := served (R_process (server_command &"secondary_" dir) wait) first.2 in
  let both := value &"secondary_mode" = &"always" ∨
              value &"secondary_mode" = &"on_error" ∧ first.1 ≠ Code 0 in
  copyDataFile p filename w =
  if decide both then Ret (if decide (second.1 = Code 0) then 0 else -1)%Z second.2
  else Ret (if decide (first.1 = Code 0) then 0 else -1)%Z first.2.
Proof.
  intros Hw Hdir Hpath Hpath2 Hmode Hmode2 wait first second both.
  assert (Hc : ∀ a, tentacle_code a = if decide (a = Code 0) then 0%Z else (-1)%Z).
  { intros [| |[]]; done. }
  unfold copyDataFile, mbind at 1, M_bind at 1.
  rewrite (send_server [] send_primary dir path) by eauto. fold wait first. cbn [app].
  rewrite bind_value by by apply served_configured.
  fold first. rewrite Hc.
  destruct (decide both) as [Hb|Hb], (decide (_ ∨ _)) as [Hd|Hd]; [|exfalso..|done]; subst both.
  - rewrite (send_server (&"secondary_") send_secondary dir path2)
      by eauto using served_configured.
    by rewrite Hc.
  - destruct Hb as [Hb|[Hb Hn]]; apply Hd; [by right|left]. by rewrite decide_False.
  - destruct Hd as [[Hz Hd]|Hd]; apply Hb; [right|by left]. split; [done|].
    intros E. by rewrite decide_True in Hz.
Qed.
End two_servers.

Definition two_servers_conf : list (str * str) :=
  [(&"temporal", &"C:\tmp"); (&"server_path", &"/in"); (&"secondary_server_path", &"/in");
   (&"transfer_mode", &"tentacle"); (&"secondary_transfer_mode", &"tentacle");
   (&"server_ip", &"a"); (&"secondary_server_ip", &"b"); (&"secondary_mode", &"on_error")].

Lemma copyDataFile_servers_witness :
  let p := demo_platform (λ n _ m, (if decide (n = 0) then Wait_timed_out else Code 0, m)) in
  let w := demo_world (demo_conf two_servers_conf) ∅ in
  ∃ w', copyDataFile p &"x.data" w = Ret 0%Z w' ∧ length (trace w') = 2.
Proof.
  intros p w. eexists. split.
  - erewrite (copyDataFile_servers p (default [] (key_values (demo_conf two_servers_conf)))
      &"x.data" &"C:\tmp\" &"/in/" &"/in/" w); [vm_compute; reflexivity|..];
      [|vm_compute; reflexivity..].
    eexists. split; reflexivity.
  - vm_compute. reflexivity.
Defined.
