(* ===== verification/RemoteConfig.v ===== *)
(** * Remote configuration and file collections

    [checkAgentName], [checkConfig], [unzipCollection], [checkCollections] and
    [purgeDiskCollections] of [pandora_windows_service.cc]. *)
From S2P Require Import Prelude StdString Scanf Strutils Md5 AgentConf PandoraFile PandoraModule ServiceState Transfer.

Section remote.
Context (p : platform).

(** The loops [while (!file.eof ()) getline (file, buffer)] of the service read
    the lines of a file; a file that cannot be opened never reaches its end. *)
Definition lines_of (filename : str) : M (list str) :=
  w ← get_world;
  match fs w !! filename with
  | Some content => mret (getlines content)
  | None => stuck
  end.

(** [checkAgentName]: what follows the first [agent_name] of a line. *)
Fixpoint agent_name_in (lines : list str) : res str :=
  match lines with
  | [] => Ok []
  | buffer :: lines =>
      if ignored_line buffer then agent_name_in lines
      else
        match find (&"agent_name") buffer with
        | Some pos => substr buffer (pos + 11)
        | None => agent_name_in lines
        end
  end.

Definition checkAgentName (filename : str) : M str :=
  lines ← lines_of filename;
  lift (agent_name_in lines).

(** [for (i = 0; i < 32; i++) if (a[i] != b[i]) ...] *)
Definition differ32 (a b : str) : bool := bool_decide (take 32 a ≠ take 32 b).

(** The content of the uninitialised MD5 buffer does not matter. *)
Definition md5_of (data : str) : str := md5 (replicate 64 NUL) data.

(** [checkConfig], first part: the configuration is not on the server. *)
Definition upload_config (temp_dir conf_tmp_file md5_tmp_file conf_str conf_md5 : str) : M () :=
  writeBin p (temp_dir ++ conf_tmp_file) conf_str (length conf_str);;
  _ ← copyDataFile p conf_tmp_file;
  removeFile_ (temp_dir ++ conf_tmp_file);;
  writeBin p (temp_dir ++ md5_tmp_file) conf_md5 32;;
  _ ← copyDataFile p md5_tmp_file;
  removeFile_ (temp_dir ++ md5_tmp_file).

(** Second part: the digest of the server, [None] when it is not usable. *)
Definition remote_md5 (path : str) : M (option str) :=
  try_catch
    (remote ← readBin path;
     if decide (length remote < 32) then mret None
     else removeFile_ path;; mret (Some remote))
    (mret None).

(** Third part: the new configuration replaces the file. *)
Definition download_config (file conf_tmp_file tmp : str) : M Z :=
  try_catch
    (recvDataFile p conf_tmp_file;;
     conf_str ← readBin tmp;
     removeFile_ tmp;;
     writeBin p file conf_str (length conf_str);;
     mret 1%Z)
    (mret 0%Z).

Definition compare_config (file temp_dir conf_tmp_file md5_tmp_file conf_str conf_md5 : str) : M Z :=
  received ← try_catch (recvDataFile p md5_tmp_file;; mret true) (mret false);
  if negb received then
    try_catch (upload_config temp_dir conf_tmp_file md5_tmp_file conf_str conf_md5) (mret ());;
    mret 0%Z
  else
    remote ← remote_md5 (temp_dir ++ md5_tmp_file);
    match remote with
    | None => mret 0%Z
    | Some remote =>
        if differ32 remote conf_md5
        then download_config file conf_tmp_file (temp_dir ++ conf_tmp_file)
        else mret 0%Z
    end.

(** The agent name, or the name of the system. *)
Definition agent_name_of (file : str) : M str :=
  name ← checkAgentName file;
  mret (if decide (name = []) then system_name p else name).

Definition checkConfig (file : str) : M Z :=
  remote_config ← getValue_of &"remote_config";
  if decide (remote_config ≠ &"1") then mret 0%Z else
  temp_dir ← temporal_dir;
  agent_name ← agent_name_of file;
  if decide (agent_name = []) then mret 0%Z else
  let agent_md5 := md5_of agent_name in
  local ← try_catch (conf_str ← readBin file; mret (Some conf_str)) (mret None);
  match local with
  | None => mret 0%Z
  | Some conf_str =>
      compare_config file temp_dir (agent_md5 ++ &".conf") (agent_md5 ++ &".md5")
        conf_str (md5_of conf_str)
  end.

(** ** Collections *)

Definition collections_dir : str := install_dir p ++ &"collections\".

(** [unzipCollection]: the old directory is removed, a new one is made and the
    zip is extracted into it. *)
Definition unzipCollection (zip_path dest_dir : str) : M Z :=
  _ ← request_ p (R_remove_dir dest_dir);
  rc ← request_rc p (R_mkdir dest_dir);
  if decide (rc ≠ 0)%Z then mret (-1)%Z else
  a ← request_ p (R_process (&"unzip.exe " ++ [QUOTE] ++ zip_path ++ [QUOTE] ++ &" -d " ++
                             [QUOTE] ++ dest_dir ++ [QUOTE]) (Some INFINITE));
  mret (match a with Code 0 => 0%Z | _ => (-1)%Z end).

(** The collection directory joins the path, unless it is there. *)
Definition add_to_path (collection_path : str) : M () :=
  env ← gets environ;
  match getenv env &"PATH" with
  | None => stuck
  | Some path =>
      let last_entry :=
        match rfind collection_path path with
        | Some found => bool_decide (found + length collection_path = length path)
        | None => false
        end in
      match find (collection_path ++ &";") path with
      | Some _ => mret ()
      | None =>
          if last_entry then mret ()
          else putenv (&"PATH=" ++ path ++ &";" ++ collection_path)
      end
  end.

Definition update_conf (f : Pandora_Agent_Conf → res Pandora_Agent_Conf) : M () :=
  c ← gets conf;
  match c with
  | Some c => c ← lift (f c); modify (set_conf (Some c))
  | None => stuck
  end.

Definition with_conf {A} (f : Pandora_Agent_Conf → res A) : M A :=
  c ← gets conf;
  match c with Some c => lift (f c) | None => stuck end.

Definition goNextCollection_ : M () := update_conf (λ c, Ok (goNextCollection c)).

(** The zip of a collection is downloaded and extracted; the result of
    [unzipCollection] is not looked at. [false] when something was thrown. *)
Definition fetch_zip (temp_dir name : str) : M bool :=
  try_catch
    (recvDataFile p (name ++ &".zip");;
     unzipped ← try_catch
       (_ ← unzipCollection (temp_dir ++ name ++ &".zip") (collections_dir ++ name); mret true)
       (mret false);
     removeFile_ (temp_dir ++ name ++ &".zip");;
     mret unzipped)
    (mret false).

(** The digest of the server is downloaded and read, and its file is removed;
    [None] when it could not be read or is too short. *)
Definition fetch_md5 (temp_dir name : str) : M (option str) :=
  try_catch
    (recvDataFile p (name ++ &".md5");;
     coll_md5 ← readBin (temp_dir ++ name ++ &".md5");
     removeFile_ (temp_dir ++ name ++ &".md5");;
     mret (if decide (length coll_md5 < 32) then None else Some coll_md5))
    (mret None).

(** The branch of a collection without a local digest: the digest is saved
    before the zip is asked for. *)
Definition new_collection (temp_dir name : str) : M () :=
  coll_md5 ← fetch_md5 temp_dir name;
  match coll_md5 with
  | None => mret ()
  | Some coll_md5 =>
      saved ← try_catch (writeBin p (collections_dir ++ name ++ &".md5") coll_md5 32;; mret true)
                (mret false);
      if negb saved then mret () else _ ← fetch_zip temp_dir name; mret ()
  end.

(** The branch of a collection whose local digest is [coll_md5]. *)
Definition known_collection (temp_dir name coll_md5 : str) : M () :=
  server_md5 ← fetch_md5 temp_dir name;
  match server_md5 with
  | None => mret ()
  | Some server_md5 =>
      if differ32 coll_md5 server_md5 then
        fetched ← fetch_zip temp_dir name;
        if negb fetched then mret ()
        else writeBin p (collections_dir ++ name ++ &".md5") server_md5 32
      else mret ()
  end.

Definition sync_collection (temp_dir name : str) : M () :=
  local ← try_catch
            (m ← readBin (collections_dir ++ name ++ &".md5"); mret (Some m)) (mret None);
  match local with
  | None => new_collection temp_dir name
  | Some coll_md5 =>
      if decide (length coll_md5 < 32) then mret () else known_collection temp_dir name coll_md5
  end.

(** One turn of the loop of [checkCollections]. *)
Definition check_collection (temp_dir : str) : M () :=
  name ← with_conf getCurrentCollectionName;
  verify ← with_conf getCurrentCollectionVerify;
  (if decide (verify = 0)%Z
   then add_to_path (collections_dir ++ name);; update_conf setCurrentCollectionVerify
   else mret ());;
  sync_collection temp_dir name;;
  goNextCollection_.

(** The iterator moves once a turn, so the number of collections is enough
    fuel. *)
Fixpoint collections_loop (fuel : nat) (temp_dir : str) : M () :=
  last ← with_conf isLastCollection;
  if (last : bool) then mret () else
  match fuel with
  | 0 => stuck
  | S fuel => check_collection temp_dir;; collections_loop fuel temp_dir
  end.

(** [purgeDiskCollections]: [readdir] lists the collection directory; a null
    directory handle is not checked. *)
Definition purgeDiskCollections : M () :=
  broker ← with_conf (λ c, Ok (isBrokerEnabled c));
  if (broker : bool) then mret () else
  w ← get_world;
  match collection_dir p (fs w) with
  | None => stuck
  | Some names =>
      foldr (λ name rest,
               known ← with_conf (λ c, isInCollectionList c name);
               (if dot name || known then mret ()
                else _ ← request_ p (R_remove_dir (collections_dir ++ name)); mret ());;
               rest) (mret ()) names
  end.

Definition checkCollections : M () :=
  temp_dir ← temporal_dir;
  update_conf (λ c, Ok (goFirstCollection c));;
  c ← gets conf;
  collections_loop (length (from_option (λ c, default [] (collection_list c)) [] c)) temp_dir;;
  purgeDiskCollections.
End remote.

(** ** [checkConfig] and the configuration file *)

Section check_config.
Context (p : platform) (file : str).
(** No request touches the configuration file. *)
Context (Hserve : ∀ n r m, (serve p n r m).2 !! file = m !! file).

(** The configuration in memory and the file on disk stay. *)
Definition same_config (w w' : world) : Prop :=
  conf w' = conf w ∧ fs w' !! file = fs w !! file.

#[global] Instance same_config_preorder : PreOrder same_config.
Proof.
  split; [by intros w|]. intros w1 w2 w3 [? ?] [? ?]. split; congruence.
Qed.

Lemma same_config_request r : keeps same_config (request_ p r).
Proof.
  intros w. unfold request_, mbind, M_bind, ask, emit, modify, get_world. cbn.
  specialize (Hserve (calls w) r (fs w)). destruct (serve p _ r _) as [a m]. cbn in *.
  by split.
Qed.

Lemma same_config_removeFile path : path ≠ file → keeps same_config (removeFile_ path).
Proof.
  intros Hp. apply keeps_modify. intros w. split; [done|]. cbn. unfold removeFile, remove.
  destruct (fs w !! path) eqn:E; [|done]. cbn. by rewrite lookup_delete_ne.
Qed.

Lemma same_config_readBin path : keeps same_config (readBin path).
Proof. unfold readBin. keeping. Qed.

Lemma same_config_writeBin path data size : path ≠ file → keeps same_config (writeBin p path data size).
Proof.
  intros Hp w. unfold writeBin, mbind, M_bind, get_world. cbn. unfold writeBinFile.
  destruct (writable p path); [|done]. cbn. case_decide; [|done]. cbn.
  split; [done|]. cbn. by rewrite lookup_insert_ne.
Qed.

Lemma same_config_recv f : keeps same_config (recvDataFile p f).
Proof. apply keeps_recvDataFile; [apply _|]. apply same_config_request. Qed.

Lemma same_config_copy f : keeps same_config (copyDataFile p f).
Proof. apply keeps_copyDataFile; [apply _|]. apply same_config_request. Qed.

#[local] Hint Resolve same_config_readBin same_config_recv same_config_copy : keeps.

Lemma lines_of_keeps f : keeps same_config (lines_of f).
Proof. unfold lines_of. keeping. Qed.

Lemma agent_name_keeps f : keeps same_config (agent_name_of p f).
Proof. unfold agent_name_of, checkAgentName. pose proof lines_of_keeps. keeping. Qed.

Section paths.
Context (temp_dir : str) (Htemp : ∀ s, temp_dir ++ s ≠ file).

Lemma upload_keeps c m conf_str conf_md5 :
  keeps same_config (upload_config p temp_dir c m conf_str conf_md5).
Proof.
  unfold upload_config.
  pose proof (λ s, same_config_removeFile _ (Htemp s)).
  pose proof (λ s d n, same_config_writeBin _ d n (Htemp s)). keeping.
Qed.

Lemma remote_md5_keeps s : keeps same_config (remote_md5 (temp_dir ++ s)).
Proof.
  unfold remote_md5. pose proof (λ s, same_config_removeFile _ (Htemp s)). keeping.
Qed.

Lemma download_config_spec c tmp w rc w' :
  download_config p file c (temp_dir ++ tmp) w = Ret rc w' →
  (rc = 0%Z ∧ same_config w w') ∨
  (rc = 1%Z ∧ ∃ content w1, fs w1 !! (temp_dir ++ tmp) = Some content ∧ content ≠ [] ∧
     fs w' !! file = Some content).
Proof.
  unfold download_config. rewrite try_catch_Ret. intros [H|(e & w1 & H & H0)].
  - right. rewrite bind_Ret in H. destruct H as (? & w1 & H1 & H).
    apply bind_Ret in H as (content & w2 & H2 & H). apply bind_Ret in H as (? & w3 & H3 & H).
    apply bind_Ret in H as (? & w4 & H4 & [= <- <-]). split; [done|]. exists content, w1.
    unfold readBin in H2. apply bind_Ret in H2 as (? & ? & [= <- <-] & H2).
    apply lift_Ret in H2 as [H2 ->]. unfold readBinFile in H2.
    destruct (fs w1 !! (temp_dir ++ tmp)) as [[|? ?]|]; simplify_eq/=. split_and!; [done..|].
    unfold writeBin in H4. apply bind_Ret in H4 as (? & ? & [= <- <-] & H4).
    apply bind_Ret in H4 as (m & ? & [H4 ->]%lift_Ret & [= <-]). unfold writeBinFile in H4.
    destruct (writable p file); [|done]. cbn in H4. case_decide; [|done]. simplify_eq.
    cbn [fs set_fs]. by rewrite lookup_insert_eq, firstn_all.
  - left. injection H0 as <- <-. split; [done|].
    assert (K : keeps same_config
      (recvDataFile p c;; conf_str ← readBin (temp_dir ++ tmp); removeFile_ (temp_dir ++ tmp);;
       mret conf_str)).
    { pose proof (λ s, same_config_removeFile _ (Htemp s)). keeping. }
    specialize (K w). unfold mbind, M_bind in K, H.
    destruct (recvDataFile p c w) as [[] w2|e2 w2|]; [|by simplify_eq|done].
    destruct (readBin _ w2) as [s w3|e2 w3|]; [|by simplify_eq|done].
    destruct (removeFile_ _ w3) as [[] w4|e2 w4|]; [|by simplify_eq|done]. cbn in K.
    unfold writeBin, mbind, M_bind, get_world in H. cbn in H. unfold writeBinFile in H.
    destruct (writable p file); cbn in H; [by case_decide|]. by simplify_eq.
Qed.

Lemma compare_config_spec c m conf_str conf_md5 w rc w' :
  compare_config p file temp_dir c m conf_str conf_md5 w = Ret rc w' →
  (rc = 0%Z ∧ same_config w w') ∨
  (rc = 1%Z ∧ ∃ remote content, differ32 remote conf_md5 = true ∧ content ≠ [] ∧
     fs w' !! file = Some content).
Proof.
  unfold compare_config. rewrite bind_Ret. intros (received & w1 & H1 & H).
  eapply (keeps_Ret same_config) in H1; [|keeping]. destruct received; cbn [negb] in H.
  - apply bind_Ret in H as (remote & w2 & H2 & H).
    eapply (keeps_Ret same_config) in H2; [|apply remote_md5_keeps].
    destruct remote as [remote|]; [|left; injection H as <- <-; split; [done|by etrans]].
    destruct (differ32 remote conf_md5) eqn:E;
      [|left; injection H as <- <-; split; [done|by etrans]].
    apply download_config_spec in H as [[-> H]|(-> & content & w3 & _ & Hc & H)].
    + left. split; [done|]. etrans; [|done]. by etrans.
    + right. eauto 10.
  - apply bind_Ret in H as (? & w2 & H2 & [= <- <-]).
    eapply (keeps_Ret same_config) in H2; [|pose proof upload_keeps; keeping].
    left. split; [done|by etrans].
Qed.
End paths.

Lemma read_local_spec w local w' :
  try_catch (s ← readBin file; mret (Some s)) (mret None) w = Ret local w' →
  w' = w ∧ ∀ s, local = Some s → fs w !! file = Some s.
Proof.
  rewrite try_catch_Ret. intros [H|(e & w1 & H & [= <- <-])]; unfold readBin in H.
  - apply bind_Ret in H as (s & w2 & H & [= <- <-]).
    apply bind_Ret in H as (? & ? & [= <- <-] & [H ->]%lift_Ret). split; [done|].
    intros s' [= <-]. unfold readBinFile in H. by destruct (fs w !! file) as [[|? ?]|]; simplify_eq.
  - unfold mbind, M_bind, get_world, lift in H. destruct (readBinFile _ _); by simplify_eq.
Qed.

Lemma temporal_dir_same w dir w' : temporal_dir w = Ret dir w' → w' = w.
Proof.
  unfold temporal_dir, getValue_of. rewrite bind_Ret. intros (t & ? & H & [_ ->]%lift_Ret).
  apply bind_Ret in H as (c & ? & [= <- <-] & H). destruct (conf w); [|done].
  by apply lift_Ret in H as [_ ->].
Qed.

Lemma temporal_dir_conf w1 w2 dir w' :
  conf w1 = conf w2 → temporal_dir w1 = Ret dir w' → temporal_dir w2 = Ret dir w2.
Proof.
  unfold temporal_dir, getValue_of. intros E. rewrite !bind_Ret. intros (t & ? & H & H').
  apply bind_Ret in H as (c & ? & [= <- <-] & H). rewrite E in H.
  exists t, w2. split.
  - apply bind_Ret. exists (conf w2), w2. split; [done|]. destruct (conf w2); [|done].
    apply lift_Ret in H as [H ->]. by apply lift_Ret.
  - apply lift_Ret in H' as [H' ->]. by apply lift_Ret.
Qed.
End check_config.


(** A server that holds a newer configuration. *)
Definition newer_config : platform := demo_platform (λ _ r m,
  match r with
  | R_system cmd =>
      if decide (is_Some (find (&".md5") cmd))
      then (Code 0, <[&"C:\tmp\" ++ md5_of &"web" ++ &".md5" := md5_of &"debug 1"]> m)
      else (Code 0, <[&"C:\tmp\" ++ md5_of &"web" ++ &".conf" := &"debug 1"]> m)
  | _ => (Code 0, m)
  end).

Definition remote_world : world :=
  demo_world (demo_conf [(&"remote_config", &"1"); (&"temporal", &"C:\tmp"); (&"server_path", &"/in");
                         (&"transfer_mode", &"tentacle"); (&"server_ip", &"srv")])
    {[ &"C:\agent\a.conf" := &"agent_name web" ]}.


(** A server whose first zip does not arrive. *)
Definition flaky_server : platform := demo_platform (λ n r m,
  match r with
  | R_system cmd =>
      if decide (is_Some (find (&".md5") cmd))
      then (Code 0, <[&"C:\tmp\c1.md5" := md5_of &"zip"]> m)
      else (Code (if bool_decide (n < 10) then 1%Z else 0%Z), m)
  | _ => (Code 0, m)
  end).

Definition zip_requests (w : world) : nat :=
  length (omap (λ e, match e with
                     | E_request (R_system cmd) => find (&".zip") cmd
                     | _ => None
                     end) (trace w)).

Definition collection_world : world :=
  demo_world {| key_values := key_values (demo_conf [(&"temporal", &"C:\tmp"); (&"server_path", &"/in");
                  (&"transfer_mode", &"tentacle"); (&"server_ip", &"srv")]);
                collection_list := Some [{| col_name := &"c1"; col_verify := 1 |}];
                collection_it := 0; broker_enabled := false |} ∅.

(** The digest of a new collection is saved before its zip is asked for: when the
    zip does not arrive the next run finds the digests equal and does not ask
    again. *)
Lemma collection_not_retried :
  match checkCollections flaky_server collection_world with
  | Ret _ w1 =>
      zip_requests w1 = 1 ∧ calls w1 < 10 ∧
      match checkCollections flaky_server (set_calls 10 w1) with
      | Ret _ w2 => zip_requests w2 = 1 ∧ calls w2 > 10
      | _ => False
      end
  | _ => False
  end.
Proof. vm_compute. repeat split; lia. Qed.
