(* ===== verification/Service.v ===== *)
(** * The service: [pandora_windows_service.cc]

    Start-up and reload ([pandora_init], brokers), the XML file ([getXmlHeader],
    [sendXml], [sendBufferedXml]) and the execution of the modules
    ([pandora_run], [pandora_run_broker]). *)
From S2P Require Import Prelude StdString Scanf Strutils Pandora AgentConf PandoraFile PandoraData Log PandoraModule Wmi Modules EventText ModuleFactory ModuleList Lifetime ServiceState Transfer RemoteConfig.

Section service.
Context (p : platform).

(** [setValues], on a service that has just been constructed. *)
Definition setValues (w : world) : world :=
  set_execution_number 0 (set_modules None (set_conf None (set_interval 60000
    (set_timestamp 0 (set_run_time 0 (set_udp_server None (set_tentacle_proxy false
      (set_intensive_interval 60000 w)))))))).

(** ** Start-up *)

Definition conf_file : str := install_dir p ++ &"pandora_agent.conf".

(** A line that names a broker, and where. *)
Definition broker_pos (buffer : str) : option nat :=
  if ignored_line buffer then None else find (&"broker_agent") buffer.

Definition count_broker_agents : M nat :=
  lines ← lines_of conf_file;
  mret (length (filter (λ l, is_Some (broker_pos l)) lines)).

(** [check_broker_agents]: the paths written to [all_conf], in order. *)
Fixpoint broker_paths (lines : list str) : res (list str) :=
  match lines with
  | [] => Ok []
  | buffer :: lines =>
      match broker_pos buffer with
      | Some pos =>
          let! name_broker := substr buffer (pos + 13) in
          let! paths := broker_paths lines in
          Ok ((install_dir p ++ name_broker ++ &".conf") :: paths)
      | None => broker_paths lines
      end
  end.

Definition check_broker_agents : M (list str) :=
  lines ← lines_of conf_file;
  lift (broker_paths lines).

Definition launchTentacleProxy : M () :=
  server_ip ← getValue_of &"server_ip";
  if decide (server_ip = &"localhost") then mret () else
  connections ← getValue_of &"proxy_max_connection";
  timeout ← getValue_of &"proxy_timeout";
  port ← getValue_of &"server_port";
  let or_default (s d : str) := if decide (s = []) then d else s in
  a ← request_ p (R_process (&"tentacle_server.exe -b " ++ server_ip ++ &" -g " ++
        or_default port &"41121" ++ &" -c " ++ or_default connections &"10" ++
        &" -t " ++ or_default timeout &"1") None);
  match a with
  | No_process_started => mret ()
  | _ => modify (set_tentacle_proxy true)
  end.

Definition killTentacleProxy : M () :=
  on ← gets tentacle_proxy;
  if negb on then mret () else
  a ← request_ p (R_process &"taskkill.exe /F /IM tentacle_server.exe" None);
  match a with
  | No_process_started => mret ()
  | _ => modify (set_tentacle_proxy false)
  end.

(** [getInstance] and the [Pandora_Module_List] constructor. *)
Definition get_instance : M Pandora_Agent_Conf :=
  c ← gets conf; mret (default new_conf c).

Definition read_modules (file : str) : M () :=
  w ← get_world;
  l ← lift (new_list_from
        (getModuleFromDefinition (new_has_output p) (new_type p) (new_kind p) (regcomp_ok p)
           (interval w) (intensive_interval w)) (fs w) file);
  modify (set_modules (Some l)).

(** [if (modules != NULL) delete modules]; the pointer is not followed again before it
    leads to the new list. *)
Definition delete_old : M () :=
  l ← gets modules;
  match l with
  | None => mret ()
  | Some l => _ ← lift (delete_list (regcomp_extended p) l); mret ()
  end.

Definition pandora_init_broker (file_conf : str) : M () :=
  name ← checkAgentName file_conf;
  putenv (&"PANDORA_AGENT=" ++ name);;
  c ← get_instance;
  w ← get_world;
  c ← lift (setFile (fs w) file_conf c);
  modify (set_conf (Some c));;
  delete_old;;
  read_modules file_conf.

(** [this->interval_sec = strtoint (interval); this->interval = ... * 1000] in a
    [try] block, then the intensive interval. *)
Definition read_intervals : M () :=
  interval_ ← getValue_of &"interval";
  intensive_interval_ ← getValue_of &"intensive_interval";
  (if decide (interval_ = []) then mret ()
   else try_conversion
          (i ← lift (strtoint interval_);
           modify (set_interval_sec (Some i));;
           modify (set_interval (s32 (i * 1000)))) (mret ()));;
  (if decide (intensive_interval_ = []) then
     i ← gets interval; modify (set_intensive_interval i)
   else try_conversion
          (i ← lift (strtoint intensive_interval_);
           modify (set_intensive_interval (s32 (i * 1000)))) (mret ()));;
  i ← gets intensive_interval;
  modify (set_sleep_time i).

Definition start_udp_server : M () :=
  enabled ← getValue_of &"udp_server";
  u ← gets udp_server;
  if decide (enabled = &"1" ∧ u = None) then
    port ← getValue_of &"udp_server_port";
    addr ← getValue_of &"udp_server_address";
    auth_addr ← getValue_of &"udp_server_auth_address";
    modify (set_udp_server (Some (addr, auth_addr, atoi port)))
  else mret ().

Definition first_run_setup : M () :=
  first ← gets first_run;
  if negb first then mret () else
  modify (set_first_run false);;
  env ← gets environ;
  match getenv env &"PATH" with
  | None => stuck
  | Some path => putenv (&"PATH=" ++ path ++ &";" ++ install_dir p ++ &"util")
  end.

(** [pandora_init]; [setFile] writes the last broker to [all_conf[0]], which
    does not exist when the file names no broker, and then it is not written. *)
Definition pandora_init : M () :=
  num ← count_broker_agents;
  c ← get_instance;
  w ← get_world;
  r ← lift (setFile_all (install_dir p) (fs w) (replicate num []) c);
  let '(files, c, _) := r in
  modify (set_fs files);;
  modify (set_conf (Some c));;
  delete_old;;
  read_intervals;;
  read_modules conf_file;;
  name ← agent_name_of p conf_file;
  putenv (&"PANDORA_AGENT=" ++ name);;
  debug_ ← getValue_of &"debug";
  modify (set_debug (is_enabled debug_));;
  proxy_mode ← getValue_of &"proxy_mode";
  on ← gets tentacle_proxy;
  when (bool_decide (proxy_mode ≠ []) && negb on) launchTentacleProxy;;
  start_udp_server;;
  first_run_setup.

(** ** The XML file *)

(** An attribute that is written when it is not empty. *)
Definition attribute (name value : str) : str :=
  if decide (value = []) then [] else [QUOTE; SP] ++ name ++ &"=" ++ [QUOTE] ++ value.

(** [gis_result.erase (pos, gis_result.size () - pos)] at the first [c]. *)
Definition cut_at (c : str) (s : str) : str :=
  match find c s with Some pos => erase_from s pos | None => s end.

(** The output of the [gis_exec] command, as latitude,longitude,altitude. *)
Definition gis_attributes (result : str) : str :=
  let result := cut_at [CR] (cut_at [LF] result) in
  match find &"," result with
  | None | Some 0 => []
  | Some pos =>
      let latitude := erase_from result pos in
      let rest := drop (pos + 1) result in
      let '(longitude, altitude) :=
        match find &"," rest with
        | None | Some 0 => ([], [])
        | Some pos => (erase_from rest pos, drop (pos + 1) rest)
        end in
      [QUOTE] ++ &" latitude=" ++ [QUOTE] ++ latitude ++
      [QUOTE] ++ &" longitude=" ++ [QUOTE] ++ longitude ++
      [QUOTE] ++ &" altitude=" ++ [QUOTE] ++ altitude
  end.

(** [getCoordinatesFromGisExec], for the fate of the process; [None] while the wait
    loop has not ended.  The timeout of 30 is in milliseconds. *)
Definition getCoordinatesFromGisExec (l : launch) : option str :=
  match l with
  | No_job | No_pipe | No_process => Some []
  | Launched tickbase polls retval =>
      match wait_loop 30 tickbase polls [] with
      | None => None
      | Some (output, _) => Some (if decide (retval ≠ 0)%Z then [] else output)
      end
  end.

(** Coordinates of the configuration. *)
Definition conf_coordinates (latitude longitude altitude : str) : str :=
  if decide (latitude ≠ [] ∧ longitude ≠ []) then
    attribute &"latitude" latitude ++ attribute &"longitude" longitude ++
    attribute &"altitude" altitude
  else [].

Definition coordinates : M str :=
  command ← getValue_of &"gis_exec";
  if decide (command ≠ []) then
    n ← ask;
    match getCoordinatesFromGisExec (gis_exec p n command) with
    | Some result => mret (gis_attributes result)
    | None => stuck
    end
  else
    latitude ← getValue_of &"latitude";
    longitude ← getValue_of &"longitude";
    altitude ← getValue_of &"altitude";
    mret (conf_coordinates latitude longitude altitude).

(** The time stamp, unless the server is to set it; the buffer holds 20 bytes. *)
Definition header_timestamp (autotime : str) : M str :=
  n ← ask;
  let s := format_time (localtime p (clock p n)) in
  if decide (autotime = &"1") then mret []
  else if decide (length s < 20) then mret s else stuck.

Definition header_address (address : str) : str :=
  if decide (address = &"auto") then system_address p else address.

(** An attribute that is always written. *)
Definition field_ (name value : str) : str := name ++ &"=" ++ [QUOTE] ++ value ++ [QUOTE].

Definition getXmlHeader : M str :=
  name ← getValue_of &"agent_name";
  autotime ← getValue_of &"autotime";
  stamp ← header_timestamp autotime;
  encoding ← getValue_of &"encoding";
  description ← getValue_of &"description";
  address ← getValue_of &"address";
  custom_id ← getValue_of &"custom_id";
  url_address ← getValue_of &"url_address";
  coords ← coordinates;
  interval_ ← getValue_of &"interval";
  group ← getValue_of &"group";
  parent ← getValue_of &"parent_agent_name";
  mret (
    &"<?xml " ++ field_ &"version" &"1.0" ++ &" " ++
    field_ &"encoding" (if decide (encoding = []) then &"ISO-8859-1" else encoding) ++ &" ?>" ++
    [LF] ++ &"<agent_data " ++
    field_ &"agent_name" (if decide (name = []) then system_name p else name) ++ &" " ++
    field_ &"description" description ++ &" version=" ++ [QUOTE] ++ getPandoraAgentVersion ++
    attribute &"timestamp" stamp ++ attribute &"address" (header_address address) ++
    attribute &"custom_id" custom_id ++ attribute &"url_address" url_address ++ coords ++
    [QUOTE; SP] ++ field_ &"interval" interval_ ++ &" " ++ field_ &"os_name" (os_name p) ++
    &" " ++ field_ &"os_version" (os_name p ++ os_version p) ++ &" " ++
    field_ &"group" group ++ &" " ++ field_ &"parent_agent_name" parent ++ &">" ++ [LF]).

(** The custom fields from number [c] on. The names are printed to buffers of
    21 bytes, so [custom_field100_value] does not fit. *)
Definition custom_field (c : Z) (what : str) : M str :=
  let token := &"custom_field" ++ inttostr c ++ &"_" ++ what in
  if decide (length token < 21) then getValue_of token else stuck.

Definition custom_xml (name value : str) : str :=
  TABS 1 ++ &"<field>" ++ NL ++
  TABS 2 ++ &"<name><![CDATA[" ++ name ++ &"]]></name>" ++ NL ++
  TABS 2 ++ &"<value><![CDATA[" ++ value ++ &"]]></value>" ++ NL ++
  TABS 1 ++ &"</field>" ++ NL.

(** The loop of [sendXml]: the hundredth field overflows the buffer, so 100 is
    enough fuel. *)
Fixpoint custom_fields (fuel : nat) (c : Z) : M str :=
  name ← custom_field c &"name";
  value ← custom_field c &"value";
  if decide (name ≠ [] ∧ value ≠ []) then
    match fuel with
    | 0 => stuck
    | S fuel => rest ← custom_fields fuel (c + 1); mret (custom_xml name value ++ rest)
    end
  else mret [].

Definition custom_fields_xml : M str :=
  s ← custom_fields 100 1;
  mret (if decide (s = []) then []
        else &"<custom_fields>" ++ NL ++ s ++ &"</custom_fields>" ++ NL).

(** [getXml], which the plugin and inventory modules override. *)
Definition module_getXml (o : object) : res (str * object) :=
  let! (xml, m) :=
    match own o with
    | C_plugin _ _ => Plugin_getXml (base o)
    | C_inventory _ _ => Inventory_getXml (base o)
    | _ => getXml (base o)
    end in
  Ok (xml, {| base := m; own := own o |}).

(** The loop over the modules of [sendXml]. *)
Definition module_data (l : Pandora_Module_List) : res (Pandora_Module_List * str) :=
  foreach (λ o s, let! (xml, o) := module_getXml o in Ok (o, s ++ xml)) l [].

Definition modules_xml : M str :=
  l ← gets modules;
  match l with
  | None => mret []
  | Some l =>
      r ← lift (module_data l);
      modify (set_modules (Some r.1));;
      mret r.2
  end.

(** The text of the file. *)
Definition data_xml : M str :=
  header ← getXmlHeader;
  fields ← custom_fields_xml;
  mods ← modules_xml;
  mret (header ++ fields ++ mods ++ &"</agent_data>").

(** [sendBufferedXml]: data files are sent until one fails. *)
Fixpoint send_files (base_path : str) (names : list str) : M () :=
  match names with
  | [] => mret ()
  | name :: names =>
      rc ← copyDataFile p name;
      if decide (rc ≠ 0)%Z then mret ()
      else removeFile_ (base_path ++ name);; send_files base_path names
  end.

Definition sendBufferedXml (path : str) : M () :=
  base_path ← lift (ends_with (of_code 92) path);
  w ← get_world;
  send_files base_path (find_files p (fs w) (base_path ++ &"*.data")).

(** The name of the temporary file. *)
Definition tmp_filename : M str :=
  n ← ask;
  name ← getValue_of &"agent_name";
  mret ((if decide (name = []) then system_name p else name) ++ &"." ++
        inttostr (rand p n) ++ &".data").

(** The copy to the server, the deletion of the file, and the buffered files. *)
Definition deliver (tmp_filename tmp_filepath : str) (min_free_bytes xml_buffer : Z) : M () :=
  rc ← copyDataFile p tmp_filename;
  n ← ask;
  let low := match free_space p n tmp_filepath with
             | Some free => bool_decide (free < min_free_bytes)%Z
             | None => false
             end in
  when (bool_decide (rc = 0%Z) || bool_decide (xml_buffer = 0%Z) || low)
    (removeFile_ tmp_filepath);;
  if decide (xml_buffer = 1)%Z then
    path ← getValue_of &"temporal"; sendBufferedXml path
  else mret ().

(** [sendXml]: [Some] of its return code, [None] where it falls off its end
    (no caller looks). *)
Definition sendXml : M (option Z) :=
  min_size ← getValue_of &"temporal_min_size";
  let min_free_bytes := s32 (1024 * atoi min_size) in
  xml_buffer ← getValue_of &"xml_buffer";
  xml ← data_xml;
  name ← tmp_filename;
  dir ← temporal_dir;
  let tmp_filepath := dir ++ name in
  if negb (writable p tmp_filepath) then mret (Some PANDORA_EXCEPTION) else
  modify (λ w, set_fs (<[tmp_filepath := c_str xml]> (fs w)) w);;
  dbg ← gets debug;
  (if (dbg : bool) then mret ()
   else deliver name tmp_filepath min_free_bytes (atoi xml_buffer));;
  mret None.

(** ** Running the modules *)

(** [module->run ()] on the class of the object. The threads that asynchronous
    modules start are not followed. *)
Definition some_res {A} (r : option (res A)) : res A := default Undef r.

Definition module_run (e : machine) (agent_interval : Z) (dbg : bool) (o : object) : res object :=
  let with_base (c : child) (r : res Pandora_Module) : res object :=
    let! m := r in Ok {| base := m; own := c |} in
  match own o with
  | C_exec exec proc => with_base (own o) (some_res (Exec_run (m_exec e exec) (m_now e) proc (base o)))
  | C_plugin exec proc =>
      with_base (own o) (some_res (Exec_run (m_exec e exec) (m_now e) proc (base o)))
  | C_proc name _ _ _ _ _ =>
      with_base (own o) (let! (m, _) := Proc_run (m_query e) name (m_now e) (base o) in Ok m)
  | C_service name _ =>
      with_base (own o) (let! (m, _) := Service_run (m_query e) name (m_now e) (base o) in Ok m)
  | C_freedisk disk => with_base (own o) (Freedisk_run (m_query e) disk (m_now e) (base o))
  | C_freedisk_percent disk =>
      with_base (own o) (Freedisk_Percent_run (m_query e) disk (m_now e) (base o))
  | C_freememory => with_base (own o) (Freememory_run (m_query e) (m_now e) (base o))
  | C_freememory_percent => with_base (own o) (Freememory_Percent_run (m_query e) (m_now e) (base o))
  | C_cpuusage cpu => with_base (own o) (Cpuusage_run (m_query e) cpu (m_now e) (base o))
  | C_inventory options fixed =>
      let! (m, fixed) :=
        Inventory_run (m_query e) agent_interval (m_software e) options fixed (m_now e) (base o) in
      Ok {| base := m; own := C_inventory options fixed |}
  | C_logevent source type id pattern application first_run log_event =>
      let! (m, first_run, log_event) :=
        some_res (Logevent_run (regcomp_extended p) (localtime p) (xpath_text (m_event_api e) source)
                    (message_text (m_event_api e) source) (m_log_opens e) dbg
                    (m_log_old e) (m_log_reads e) type id pattern application first_run log_event
                    (base o)) in
      Ok {| base := m;
            own := C_logevent source type id pattern application first_run log_event |}
  | C_wmiquery query column =>
      with_base (own o) (WMIQuery_run (m_query e) query column (m_now e) (base o))
  | C_perfcounter source cooked =>
      with_base (own o) (Perfcounter_run (m_pdh e source) cooked (m_now e) (base o))
  | C_tcpcheck address port timeout =>
      with_base (own o) (Tcpcheck_run (m_net e address port) address (m_now e) (base o))
  | C_regexp source pattern no_seek_eof size position =>
      let! (m, size, position) :=
        Regexp_run (regcomp_extended p) (m_file e source) pattern no_seek_eof size position (m_now e)
          (base o) in
      Ok {| base := m; own := C_regexp source pattern no_seek_eof size position |}
  end.

(** [module->getTimestamp () + module->getInterval () * this->interval_sec]:
    [long] and [time_t] have 32 bits. *)
Definition next_time (interval_sec : Z) (m : Pandora_Module) : Z :=
  s32 (PandoraModule.timestamp m + s32 (getInterval m * interval_sec)).

Definition set_base (m : Pandora_Module) (o : object) : object := {| base := m; own := own o |}.
Definition silence (o : object) : object := set_base (setNoOutput (base o)) o.

(** The end of the loop body: [intensive_match] is what the intensive
    conditions gave. [None] when the data are dropped. *)
Definition keep_data (forced_run interval_sec run_time intensive_match : Z) (m : Pandora_Module)
    : option Pandora_Module :=
  if decide (forced_run ≠ 1 ∧ intensive_match = getIntensiveMatch m ∧
             run_time < next_time interval_sec m)%Z
  then None
  else
    let m := setIntensiveMatch intensive_match m in
    Some (if decide (next_time interval_sec m ≤ run_time)%Z then setTimestamp run_time m else m).

Definition interval_seconds : M Z :=
  i ← gets interval_sec;
  match i with Some i => mret i | None => stuck end.

(** The data of a module that has run: exported, kept or dropped, and its
    conditions evaluated. *)
Definition after_run (forced_run : Z) (o : object) : M (object * bool) :=
  (if decide (getSave (base o) = []) then mret ()
   else s ← lift (exportDataOutput (base o)); putenv s);;
  intensive_match ← lift (evaluateIntensiveConditions (regexec p) (base o));
  sec ← interval_seconds;
  now ← gets run_time;
  match keep_data forced_run sec now intensive_match (base o) with
  | None => mret (silence o, false)
  | Some m =>
      n ← ask;
      cmds ← lift (evaluateConditions (regexec p) (spawn p n) m);
      modify (λ w, set_trace (trace w ++ (E_command <$> cmds)) w);;
      mret (set_base m o, true)
  end.

(** The loop body of [pandora_run] ([pandora_run_broker] has the same one,
    without [forced_run]); the flag tells that the module has data. *)
Definition module_step (forced_run : Z) (o : object) : M (object * bool) :=
  n ← ask;
  pre ← lift (evaluatePreconditions (regexec p) (pre_process p n) (base o));
  if decide (pre = 0)%Z then mret (silence o, false) else
  n ← ask;
  let '(cron, m) := checkCron (clock p n) (break_time p (clock p n)) (base o) in
  let o := set_base m o in
  if decide (cron = 0)%Z then mret (silence o, false) else
  n ← ask;
  w ← get_world;
  o ← lift (module_run (at_run p n) (interval w) (debug w) o);
  if decide (hasOutput (base o) = 0)%Z then mret (silence o, false)
  else after_run forced_run o.

(** The loop over the modules; the result is [data_flag]. *)
Definition step_res (forced_run : Z) (o : object) (s : world * bool) : res (object * (world * bool)) :=
  let! (o, flag, w) :=
    match module_step forced_run o s.1 with
    | Ret (o, flag) w => Ok (o, flag, w)
    | Throw e _ => Err e
    | Stuck => Undef
    end in
  Ok (o, (w, s.2 || flag)).

Definition run_modules (forced_run : Z) : M bool := λ w,
  match modules w with
  | None => Ret false w
  | Some l =>
      match foreach (step_res forced_run) l (w, false) with
      | Ok (l, (w, flag)) => Ret flag (set_modules (Some l) w)
      | Err e => Throw e w
      | Undef => Stuck
      end
  end.

(** [this->timestamp + this->interval_sec <= this->run_time] *)
Definition time_to_send : M bool :=
  w ← get_world;
  sec ← interval_seconds;
  mret (bool_decide (s32 (timestamp w + sec) ≤ run_time w)%Z).

(** The condition short-circuits. *)
Definition send_if (forced : bool) (server_addr : str) : M () :=
  send ← (if forced then mret true else time_to_send);
  if (send : bool) && bool_decide (server_addr ≠ []) then _ ← sendXml; mret () else mret ().

Definition refresh (file : str) (reload : M ()) : M () :=
  dbg ← gets debug;
  if (dbg : bool) then mret () else
  changed ← checkConfig p file;
  (if decide (changed = 1)%Z then reload else mret ());;
  checkCollections p.

Definition pandora_run_broker (config : str) : M () :=
  refresh config (pandora_init_broker config);;
  server_addr ← getValue_of &"server_ip";
  data_flag ← run_modules 0;
  send_if data_flag server_addr.

Definition startup_once : M () :=
  first ← gets startup;
  if negb first then mret () else
  modify (set_startup false);;
  delay ← getValue_of &"startup_delay";
  let ms := s32 (atoi delay * 1000) in
  if decide (0 < ms)%Z then _ ← request_ p (R_sleep ms); mret () else mret ().

Definition run_brokers : M () :=
  num ← count_broker_agents;
  paths ← check_broker_agents;
  foldr (λ path rest, pandora_init_broker path;; pandora_run_broker path;; rest) (mret ()) paths;;
  if decide (num = 0) then mret () else pandora_init.

(** [pandora_run (int forced_run)] *)
Definition pandora_run (forced_run : Z) : M () :=
  startup_once;;
  n ← ask;
  modify (set_run_time (clock p n));;
  refresh conf_file pandora_init;;
  server_addr ← getValue_of &"server_ip";
  modify (λ w, set_execution_number (s32 (execution_number w + 1)) w);;
  data_flag ← run_modules forced_run;
  send_if (bool_decide (forced_run = 1%Z) || data_flag) server_addr;;
  run_brokers;;
  again ← time_to_send;
  if (again : bool) then modify (λ w, set_timestamp (run_time w) w) else mret ().
End service.

(** ** The command for the coordinates *)

(** A command that has not ended after the first wait, which takes 500 ms, is given
    up: it is still active, so there are no coordinates. *)
Lemma slow_gis_command tickbase p polls :
  dwRet p = WAIT_TIMEOUT → (500 ≤ tick p - tickbase < 2 ^ 32)%Z →
  getCoordinatesFromGisExec (Launched tickbase (p :: polls) 259) = Some [].
Proof.
  intros Hp Ht. unfold getCoordinatesFromGisExec. cbn [wait_loop]. rewrite Hp.
  rewrite !decide_False by done. rewrite (wrap_u_small 32 (tick p - tickbase)) by (unfold in_u; lia).
  change (u32 30) with 30%Z. destruct (Z.ltb_spec 30 (tick p - tickbase)); [done|lia].
Qed.

(** ** How often a module's data are kept *)

(** The run times at which a module whose intensive conditions keep giving
    [im] has its data kept. *)
Fixpoint kept_times (sec im : Z) (times : list Z) (m : Pandora_Module) : list Z :=
  match times with
  | [] => []
  | t :: times =>
      match keep_data 0 sec t im m with
      | None => kept_times sec im times m
      | Some m => t :: kept_times sec im times m
      end
  end.

(** Reference: the times at least [gap] after the last one taken. *)
Fixpoint every (gap last : Z) (times : list Z) : list Z :=
  match times with
  | [] => []
  | t :: times => if decide (last + gap ≤ t)%Z then t :: every gap t times else every gap last times
  end.

Lemma every_spaced gap last times i a b :
  (last :: every gap last times) !! i = Some a → every gap last times !! i = Some b →
  (a + gap ≤ b)%Z.
Proof.
  revert last i; induction times as [|t times IH]; intros last i Ha Hb; [done|].
  cbn [every] in *. case_decide; [|by eapply IH].
  destruct i as [|i]; simplify_eq/=; [done|]. by eapply IH.
Qed.

(** C37. while the intensive conditions give the same result, the module's data are
    kept at the run times that are at least [module_interval] times the agent's
    interval after the last time they were kept, and at no other. *)
Theorem kept_spacing sec im times m :
  let gap := (module_interval m * sec)%Z in
  intensive_match m = im → in_s 32 gap →
  Forall (λ t, in_s 32 (t + gap)) (PandoraModule.timestamp m :: times) →
  kept_times sec im times m = every gap (PandoraModule.timestamp m) times ∧
  ∀ i a b, (PandoraModule.timestamp m :: kept_times sec im times m) !! i = Some a →
    kept_times sec im times m !! i = Some b → (a + gap ≤ b)%Z.
Proof.
  intros gap Him Hgap Hts.
  assert (E : kept_times sec im times m = every gap (PandoraModule.timestamp m) times).
  { subst gap. revert m Him Hgap Hts.
    induction times as [|t times IH]; intros m Him Hgap Hts; [done|].
    apply Forall_cons in Hts as [Hl Hts]. cbn [kept_times every]. unfold keep_data.
    assert (Hn : next_time sec m = (PandoraModule.timestamp m + module_interval m * sec)%Z).
    { unfold next_time, getInterval. rewrite (wrap_s_small 32 (_ * _)) by (lia || done).
      by rewrite wrap_s_small by (lia || done). }
    rewrite !Hn. unfold getIntensiveMatch.
    destruct (decide (_ + _ ≤ t)%Z) as [Hd|Hd].
    - rewrite decide_False by lia.
      assert (Hn' : next_time sec (setIntensiveMatch im m) = next_time sec m) by done.
      rewrite Hn', Hn, decide_True by done. f_equal.
      by apply (IH (setTimestamp t (setIntensiveMatch im m))).
    - rewrite decide_True by (split_and!; [done|done|lia]). apply IH; [done|done|].
      apply Forall_cons. apply Forall_cons in Hts as [_ Hts]. by split. }
  rewrite E. split; [done|]. apply every_spaced.
Qed.

Lemma kept_spacing_witness :
  kept_times 300 1 [1000; 1300; 1600; 1900]%Z
    (setIntensiveMatch 1 (setInterval 2 (new_module false TYPE_0 MODULE_0 (&"load")))) =
  [1000; 1600]%Z.
Proof.
  destruct (kept_spacing 300 1 [1000; 1300; 1600; 1900]%Z
    (setIntensiveMatch 1 (setInterval 2 (new_module false TYPE_0 MODULE_0 (&"load"))))) as [E _].
  - reflexivity.
  - vm_compute. split; congruence.
  - repeat constructor; vm_compute; congruence.
  - exact E.
Defined.

(** ** No data file is lost *)

Section no_loss.
Context (p : platform).
(** Serving a request removes no file, and the disk is never nearly full: the
    threshold [temporal_min_size] is an [int]. *)
Context (Hserve : ∀ n r m path, is_Some (m !! path) → is_Some ((serve p n r m).2 !! path)).
Context (Hspace : ∀ n path free, free_space p n path = Some free → (2 ^ 31 ≤ free)%Z).

(** The file of that path was sent: a [copyDataFile] of it returned 0. *)
Definition transferred (path : str) : Prop :=
  ∃ dir name w w', path = dir ++ name ∧ copyDataFile p name w = Ret 0%Z w'.

Definition no_loss (w w' : world) : Prop :=
  ∀ path, is_Some (fs w !! path) → is_Some (fs w' !! path) ∨ transferred path.

#[global] Instance no_loss_preorder : PreOrder no_loss.
Proof.
  split; [by left|]. intros w1 w2 w3 H1 H2 path [H|H]%H1; [by apply H2|by right].
Qed.

Lemma no_loss_request r : keeps no_loss (request_ p r).
Proof.
  intros w. unfold request_, mbind, M_bind, ask, emit, modify, get_world. cbn.
  pose proof (Hserve (calls w) r (fs w)). destruct (serve p _ r _) as [a m]. cbn in *.
  intros path Hp. left. cbn. auto.
Qed.

Lemma no_loss_fs w w' : fs w' = fs w → no_loss w w'.
Proof. intros E path H. left. by rewrite E. Qed.

Lemma no_loss_modify f : (∀ w, fs (f w) = fs w) → keeps no_loss (modify f).
Proof. intros H. apply keeps_modify. intros w. by apply no_loss_fs. Qed.

Lemma no_loss_ask : keeps no_loss ask.
Proof. intros w. by apply no_loss_fs. Qed.

Lemma no_loss_copy name : keeps no_loss (copyDataFile p name).
Proof. apply keeps_copyDataFile; [apply _|]. apply no_loss_request. Qed.

Lemma removeFile_spec w path :
  ∃ w', removeFile_ path w = Ret () w' ∧
    ∀ path', path' ≠ path → fs w' !! path' = fs w !! path'.
Proof.
  eexists. split; [done|]. intros path' Hne. cbn. unfold removeFile, remove.
  destruct (fs w !! path); [|done]. cbn. by rewrite lookup_delete_ne.
Qed.

Lemma removeFile_no_loss w path : transferred path → 
  match removeFile_ path w with Ret _ w' | Throw _ w' => no_loss w w' | Stuck => True end.
Proof.
  intros Ht. destruct (removeFile_spec w path) as (w' & -> & H). intros path' Hp.
  destruct (decide (path' = path)) as [->|Hne]; [by right|left]. by rewrite H.
Qed.

#[local] Hint Resolve no_loss_ask no_loss_copy no_loss_request : keeps.

Lemma send_files_no_loss base names : keeps no_loss (send_files p base names).
Proof.
  induction names as [|name names IH]; [apply keeps_ret; apply _|]. cbn [send_files].
  intros w. pose proof (no_loss_copy name w) as Hc. unfold mbind at 1, M_bind at 1.
  destruct (copyDataFile p name w) as [rc w1|e w1|] eqn:E; [|done|done].
  case_decide as Hrc; [done|]. assert (rc = 0%Z) as -> by (destruct (decide (rc = 0%Z)); done).
  pose proof (removeFile_no_loss w1 (base ++ name)) as Hr.
  unfold mbind, M_bind. destruct (removeFile_ _ w1) as [[] w2|e w2|]; [| |done].
  - specialize (IH w2). destruct (send_files p base names w2); [..|done];
      (etrans; [exact Hc|]; etrans; [apply Hr; by exists base, name, w, w1|exact IH]).
  - etrans; [exact Hc|]. apply Hr. by exists base, name, w, w1.
Qed.

Lemma sendBufferedXml_no_loss path : keeps no_loss (sendBufferedXml p path).
Proof. unfold sendBufferedXml. pose proof send_files_no_loss. keeping. Qed.

Lemma deliver_no_loss dir name minimum buffer :
  in_s 32 minimum → buffer ≠ 0%Z → keeps no_loss (deliver p name (dir ++ name) minimum buffer).
Proof.
  intros Hm Hb w. unfold deliver. pose proof (no_loss_copy name w) as Hc.
  unfold mbind at 1, M_bind at 1.
  destruct (copyDataFile p name w) as [rc w1|e w1|] eqn:E; [|done|done].
  unfold mbind at 1, M_bind at 1, ask.
  assert (match free_space p (calls w1) (dir ++ name) with
          | Some free => bool_decide (free < minimum)%Z | None => false end = false) as ->.
  { destruct (free_space _ _ _) eqn:F; [|done]. apply Hspace in F.
    apply bool_decide_eq_false. unfold in_s in Hm. lia. }
  rewrite (bool_decide_false (buffer = 0%Z)), !orb_false_r by done.
  set (w2 := set_calls _ w1). assert (H12 : no_loss w w2).
  { etrans; [exact Hc|]. by apply no_loss_fs. }
  assert (Hk : keeps no_loss (if decide (buffer = 1%Z)
    then path ← getValue_of (&"temporal"); sendBufferedXml p path else mret ())).
  { pose proof sendBufferedXml_no_loss. keeping. }
  unfold when. unfold mbind at 1, M_bind at 1. case_bool_decide as Hrc.
  - subst rc. pose proof (removeFile_no_loss w2 (dir ++ name)) as Hr.
    destruct (removeFile_ _ w2) as [[] w3|e w3|]; [| |done].
    + assert (H3 : no_loss w w3) by (etrans; [exact H12|]; apply Hr; by exists dir, name, w, w1).
      specialize (Hk w3). destruct (_ w3); [..|done]; by etrans.
    + etrans; [exact H12|]. apply Hr. by exists dir, name, w, w1.
  - cbn [mret M_ret]. specialize (Hk w2). destruct (_ w2); [..|done]; by etrans.
Qed.

Lemma custom_fields_keeps fuel c : keeps no_loss (custom_fields fuel c).
Proof.
  revert c; induction fuel as [|fuel IH]; intros c; cbn [custom_fields]; unfold custom_field; keeping.
Qed.

Lemma modules_xml_keeps : keeps no_loss modules_xml.
Proof.
  unfold modules_xml. keeping. by apply no_loss_modify.
Qed.

Lemma header_keeps : keeps no_loss (getXmlHeader p).
Proof. unfold getXmlHeader, header_timestamp, coordinates. keeping. Qed.

Lemma data_xml_keeps : keeps no_loss (data_xml p).
Proof.
  unfold data_xml, custom_fields_xml.
  pose proof header_keeps. pose proof custom_fields_keeps. pose proof modules_xml_keeps. keeping.
Qed.

Lemma tmp_filename_keeps : keeps no_loss (tmp_filename p).
Proof. unfold tmp_filename. keeping. Qed.

(** The new file: written, and not lost from then on. *)
Lemma write_and_deliver w dir name xml minimum buffer (rc : option Z) w' :
  in_s 32 minimum → buffer ≠ 0%Z →
  (modify (λ w, set_fs (<[dir ++ name := c_str xml]> (fs w)) w);;
   dbg ← gets debug;
   (if (dbg : bool) then mret () else deliver p name (dir ++ name) minimum buffer);;
   mret rc) w = Ret rc w' →
  ∃ w1, fs w1 = <[dir ++ name := c_str xml]> (fs w) ∧ no_loss w w1 ∧ no_loss w1 w'.
Proof.
  intros Hm Hb H. apply bind_Ret in H as (? & w1 & [= <- <-] & H).
  exists (set_fs (<[dir ++ name := c_str xml]> (fs w)) w). split; [done|]. split.
  { intros path Hp. left. cbn. destruct (decide (dir ++ name = path)) as [->|Hne].
    - by rewrite lookup_insert_eq.
    - by rewrite lookup_insert_ne. }
  eapply (keeps_Ret no_loss); [|exact H]. pose proof deliver_no_loss. keeping.
Qed.
End no_loss.


