(* ===== verification/ServiceKeeps.v ===== *)
(** * What the service does besides its modules

    Only three things that the service does change the list of its modules: reading the
    configuration files, running the modules and writing their XML.  A relation between
    worlds that those three keep, and that holds between worlds with the same modules, is
    kept by all the service does ([mods_pandora_run]). *)
From S2P Require Import Prelude StdString Scanf Strutils Pandora AgentConf PandoraFile PandoraData Log PandoraModule Wmi Modules ModuleFactory ModuleList ServiceState Transfer RemoteConfig Service.

Section keeps_modules.
Context (p : platform) (R : world → world → Prop) `{!PreOrder R}.
Context (Hsame : ∀ w w', modules w' = modules w → R w w').

(** Most steps do not touch the modules. *)
Lemma mods_modify f : (∀ w, modules (f w) = modules w) → keeps R (modify f).
Proof. intros H. apply keeps_modify. intros w. by apply Hsame. Qed.

Lemma mods_ask : keeps R ask.
Proof. intros w. by apply Hsame. Qed.

Lemma mods_putenv s : keeps R (putenv s).
Proof. by apply mods_modify. Qed.

Lemma mods_request r : keeps R (request_ p r).
Proof.
  intros w. unfold request_, mbind, M_bind, ask, emit, modify, get_world. cbn.
  destruct (serve p _ r _) as [a m]. by apply Hsame.
Qed.

Lemma mods_copy name : keeps R (copyDataFile p name).
Proof. apply keeps_copyDataFile; [apply _|]. apply mods_request. Qed.

Lemma mods_recv name : keeps R (recvDataFile p name).
Proof. apply keeps_recvDataFile; [apply _|]. apply mods_request. Qed.

Lemma mods_request_rc r : keeps R (request_rc p r).
Proof. apply keeps_request_rc; [apply _|]. apply mods_request. Qed.

Lemma mods_removeFile path : keeps R (removeFile_ path).
Proof. by apply mods_modify. Qed.

Lemma mods_readBin path : keeps R (readBin path).
Proof. unfold readBin. keeping. Qed.

Lemma mods_writeBin path data size : keeps R (writeBin p path data size).
Proof. unfold writeBin. keeping; by apply mods_modify. Qed.

Lemma mods_lines_of f : keeps R (lines_of f).
Proof. unfold lines_of. keeping. Qed.

#[local] Hint Resolve mods_ask mods_putenv mods_request mods_copy mods_recv mods_request_rc
  mods_removeFile mods_readBin mods_writeBin mods_lines_of : keeps.

(** [keeping], for the steps that write another field of the world. *)
Ltac mods := keeping; try (by apply mods_modify).

Lemma mods_agent_name f : keeps R (agent_name_of p f).
Proof. unfold agent_name_of, checkAgentName. keeping. Qed.

Lemma mods_checkConfig f : keeps R (checkConfig p f).
Proof.
  unfold checkConfig, compare_config, download_config, remote_md5, upload_config.
  pose proof mods_agent_name. mods.
Qed.

Lemma mods_with_conf {A} (f : Pandora_Agent_Conf → res A) : keeps R (with_conf f).
Proof. unfold with_conf. mods. Qed.

Lemma mods_update_conf f : keeps R (update_conf f).
Proof. unfold update_conf. mods. Qed.

#[local] Hint Resolve mods_agent_name mods_checkConfig mods_with_conf mods_update_conf : keeps.

Lemma mods_check_collection dir : keeps R (check_collection p dir).
Proof.
  unfold check_collection, sync_collection, new_collection, known_collection, fetch_zip, fetch_md5,
    unzipCollection, goNextCollection_, add_to_path. mods.
Qed.

Lemma mods_collections_loop fuel dir : keeps R (collections_loop p fuel dir).
Proof.
  pose proof mods_check_collection.
  induction fuel as [|fuel IH]; cbn [collections_loop]; mods.
Qed.

Lemma mods_purge : keeps R (purgeDiskCollections p).
Proof.
  unfold purgeDiskCollections. keeping.
  match goal with |- keeps _ (foldr _ _ ?l) => induction l as [|name l IH] end; cbn [foldr]; mods.
Qed.

Lemma mods_checkCollections : keeps R (checkCollections p).
Proof.
  unfold checkCollections. pose proof mods_collections_loop. pose proof mods_purge. mods.
Qed.

#[local] Hint Resolve mods_checkCollections : keeps.

Lemma mods_try_conversion {A} (m h : M A) :
  keeps R m → keeps R h → keeps R (try_conversion m h).
Proof.
  intros Hm Hh w. specialize (Hm w). unfold try_conversion.
  destruct (m w) as [a w1|e w1|]; [done| |done]. destruct e; try done.
  specialize (Hh w1). destruct (h w1); [..|done]; by etrans.
Qed.

Lemma mods_custom_fields fuel c : keeps R (custom_fields fuel c).
Proof.
  revert c; induction fuel as [|fuel IH]; intros c; cbn [custom_fields]; unfold custom_field; mods.
Qed.

Lemma mods_send_files base names : keeps R (send_files p base names).
Proof. induction names as [|name names IH]; cbn [send_files]; mods. Qed.

Lemma mods_refresh file reload : keeps R reload → keeps R (refresh p file reload).
Proof. unfold refresh. intros H. mods. Qed.

#[local] Hint Resolve mods_refresh : keeps.

(** ** Sending *)

Section sending.
Context (Hxml : keeps R modules_xml).
#[local] Hint Resolve Hxml : keeps.

Lemma mods_sendXml : keeps R (sendXml p).
Proof.
  unfold sendXml, data_xml, custom_fields_xml, getXmlHeader, header_timestamp, coordinates,
    tmp_filename, deliver, sendBufferedXml, when.
  pose proof mods_custom_fields. pose proof mods_send_files. mods.
Qed.

#[local] Hint Resolve mods_sendXml : keeps.

Lemma mods_send_if forced addr : keeps R (send_if p forced addr).
Proof. unfold send_if, time_to_send, interval_seconds. mods. Qed.

#[local] Hint Resolve mods_send_if : keeps.

(** ** The service *)

Section passes.
Context (Hread : ∀ f, keeps R (read_modules p f)) (Hrun : ∀ forced, keeps R (run_modules p forced)).
#[local] Hint Resolve Hread Hrun : keeps.

Lemma mods_delete_old : keeps R (delete_old p).
Proof. unfold delete_old. mods. Qed.

#[local] Hint Resolve mods_delete_old : keeps.

Lemma mods_init_broker f : keeps R (pandora_init_broker p f).
Proof. unfold pandora_init_broker, checkAgentName, get_instance. mods. Qed.

Lemma mods_init : keeps R (pandora_init p).
Proof.
  unfold pandora_init, count_broker_agents, get_instance, read_intervals, start_udp_server,
    first_run_setup, launchTentacleProxy, when.
  mods.
  all: apply mods_try_conversion; mods.
Qed.

#[local] Hint Resolve mods_init_broker mods_init : keeps.

Lemma mods_run_broker f : keeps R (pandora_run_broker p f).
Proof. unfold pandora_run_broker. mods. Qed.

Lemma mods_run_brokers : keeps R (run_brokers p).
Proof.
  unfold run_brokers, count_broker_agents, check_broker_agents. pose proof mods_run_broker. mods.
  match goal with |- keeps _ (foldr _ _ ?l) => induction l as [|path l IH] end; cbn [foldr]; mods.
Qed.

Lemma mods_pandora_run forced : keeps R (pandora_run p forced).
Proof.
  unfold pandora_run, startup_once, time_to_send, interval_seconds. pose proof mods_run_brokers.
  mods.
Qed.
End passes.
End sending.
End keeps_modules.
