(* ===== verification/Typing.v ===== *)
(** * Kinds and classes ([pandora_module_list.cc], [pandora_windows_service.cc])

    The list casts each module to the class its kind names, and the service
    calls the virtual functions of that class.  Every module the service holds
    has the kind of its class and the settings of a definition of the configuration:
    from the reading of the configuration files, through the runs of the modules and
    the XML, to the next reload. *)
From S2P Require Import Prelude StdString Scanf Strutils Pandora AgentConf PandoraFile PandoraData PandoraModule Wmi Modules ModuleFactory ModuleList ServiceState Transfer RemoteConfig Service ServiceKeeps.

(** ** Lists of modules *)

Section parse.
Context (build : str → res (option object)) (P : object → Prop).
Context (Hbuild : ∀ d o, build d = Ok (Some o) → P o).
Implicit Types (ms : list object) (lines : list str).

(** A reader of modules only adds modules that were built. *)
Lemma parseModuleDefinition_built d ms ms' :
  parseModuleDefinition build d ms = Ok ms' → Forall P ms → Forall P ms'.
Proof.
  unfold parseModuleDefinition. intros (o & E & H)%rbind_Ok Hms. destruct o as [o|]; [|by simplify_eq].
  apply Hbuild in E. assert (Forall P (ms ++ [o])) by (by apply Forall_app, conj, Forall_singleton).
  destruct (getModuleKind (base o)); by simplify_eq.
Qed.

Lemma module_line_built buffer lines ms ms' lines' :
  module_line build buffer lines ms = Ok (ms', lines') → Forall P ms → Forall P ms'.
Proof.
  unfold module_line. intros H Hms. destruct (find _ buffer); [|destruct (find _ buffer)].
  - destruct (module_block lines _) as [d rest].
    apply rbind_Ok in H as (ms1 & E & [= -> ->]). by eapply parseModuleDefinition_built.
  - apply rbind_Ok in H as (ms1 & E & [= -> ->]). by eapply parseModuleDefinition_built.
  - by simplify_eq.
Qed.

Lemma conf_loop_built fuel lines ms ms' :
  conf_loop build fuel lines ms = Ok ms' → Forall P ms → Forall P ms'.
Proof.
  revert lines ms; induction fuel as [|fuel IH]; intros [|buffer lines] ms; cbn [conf_loop];
    try (by intros [= ->]).
  destruct (ignored_line buffer); [apply IH|]. intros ([ms1 rest] & E & H)%rbind_Ok Hms.
  eapply IH; [exact H|]. by eapply module_line_built.
Qed.

Lemma include_modules_built fs buffer ms ms' :
  include_modules build fs buffer ms = Ok ms' → Forall P ms → Forall P ms'.
Proof.
  unfold include_modules, parseModuleConf. destruct (find _ buffer); [|by intros [= ->]].
  intros (path & _ & H)%rbind_Ok. destruct (fs !! c_str path); [|by simplify_eq].
  intros Hms. by eapply conf_loop_built.
Qed.

Lemma list_loop_built fuel fs lines ms ms' :
  list_loop build fuel fs lines ms = Ok ms' → Forall P ms → Forall P ms'.
Proof.
  revert lines ms; induction fuel as [|fuel IH]; intros [|buffer lines] ms; cbn [list_loop];
    try (by intros [= ->]).
  destruct (ignored_line buffer); [apply IH|].
  intros (ms1 & E1 & ([ms2 rest] & E2 & H)%rbind_Ok)%rbind_Ok Hms.
  eapply IH; [exact H|]. eapply module_line_built; [exact E2|]. by eapply include_modules_built.
Qed.

Lemma new_list_from_built fs filename l :
  new_list_from build fs filename = Ok l → Forall P (ModuleList.modules l).
Proof.
  unfold new_list_from. destruct (fs !! c_str filename); [|by intros [= <-]].
  intros (ms & E & [= <-])%rbind_Ok. by eapply list_loop_built.
Qed.
End parse.

(** A traversal keeps what its body keeps. *)
Lemma foreach_Forall {S} (body : object → S → res (object * S)) (P : object → Prop) l s l' s' :
  (∀ o s o' s', body o s = Ok (o', s') → P o → P o') →
  foreach body l s = Ok (l', s') → Forall P (ModuleList.modules l) →
  Forall P (ModuleList.modules l').
Proof.
  intros Hbody. destruct (decide (current l = C_unwritten)) as [Hc|Hc].
  { unfold foreach, goFirst, with_current. by rewrite Hc. }
  rewrite foreach_spec by done. intros ([ms s1] & E & [= <- <-])%rbind_Ok. cbn [ModuleList.modules].
  clear Hc. revert s ms s1 E; induction (ModuleList.modules l) as [|o os IH]; intros s ms s1 E Hos.
  { by simplify_eq/=. }
  cbn [map_modules] in E. apply rbind_Ok in E as ([o' s2] & E1 & E).
  apply rbind_Ok in E as ([ms2 s3] & E2 & [= <- <-]).
  apply Forall_cons in Hos as [Ho Hos]. constructor; [by eapply Hbody|by eapply IH].
Qed.

(** ** One module *)

(** What is configured of a module: all but what its runs change, which is the data, the
    counters, the time stamps, and [async], which is reset when the thread of the module
    is started. *)
Definition configured (m : Pandora_Module) : Pandora_Module :=
  upd_executions 0 (upd_data_list None (upd_inventory_list None (upd_has_output false
    (upd_latest_output [] (upd_timestamp 0 (upd_intensive_match 0 (upd_async false
      (upd_cron ((λ c, {| utimestamp := 0; cron_interval := cron_interval c; params := params c |})
                   <$> cron m) m)))))))).
#[global] Arguments configured : simpl never.

Definition configured_own (c : child) : child :=
  match c with
  | C_inventory options _ => C_inventory options 0
  | C_logevent source type id pattern application _ _ =>
      C_logevent source type id pattern application 1 false
  | C_regexp source pattern no_seek_eof _ _ => C_regexp source pattern no_seek_eof 0 None
  | c => c
  end.

(** An inventory module sets its interval itself. *)
Definition configured_base (c : child) (m : Pandora_Module) : Pandora_Module :=
  match c with
  | C_inventory _ _ => upd_module_interval 0 (configured m)
  | _ => configured m
  end.

Definition settings (o : object) : Pandora_Module * child :=
  (configured_base (own o) (base o), configured_own (own o)).

(** A module as one of the definitions of the configuration makes it, and run since. *)
Definition as_configured (p : platform) (o : object) : Prop :=
  ∃ interval intensive d o0,
    getModuleFromDefinition (new_has_output p) (new_type p) (new_kind p) (regcomp_ok p)
      interval intensive d = Ok (Some o0) ∧ settings o = settings o0.

(** No run changes the settings. *)
Abbreviation same_setup m m' := (configured m' = configured m).

Lemma run_setup m m' b : run m = Ok (m', b) → same_setup m m'.
Proof. unfold run. intros H. repeat case_decide; by simplify_eq/=. Qed.

Lemma on_interval_setup k m m' :
  (∀ m1 m2, k m1 = Ok m2 → same_setup m1 m2) → on_interval k m = Ok m' → same_setup m m'.
Proof.
  unfold on_interval. intros Hk ([m1 b] & E%run_setup & H)%rbind_Ok. rewrite <- E.
  destruct b; [by simplify_eq|by apply Hk].
Qed.

Lemma measured_setup now v m m' : measured now v m = Ok m' → same_setup m m'.
Proof. unfold measured. destruct v; intros [= <-]; done. Qed.

Lemma Exec_run_setup l now proc m m' : Exec_run l now proc m = Some (Ok m') → same_setup m m'.
Proof.
  unfold Exec_run. intros H. destruct (run m) as [[m1 b]|e|] eqn:E; [|done|done].
  apply run_setup in E. rewrite <- E; clear E. repeat (case_match || case_decide); by simplify_eq/=.
Qed.

Lemma start_async_setup m : same_setup m (start_async m).1.
Proof. unfold start_async. by destruct (async m). Qed.

Lemma Proc_run_setup Q name now m m' b : Proc_run Q name now m = Ok (m', b) → same_setup m m'.
Proof.
  unfold Proc_run. intros ([m1 t] & E%run_setup & H)%rbind_Ok. rewrite <- E.
  destruct t; [by simplify_eq|]. injection H as H. apply (f_equal fst) in H. cbn in H.
  by rewrite <- H, start_async_setup.
Qed.

Lemma Service_run_setup Q name now m m' b :
  Service_run Q name now m = Ok (m', b) → same_setup m m'.
Proof.
  unfold Service_run. intros ([m1 t] & E%run_setup & H)%rbind_Ok. rewrite <- E.
  destruct t; [by simplify_eq|]. apply rbind_Ok in H as (r & _ & H). injection H as H.
  apply (f_equal fst) in H. cbn in H. by rewrite <- H, start_async_setup.
Qed.

Lemma fold_setup {A} (f : Pandora_Module → A → Pandora_Module) xs m :
  (∀ m x, same_setup m (f m x)) → same_setup m (fold_left f xs m).
Proof. intros H. revert m; induction xs as [|x xs IH]; intros m; [done|]. simpl. by rewrite IH, H. Qed.

Lemma inventory_sections_setup now options secs m m' :
  inventory_sections now options secs m = Ok m' → same_setup m m'.
Proof.
  revert m; induction secs as [|[[word get] sets] secs IH]; intros m; cbn [inventory_sections].
  { by intros [= ->]. }
  destruct (find word options) as [i|]; [|apply IH]. intros ([rows n] & _ & H)%rbind_Ok.
  apply IH in H. rewrite H. apply fold_setup. intros m1 row. by destruct sets.
Qed.

Lemma Inventory_run_setup Q iv software options fixed now m m' fixed' :
  Inventory_run Q iv software options fixed now m = Ok (m', fixed') →
  upd_module_interval 0 (configured m') = upd_module_interval 0 (configured m).
Proof.
  unfold Inventory_run. intros ([m1 f1] & E1 & H)%rbind_Ok.
  apply rbind_Ok in H as ([m2 b] & E2%run_setup & H).
  assert (same_setup m2 m') as ->.
  { destruct b; [by simplify_eq|]. apply rbind_Ok in H as (m3 & E3 & [= <- <-]).
    by eapply inventory_sections_setup. }
  rewrite E2. repeat case_decide; by simplify_eq/=.
Qed.

Lemma match_lines_setup regcomp pattern now type lines m count m' count' :
  match_lines regcomp pattern now type lines m count = Ok (m', count') → same_setup m m'.
Proof.
  revert m count; induction lines as [|line lines IH]; intros m count; cbn [match_lines].
  { by intros [= <- <-]. }
  intros H. repeat case_match; try done; by rewrite (IH _ _ H).
Qed.

Lemma Regexp_run_setup regcomp f pattern no_seek size position now m m' size' position' :
  Regexp_run regcomp f pattern no_seek size position now m = Ok (m', size', position') →
  same_setup m m'.
Proof.
  unfold Regexp_run. intros ([m1 b] & E%run_setup & H)%rbind_Ok. rewrite <- E.
  destruct b; [by simplify_eq|]. destruct (reopen _ _ _ _) as [size1 [pos|]]; [|by simplify_eq].
  apply rbind_Ok in H as ([m2 count] & K%match_lines_setup & H). rewrite <- K. clear K E.
  simplify_eq/=. repeat case_match; done.
Qed.

Lemma Logevent_run_setup regcomp lt xp msg opens debug old reads type id pattern app first log m
    m' first' log' :
  Logevent_run regcomp lt xp msg opens debug old reads type id pattern app first log m =
    Some (Ok (m', first', log')) → same_setup m m'.
Proof.
  unfold Logevent_run. intros H. destruct (run m) as [[m1 b]|e|] eqn:E; [|done|done].
  apply run_setup in E. rewrite <- E; clear E. repeat (case_match; simplify_eq/=; try done).
  apply fold_setup. intros m2 ev. unfold store_event. by case_decide.
Qed.

Lemma some_res_Ok {A} (r : option (res A)) a : some_res r = Ok a → r = Some (Ok a).
Proof. by destruct r as [[]|]; simpl; intros; simplify_eq. Qed.

(** *** The virtual functions *)

Lemma configured_base_own c m : configured_base (configured_own c) m = configured_base c m.
Proof. by destruct c. Qed.

Lemma configured_with p o m c :
  as_configured p o → configured_base (own o) m = configured_base (own o) (base o) →
  configured_own c = configured_own (own o) → as_configured p {| base := m; own := c |}.
Proof.
  intros (iv & im & d & o0 & E & H) Hm Hc. exists iv, im, d, o0. split; [done|].
  rewrite <- H. unfold settings. cbn [base own].
  by rewrite <- (configured_base_own c), Hc, configured_base_own, Hm.
Qed.

Lemma same_setup_base c m m' : same_setup m m' → configured_base c m' = configured_base c m.
Proof. unfold configured_base. by intros ->. Qed.

Lemma kinds_of_configured c : kinds_of (configured_own c) = kinds_of c.
Proof. by destruct c. Qed.

(** A module with the settings of a definition has the kind of its class. *)
Lemma configured_typed p o : as_configured p o → well_typed o.
Proof.
  intros (iv & im & d & o0 & E%factory_typed & H). unfold well_typed, getModuleKind in *.
  assert (module_kind (base o) = module_kind (base o0)) as ->
    by (apply (f_equal (module_kind ∘ fst)) in H; by destruct o as [m []], o0 as [m0 []]).
  assert (configured_own (own o) = configured_own (own o0)) as Hc by apply (f_equal snd H).
  by rewrite <- (kinds_of_configured (own o)), Hc, kinds_of_configured.
Qed.

Section runs.
Context (p : platform).

Lemma module_run_configured e iv dbg o o' :
  module_run p e iv dbg o = Ok o' → as_configured p o → as_configured p o'.
Proof.
  unfold module_run. intros H Ho.
  destruct (own o) eqn:Eo; apply rbind_Ok in H;
    repeat match goal with
    | H : ∃ _, _ |- _ => destruct H as (? & ? & H)
    | H : _ ∧ _ |- _ => destruct H
    | x : (_ * _)%type |- _ => destruct x
    end; simplify_eq/=; (eapply (configured_with p); [exact Ho| |by rewrite Eo]);
    rewrite Eo; cbn [configured_base].
  all: try match goal with
    | |- upd_module_interval _ _ = _ => by eapply Inventory_run_setup
    end.
  all: try (eapply Exec_run_setup, some_res_Ok; eassumption).
  all: try (eapply Regexp_run_setup; eassumption).
  all: try (eapply Logevent_run_setup, some_res_Ok; eassumption).
  all: try match goal with
    | H : rbind _ _ = Ok _ |- _ => apply rbind_Ok in H as ([m1 b1] & H & [= <-])
    end.
  all: try (eapply Proc_run_setup; eassumption).
  all: try (eapply Service_run_setup; eassumption).
  all: eapply on_interval_setup; [|eassumption]; cbv beta; intros m1 m2 Hk.
  all: try (apply rbind_Ok in Hk as (? & _ & Hk)).
  all: try (by eapply measured_setup).
  all: repeat (case_match || case_decide); simplify_eq/=; try done.
  apply rbind_Ok in Hk as (rows & _ & Hk). destruct rows; injection Hk as <-; [done|].
  rewrite fold_setup by done. done.
Qed.

Lemma getXml_setup m x m' : getXml m = Ok (x, m') → same_setup m m'.
Proof.
  unfold getXml. destruct (has_output m), (data_list m) as [ds|]; try (by intros [= <- <-]).
  by intros (y & _ & [= <- <-])%rbind_Ok.
Qed.

Lemma Inventory_getXml_setup m x m' : Inventory_getXml m = Ok (x, m') → same_setup m m'.
Proof.
  unfold Inventory_getXml.
  destruct (has_output m), (inventory_list m) as [ds|]; try (by intros [= <- <-]).
  by intros (y & _ & [= <- <-])%rbind_Ok.
Qed.

Lemma Plugin_getXml_setup m x m' : Plugin_getXml m = Ok (x, m') → same_setup m m'.
Proof. unfold Plugin_getXml. by intros (y & _ & [= <- <-])%rbind_Ok. Qed.

Lemma module_getXml_configured o xml o' :
  module_getXml o = Ok (xml, o') → as_configured p o → as_configured p o'.
Proof.
  unfold module_getXml. intros ([x m] & E & [= <- <-])%rbind_Ok Ho.
  eapply (configured_with p); [exact Ho| |done]. apply same_setup_base.
  destruct (own o); first [by eapply Plugin_getXml_setup|by eapply Inventory_getXml_setup|
    by eapply getXml_setup].
Qed.

(** *** The world *)

Definition all_configured (w : world) : Prop :=
  from_option (λ l, Forall (as_configured p) (ModuleList.modules l)) True (modules w).

Definition configured_after (w w' : world) : Prop := all_configured w → all_configured w'.

#[global] Instance configured_after_preorder : PreOrder configured_after.
Proof. split; [by intros w H|]. intros w1 w2 w3 H1 H2 H. by apply H2, H1. Qed.

Lemma configured_same w w' : modules w' = modules w → configured_after w w'.
Proof. unfold configured_after, all_configured. by intros ->. Qed.

(** *** Reading, running and sending the modules *)

Lemma configured_read_modules f : keeps configured_after (read_modules p f).
Proof.
  intros w. unfold read_modules, mbind, M_bind, get_world, lift.
  destruct (new_list_from _ _ _) as [l|e|] eqn:E; [|by apply configured_same|done].
  cbn. unfold configured_after, all_configured. cbn. intros _.
  eapply new_list_from_built; [|exact E]. intros d o E1. by exists (interval w), (intensive_interval w), d, o.
Qed.

Lemma configured_modules_xml : keeps configured_after modules_xml.
Proof.
  intros w. unfold modules_xml, mbind, M_bind, gets, lift.
  destruct (modules w) as [l|] eqn:El; [|by apply configured_same].
  destruct (module_data l) as [[l' x]|e|] eqn:E; [|by apply configured_same|done].
  cbn. unfold configured_after, all_configured. rewrite El. cbn. intros Hw.
  eapply (foreach_Forall _ (as_configured p)); [|exact E|exact Hw].
  intros o s o' s' ([xml o1] & H & [= <- <-])%rbind_Ok. by eapply module_getXml_configured.
Qed.

Lemma set_base_configured m o : as_configured p o → same_setup (base o) m → as_configured p (set_base m o).
Proof. intros Ho Hm. eapply (configured_with p); [done|by apply same_setup_base|done]. Qed.

Lemma silence_configured o : as_configured p o → as_configured p (silence o).
Proof. intros Ho. by apply set_base_configured. Qed.

Lemma checkCron_setup now t m : same_setup m (checkCron now t m).2.
Proof.
  unfold checkCron. destruct (cron m) as [c|] eqn:E; [|done].
  repeat case_match; try done. unfold configured. cbn. by rewrite E.
Qed.

Lemma keep_data_setup forced sec now im m m' :
  keep_data forced sec now im m = Some m' → same_setup m m'.
Proof. unfold keep_data. intros H. repeat case_decide; by simplify_eq/=. Qed.

Lemma after_run_configured forced o w o' flag w' :
  after_run p forced o w = Ret (o', flag) w' → as_configured p o → as_configured p o'.
Proof.
  unfold after_run. intros (? & w1 & _ & H)%bind_Ret Ho.
  apply bind_Ret in H as (im & w2 & _ & H). apply bind_Ret in H as (sec & w3 & _ & H).
  apply bind_Ret in H as (now & w4 & _ & H).
  destruct (keep_data _ _ _ _ _) as [m|] eqn:E.
  - apply keep_data_setup in E. apply bind_Ret in H as (n & w5 & _ & H).
    apply bind_Ret in H as (cmds & w6 & _ & H). apply bind_Ret in H as (? & w7 & _ & H).
    injection H as <- <- <-. by apply set_base_configured.
  - injection H as <- <- <-. by apply set_base_configured.
Qed.

Lemma module_step_configured forced o w o' flag w' :
  module_step p forced o w = Ret (o', flag) w' → as_configured p o → as_configured p o'.
Proof.
  unfold module_step. intros (n & w1 & _ & H)%bind_Ret Ho.
  apply bind_Ret in H as (pre & w2 & _ & H). case_decide.
  { injection H as <- <- <-. by apply silence_configured. }
  apply bind_Ret in H as (n2 & w3 & _ & H).
  pose proof (checkCron_setup (clock p n2) (break_time p (clock p n2)) (base o)) as Hc.
  destruct (checkCron _ _ _) as [cron m]. cbn in Hc. case_decide.
  { injection H as <- <- <-. by apply silence_configured, set_base_configured. }
  apply bind_Ret in H as (n3 & w4 & _ & H). apply bind_Ret in H as (w5 & w6 & _ & H).
  apply bind_Ret in H as (o1 & w7 & [E _]%lift_Ret & H).
  apply module_run_configured in E; [|by apply set_base_configured]. case_decide.
  - injection H as <- <- <-. by apply silence_configured.
  - by eapply after_run_configured.
Qed.

Lemma configured_run_modules forced : keeps configured_after (run_modules p forced).
Proof.
  intros w. unfold run_modules. destruct (modules w) as [l|] eqn:El; [|by apply configured_same].
  destruct (foreach _ l _) as [[l' [w1 flag]]|e|] eqn:E; [|by apply configured_same|done].
  unfold configured_after, all_configured. rewrite El. cbn. intros Hw.
  eapply (foreach_Forall _ (as_configured p)); [|exact E|exact Hw].
  intros o [w2 f2] o' s'. unfold step_res. cbn.
  destruct (module_step p forced o w2) as [[o1 flag1] w3|e3 w3|] eqn:Es; cbn; try done.
  intros [= <- <-]. by eapply module_step_configured.
Qed.

Lemma configured_init : keeps configured_after (pandora_init p).
Proof. apply mods_init; [apply _|exact configured_same|exact configured_read_modules]. Qed.

Lemma configured_pandora_run forced : keeps configured_after (pandora_run p forced).
Proof.
  apply mods_pandora_run;
    [apply _|exact configured_same|exact configured_modules_xml|exact configured_read_modules|exact configured_run_modules].
Qed.
End runs.

(** ** Property *)

(** The worlds of a service: constructed, started, and after any passes. *)
Inductive serviced (p : platform) : world → Prop :=
  | serviced_new w : serviced p (setValues w)
  | serviced_init w w' : serviced p w → pandora_init p w = Ret () w' → serviced p w'
  | serviced_run w forced w' :
      serviced p w → pandora_run p forced w = Ret () w' → serviced p w'.

Lemma serviced_configured p w : serviced p w → all_configured p w.
Proof.
  induction 1 as [w|w w' _ IH E|w forced w' _ IH E]; [done|..].
  - by apply (keeps_Ret _ _ _ _ _ (configured_init p) E).
  - by apply (keeps_Ret _ _ _ _ _ (configured_pandora_run p forced) E).
Qed.

Lemma all_configured_of p w l o :
  all_configured p w → modules w = Some l → o ∈ ModuleList.modules l → as_configured p o.
Proof. unfold all_configured. intros H Hl. rewrite Hl in H. revert o. by apply Forall_forall. Qed.

(** C30. the casts of the list are right: whatever the configuration files and
    their includes hold and whatever the passes of the service do, reloads and
    brokers included, every module of the list has a kind of its own class. *)
Theorem modules_of_their_class p w l o :
  serviced p w → modules w = Some l → o ∈ ModuleList.modules l →
  getModuleKind (base o) ∈ kinds_of (own o).
Proof.
  intros Hs%serviced_configured Hl Ho. apply (configured_typed p).
  by eapply all_configured_of.
Qed.

Definition typing_platform : platform := demo_platform (λ _ _ m, (Code 0, m)).
Definition typing_conf : str := text_of
  [&"agent_name pc1"; &"interval 300"; &"module_begin"; &"module_name up"; &"module_type generic_proc";
   &"module_ping 10.0.0.1"; &"module_end"; &"module_plugin inv.exe"].
Definition typing_world : world := setValues (demo_world (demo_conf [])
  {[ &"C:\agent\pandora_agent.conf" := typing_conf ]}).
Definition left_by (o : out ()) : world :=
  match o with Ret _ w | Throw _ w => w | Stuck => typing_world end.
Definition returned (o : out ()) : bool := match o with Ret _ _ => true | _ => false end.
Lemma returned_Ret o : returned o = true → o = Ret () (left_by o).
Proof. by destruct o as [[] w|e w|]. Qed.


Lemma serviced_typing_init :
  serviced typing_platform (left_by (pandora_init typing_platform typing_world)).
Proof.
  eapply serviced_init; [apply (serviced_new _ (demo_world (demo_conf [])
    {[ &"C:\agent\pandora_agent.conf" := typing_conf ]}))|].
  apply returned_Ret. vm_compute. reflexivity.
Qed.


Lemma modules_of_their_class_witness :
  let w := left_by (pandora_init typing_platform typing_world) in
  (λ l, getModuleKind ∘ base <$> ModuleList.modules l) <$> modules w = Some [MODULE_PING; MODULE_PLUGIN] ∧
  ∀ l o, modules w = Some l → o ∈ ModuleList.modules l → getModuleKind (base o) ∈ kinds_of (own o).
Proof.
  intros w. split; [vm_compute; reflexivity|]. intros l o.
  exact (modules_of_their_class typing_platform w l o serviced_typing_init).
Defined.
