(* ===== verification/Reload.v ===== *)
(** * Reading the configuration again ([pandora_windows_service.cc])

    Before [pandora_init] and [pandora_init_broker] read the modules they delete those
    they have run until then ([delete_old]).  The conditions of the modules are still
    those of the configuration, so the deletion has a meaning and gives back what the
    modules took. *)
From S2P Require Import Prelude StdString Scanf Strutils Pandora AgentConf PandoraFile PandoraData PandoraModule Wmi Modules ModuleFactory ModuleList Lifetime ServiceState Transfer RemoteConfig Service ServiceKeeps Typing.

(** The service does not change the conditions of its modules. *)
Lemma configured_conditions_ok p o : as_configured p o → conditions_ok (base o).
Proof.
  intros (iv & im & d & o0 & E%factory_conditions_ok & H).
  assert (conditions_of (base o) = conditions_of (base o0)) as Hc.
  { apply (f_equal (conditions_of ∘ fst)) in H. by destruct o as [m []], o0 as [m0 []]. }
  unfold conditions_ok. by rewrite Hc.
Qed.

(** ** Property *)


Definition lifetime_conf : str := text_of
  [&"agent_name pc1"; &"interval 300"; &"module_begin"; &"module_name log"; &"module_type async_string";
   &"module_regexp C:\log.txt"; &"module_pattern fail"; &"module_condition =~ disk restart.exe";
   &"module_precondition nonsense"; &"module_end"].
Definition lifetime_world : world := demo_world (demo_conf [])
  {[ &"C:\agent\pandora_agent.conf" := lifetime_conf ]}.
Definition lifetime_result : world :=
  left_by (pandora_init typing_platform (setValues lifetime_world)).

(** One module, which leaks the list of its rejected precondition. *)
Definition lifetime_check (l : Pandora_Module_List) : bool :=
  bool_decide (length (ModuleList.modules l) = 1) && bool_decide (current l ≠ C_unwritten) &&
  match flat_map (leaked_object (λ _, Some (λ _, true))) (ModuleList.modules l) with
  | [Condition_list] => true
  | _ => false
  end.

Lemma lifetime_checked : from_option lifetime_check false (modules lifetime_result) = true.
Proof. vm_compute. reflexivity. Qed.

Lemma lifetime_serviced : serviced typing_platform lifetime_result.
Proof.
  eapply serviced_init; [apply (serviced_new _ lifetime_world)|].
  apply returned_Ret. vm_compute. reflexivity.
Qed.

Lemma lifetime_check_spec l :
  lifetime_check l = true →
  current l ≠ C_unwritten ∧
  flat_map (leaked_object (λ _, Some (λ _, true))) (ModuleList.modules l) = [Condition_list].
Proof.
  unfold lifetime_check. intros [[_ Hc%bool_decide_eq_true]%andb_prop H]%andb_prop. split; [done|].
  by destruct (flat_map _ _) as [|[] []].
Qed.

