(* ===== verification/UdpServer.v ===== *)
(** * The UDP server ([udp_server/udp_server.cc]) and the service manager calls it
    makes ([windows/pandora_wmi.cc])

    Datagrams from an authorised host are commands: they run the agent's cycle at
    once, start and stop Windows services, and start programs that the configuration
    names. *)
From S2P Require Import Prelude StdString Scanf AgentConf PandoraModule ServiceState Service.

Definition MAX_PACKET_SIZE : nat := 1024.
Definition INADDR_ANY : Z := 0.

(** ** Services and programs *)

Section wmi.
Context (p : platform).

(** Opening the service manager, opening the service and the control itself are one
    request; the answer 1 says that all three succeeded. *)
Definition startService (service_name : str) : M bool :=
  a ← request_ p (R_start_service service_name); mret (bool_decide (a = Code 1)).

Definition stopService (service_name : str) : M bool :=
  a ← request_ p (R_stop_service service_name); mret (bool_decide (a = Code 1)).

Definition runProgram (command : str) (flags : Z) : M bool :=
  if decide (command = []) then mret false else
  a ← request_ p (R_run_program command flags); mret (bool_decide (a ≠ No_process_started)).
End wmi.

(** ** The server *)

(** [class UDP_Server]; [inet_addr] is Winsock's. *)
Record UDP_Server := {
  address : Z;
  auth_address : Z;
  port : Z;
  running : Z }.

Definition new_UDP_Server (inet_addr : str → Z) (addr auth : str) (server_port : Z) : UDP_Server := {|
  address := if decide (addr = []) then INADDR_ANY else inet_addr addr;
  auth_address := if decide (auth = []) then INADDR_ANY else inet_addr auth;
  port := server_port;
  running := 0 |}.

Definition set_running (v : Z) (s : UDP_Server) : UDP_Server :=
  {| address := address s; auth_address := auth_address s; port := port s; running := v |}.

(** The return value and the server; [thread] says whether the thread started. *)
Definition start (thread : bool) (s : UDP_Server) : Z * UDP_Server :=
  if negb (running s =? 0)%Z then (1%Z, s)
  else if thread then (0%Z, set_running 1 s) else (1%Z, set_running 0 s).

(** The guard is that of [start]: a server that runs is not stopped. *)
Definition stop (s : UDP_Server) : Z * UDP_Server :=
  if negb (running s =? 0)%Z then (1%Z, s) else (0%Z, set_running 0 s).

(** ** Commands *)

Section commands.
Context (p : platform).

(** The three words of a command. *)
Definition words (command : str) : option (str * str * str) :=
  match sscanf command [D_str MAX_PACKET_SIZE; D_str MAX_PACKET_SIZE; D_str MAX_PACKET_SIZE] with
  | (_, [S_str operation; S_str action; S_str target]) => Some (operation, action, target)
  | _ => None
  end.

(** The return code when the command is refused, [None] when it goes on. *)
Definition service_command (operation target : str) : M (option Z) :=
  value ← getValue_of (tolower <$> (&"service_" ++ target));
  if negb (atoi value =? 1)%Z then mret (Some 1%Z)
  else if decide (operation = &"START") then _ ← startService p target; mret None
  else if decide (operation = &"STOP") then _ ← stopService p target; mret None
  else mret None.

Definition process_program (operation target : str) : M (option Z) :=
  let var := tolower <$> (&"process_" ++ target) in
  let run suffix :=
    value ← getValue_of (var ++ suffix);
    if decide (value = []) then mret (Some 1%Z) else _ ← runProgram p value 0; mret None in
  if decide (operation = &"START") then run &"_start"
  else if decide (operation = &"STOP") then run &"_stop"
  else mret (Some 1%Z).

Definition process_command (command : str) : M Z :=
  match words command with
  | None => mret 1%Z
  | Some (operation, action, target) =>
      if decide (operation = &"REFRESH") then pandora_run p 1;; mret 0%Z else
      refused ← (if decide (action = &"SERVICE") then service_command operation target else mret None);
      match refused with
      | Some rc => mret rc
      | None =>
          refused ← (if decide (action = &"PROCESS") then process_program operation target else mret None);
          mret (default 0%Z refused)
      end
  end.

(** ** Listening *)

(** What [recvfrom] gives: the sender and the bytes, or an error (a datagram longer
    than the buffer is one). *)
Inductive received := Datagram (from : Z) (mesg : str) | Recv_failed.

(** One turn of the loop: whether it goes on. The terminator is written behind the
    bytes, past the buffer when they fill it. *)
Definition listen_step (s : UDP_Server) (r : received) : M bool :=
  match r with
  | Recv_failed => mret false
  | Datagram from mesg =>
      if negb (auth_address s =? INADDR_ANY)%Z && negb (auth_address s =? from)%Z then mret true
      else if decide (MAX_PACKET_SIZE ≤ length mesg) then stuck
      else _ ← process_command (c_str mesg); mret true
  end.

(** The loop over what arrives: whether the thread still listens. *)
Fixpoint listen (s : UDP_Server) (rs : list received) : M bool :=
  if negb (running s =? 1)%Z then mret false else
  match rs with
  | [] => mret true
  | r :: rs =>
      more ← listen_step s r;
      if (more : bool) then listen s rs else mret false
  end.
End commands.

(** ** What a command may do *)

(** The requests that a configuration allows. *)
Definition allowed (c : Pandora_Agent_Conf) (ev : event) : Prop :=
  match ev with
  | E_request (R_start_service t | R_stop_service t) =>
      ∃ v, conf_getValue c (tolower <$> (&"service_" ++ t)) = Ok v ∧ atoi v = 1%Z
  | E_request (R_run_program prog 0) =>
      prog ≠ [] ∧ ∃ key, conf_getValue c key = Ok prog ∧
        ∃ t, key = (tolower <$> (&"process_" ++ t)) ++ &"_start" ∨
             key = (tolower <$> (&"process_" ++ t)) ++ &"_stop"
  | _ => False
  end.

(** A command that does not ask for a cycle keeps the configuration, and adds at most
    one request, which the configuration allows. *)
Definition obeys (w w' : world) : Prop :=
  conf w' = conf w ∧
  (trace w' = trace w ∨ ∃ c ev, conf w = Some c ∧ trace w' = trace w ++ [ev] ∧ allowed c ev).

Section safety.
Context (p : platform).

Lemma request_trace r w :
  ∃ a w', request_ p r w = Ret a w' ∧ conf w' = conf w ∧ trace w' = trace w ++ [E_request r].
Proof.
  unfold request_, mbind, M_bind, ask, emit, modify, get_world. cbn.
  destruct (serve p _ r _) as [a files]. by eexists _, _.
Qed.

Lemma getValue_conf key w v w' :
  getValue_of key w = Ret v w' → w' = w ∧ ∃ c, conf w = Some c ∧ conf_getValue c key = Ok v.
Proof.
  intros H. pose proof (getValue_of_same _ _ _ _ H) as ->. split; [done|].
  unfold getValue_of in H. apply bind_Ret in H as (c & w1 & [= <- <-] & H).
  destruct (conf w) as [c|]; [|done]. apply lift_Ret in H as [H _]. by exists c.
Qed.

(** A request that is allowed, and nothing after it. *)
Lemma obeys_request {A} r (f : reply → A) w a w' c :
  (x ← request_ p r; mret (f x)) w = Ret a w' → conf w = Some c → allowed c (E_request r) → obeys w w'.
Proof.
  intros H Hc Ha. apply bind_Ret in H as (x & w1 & H1 & [= _ <-]).
  destruct (request_trace r w) as (x' & w1' & H1' & Hconf & Htr). rewrite H1' in H1.
  injection H1 as _ <-. split; [done|]. right. by exists c, (E_request r).
Qed.

Lemma obeys_refl w : obeys w w.
Proof. split; [done|by left]. Qed.

Lemma service_command_obeys op t w r w' : service_command p op t w = Ret r w' → obeys w w'.
Proof.
  intros H. unfold service_command in H. apply bind_Ret in H as (v & w1 & (-> & c & Hc & Hv)%getValue_conf & H).
  destruct (atoi v =? 1)%Z eqn:E; cbn [negb] in H; [|injection H as _ <-; apply obeys_refl].
  apply Z.eqb_eq in E.
  assert (Hal : ∀ r, r = R_start_service t ∨ r = R_stop_service t → allowed c (E_request r)).
  { intros ? [-> | ->]; by exists v. }
  case_decide; [|case_decide].
  - apply bind_Ret in H as (b & w1 & H & [= _ <-]). eapply obeys_request; [exact H|done|]. auto.
  - apply bind_Ret in H as (b & w1 & H & [= _ <-]). eapply obeys_request; [exact H|done|]. auto.
  - injection H as _ <-. apply obeys_refl.
Qed.

Lemma process_program_obeys op t w r w' : process_program p op t w = Ret r w' → obeys w w'.
Proof.
  intros H. unfold process_program in H.
  assert (Hrun : ∀ suffix, (suffix = &"_start" ∨ suffix = &"_stop") →
    (value ← getValue_of ((tolower <$> (&"process_" ++ t)) ++ suffix);
     if decide (value = []) then mret (Some 1%Z) else _ ← runProgram p value 0; mret None) w = Ret r w' →
    obeys w w').
  { clear H. intros suffix Hs H. apply bind_Ret in H as (v & w1 & (-> & c & Hc & Hv)%getValue_conf & H).
    case_decide as Hne; [injection H as _ <-; apply obeys_refl|].
    apply bind_Ret in H as (b & w1 & H & [= _ <-]). unfold runProgram in H. rewrite decide_False in H by done.
    eapply obeys_request; [exact H|done|]. split; [done|]. eexists. split; [exact Hv|]. exists t.
    destruct Hs as [->| ->]; [by left|by right]. }
  case_decide; [eapply Hrun; [|exact H]; by left|].
  case_decide; [eapply Hrun; [|exact H]; by right|]. injection H as _ <-. apply obeys_refl.
Qed.

Lemma process_command_obeys cmd w r w' :
  process_command p cmd w = Ret r w' →
  (∀ a t, words cmd ≠ Some (&"REFRESH", a, t)) → obeys w w'.
Proof.
  intros H Hno. unfold process_command in H.
  destruct (words cmd) as [[[op action] target]|] eqn:E; [|injection H as _ <-; apply obeys_refl].
  rewrite decide_False in H by (intros ->; by eapply Hno).
  apply bind_Ret in H as (r1 & w1 & H1 & H). destruct (decide (action = &"SERVICE")) as [->|Hs].
  - assert (Ho : obeys w w1) by by eapply service_command_obeys.
    destruct r1 as [rc|]; [by injection H as _ <-|]. rewrite decide_False in H by done.
    apply bind_Ret in H as (r2 & w2 & [= <- <-] & [= _ <-]). done.
  - injection H1 as <- <-. apply bind_Ret in H as (r2 & w2 & H2 & [= _ <-]).
    case_decide; [by eapply process_program_obeys|]. injection H2 as _ <-. apply obeys_refl.
Qed.
End safety.

(** The senders and commands the server obeys without running a cycle. *)
Definition no_refresh (r : received) : Prop :=
  match r with
  | Datagram _ mesg => ∀ a t, words (c_str mesg) ≠ Some (&"REFRESH", a, t)
  | Recv_failed => True
  end.

(** C2. Whatever datagrams arrive, a server that is given no cycle to run keeps the
    configuration, and everything it asks of Windows is allowed by that
    configuration; with an authorised address, datagrams from elsewhere change
    nothing. *)
Theorem udp_commands_allowed p s rs w b w' :
  Forall no_refresh rs → listen p s rs w = Ret b w' →
  conf w' = conf w ∧
  (∃ evs, trace w' = trace w ++ evs ∧ length evs ≤ length rs ∧
     Forall (λ ev, ∃ c, conf w = Some c ∧ allowed c ev) evs) ∧
  (auth_address s ≠ INADDR_ANY →
   Forall (λ r, match r with Datagram from _ => from ≠ auth_address s | Recv_failed => True end) rs →
   w' = w).
Proof.
  revert w. induction rs as [|r rs IH]; intros w Hno H; cbn [listen] in H; (case_match;
    [injection H as _ <-; split_and!; [done|exists []; rewrite app_nil_r; split_and!; [done|simpl; lia|by constructor]|done]|]).
  { injection H as _ <-. split_and!; [done| |done]. exists []. rewrite app_nil_r. by split_and!. }
  apply Forall_cons in Hno as [Hr Hno]. apply bind_Ret in H as (more & w1 & H1 & H).
  assert (Hstep : obeys w w1 ∧ (auth_address s ≠ INADDR_ANY →
    match r with Datagram from _ => from ≠ auth_address s | Recv_failed => True end → w1 = w)).
  { destruct r as [from mesg|]; cbn [listen_step] in H1.
    - destruct (negb _ && negb _) eqn:Ea; [injection H1 as _ <-; split; [apply obeys_refl|done]|].
      case_decide; [done|]. apply bind_Ret in H1 as (rc & w2 & H1 & [= _ <-]).
      split; [by eapply process_command_obeys|]. intros. lia.
    - injection H1 as _ <-. split; [apply obeys_refl|done]. }
  destruct Hstep as [[Hc Ht] Hsame].
  assert (Hone : ∃ evs, trace w1 = trace w ++ evs ∧ length evs ≤ 1 ∧
    Forall (λ ev, ∃ c, conf w = Some c ∧ allowed c ev) evs).
  { destruct Ht as [Ht|(c & ev & Hcw & Ht & Ha)].
    - exists []. rewrite app_nil_r. split_and!; [done|simpl; lia|by constructor].
    - exists [ev]. split_and!; [done|simpl; lia|]. constructor; [by exists c|by constructor]. }
  destruct Hone as (evs & Htr & Hlen & Hall). destruct more.
  - destruct (IH w1 Hno H) as (Hc' & (evs' & Htr' & Hlen' & Hall') & Hsame').
    split_and!; [congruence| |].
    + exists (evs ++ evs'). rewrite Htr', Htr, app_assoc, length_app. split_and!; [done|simpl; lia|].
      apply Forall_app. by rewrite Hc in Hall'.
    + intros Hn (Hr' & Hrs)%Forall_cons. rewrite <- Hsame; auto.
  - injection H as _ <-. split_and!; [done|exists evs; split_and!; [done|simpl; lia|done]|].
    intros Hn (Hr' & _)%Forall_cons. auto.
Qed.

Definition demo_server : UDP_Server := snd (start true (new_UDP_Server (λ _, 5%Z) [] &"10.0.0.5" 41122)).
Definition demo_commands : list received :=
  [ Datagram 6 &"START SERVICE spooler"; Datagram 5 &"STOP SERVICE Spooler";
    Datagram 5 &"START SERVICE winlogon"; Datagram 5 &"START PROCESS backup"; Recv_failed;
    Datagram 5 &"STOP SERVICE spooler" ].
Definition demo_udp_world : world :=
  demo_world (demo_conf [(&"service_spooler", &"1"); (&"process_backup_start", &"backup.exe")]) ∅.

Lemma udp_commands_allowed_witness :
  match listen (demo_platform (λ _ _ fs, (Code 1, fs))) demo_server demo_commands demo_udp_world with
  | Ret b w' => b = false ∧ conf w' = conf demo_udp_world ∧
      trace w' = [E_request (R_stop_service &"Spooler"); E_request (R_run_program &"backup.exe" 0)]
  | _ => False
  end.
Proof.
  destruct (listen _ demo_server demo_commands demo_udp_world) as [b w'|e w'|] eqn:E; [|by vm_compute in E..].
  assert (Hb : b = false ∧ trace w' = [E_request (R_stop_service &"Spooler"); E_request (R_run_program &"backup.exe" 0)]).
  { vm_compute in E. injection E as <- <-. split; reflexivity. }
  destruct Hb as [Hb Ht].
  destruct (udp_commands_allowed (demo_platform (λ _ _ fs, (Code 1, fs))) demo_server demo_commands
    demo_udp_world b w') as (Hc & _ & _).
  - repeat constructor; intros a t Hw; vm_compute in Hw; congruence.
  - exact E.
  - split; [exact Hb|]. split; [exact Hc|exact Ht].
Defined.

(** ** What goes wrong *)

(** A server that runs cannot be stopped. *)
Lemma stop_running s : running s = 1%Z → stop s = (1%Z, s).
Proof. intros H. unfold stop. by rewrite H. Qed.

(** A failed [recvfrom], which a datagram longer than the buffer causes before its
    sender is looked at, ends the thread, and the server still counts as running. *)
Lemma long_datagram_ends p s rs w :
  running s = 1%Z → listen p s (Recv_failed :: rs) w = Ret false w ∧ fst (start true s) = 1%Z.
Proof. intros H. unfold start. cbn [listen]. rewrite H. done. Qed.
