(* ===== verification/Ssh2Misc.v ===== *)
(** * libssh2: byte order and Base64 ([ssh/libssh2/misc.c])

    Buffers are byte strings; a read or a write past the end of one is undefined
    behaviour. On the target [unsigned long] has 32 bits and [libssh2_uint64_t]
    has 64. *)
From S2P Require Import Prelude.

(** ** Byte order *)

(** The bytes [buf[i]], ..., [buf[i + n - 1]]. *)
Definition bytes_at (n : nat) (buf : str) (i : nat) : res str :=
  if decide (i + n ≤ length buf) then Ok (take n (drop i buf)) else Undef.

Definition be32 (a b c d : chr) : Z :=
  Z.lor (Z.lor (Z.lor (u32 (Z.shiftl (code a) 24)) (Z.shiftl (code b) 16)) (Z.shiftl (code c) 8))
    (code d).

(** [libssh2_ntohu32 (buf + i)] *)
Definition libssh2_ntohu32 (buf : str) (i : nat) : res Z :=
  let! s := bytes_at 4 buf i in
  match s with [a; b; c; d] => Ok (be32 a b c d) | _ => Undef end.

(** [libssh2_ntohu64]: the products are computed in [unsigned long]. *)
Definition libssh2_ntohu64 (buf : str) (i : nat) : res Z :=
  let! msl := libssh2_ntohu32 buf i in
  let! lsl := libssh2_ntohu32 buf (i + 4) in
  Ok (u32 (u32 (u32 (msl * 65536) * 65536) + lsl)).

Definition byte_of (value shift : Z) : chr := of_code (Z.land (Z.shiftr value shift) 255).

(** The four bytes [libssh2_htonu32] writes. *)
Definition libssh2_htonu32 (value : Z) : str :=
  [byte_of value 24; byte_of value 16; byte_of value 8; byte_of value 0].

(** A string with its length in front. *)
Definition ssh_string (s : str) : str := libssh2_htonu32 (Z.of_nat (length s)) ++ s.

Definition libssh2_htonu64 (value : Z) : str :=
  let msl := u32 (value / 65536 / 65536) in
  libssh2_htonu32 msl ++ libssh2_htonu32 value.

(** ** Base64 *)

Definition libssh2_base64_table : str :=
  &"ABCDEFGHIJKLMNOPQRSTUVWXYZabcdefghijklmnopqrstuvwxyz0123456789+/".

Definition libssh2_base64_pad : chr := "="%char.

Definition libssh2_base64_reverse_table : list Z :=
  [-1; -1; -1; -1; -1; -1; -1; -1; -1; -1; -1; -1; -1; -1; -1; -1;
   -1; -1; -1; -1; -1; -1; -1; -1; -1; -1; -1; -1; -1; -1; -1; -1;
   -1; -1; -1; -1; -1; -1; -1; -1; -1; -1; -1; 62; -1; -1; -1; 63;
   52; 53; 54; 55; 56; 57; 58; 59; 60; 61; -1; -1; -1; -1; -1; -1;
   -1; 0; 1; 2; 3; 4; 5; 6; 7; 8; 9; 10; 11; 12; 13; 14;
   15; 16; 17; 18; 19; 20; 21; 22; 23; 24; 25; -1; -1; -1; -1; -1;
   -1; 26; 27; 28; 29; 30; 31; 32; 33; 34; 35; 36; 37; 38; 39; 40;
   41; 42; 43; 44; 45; 46; 47; 48; 49; 50; 51; -1; -1; -1; -1; -1;
   -1; -1; -1; -1; -1; -1; -1; -1; -1; -1; -1; -1; -1; -1; -1; -1;
   -1; -1; -1; -1; -1; -1; -1; -1; -1; -1; -1; -1; -1; -1; -1; -1;
   -1; -1; -1; -1; -1; -1; -1; -1; -1; -1; -1; -1; -1; -1; -1; -1;
   -1; -1; -1; -1; -1; -1; -1; -1; -1; -1; -1; -1; -1; -1; -1; -1;
   -1; -1; -1; -1; -1; -1; -1; -1; -1; -1; -1; -1; -1; -1; -1; -1;
   -1; -1; -1; -1; -1; -1; -1; -1; -1; -1; -1; -1; -1; -1; -1; -1;
   -1; -1; -1; -1; -1; -1; -1; -1; -1; -1; -1; -1; -1; -1; -1; -1;
   -1; -1; -1; -1; -1; -1; -1; -1; -1; -1; -1; -1; -1; -1; -1; -1]%Z.

Definition reverse_of (c : chr) : Z := nth (Z.to_nat (code c)) libssh2_base64_reverse_table (-1)%Z.

(** [d[i] = v] and [d[i] |= v] on the allocated bytes. *)
Definition poke (d : list Z) (i : nat) (v : Z) : res (list Z) :=
  if decide (i < length d) then Ok (<[i := u8 v]> d) else Undef.

Definition poke_or (d : list Z) (i : nat) (v : Z) : res (list Z) :=
  match d !! i with Some x => Ok (<[i := u8 (Z.lor x v)]> d) | None => Undef end.

(** The body of the loop for a character of value [v]: the bytes, [len]. *)
Definition base64_step (i : nat) (v : Z) (d : list Z) (len : nat) : res (list Z * nat) :=
  match i mod 4 with
  | 0 => let! d := poke d len (Z.shiftl v 2) in Ok (d, len)
  | 1 =>
      let! d := poke_or d len (Z.shiftr v 4) in
      let! d := poke d (S len) (Z.shiftl v 4) in Ok (d, S len)
  | 2 =>
      let! d := poke_or d len (Z.shiftr v 2) in
      let! d := poke d (S len) (Z.shiftl v 6) in Ok (d, S len)
  | _ => let! d := poke_or d len v in Ok (d, S len)
  end.

(** The loop over the source. *)
Fixpoint base64_loop (src : str) (i : nat) (d : list Z) (len : nat) : res (nat * list Z * nat) :=
  match src with
  | [] => Ok (i, d, len)
  | c :: src =>
      let v := reverse_of c in
      if (v <? 0)%Z then base64_loop src i d len
      else let! (d, len) := base64_step i v d len in base64_loop src (S i) d len
  end.

(** [libssh2_base64_decode]: the bytes, or [None] for the return code -1.
    [junk] is what the allocated buffer holds. *)
Definition base64_size (src : str) : nat := 3 * length src / 4 + 1.

Definition libssh2_base64_decode (junk : list Z) (src : str) : res (option str) :=
  let! (i, d, len) := base64_loop src 0 (take (base64_size src) junk) 0 in
  if decide (i mod 4 = 1) then Ok None else Ok (Some (of_code <$> take len d)).

(** ** Byte order: properties *)

Lemma byte_of_spec value k : (0 ≤ k)%Z → code (byte_of value k) = (value / 2 ^ k mod 256)%Z.
Proof.
  intros Hk. unfold byte_of. change 255%Z with (Z.ones 8).
  rewrite Z.land_ones, Z.shiftr_div_pow2 by lia. change (2 ^ 8)%Z with 256%Z.
  rewrite code_of_code; [done|]. apply Z.mod_pos_bound. lia.
Qed.

Lemma be32_sum a b c d :
  be32 a b c d = (code a * 2 ^ 24 + (code b * 2 ^ 16 + (code c * 2 ^ 8 + code d)))%Z.
Proof.
  unfold be32. rewrite !Z.shiftl_mul_pow2 by lia.
  pose proof (code_range a). pose proof (code_range b).
  pose proof (code_range c). pose proof (code_range d).
  rewrite wrap_u_small by (unfold in_u; lia). rewrite <- !Z.lor_assoc.
  by rewrite (lor_shifted (code c)), (lor_shifted (code b)), (lor_shifted (code a)) by lia.
Qed.

Lemma htonu32_small v : (0 ≤ v < 2 ^ 24)%Z → ∃ l, libssh2_htonu32 v = NUL :: l.
Proof.
  intros Hv. eexists. unfold libssh2_htonu32. f_equal. apply code_inj.
  rewrite byte_of_spec, Z.div_small by lia. reflexivity.
Qed.

Lemma ntohu32_at before value after_ :
  in_u 32 value →
  libssh2_ntohu32 (before ++ libssh2_htonu32 value ++ after_) (length before) = Ok value.
Proof.
  intros Hv. unfold libssh2_ntohu32, bytes_at.
  rewrite decide_True by (rewrite !length_app; simpl; lia).
  cbn [rbind]. rewrite drop_app_length. cbn [libssh2_htonu32 app take].
  rewrite be32_sum, !byte_of_spec by lia. f_equal. unfold in_u in Hv.
  change (2 ^ 24)%Z with 16777216%Z. change (2 ^ 16)%Z with 65536%Z.
  change (2 ^ 8)%Z with 256%Z. change (2 ^ 0)%Z with 1%Z. change (2 ^ 32)%Z with 4294967296%Z in Hv.
  Z.div_mod_to_equations. lia.
Qed.

(** A 32-bit value written in network order reads back as itself, whatever
    comes before and after it. *)
Lemma ntohu32_htonu32 before value after_ :
  in_u 32 value →
  libssh2_ntohu32 (before ++ libssh2_htonu32 value ++ after_) (length before) = Ok value.
Proof. apply ntohu32_at. Qed.

Lemma ntohu32_htonu32_witness :
  libssh2_ntohu32 (&"ab" ++ libssh2_htonu32 3735928559 ++ &"c") 2 = Ok 3735928559%Z.
Proof. apply (ntohu32_htonu32 &"ab" 3735928559 &"c"). vm_compute. split; congruence. Defined.

(** ** Base64: properties *)

(** The values of the characters that belong to the alphabet. *)
Definition base64_values (src : str) : list Z :=
  omap (λ c, if (reverse_of c <? 0)%Z then None else Some (reverse_of c)) src.

(** Reference: every four values make three bytes, and two or three left over
    make one or two. *)
Fixpoint base64_bytes (vs : list Z) : list Z :=
  match vs with
  | v0 :: v1 :: v2 :: v3 :: vs =>
      u8 (Z.lor (u8 (Z.shiftl v0 2)) (Z.shiftr v1 4)) ::
      u8 (Z.lor (u8 (Z.shiftl v1 4)) (Z.shiftr v2 2)) ::
      u8 (Z.lor (u8 (Z.shiftl v2 6)) v3) :: base64_bytes vs
  | [v0; v1; v2] =>
      [u8 (Z.lor (u8 (Z.shiftl v0 2)) (Z.shiftr v1 4));
       u8 (Z.lor (u8 (Z.shiftl v1 4)) (Z.shiftr v2 2))]
  | [v0; v1] => [u8 (Z.lor (u8 (Z.shiftl v0 2)) (Z.shiftr v1 4))]
  | _ => []
  end.

(** The loop on the values alone. *)
Fixpoint values_loop (vs : list Z) (i : nat) (d : list Z) (len : nat) : res (nat * list Z * nat) :=
  match vs with
  | [] => Ok (i, d, len)
  | v :: vs => let! (d, len) := base64_step i v d len in values_loop vs (S i) d len
  end.

Lemma base64_loop_values src i d len :
  base64_loop src i d len = values_loop (base64_values src) i d len.
Proof.
  revert i d len; induction src as [|c src IH]; intros i d len; [done|].
  cbn [base64_loop base64_values omap list_omap]. fold (base64_values src).
  destruct (reverse_of c <? 0)%Z; [apply IH|]. cbn [values_loop].
  destruct (base64_step _ _ _ _) as [[d' len']|e|]; [apply IH|done|done].
Qed.

Lemma base64_values_length src : length (base64_values src) ≤ length src.
Proof.
  induction src as [|c src IH]; [done|]. cbn [base64_values omap list_omap].
  fold (base64_values src). destruct (reverse_of c <? 0)%Z; simpl; lia.
Qed.

Lemma poke_app l1 x l2 v : poke (l1 ++ x :: l2) (length l1) v = Ok (l1 ++ u8 v :: l2).
Proof.
  unfold poke. rewrite decide_True by (rewrite length_app; simpl; lia).
  by rewrite insert_app_r_alt, Nat.sub_diag by lia.
Qed.

Lemma poke_or_app l1 x l2 v :
  poke_or (l1 ++ x :: l2) (length l1) v = Ok (l1 ++ u8 (Z.lor x v) :: l2).
Proof.
  unfold poke_or. rewrite list_lookup_middle by done.
  by rewrite insert_app_r_alt, Nat.sub_diag by lia.
Qed.

Lemma poke_app_S l1 x y l2 v : poke (l1 ++ x :: y :: l2) (S (length l1)) v = Ok (l1 ++ x :: u8 v :: l2).
Proof.
  change (x :: y :: l2) with ([x] ++ y :: l2). rewrite app_assoc.
  replace (S (length l1)) with (length (l1 ++ [x])) by (rewrite length_app; simpl; lia).
  rewrite poke_app. by rewrite <- app_assoc.
Qed.

Lemma step_0 q v done_ x rest :
  base64_step (4 * q) v (done_ ++ x :: rest) (length done_) =
  Ok (done_ ++ u8 (Z.shiftl v 2) :: rest, length done_).
Proof.
  unfold base64_step. replace (4 * q mod 4) with 0 by (rewrite Nat.mul_comm; symmetry; apply Nat.Div0.mod_mul).
  by rewrite poke_app.
Qed.

Lemma step_mod q r : r < 4 → (4 * q + r) mod 4 = r.
Proof. intros H. rewrite Nat.add_comm, Nat.mul_comm, Nat.Div0.mod_add. by apply Nat.mod_small. Qed.

Lemma step_1 q v done_ x y rest :
  base64_step (4 * q + 1) v (done_ ++ x :: y :: rest) (length done_) =
  Ok ((done_ ++ [u8 (Z.lor x (Z.shiftr v 4))]) ++ u8 (Z.shiftl v 4) :: rest, S (length done_)).
Proof.
  unfold base64_step. rewrite step_mod by lia.
  by rewrite poke_or_app; cbn [rbind]; rewrite poke_app_S; cbn [rbind]; rewrite <- app_assoc.
Qed.

Lemma step_2 q v done_ x y rest :
  base64_step (4 * q + 2) v (done_ ++ x :: y :: rest) (length done_) =
  Ok ((done_ ++ [u8 (Z.lor x (Z.shiftr v 2))]) ++ u8 (Z.shiftl v 6) :: rest, S (length done_)).
Proof.
  unfold base64_step. rewrite step_mod by lia.
  by rewrite poke_or_app; cbn [rbind]; rewrite poke_app_S; cbn [rbind]; rewrite <- app_assoc.
Qed.

Lemma step_3 q v done_ x rest :
  base64_step (4 * q + 3) v (done_ ++ x :: rest) (length done_) =
  Ok ((done_ ++ [u8 (Z.lor x v)]) ++ rest, S (length done_)).
Proof.
  unfold base64_step. rewrite step_mod by lia.
  by rewrite poke_or_app; cbn [rbind]; rewrite <- app_assoc.
Qed.

Lemma group_step q v0 v1 v2 v3 done_ x y z rest vs :
  values_loop (v0 :: v1 :: v2 :: v3 :: vs) (4 * q) (done_ ++ x :: y :: z :: rest) (length done_) =
  let b := [u8 (Z.lor (u8 (Z.shiftl v0 2)) (Z.shiftr v1 4));
            u8 (Z.lor (u8 (Z.shiftl v1 4)) (Z.shiftr v2 2));
            u8 (Z.lor (u8 (Z.shiftl v2 6)) v3)] in
  values_loop vs (4 * S q) ((done_ ++ b) ++ rest) (length (done_ ++ b)).
Proof.
  cbn [values_loop]. rewrite step_0. cbn [rbind].
  replace (S (4 * q)) with (4 * q + 1) by lia. rewrite step_1. cbn [rbind].
  set (b1 := u8 _). replace (S (length done_)) with (length (done_ ++ [b1])) by (rewrite length_app; simpl; lia).
  replace (S (4 * q + 1)) with (4 * q + 2) by lia. rewrite step_2. cbn [rbind].
  set (b2 := u8 (Z.lor _ (Z.shiftr v2 2))).
  replace (S (length (done_ ++ [b1]))) with (length ((done_ ++ [b1]) ++ [b2]))
    by (rewrite !length_app; simpl; lia).
  replace (S (4 * q + 2)) with (4 * q + 3) by lia. rewrite step_3. cbn [rbind].
  set (b3 := u8 (Z.lor _ v3)).
  replace (S (4 * q + 3)) with (4 * S q) by lia. f_equal.
  - by rewrite <- !app_assoc.
  - rewrite !length_app. simpl. lia.
Qed.

Lemma values_loop_spec n vs q done_ rest :
  length vs < n → (vs = [] ∨ 3 * length vs < 4 * length rest) →
  ∃ d len, values_loop vs (4 * q) (done_ ++ rest) (length done_) = Ok (4 * q + length vs, d, len) ∧
    take len d = done_ ++ base64_bytes vs.
Proof.
  revert vs q done_ rest; induction n as [|n IH]; intros vs q done_ rest Hn Hcap; [lia|].
  destruct vs as [|v0 vs].
  { exists (done_ ++ rest), (length done_). cbn [values_loop length base64_bytes].
    by rewrite Nat.add_0_r, app_nil_r, take_app_length. }
  destruct Hcap as [?|Hcap]; [done|].
  destruct vs as [|v1 [|v2 [|v3 vs]]]; cbn [length] in *.
  - destruct rest as [|x rest]; [simpl in Hcap; lia|]. cbn [values_loop]. rewrite step_0. cbn [rbind].
    exists (done_ ++ u8 (Z.shiftl v0 2) :: rest), (length done_).
    rewrite take_app_length. cbn [base64_bytes]. rewrite app_nil_r. split; [do 3 f_equal; lia|done].
  - destruct rest as [|x [|y rest]]; simpl in Hcap; [lia..|].
    cbn [values_loop]. rewrite step_0. cbn [rbind].
    replace (S (4 * q)) with (4 * q + 1) by lia. rewrite step_1. cbn [rbind].
    eexists _, _. split; [do 3 f_equal; lia|].
    rewrite take_app_le, take_ge by (rewrite length_app; simpl; lia). done.
  - destruct rest as [|x [|y [|z rest]]]; simpl in Hcap; [lia..|].
    cbn [values_loop]. rewrite step_0. cbn [rbind].
    replace (S (4 * q)) with (4 * q + 1) by lia. rewrite step_1. cbn [rbind].
    set (b1 := u8 _).
    replace (S (length done_)) with (length (done_ ++ [b1])) by (rewrite length_app; simpl; lia).
    replace (S (4 * q + 1)) with (4 * q + 2) by lia. rewrite step_2. cbn [rbind].
    eexists _, _. split; [do 3 f_equal; lia|].
    rewrite take_app_le, take_ge by (rewrite !length_app; simpl; lia).
    by rewrite <- app_assoc.
  - destruct rest as [|x [|y [|z rest]]]; simpl in Hcap; [lia..|].
    rewrite group_step. cbv zeta. set (b := [_; _; _]).
    destruct (IH vs (S q) (done_ ++ b) rest) as (d & len & -> & E); [lia|right; lia|].
    exists d, len. split; [do 3 f_equal; lia|]. rewrite E. cbn [base64_bytes].
    by rewrite <- app_assoc.
Qed.



Lemma htonu32_u32 v : libssh2_htonu32 v = libssh2_htonu32 (u32 v).
Proof.
  assert (E : ∀ k, (0 ≤ k ≤ 24)%Z → byte_of v k = byte_of (u32 v) k).
  { intros k Hk. apply code_inj. rewrite !byte_of_spec by lia. change 256%Z with (2 ^ 8)%Z.
    unfold wrap_u. by rewrite mod_pow2_div by lia. }
  unfold libssh2_htonu32. by rewrite !E by lia.
Qed.

Lemma ntohu64_at before value after_ :
  in_u 64 value → libssh2_ntohu64 (before ++ libssh2_htonu64 value ++ after_) (length before) = Ok (u32 value).
Proof.
  intros Hv. unfold libssh2_ntohu64, libssh2_htonu64.
  set (msl := u32 (value / 65536 / 65536)). rewrite (htonu32_u32 value), <- app_assoc.
  rewrite ntohu32_at by (by apply wrap_u_range). cbn [rbind]. rewrite app_assoc.
  replace (length before + 4) with (length (before ++ libssh2_htonu32 msl)) by (by rewrite length_app).
  rewrite ntohu32_at by (by apply wrap_u_range).
  cbn [rbind]. f_equal. unfold wrap_u. change (2 ^ 32)%Z with 4294967296%Z.
  Z.div_mod_to_equations. lia.
Qed.

(** [libssh2_ntohu64] loses the upper half of the value: the shift by twice 16
    bits is computed in 32. *)
Lemma ntohu64_truncates value :
  in_u 64 value → libssh2_ntohu64 (libssh2_htonu64 value) 0 = Ok (u32 value).
Proof. intros Hv. rewrite <- (app_nil_r (libssh2_htonu64 value)). by apply (ntohu64_at []). Qed.
