(* ===== verification/Ssh2Session.v ===== *)
(** * libssh2: the session ([ssh/libssh2/libssh2_priv.h], [libssh2.h])

    The constants and structures of the library, and the monad its functions are
    written in. A channel pointer is the local identifier of a channel of the
    session; the brigades and queues are lists. [memcpy] between overlapping parts of
    a buffer, which C leaves open, moves the bytes as the run-time library of the
    target does; its [_snprintf] writes no terminator when the text fills the buffer. *)
From S2P Require Import Prelude Ssh2Misc.
From stdpp Require Import base.

(** ** Constants *)

#[local] Open Scope Z_scope.
Definition SSH_MSG_DISCONNECT : Z := 1.
Definition SSH_MSG_IGNORE : Z := 2.
Definition SSH_MSG_UNIMPLEMENTED : Z := 3.
Definition SSH_MSG_DEBUG : Z := 4.
Definition SSH_MSG_SERVICE_REQUEST : Z := 5.
Definition SSH_MSG_SERVICE_ACCEPT : Z := 6.
Definition SSH_MSG_KEXINIT : Z := 20.
Definition SSH_MSG_NEWKEYS : Z := 21.
Definition SSH_MSG_KEXDH_INIT : Z := 30.
Definition SSH_MSG_KEXDH_REPLY : Z := 31.
Definition SSH_MSG_KEX_DH_GEX_REQUEST_OLD : Z := 30.
Definition SSH_MSG_KEX_DH_GEX_REQUEST : Z := 34.
Definition SSH_MSG_KEX_DH_GEX_GROUP : Z := 31.
Definition SSH_MSG_KEX_DH_GEX_INIT : Z := 32.
Definition SSH_MSG_KEX_DH_GEX_REPLY : Z := 33.
Definition SSH_MSG_USERAUTH_REQUEST : Z := 50.
Definition SSH_MSG_USERAUTH_FAILURE : Z := 51.
Definition SSH_MSG_USERAUTH_SUCCESS : Z := 52.
Definition SSH_MSG_USERAUTH_BANNER : Z := 53.
Definition SSH_MSG_USERAUTH_PK_OK : Z := 60.
Definition SSH_MSG_USERAUTH_PASSWD_CHANGEREQ : Z := 60.
Definition SSH_MSG_USERAUTH_INFO_REQUEST : Z := 60.
Definition SSH_MSG_USERAUTH_INFO_RESPONSE : Z := 61.
Definition SSH_MSG_GLOBAL_REQUEST : Z := 80.
Definition SSH_MSG_REQUEST_SUCCESS : Z := 81.
Definition SSH_MSG_REQUEST_FAILURE : Z := 82.
Definition SSH_MSG_CHANNEL_OPEN : Z := 90.
Definition SSH_MSG_CHANNEL_OPEN_CONFIRMATION : Z := 91.
Definition SSH_MSG_CHANNEL_OPEN_FAILURE : Z := 92.
Definition SSH_MSG_CHANNEL_WINDOW_ADJUST : Z := 93.
Definition SSH_MSG_CHANNEL_DATA : Z := 94.
Definition SSH_MSG_CHANNEL_EXTENDED_DATA : Z := 95.
Definition SSH_MSG_CHANNEL_EOF : Z := 96.
Definition SSH_MSG_CHANNEL_CLOSE : Z := 97.
Definition SSH_MSG_CHANNEL_REQUEST : Z := 98.
Definition SSH_MSG_CHANNEL_SUCCESS : Z := 99.
Definition SSH_MSG_CHANNEL_FAILURE : Z := 100.

Definition LIBSSH2_SOCKET_UNKNOWN : Z := 1.
Definition LIBSSH2_SOCKET_CONNECTED : Z := 0.
Definition LIBSSH2_SOCKET_DISCONNECTED : Z := -1.

Definition LIBSSH2_MAC_UNCONFIRMED : Z := 1.
Definition LIBSSH2_MAC_CONFIRMED : Z := 0.
Definition LIBSSH2_MAC_INVALID : Z := -1.

Definition LIBSSH2_STATE_EXCHANGING_KEYS : Z := 1.
Definition LIBSSH2_STATE_NEWKEYS : Z := 2.
Definition LIBSSH2_STATE_AUTHENTICATED : Z := 4.

Definition SSH_DISCONNECT_HOST_NOT_ALLOWED_TO_CONNECT : Z := 1.
Definition SSH_DISCONNECT_PROTOCOL_ERROR : Z := 2.
Definition SSH_DISCONNECT_KEY_EXCHANGE_FAILED : Z := 3.
Definition SSH_DISCONNECT_RESERVED : Z := 4.
Definition SSH_DISCONNECT_MAC_ERROR : Z := 5.
Definition SSH_DISCONNECT_COMPRESSION_ERROR : Z := 6.
Definition SSH_DISCONNECT_SERVICE_NOT_AVAILABLE : Z := 7.
Definition SSH_DISCONNECT_PROTOCOL_VERSION_NOT_SUPPORTED : Z := 8.
Definition SSH_DISCONNECT_HOST_KEY_NOT_VERIFIABLE : Z := 9.
Definition SSH_DISCONNECT_CONNECTION_LOST : Z := 10.
Definition SSH_DISCONNECT_BY_APPLICATION : Z := 11.
Definition SSH_DISCONNECT_TOO_MANY_CONNECTIONS : Z := 12.
Definition SSH_DISCONNECT_AUTH_CANCELLED_BY_USER : Z := 13.
Definition SSH_DISCONNECT_NO_MORE_AUTH_METHODS_AVAILABLE : Z := 14.
Definition SSH_DISCONNECT_ILLEGAL_USER_NAME : Z := 15.

Definition LIBSSH2_ERROR_SOCKET_NONE : Z := -1.
Definition LIBSSH2_ERROR_BANNER_NONE : Z := -2.
Definition LIBSSH2_ERROR_BANNER_SEND : Z := -3.
Definition LIBSSH2_ERROR_INVALID_MAC : Z := -4.
Definition LIBSSH2_ERROR_KEX_FAILURE : Z := -5.
Definition LIBSSH2_ERROR_ALLOC : Z := -6.
Definition LIBSSH2_ERROR_SOCKET_SEND : Z := -7.
Definition LIBSSH2_ERROR_KEY_EXCHANGE_FAILURE : Z := -8.
Definition LIBSSH2_ERROR_TIMEOUT : Z := -9.
Definition LIBSSH2_ERROR_HOSTKEY_INIT : Z := -10.
Definition LIBSSH2_ERROR_HOSTKEY_SIGN : Z := -11.
Definition LIBSSH2_ERROR_DECRYPT : Z := -12.
Definition LIBSSH2_ERROR_SOCKET_DISCONNECT : Z := -13.
Definition LIBSSH2_ERROR_PROTO : Z := -14.
Definition LIBSSH2_ERROR_PASSWORD_EXPIRED : Z := -15.
Definition LIBSSH2_ERROR_FILE : Z := -16.
Definition LIBSSH2_ERROR_METHOD_NONE : Z := -17.
Definition LIBSSH2_ERROR_PUBLICKEY_UNRECOGNIZED : Z := -18.
Definition LIBSSH2_ERROR_PUBLICKEY_UNVERIFIED : Z := -19.
Definition LIBSSH2_ERROR_CHANNEL_OUTOFORDER : Z := -20.
Definition LIBSSH2_ERROR_CHANNEL_FAILURE : Z := -21.
Definition LIBSSH2_ERROR_CHANNEL_REQUEST_DENIED : Z := -22.
Definition LIBSSH2_ERROR_CHANNEL_UNKNOWN : Z := -23.
Definition LIBSSH2_ERROR_CHANNEL_WINDOW_EXCEEDED : Z := -24.
Definition LIBSSH2_ERROR_CHANNEL_PACKET_EXCEEDED : Z := -25.
Definition LIBSSH2_ERROR_CHANNEL_CLOSED : Z := -26.
Definition LIBSSH2_ERROR_CHANNEL_EOF_SENT : Z := -27.
Definition LIBSSH2_ERROR_SCP_PROTOCOL : Z := -28.
Definition LIBSSH2_ERROR_ZLIB : Z := -29.
Definition LIBSSH2_ERROR_SOCKET_TIMEOUT : Z := -30.
Definition LIBSSH2_ERROR_SFTP_PROTOCOL : Z := -31.
Definition LIBSSH2_ERROR_REQUEST_DENIED : Z := -32.
Definition LIBSSH2_ERROR_METHOD_NOT_SUPPORTED : Z := -33.
Definition LIBSSH2_ERROR_INVAL : Z := -34.
Definition LIBSSH2_ERROR_INVALID_POLL_TYPE : Z := -35.
Definition LIBSSH2_ERROR_PUBLICKEY_PROTOCOL : Z := -36.

Definition LIBSSH2_CHANNEL_WINDOW_DEFAULT : Z := 65536.
Definition LIBSSH2_CHANNEL_PACKET_DEFAULT : Z := 16384.
Definition LIBSSH2_CHANNEL_MINADJUST : Z := 1024.
Definition LIBSSH2_CHANNEL_EXTENDED_DATA_NORMAL : Z := 0.
Definition LIBSSH2_CHANNEL_EXTENDED_DATA_IGNORE : Z := 1.
Definition LIBSSH2_CHANNEL_EXTENDED_DATA_MERGE : Z := 2.
Definition LIBSSH2_CHANNEL_FLUSH_EXTENDED_DATA : Z := -1.
Definition LIBSSH2_CHANNEL_FLUSH_ALL : Z := -2.

Definition LIBSSH2_PACKET_MAXCOMP : Z := 32000.
Definition LIBSSH2_PACKET_MAXDECOMP : Z := 40000.
Definition LIBSSH2_PACKET_MAXPAYLOAD : Z := 40000.

Definition LIBSSH2_SOCKET_POLL_UDELAY : Z := 250000.
Definition LIBSSH2_SOCKET_POLL_MAXLOOPS : Z := 120.

Definition LIBSSH2_METHOD_KEX : Z := 0.
Definition LIBSSH2_METHOD_HOSTKEY : Z := 1.
Definition LIBSSH2_METHOD_CRYPT_CS : Z := 2.
Definition LIBSSH2_METHOD_CRYPT_SC : Z := 3.
Definition LIBSSH2_METHOD_MAC_CS : Z := 4.
Definition LIBSSH2_METHOD_MAC_SC : Z := 5.
Definition LIBSSH2_METHOD_COMP_CS : Z := 6.
Definition LIBSSH2_METHOD_COMP_SC : Z := 7.
Definition LIBSSH2_METHOD_LANG_CS : Z := 8.
Definition LIBSSH2_METHOD_LANG_SC : Z := 9.

Definition LIBSSH2_CALLBACK_IGNORE : Z := 0.
Definition LIBSSH2_CALLBACK_DEBUG : Z := 1.
Definition LIBSSH2_CALLBACK_DISCONNECT : Z := 2.
Definition LIBSSH2_CALLBACK_MACERROR : Z := 3.
Definition LIBSSH2_CALLBACK_X11 : Z := 4.

Definition LIBSSH2_KEX_METHOD_FLAG_REQ_ENC_HOSTKEY : Z := 1.
Definition LIBSSH2_KEX_METHOD_FLAG_REQ_SIGN_HOSTKEY : Z := 2.
#[local] Close Scope Z_scope.

(** ** Methods *)

(** [struct _LIBSSH2_KEX_METHOD] *)
Record kex_method := { kex_name : str; kex_flags : Z }.

(** [struct _LIBSSH2_HOSTKEY_METHOD]: which of its functions are there. *)
Record hostkey_method := { hostkey_name : str; encrypt : bool; sig_verify : bool; initPEM : bool }.

(** [struct _LIBSSH2_CRYPT_METHOD]: [crypt_block] maps the cipher state and a
    block to the next state and block, or fails; [crypt_evp] is the flag for OpenSSL's
    ciphers. *)
Record crypt_method := {
  crypt_name : str;
  blocksize : nat;
  iv_len : Z;
  secret_len : Z;
  crypt_evp : bool;
  crypt_block : str → str → option (str * str) }.

(** [struct _LIBSSH2_MAC_METHOD]: [mac_hash abstract seqno bytes] is the digest of
    [mac_len] bytes; [mac_init] is whether the method takes a key. *)
Record mac_method := {
  mac_name : str;
  mac_len : nat;
  key_len : Z;
  mac_init : bool;
  mac_hash : str → Z → str → str }.

(** [struct _LIBSSH2_COMP_METHOD]. Its functions are told which of their allocations
    succeed and say how many they made. [comp_init allocates compress] is the first
    state, when the method has one, or the error that was reported, if any was;
    [comp_run allocates abstract compress limit src] is the state afterwards, with an
    error or with the data. *)
Record comp_method := {
  comp_name : str;
  comp_init : option ((nat → bool) → bool → nat * (option Z + str));
  comp_run : (nat → bool) → str → bool → Z → str → res (nat * str * (Z + str)) }.

(** ** Packets, channels, listeners *)

(** [struct _LIBSSH2_PACKET]: the buffer may hold more than [data_len] bytes. *)
Record packet := mk_packet {
  data : str;
  data_len : Z;
  data_head : Z;
  mac : Z }.
Definition set_data (v : str) (r : packet) : packet :=
  mk_packet v (data_len r) (data_head r) (mac r).
Definition set_data_len (v : Z) (r : packet) : packet :=
  mk_packet (data r) v (data_head r) (mac r).
Definition set_data_head (v : Z) (r : packet) : packet :=
  mk_packet (data r) (data_len r) v (mac r).
Definition set_mac (v : Z) (r : packet) : packet :=
  mk_packet (data r) (data_len r) (data_head r) v.

(** [libssh2_channel_data]. *)
Record channel_data := mk_channel_data {
  id : Z;
  window_size_initial : Z;
  window_size : Z;
  packet_size : Z;
  close : bool;
  eof : bool;
  extended_data_ignore_mode : Z }.
Definition set_id (v : Z) (r : channel_data) : channel_data :=
  mk_channel_data v (window_size_initial r) (window_size r) (packet_size r) (close r) (eof
    r) (extended_data_ignore_mode r).
Definition set_window_size_initial (v : Z) (r : channel_data) : channel_data :=
  mk_channel_data (id r) v (window_size r) (packet_size r) (close r) (eof r)
    (extended_data_ignore_mode r).
Definition set_window_size (v : Z) (r : channel_data) : channel_data :=
  mk_channel_data (id r) (window_size_initial r) v (packet_size r) (close r) (eof r)
    (extended_data_ignore_mode r).
Definition set_packet_size (v : Z) (r : channel_data) : channel_data :=
  mk_channel_data (id r) (window_size_initial r) (window_size r) v (close r) (eof r)
    (extended_data_ignore_mode r).
Definition set_close (v : bool) (r : channel_data) : channel_data :=
  mk_channel_data (id r) (window_size_initial r) (window_size r) (packet_size r) v (eof r)
    (extended_data_ignore_mode r).
Definition set_eof (v : bool) (r : channel_data) : channel_data :=
  mk_channel_data (id r) (window_size_initial r) (window_size r) (packet_size r) (close r) v
    (extended_data_ignore_mode r).
Definition set_extended_data_ignore_mode (v : Z) (r : channel_data) : channel_data :=
  mk_channel_data (id r) (window_size_initial r) (window_size r) (packet_size r) (close r)
    (eof r) v.

(** [struct _LIBSSH2_CHANNEL]. *)
Record channel := mk_channel {
  channel_type : str;
  blocking : bool;
  exit_status : Z;
  ch_local : channel_data;
  ch_remote : channel_data;
  adjust_queue : Z;
  close_cb : bool }.
Definition set_channel_type (v : str) (r : channel) : channel :=
  mk_channel v (blocking r) (exit_status r) (ch_local r) (ch_remote r) (adjust_queue r)
    (close_cb r).
Definition set_blocking (v : bool) (r : channel) : channel :=
  mk_channel (channel_type r) v (exit_status r) (ch_local r) (ch_remote r) (adjust_queue r)
    (close_cb r).
Definition set_exit_status (v : Z) (r : channel) : channel :=
  mk_channel (channel_type r) (blocking r) v (ch_local r) (ch_remote r) (adjust_queue r)
    (close_cb r).
Definition set_ch_local (v : channel_data) (r : channel) : channel :=
  mk_channel (channel_type r) (blocking r) (exit_status r) v (ch_remote r) (adjust_queue r)
    (close_cb r).
Definition set_ch_remote (v : channel_data) (r : channel) : channel :=
  mk_channel (channel_type r) (blocking r) (exit_status r) (ch_local r) v (adjust_queue r)
    (close_cb r).
Definition set_adjust_queue (v : Z) (r : channel) : channel :=
  mk_channel (channel_type r) (blocking r) (exit_status r) (ch_local r) (ch_remote r) v
    (close_cb r).
Definition set_close_cb (v : bool) (r : channel) : channel :=
  mk_channel (channel_type r) (blocking r) (exit_status r) (ch_local r) (ch_remote r)
    (adjust_queue r) v.

(** [struct _LIBSSH2_LISTENER]. *)
Record listener := mk_listener {
  li_host : str;
  li_port : Z;
  queue : list channel;
  queue_size : Z;
  queue_maxsize : Z }.
Definition set_li_host (v : str) (r : listener) : listener :=
  mk_listener v (li_port r) (queue r) (queue_size r) (queue_maxsize r).
Definition set_li_port (v : Z) (r : listener) : listener :=
  mk_listener (li_host r) v (queue r) (queue_size r) (queue_maxsize r).
Definition set_queue (v : list channel) (r : listener) : listener :=
  mk_listener (li_host r) (li_port r) v (queue_size r) (queue_maxsize r).
Definition set_queue_size (v : Z) (r : listener) : listener :=
  mk_listener (li_host r) (li_port r) (queue r) v (queue_maxsize r).
Definition set_queue_maxsize (v : Z) (r : listener) : listener :=
  mk_listener (li_host r) (li_port r) (queue r) (queue_size r) v.

(** [libssh2_endpoint_data]. *)
Record endpoint := mk_endpoint {
  banner : option str;
  kexinit : option str;
  crypt : crypt_method;
  crypt_abstract : str;
  mac_m : mac_method;
  mac_abstract : str;
  seqno : Z;
  comp : comp_method;
  comp_abstract : str;
  crypt_prefs : option str;
  mac_prefs : option str;
  comp_prefs : option str;
  lang_prefs : option str }.
Definition set_banner (v : option str) (r : endpoint) : endpoint :=
  mk_endpoint v (kexinit r) (crypt r) (crypt_abstract r) (mac_m r) (mac_abstract r) (seqno
    r) (comp r) (comp_abstract r) (crypt_prefs r) (mac_prefs r) (comp_prefs r) (lang_prefs
    r).
Definition set_kexinit (v : option str) (r : endpoint) : endpoint :=
  mk_endpoint (banner r) v (crypt r) (crypt_abstract r) (mac_m r) (mac_abstract r) (seqno r)
    (comp r) (comp_abstract r) (crypt_prefs r) (mac_prefs r) (comp_prefs r) (lang_prefs r).
Definition set_crypt (v : crypt_method) (r : endpoint) : endpoint :=
  mk_endpoint (banner r) (kexinit r) v (crypt_abstract r) (mac_m r) (mac_abstract r) (seqno
    r) (comp r) (comp_abstract r) (crypt_prefs r) (mac_prefs r) (comp_prefs r) (lang_prefs
    r).
Definition set_crypt_abstract (v : str) (r : endpoint) : endpoint :=
  mk_endpoint (banner r) (kexinit r) (crypt r) v (mac_m r) (mac_abstract r) (seqno r) (comp
    r) (comp_abstract r) (crypt_prefs r) (mac_prefs r) (comp_prefs r) (lang_prefs r).
Definition set_mac_m (v : mac_method) (r : endpoint) : endpoint :=
  mk_endpoint (banner r) (kexinit r) (crypt r) (crypt_abstract r) v (mac_abstract r) (seqno
    r) (comp r) (comp_abstract r) (crypt_prefs r) (mac_prefs r) (comp_prefs r) (lang_prefs
    r).
Definition set_mac_abstract (v : str) (r : endpoint) : endpoint :=
  mk_endpoint (banner r) (kexinit r) (crypt r) (crypt_abstract r) (mac_m r) v (seqno r)
    (comp r) (comp_abstract r) (crypt_prefs r) (mac_prefs r) (comp_prefs r) (lang_prefs r).
Definition set_seqno (v : Z) (r : endpoint) : endpoint :=
  mk_endpoint (banner r) (kexinit r) (crypt r) (crypt_abstract r) (mac_m r) (mac_abstract r)
    v (comp r) (comp_abstract r) (crypt_prefs r) (mac_prefs r) (comp_prefs r) (lang_prefs
    r).
Definition set_comp (v : comp_method) (r : endpoint) : endpoint :=
  mk_endpoint (banner r) (kexinit r) (crypt r) (crypt_abstract r) (mac_m r) (mac_abstract r)
    (seqno r) v (comp_abstract r) (crypt_prefs r) (mac_prefs r) (comp_prefs r) (lang_prefs
    r).
Definition set_comp_abstract (v : str) (r : endpoint) : endpoint :=
  mk_endpoint (banner r) (kexinit r) (crypt r) (crypt_abstract r) (mac_m r) (mac_abstract r)
    (seqno r) (comp r) v (crypt_prefs r) (mac_prefs r) (comp_prefs r) (lang_prefs r).
Definition set_crypt_prefs (v : option str) (r : endpoint) : endpoint :=
  mk_endpoint (banner r) (kexinit r) (crypt r) (crypt_abstract r) (mac_m r) (mac_abstract r)
    (seqno r) (comp r) (comp_abstract r) v (mac_prefs r) (comp_prefs r) (lang_prefs r).
Definition set_mac_prefs (v : option str) (r : endpoint) : endpoint :=
  mk_endpoint (banner r) (kexinit r) (crypt r) (crypt_abstract r) (mac_m r) (mac_abstract r)
    (seqno r) (comp r) (comp_abstract r) (crypt_prefs r) v (comp_prefs r) (lang_prefs r).
Definition set_comp_prefs (v : option str) (r : endpoint) : endpoint :=
  mk_endpoint (banner r) (kexinit r) (crypt r) (crypt_abstract r) (mac_m r) (mac_abstract r)
    (seqno r) (comp r) (comp_abstract r) (crypt_prefs r) (mac_prefs r) v (lang_prefs r).
Definition set_lang_prefs (v : option str) (r : endpoint) : endpoint :=
  mk_endpoint (banner r) (kexinit r) (crypt r) (crypt_abstract r) (mac_m r) (mac_abstract r)
    (seqno r) (comp r) (comp_abstract r) (crypt_prefs r) (mac_prefs r) (comp_prefs r) v.

(** ** The session *)

(** One answer of [recv]: bytes that are available (none when the peer has closed
    its side), nothing yet ([EAGAIN]; whether a following [select] finds the socket
    ready in time), or another error number. *)
Inductive recv_event :=
  | Recv_bytes (s : str)
  | Recv_again (ready : bool)
  | Recv_error (errno : Z).

Definition EINTR : Z := 4.
Definition EBADF : Z := 9.
Definition EIO : Z := 5.
Definition ENOTCONN : Z := 107.

(** What the callbacks of the application are told. *)
Inductive callback :=
  | CB_ignore (s : str)
  | CB_disconnect (reason : Z) (message language : str)
  | CB_macerror (s : str)
  | CB_x11_open (channel : Z) (shost : str) (sport : Z)
  | CB_channel_close (channel : Z).

(** [struct _LIBSSH2_SESSION], and the socket: the bytes sent, the answers [recv]
    is going to give, and how often memory was asked for and data sent. *)
Record session := mk_session {
  cb_ignore : bool;
  cb_debug : bool;
  cb_disconnect : bool;
  cb_macerror : bool;
  cb_x11 : bool;
  kex_prefs : option str;
  hostkey_prefs : option str;
  state : Z;
  flags : Z;
  kex : option kex_method;
  burn_optimistic_kexinit : bool;
  session_id : option str;
  hostkey : option hostkey_method;
  server_hostkey : option str;
  server_hostkey_md5 : str;
  server_hostkey_sha1 : str;
  s_remote : endpoint;
  s_local : endpoint;
  packets : list packet;
  channels : list channel;
  next_channel : Z;
  listeners : list listener;
  socket_state : Z;
  err_code : option Z;
  allocs : nat;
  sends : nat;
  sent : list str;
  incoming : list recv_event;
  trace : list callback }.
Definition set_cb_ignore (v : bool) (r : session) : session :=
  mk_session v (cb_debug r) (cb_disconnect r) (cb_macerror r) (cb_x11 r) (kex_prefs r)
    (hostkey_prefs r) (state r) (flags r) (kex r) (burn_optimistic_kexinit r)
    (session_id r) (hostkey r) (server_hostkey r) (server_hostkey_md5 r)
    (server_hostkey_sha1 r) (s_remote r) (s_local r) (packets r) (channels r)
    (next_channel r) (listeners r) (socket_state r) (err_code r) (allocs r) (sends r)
    (sent r) (incoming r) (trace r).
Definition set_cb_debug (v : bool) (r : session) : session :=
  mk_session (cb_ignore r) v (cb_disconnect r) (cb_macerror r) (cb_x11 r) (kex_prefs r)
    (hostkey_prefs r) (state r) (flags r) (kex r) (burn_optimistic_kexinit r)
    (session_id r) (hostkey r) (server_hostkey r) (server_hostkey_md5 r)
    (server_hostkey_sha1 r) (s_remote r) (s_local r) (packets r) (channels r)
    (next_channel r) (listeners r) (socket_state r) (err_code r) (allocs r) (sends r)
    (sent r) (incoming r) (trace r).
Definition set_cb_disconnect (v : bool) (r : session) : session :=
  mk_session (cb_ignore r) (cb_debug r) v (cb_macerror r) (cb_x11 r) (kex_prefs r)
    (hostkey_prefs r) (state r) (flags r) (kex r) (burn_optimistic_kexinit r)
    (session_id r) (hostkey r) (server_hostkey r) (server_hostkey_md5 r)
    (server_hostkey_sha1 r) (s_remote r) (s_local r) (packets r) (channels r)
    (next_channel r) (listeners r) (socket_state r) (err_code r) (allocs r) (sends r)
    (sent r) (incoming r) (trace r).
Definition set_cb_macerror (v : bool) (r : session) : session :=
  mk_session (cb_ignore r) (cb_debug r) (cb_disconnect r) v (cb_x11 r) (kex_prefs r)
    (hostkey_prefs r) (state r) (flags r) (kex r) (burn_optimistic_kexinit r)
    (session_id r) (hostkey r) (server_hostkey r) (server_hostkey_md5 r)
    (server_hostkey_sha1 r) (s_remote r) (s_local r) (packets r) (channels r)
    (next_channel r) (listeners r) (socket_state r) (err_code r) (allocs r) (sends r)
    (sent r) (incoming r) (trace r).
Definition set_cb_x11 (v : bool) (r : session) : session :=
  mk_session (cb_ignore r) (cb_debug r) (cb_disconnect r) (cb_macerror r) v (kex_prefs
    r) (hostkey_prefs r) (state r) (flags r) (kex r) (burn_optimistic_kexinit r)
    (session_id r) (hostkey r) (server_hostkey r) (server_hostkey_md5 r)
    (server_hostkey_sha1 r) (s_remote r) (s_local r) (packets r) (channels r)
    (next_channel r) (listeners r) (socket_state r) (err_code r) (allocs r) (sends r)
    (sent r) (incoming r) (trace r).
Definition set_kex_prefs (v : option str) (r : session) : session :=
  mk_session (cb_ignore r) (cb_debug r) (cb_disconnect r) (cb_macerror r) (cb_x11 r) v
    (hostkey_prefs r) (state r) (flags r) (kex r) (burn_optimistic_kexinit r)
    (session_id r) (hostkey r) (server_hostkey r) (server_hostkey_md5 r)
    (server_hostkey_sha1 r) (s_remote r) (s_local r) (packets r) (channels r)
    (next_channel r) (listeners r) (socket_state r) (err_code r) (allocs r) (sends r)
    (sent r) (incoming r) (trace r).
Definition set_hostkey_prefs (v : option str) (r : session) : session :=
  mk_session (cb_ignore r) (cb_debug r) (cb_disconnect r) (cb_macerror r) (cb_x11 r)
    (kex_prefs r) v (state r) (flags r) (kex r) (burn_optimistic_kexinit r) (session_id
    r) (hostkey r) (server_hostkey r) (server_hostkey_md5 r) (server_hostkey_sha1 r)
    (s_remote r) (s_local r) (packets r) (channels r) (next_channel r) (listeners r)
    (socket_state r) (err_code r) (allocs r) (sends r) (sent r) (incoming r) (trace r).
Definition set_state (v : Z) (r : session) : session :=
  mk_session (cb_ignore r) (cb_debug r) (cb_disconnect r) (cb_macerror r) (cb_x11 r)
    (kex_prefs r) (hostkey_prefs r) v (flags r) (kex r) (burn_optimistic_kexinit r)
    (session_id r) (hostkey r) (server_hostkey r) (server_hostkey_md5 r)
    (server_hostkey_sha1 r) (s_remote r) (s_local r) (packets r) (channels r)
    (next_channel r) (listeners r) (socket_state r) (err_code r) (allocs r) (sends r)
    (sent r) (incoming r) (trace r).
Definition set_flags (v : Z) (r : session) : session :=
  mk_session (cb_ignore r) (cb_debug r) (cb_disconnect r) (cb_macerror r) (cb_x11 r)
    (kex_prefs r) (hostkey_prefs r) (state r) v (kex r) (burn_optimistic_kexinit r)
    (session_id r) (hostkey r) (server_hostkey r) (server_hostkey_md5 r)
    (server_hostkey_sha1 r) (s_remote r) (s_local r) (packets r) (channels r)
    (next_channel r) (listeners r) (socket_state r) (err_code r) (allocs r) (sends r)
    (sent r) (incoming r) (trace r).
Definition set_kex (v : option kex_method) (r : session) : session :=
  mk_session (cb_ignore r) (cb_debug r) (cb_disconnect r) (cb_macerror r) (cb_x11 r)
    (kex_prefs r) (hostkey_prefs r) (state r) (flags r) v (burn_optimistic_kexinit r)
    (session_id r) (hostkey r) (server_hostkey r) (server_hostkey_md5 r)
    (server_hostkey_sha1 r) (s_remote r) (s_local r) (packets r) (channels r)
    (next_channel r) (listeners r) (socket_state r) (err_code r) (allocs r) (sends r)
    (sent r) (incoming r) (trace r).
Definition set_burn_optimistic_kexinit (v : bool) (r : session) : session :=
  mk_session (cb_ignore r) (cb_debug r) (cb_disconnect r) (cb_macerror r) (cb_x11 r)
    (kex_prefs r) (hostkey_prefs r) (state r) (flags r) (kex r) v (session_id r)
    (hostkey r) (server_hostkey r) (server_hostkey_md5 r) (server_hostkey_sha1 r)
    (s_remote r) (s_local r) (packets r) (channels r) (next_channel r) (listeners r)
    (socket_state r) (err_code r) (allocs r) (sends r) (sent r) (incoming r) (trace r).
Definition set_session_id (v : option str) (r : session) : session :=
  mk_session (cb_ignore r) (cb_debug r) (cb_disconnect r) (cb_macerror r) (cb_x11 r)
    (kex_prefs r) (hostkey_prefs r) (state r) (flags r) (kex r) (burn_optimistic_kexinit
    r) v (hostkey r) (server_hostkey r) (server_hostkey_md5 r) (server_hostkey_sha1 r)
    (s_remote r) (s_local r) (packets r) (channels r) (next_channel r) (listeners r)
    (socket_state r) (err_code r) (allocs r) (sends r) (sent r) (incoming r) (trace r).
Definition set_hostkey (v : option hostkey_method) (r : session) : session :=
  mk_session (cb_ignore r) (cb_debug r) (cb_disconnect r) (cb_macerror r) (cb_x11 r)
    (kex_prefs r) (hostkey_prefs r) (state r) (flags r) (kex r) (burn_optimistic_kexinit
    r) (session_id r) v (server_hostkey r) (server_hostkey_md5 r) (server_hostkey_sha1
    r) (s_remote r) (s_local r) (packets r) (channels r) (next_channel r) (listeners r)
    (socket_state r) (err_code r) (allocs r) (sends r) (sent r) (incoming r) (trace r).
Definition set_server_hostkey (v : option str) (r : session) : session :=
  mk_session (cb_ignore r) (cb_debug r) (cb_disconnect r) (cb_macerror r) (cb_x11 r)
    (kex_prefs r) (hostkey_prefs r) (state r) (flags r) (kex r) (burn_optimistic_kexinit
    r) (session_id r) (hostkey r) v (server_hostkey_md5 r) (server_hostkey_sha1 r)
    (s_remote r) (s_local r) (packets r) (channels r) (next_channel r) (listeners r)
    (socket_state r) (err_code r) (allocs r) (sends r) (sent r) (incoming r) (trace r).
Definition set_server_hostkey_md5 (v : str) (r : session) : session :=
  mk_session (cb_ignore r) (cb_debug r) (cb_disconnect r) (cb_macerror r) (cb_x11 r)
    (kex_prefs r) (hostkey_prefs r) (state r) (flags r) (kex r) (burn_optimistic_kexinit
    r) (session_id r) (hostkey r) (server_hostkey r) v (server_hostkey_sha1 r) (s_remote
    r) (s_local r) (packets r) (channels r) (next_channel r) (listeners r) (socket_state
    r) (err_code r) (allocs r) (sends r) (sent r) (incoming r) (trace r).
Definition set_server_hostkey_sha1 (v : str) (r : session) : session :=
  mk_session (cb_ignore r) (cb_debug r) (cb_disconnect r) (cb_macerror r) (cb_x11 r)
    (kex_prefs r) (hostkey_prefs r) (state r) (flags r) (kex r) (burn_optimistic_kexinit
    r) (session_id r) (hostkey r) (server_hostkey r) (server_hostkey_md5 r) v (s_remote
    r) (s_local r) (packets r) (channels r) (next_channel r) (listeners r) (socket_state
    r) (err_code r) (allocs r) (sends r) (sent r) (incoming r) (trace r).
Definition set_s_remote (v : endpoint) (r : session) : session :=
  mk_session (cb_ignore r) (cb_debug r) (cb_disconnect r) (cb_macerror r) (cb_x11 r)
    (kex_prefs r) (hostkey_prefs r) (state r) (flags r) (kex r) (burn_optimistic_kexinit
    r) (session_id r) (hostkey r) (server_hostkey r) (server_hostkey_md5 r)
    (server_hostkey_sha1 r) v (s_local r) (packets r) (channels r) (next_channel r)
    (listeners r) (socket_state r) (err_code r) (allocs r) (sends r) (sent r) (incoming
    r) (trace r).
Definition set_s_local (v : endpoint) (r : session) : session :=
  mk_session (cb_ignore r) (cb_debug r) (cb_disconnect r) (cb_macerror r) (cb_x11 r)
    (kex_prefs r) (hostkey_prefs r) (state r) (flags r) (kex r) (burn_optimistic_kexinit
    r) (session_id r) (hostkey r) (server_hostkey r) (server_hostkey_md5 r)
    (server_hostkey_sha1 r) (s_remote r) v (packets r) (channels r) (next_channel r)
    (listeners r) (socket_state r) (err_code r) (allocs r) (sends r) (sent r) (incoming
    r) (trace r).
Definition set_packets (v : list packet) (r : session) : session :=
  mk_session (cb_ignore r) (cb_debug r) (cb_disconnect r) (cb_macerror r) (cb_x11 r)
    (kex_prefs r) (hostkey_prefs r) (state r) (flags r) (kex r) (burn_optimistic_kexinit
    r) (session_id r) (hostkey r) (server_hostkey r) (server_hostkey_md5 r)
    (server_hostkey_sha1 r) (s_remote r) (s_local r) v (channels r) (next_channel r)
    (listeners r) (socket_state r) (err_code r) (allocs r) (sends r) (sent r) (incoming
    r) (trace r).
Definition set_channels (v : list channel) (r : session) : session :=
  mk_session (cb_ignore r) (cb_debug r) (cb_disconnect r) (cb_macerror r) (cb_x11 r)
    (kex_prefs r) (hostkey_prefs r) (state r) (flags r) (kex r) (burn_optimistic_kexinit
    r) (session_id r) (hostkey r) (server_hostkey r) (server_hostkey_md5 r)
    (server_hostkey_sha1 r) (s_remote r) (s_local r) (packets r) v (next_channel r)
    (listeners r) (socket_state r) (err_code r) (allocs r) (sends r) (sent r) (incoming
    r) (trace r).
Definition set_next_channel (v : Z) (r : session) : session :=
  mk_session (cb_ignore r) (cb_debug r) (cb_disconnect r) (cb_macerror r) (cb_x11 r)
    (kex_prefs r) (hostkey_prefs r) (state r) (flags r) (kex r) (burn_optimistic_kexinit
    r) (session_id r) (hostkey r) (server_hostkey r) (server_hostkey_md5 r)
    (server_hostkey_sha1 r) (s_remote r) (s_local r) (packets r) (channels r) v
    (listeners r) (socket_state r) (err_code r) (allocs r) (sends r) (sent r) (incoming
    r) (trace r).
Definition set_listeners (v : list listener) (r : session) : session :=
  mk_session (cb_ignore r) (cb_debug r) (cb_disconnect r) (cb_macerror r) (cb_x11 r)
    (kex_prefs r) (hostkey_prefs r) (state r) (flags r) (kex r) (burn_optimistic_kexinit
    r) (session_id r) (hostkey r) (server_hostkey r) (server_hostkey_md5 r)
    (server_hostkey_sha1 r) (s_remote r) (s_local r) (packets r) (channels r)
    (next_channel r) v (socket_state r) (err_code r) (allocs r) (sends r) (sent r)
    (incoming r) (trace r).
Definition set_socket_state (v : Z) (r : session) : session :=
  mk_session (cb_ignore r) (cb_debug r) (cb_disconnect r) (cb_macerror r) (cb_x11 r)
    (kex_prefs r) (hostkey_prefs r) (state r) (flags r) (kex r) (burn_optimistic_kexinit
    r) (session_id r) (hostkey r) (server_hostkey r) (server_hostkey_md5 r)
    (server_hostkey_sha1 r) (s_remote r) (s_local r) (packets r) (channels r)
    (next_channel r) (listeners r) v (err_code r) (allocs r) (sends r) (sent r)
    (incoming r) (trace r).
Definition set_err_code (v : option Z) (r : session) : session :=
  mk_session (cb_ignore r) (cb_debug r) (cb_disconnect r) (cb_macerror r) (cb_x11 r)
    (kex_prefs r) (hostkey_prefs r) (state r) (flags r) (kex r) (burn_optimistic_kexinit
    r) (session_id r) (hostkey r) (server_hostkey r) (server_hostkey_md5 r)
    (server_hostkey_sha1 r) (s_remote r) (s_local r) (packets r) (channels r)
    (next_channel r) (listeners r) (socket_state r) v (allocs r) (sends r) (sent r)
    (incoming r) (trace r).
Definition set_allocs (v : nat) (r : session) : session :=
  mk_session (cb_ignore r) (cb_debug r) (cb_disconnect r) (cb_macerror r) (cb_x11 r)
    (kex_prefs r) (hostkey_prefs r) (state r) (flags r) (kex r) (burn_optimistic_kexinit
    r) (session_id r) (hostkey r) (server_hostkey r) (server_hostkey_md5 r)
    (server_hostkey_sha1 r) (s_remote r) (s_local r) (packets r) (channels r)
    (next_channel r) (listeners r) (socket_state r) (err_code r) v (sends r) (sent r)
    (incoming r) (trace r).
Definition set_sends (v : nat) (r : session) : session :=
  mk_session (cb_ignore r) (cb_debug r) (cb_disconnect r) (cb_macerror r) (cb_x11 r)
    (kex_prefs r) (hostkey_prefs r) (state r) (flags r) (kex r) (burn_optimistic_kexinit
    r) (session_id r) (hostkey r) (server_hostkey r) (server_hostkey_md5 r)
    (server_hostkey_sha1 r) (s_remote r) (s_local r) (packets r) (channels r)
    (next_channel r) (listeners r) (socket_state r) (err_code r) (allocs r) v (sent r)
    (incoming r) (trace r).
Definition set_sent (v : list str) (r : session) : session :=
  mk_session (cb_ignore r) (cb_debug r) (cb_disconnect r) (cb_macerror r) (cb_x11 r)
    (kex_prefs r) (hostkey_prefs r) (state r) (flags r) (kex r) (burn_optimistic_kexinit
    r) (session_id r) (hostkey r) (server_hostkey r) (server_hostkey_md5 r)
    (server_hostkey_sha1 r) (s_remote r) (s_local r) (packets r) (channels r)
    (next_channel r) (listeners r) (socket_state r) (err_code r) (allocs r) (sends r) v
    (incoming r) (trace r).
Definition set_incoming (v : list recv_event) (r : session) : session :=
  mk_session (cb_ignore r) (cb_debug r) (cb_disconnect r) (cb_macerror r) (cb_x11 r)
    (kex_prefs r) (hostkey_prefs r) (state r) (flags r) (kex r) (burn_optimistic_kexinit
    r) (session_id r) (hostkey r) (server_hostkey r) (server_hostkey_md5 r)
    (server_hostkey_sha1 r) (s_remote r) (s_local r) (packets r) (channels r)
    (next_channel r) (listeners r) (socket_state r) (err_code r) (allocs r) (sends r)
    (sent r) v (trace r).
Definition set_trace (v : list callback) (r : session) : session :=
  mk_session (cb_ignore r) (cb_debug r) (cb_disconnect r) (cb_macerror r) (cb_x11 r)
    (kex_prefs r) (hostkey_prefs r) (state r) (flags r) (kex r) (burn_optimistic_kexinit
    r) (session_id r) (hostkey r) (server_hostkey r) (server_hostkey_md5 r)
    (server_hostkey_sha1 r) (s_remote r) (s_local r) (packets r) (channels r)
    (next_channel r) (listeners r) (socket_state r) (err_code r) (allocs r) (sends r)
    (sent r) (incoming r) v.

(** The surroundings: whether the [n]-th allocation succeeds, the [n]-th [send]
    takes everything; random and uninitialised bytes; and what the MAC error callback answers. *)
Record surroundings := {
  alloc_ok : nat → bool;
  send_ok : nat → bool;
  random_bytes : nat → nat → str;
  stack_bytes : nat → nat → str;
  macerror_answer : str → Z }.

(** ** The monad *)

Definition ST (A : Type) : Type := session → res (A * session).

#[global] Instance ST_ret : MRet ST := λ A a s, Ok (a, s).
#[global] Instance ST_bind : MBind ST := λ A B k m s,
  match m s with Ok (a, s) => k a s | Err e => Err e | Undef => Undef end.

Definition get_session : ST session := λ s, Ok (s, s).
Definition gets {A} (f : session → A) : ST A := λ s, Ok (f s, s).
Definition modify (f : session → session) : ST () := λ s, Ok ((), f s).
Definition undefined {A} : ST A := λ _, Undef.
Definition lift {A} (r : res A) : ST A := λ s,
  match r with Ok a => Ok (a, s) | Err e => Err e | Undef => Undef end.

(** [libssh2_error (session, errcode, ...)] *)
Definition libssh2_error (errcode : Z) : ST () := modify (set_err_code (Some errcode)).

Definition emit (c : callback) : ST () := modify (λ s, set_trace (trace s ++ [c]) s).

(** [buf\[i\]] of the [length buf] bytes allocated. *)
Definition byte_at (buf : str) (i : nat) : ST Z :=
  match buf !! i with Some c => mret (code c) | None => undefined end.
Definition ntohu32 (buf : str) (i : nat) : ST Z := lift (libssh2_ntohu32 buf i).
Definition bytes (n : nat) (buf : str) (i : nat) : ST str := lift (bytes_at n buf i).

Section surroundings.
Context (e : surroundings).

(** [LIBSSH2_ALLOC]: whether the pointer is not null. *)
Definition alloc : ST bool :=
  n ← gets allocs;
  modify (set_allocs (S n));;
  mret (alloc_ok e n).

(** [send] or [writev] of the bytes: whether everything was sent. *)
Definition send (s : str) : ST bool :=
  n ← gets sends;
  modify (set_sends (S n));;
  if send_ok e n then modify (λ w, set_sent (sent w ++ [s]) w);; mret true else mret false.
End surroundings.

(** A channel and a change of it, by its local identifier. *)
Definition ch_id (c : channel) : Z := id (ch_local c).

Fixpoint find_channel (cs : list channel) (i : Z) : option channel :=
  match cs with
  | [] => None
  | c :: cs => if (ch_id c =? i)%Z then Some c else find_channel cs i
  end.

Fixpoint change_channel (f : channel → channel) (cs : list channel) (i : Z) : list channel :=
  match cs with
  | [] => []
  | c :: cs => if (ch_id c =? i)%Z then f c :: cs else c :: change_channel f cs i
  end.

Definition update_channel (i : Z) (f : channel → channel) : ST () :=
  modify (λ s, set_channels (change_channel f (channels s) i) s).

(** A pointer to a channel is followed. *)
Definition the_channel (i : Z) : ST channel :=
  c ← gets (λ s, find_channel (channels s) i);
  match c with Some c => mret c | None => undefined end.

(** ** A session on which the examples run *)

Definition demo_endpoint : endpoint := {|
  banner := None; kexinit := None;
  crypt := {| crypt_name := &"none"; blocksize := 8; iv_len := 0; secret_len := 0; crypt_evp := false;
              crypt_block := λ a s, Some (a, s) |};
  crypt_abstract := [];
  mac_m := {| mac_name := &"none"; mac_len := 0; key_len := 0; mac_init := false; mac_hash := λ _ _ _, [] |};
  mac_abstract := []; seqno := 0;
  comp := {| comp_name := &"none"; comp_init := None; comp_run := λ _ a _ _ s, Ok (0, a, inr s) |};
  comp_abstract := []; crypt_prefs := None; mac_prefs := None; comp_prefs := None;
  lang_prefs := None |}.

Definition demo_session (evs : list recv_event) : session := {|
  cb_ignore := false; cb_debug := false; cb_disconnect := false; cb_macerror := false;
  cb_x11 := false; kex_prefs := None; hostkey_prefs := None; state := 0; flags := 0; kex := None;
  burn_optimistic_kexinit := false; session_id := None; hostkey := None; server_hostkey := None;
  server_hostkey_md5 := replicate 16 NUL; server_hostkey_sha1 := replicate 20 NUL;
  s_remote := demo_endpoint; s_local := demo_endpoint; packets := [];
  channels := []; next_channel := 0; listeners := []; socket_state := 0; err_code := None;
  allocs := 0; sends := 0; sent := []; incoming := evs; trace := [] |}.

Definition demo_surroundings : surroundings := {|
  alloc_ok _ := true; send_ok _ := true; random_bytes _ k := replicate k NUL;
  stack_bytes _ k := replicate k NUL; macerror_answer _ := 1%Z |}.

(** ** Running the monad *)

Lemma bind_Ok {A B} (m : ST A) (k : A → ST B) s a s1 :
  m s = Ok (a, s1) → (m ≫= k) s = k a s1.
Proof. intros H. unfold mbind, ST_bind. by rewrite H. Qed.

Lemma bind_inv {A B} (m : ST A) (k : A → ST B) s b s2 :
  (m ≫= k) s = Ok (b, s2) → ∃ a s1, m s = Ok (a, s1) ∧ k a s1 = Ok (b, s2).
Proof. unfold mbind, ST_bind. destruct (m s) as [[a s1]| |]; naive_solver. Qed.

Lemma ntohu32_ok s before value after_ :
  in_u 32 value →
  ntohu32 (before ++ libssh2_htonu32 value ++ after_) (length before) s = Ok (value, s).
Proof. intros H. unfold ntohu32, lift. by rewrite ntohu32_at. Qed.

Lemma byte_at_ok s before c after_ :
  byte_at (before ++ c :: after_) (length before) s = Ok (code c, s).
Proof. unfold byte_at. by rewrite list_lookup_middle. Qed.
