(* ===== verification/Ssh2Comp.v ===== *)
(** * libssh2: compression ([ssh/libssh2/comp.c])

    Data is handed to zlib with a buffer that grows while it does not suffice, up to a
    limit. zlib is not in the repository: a class has its operations, another what
    its documentation says of them. *)
From S2P Require Import Prelude StdString Ssh2Misc Ssh2Session.

(** The first states of the streams, when they can be made; [deflate strm input
    avail_out] and [inflate] give the stream afterwards and, for [Z_OK], what is left
    of the input and the output. *)
Class zlib := {
  deflateInit : option str;
  inflateInit : option str;
  deflate : str → str → nat → str * option (str * str);
  inflate : str → str → nat → str * option (str * str) }.

Definition libssh2_comp_method_none_comp (allocates : nat → bool) (abstract : str) (compress : bool)
    (payload_limit : Z) (src : str) : res (nat * str * (Z + str)) := Ok (0, abstract, inr src).

Section comp.
Context `{zlib} (allocates : nat → bool).

(** Without memory an error is reported, without a stream none. *)
Definition libssh2_comp_method_zlib_init (compress : bool) : nat * (option Z + str) :=
  if negb (allocates 0) then (1, inl (Some LIBSSH2_ERROR_ALLOC)) else
  match (if compress then deflateInit else inflateInit) with
  | Some strm => (1, inr strm)
  | None => (1, inl None)
  end.

Section loops.
Context (compress : bool) (payload_limit : Z).

Definition work : str → str → nat → str * option (str * str) := if compress then deflate else inflate.

(** The loop after the input: while the buffer is full, [n] allocations having been
    made. [avail_out] is the room behind [out]. *)
Fixpoint grow_loop (fuel n : nat) (strm out : str) (out_maxlen : Z) : res (nat * str * (Z + str)) :=
  if negb (Z.of_nat (length out) =? out_maxlen)%Z then Ok (n, strm, inr out) else
  if (payload_limit <=? out_maxlen)%Z then Ok (n, strm, inl LIBSSH2_ERROR_ZLIB) else
  match fuel with
  | O => Undef
  | S fuel =>
      let grow_size := Z.min (if compress then 8 else 1024) (payload_limit - out_maxlen) in
      if negb (allocates n) then Ok (S n, strm, inl LIBSSH2_ERROR_ALLOC) else
      match work strm [] (Z.to_nat grow_size) with
      | (strm, None) => Ok (S n, strm, inl LIBSSH2_ERROR_ZLIB)
      | (strm, Some (_, o)) => grow_loop fuel (S n) strm (out ++ o) (out_maxlen + grow_size)
      end
  end.

(** The loop over the input. [limiter]: the buffer has been over the limit once. *)
Fixpoint comp_loop (fuel n : nat) (strm input out : str) (out_maxlen : Z) (limiter : bool)
    : res (nat * str * (Z + str)) :=
  match input, fuel with
  | [], _ => Ok (n, strm, inr out)
  | _, O => Undef
  | _, S fuel =>
      match work strm input (Z.to_nat out_maxlen - length out) with
      | (strm, None) => Ok (n, strm, inl LIBSSH2_ERROR_ZLIB)
      | (strm, Some ([], o)) => grow_loop fuel n strm (out ++ o) out_maxlen
      | (strm, Some (input, o)) =>
          let avail_in := Z.of_nat (length input) in
          let out_maxlen := wrap_s 32 (out_maxlen + if compress then avail_in + 4 else 2 * avail_in) in
          let over := negb compress && (payload_limit <? u32 out_maxlen)%Z in
          if over && limiter then Ok (n, strm, inl LIBSSH2_ERROR_ZLIB) else
          if negb (allocates n) then Ok (S n, strm, inl LIBSSH2_ERROR_ALLOC) else
          if (out_maxlen <? 0)%Z then Undef else
          comp_loop fuel (S n) strm input (out ++ o) out_maxlen (limiter || over)
      end
  end.

(** The size of the first buffer. *)
Definition first_size (src : str) : Z :=
  let src_len := Z.of_nat (length src) in
  let out_maxlen := Z.max 25 (wrap_s 32 (if compress then src_len + 4 else 2 * src_len)) in
  if (payload_limit <? out_maxlen)%Z then wrap_s 32 payload_limit else out_maxlen.
End loops.

Definition libssh2_comp_method_zlib_comp (abstract : str) (compress : bool) (payload_limit : Z) (src : str)
    : res (nat * str * (Z + str)) :=
  let out_maxlen := first_size compress payload_limit src in
  if negb (allocates 0) then Ok (1, abstract, inl LIBSSH2_ERROR_ALLOC) else
  comp_loop compress payload_limit (Z.to_nat payload_limit + 3) 1 abstract src [] out_maxlen false.
End comp.

(** ** Properties *)

(** What zlib's manual says: no more is written than there is room, and a call stops
    when the input is used up or the output is full. *)
Class zlib_laws `{zlib} : Prop := {
  deflate_room strm i n strm' r o : deflate strm i n = (strm', Some (r, o)) → length o ≤ n;
  inflate_room strm i n strm' r o : inflate strm i n = (strm', Some (r, o)) → length o ≤ n;
  deflate_uses strm i n strm' r o : deflate strm i n = (strm', Some (r, o)) → ∃ used, i = used ++ r;
  inflate_uses strm i n strm' r o : inflate strm i n = (strm', Some (r, o)) → ∃ used, i = used ++ r;
  deflate_full strm i n strm' r o : deflate strm i n = (strm', Some (r, o)) → r = [] ∨ length o = n;
  inflate_full strm i n strm' r o : inflate strm i n = (strm', Some (r, o)) → r = [] ∨ length o = n }.

Section laws.
Context `{zlib_laws} (compress : bool).

(** Calls one after the other, from one stream and input to another, and what they write
    altogether. *)
Inductive calls : str → str → str → str → str → Prop :=
  | calls_none strm i : calls strm i [] strm i
  | calls_more strm i o strm1 i1 n strm2 i2 o2 :
      calls strm i o strm1 i1 → work compress strm1 i1 n = (strm2, Some (i2, o2)) →
      calls strm i (o ++ o2) strm2 i2.

Lemma work_room strm i n strm' r o : work compress strm i n = (strm', Some (r, o)) → length o ≤ n.
Proof. unfold work. destruct compress; [apply deflate_room|apply inflate_room]. Qed.

Lemma work_uses strm i n strm' r o : work compress strm i n = (strm', Some (r, o)) → length r ≤ length i.
Proof.
  intros E. assert (∃ used, i = used ++ r) as [used ->]; [|rewrite length_app; lia].
  unfold work in E. destruct compress; [by eapply deflate_uses|by eapply inflate_uses].
Qed.

Lemma work_full strm i n strm' r o : work compress strm i n = (strm', Some (r, o)) → r = [] ∨ length o = n.
Proof. unfold work. destruct compress; [apply deflate_full|apply inflate_full]. Qed.

Lemma work_no_input strm n strm' r o : work compress strm [] n = (strm', Some (r, o)) → r = [].
Proof. intros E%work_uses. destruct r; simpl in E; [done|lia]. Qed.

Context (allocates : nat → bool) (payload_limit : Z).
Context (Hlimit : (0 ≤ payload_limit < 2 ^ 31)%Z).

(** [ends r P]: the loop ends, and the data of a success satisfies [P]. *)
Definition ends (r : res (nat * str * (Z + str))) (P : str → str → Prop) : Prop :=
  ∃ n strm outcome, r = Ok (n, strm, outcome) ∧ ∀ out, outcome = inr out → P strm out.

Lemma ends_error n strm code P : ends (Ok (n, strm, inl code)) P.
Proof. by exists n, strm, (inl code). Qed.

(** What is asked of the data: it is what the stream wrote for the input, and there
    is no more of it than [bound]. *)
Definition written (strm0 i0 : str) (bound : Z) (strm out : str) : Prop :=
  calls strm0 i0 out strm [] ∧ (Z.of_nat (length out) ≤ bound)%Z.

(** The second loop takes a step for every byte up to the limit at most. *)
Lemma grow_loop_ends fuel n strm0 i0 strm out out_maxlen bound :
  (payload_limit - out_maxlen < Z.of_nat fuel)%Z → (Z.of_nat (length out) ≤ out_maxlen ≤ bound)%Z →
  (payload_limit ≤ bound)%Z → calls strm0 i0 out strm [] →
  ends (grow_loop allocates compress payload_limit fuel n strm out out_maxlen) (written strm0 i0 bound).
Proof.
  revert n strm out out_maxlen. induction fuel as [|fuel IH]; intros n strm out out_maxlen Hf Hout Hb Hc;
    cbn [grow_loop]; (destruct (Z.eqb_spec (Z.of_nat (length out)) out_maxlen) as [E|E]; cbn [negb];
      [|by exists n, strm, (inr out); split; [|intros ? [= <-]; split; [|lia]]]);
    (destruct (Z.leb_spec payload_limit out_maxlen); [apply ends_error|]).
  - lia.
  - destruct (allocates n); [|apply ends_error]. cbn [negb]. set (g := Z.min _ _).
    destruct (work compress strm [] _) as [strm1 [[r o]|]] eqn:Ew; [|apply ends_error].
    pose proof (work_room _ _ _ _ _ _ Ew). pose proof (work_no_input _ _ _ _ _ Ew) as ->.
    assert (0 < g ≤ payload_limit - out_maxlen)%Z by (subst g; destruct compress; lia).
    apply IH; [lia|rewrite length_app; lia|done|]. by eapply calls_more.
Qed.

(** One round of the loop over the input, with some of it left. *)
Lemma comp_loop_ends fuel n strm0 i0 strm input out out_maxlen limiter bound P :
  0 < fuel → (payload_limit - out_maxlen < Z.of_nat (fuel - 1))%Z → (Z.of_nat (length out) ≤ out_maxlen ≤ bound)%Z →
  (payload_limit ≤ bound)%Z → calls strm0 i0 out strm input → 0 < length input →
  (∀ strm out, written strm0 i0 bound strm out → P strm out) →
  (∀ n strm' input' o, let avail_in := Z.of_nat (length input') in
    let new_maxlen := wrap_s 32 (out_maxlen + if compress then avail_in + 4 else 2 * avail_in) in
    let over := negb compress && (payload_limit <? u32 new_maxlen)%Z in
    calls strm0 i0 (out ++ o) strm' input' → 0 < length input' ≤ length input →
    Z.of_nat (length (out ++ o)) = out_maxlen → over && limiter = false →
    ends (if (new_maxlen <? 0)%Z then Undef else
          comp_loop allocates compress payload_limit (fuel - 1) n strm' input' (out ++ o) new_maxlen (limiter || over)) P) →
  ends (comp_loop allocates compress payload_limit fuel n strm input out out_maxlen limiter) P.
Proof.
  intros Hf0 Hf Hout Hb Hc Hi HP Hnext.
  destruct input as [|c input]; [simpl in Hi; lia|]. destruct fuel as [|fuel]; [lia|].
  simpl Nat.sub in Hf, Hnext. rewrite Nat.sub_0_r in Hf, Hnext.
  cbn [comp_loop]. destruct (work compress strm (c :: input) _) as [strm1 [[r o]|]] eqn:Ew; [|apply ends_error].
  assert (Hc1 : calls strm0 i0 (out ++ o) strm1 r) by (by eapply calls_more).
  pose proof (work_room _ _ _ _ _ _ Ew) as Hroom. pose proof (work_uses _ _ _ _ _ _ Ew).
  pose proof (work_full _ _ _ _ _ _ Ew) as Hfull. destruct r as [|d r].
  - destruct (grow_loop_ends fuel n strm0 i0 strm1 (out ++ o) out_maxlen bound) as (n' & s' & oc & E & HE);
      [lia|rewrite length_app; lia|done|done|]. exists n', s', oc. eauto.
  - destruct Hfull as [|Hfull]; [done|]. cbv zeta in Hnext |- *.
    destruct (_ && limiter) eqn:El; [apply ends_error|]. destruct (allocates n); [|apply ends_error].
    cbn [negb]. specialize (Hnext (S n) strm1 (d :: r) o). apply Hnext; [done|simpl in *; lia|rewrite length_app; lia|done].
Qed.
End laws.

Section comp_facts.
Context `{zlib_laws} (allocates : nat → bool) (payload_limit : Z) (strm0 src : str).
Context (Hlimit : (0 ≤ payload_limit)%Z).

#[local] Abbreviation N := (Z.of_nat (length src)).

Lemma first_size_bounds compress :
  (payload_limit < 2 ^ 31)%Z → (0 ≤ first_size compress payload_limit src ≤ payload_limit)%Z.
Proof.
  intros Hl. unfold first_size. set (m := Z.max 25 _). assert (25 ≤ m)%Z by (subst m; lia).
  destruct (Z.ltb_spec payload_limit m); [|lia]. rewrite wrap_s_small by (unfold in_s; lia). lia.
Qed.

Lemma start_ends compress bound P :
  (payload_limit < 2 ^ 31)%Z → (∀ strm out, written compress strm0 src bound strm out → P strm out) → (0 ≤ bound)%Z →
  (0 < length src → ends (comp_loop allocates compress payload_limit (Z.to_nat payload_limit + 3) 1 strm0 src []
     (first_size compress payload_limit src) false) P) →
  ends (libssh2_comp_method_zlib_comp allocates strm0 compress payload_limit src) P.
Proof.
  intros Hl HP Hb Hloop. unfold libssh2_comp_method_zlib_comp. destruct (allocates 0); [|apply ends_error].
  cbn [negb]. destruct (decide (src = [])) as [E|E].
  - rewrite E, Nat.add_comm. exists 1, strm0, (inr []). split; [done|]. intros ? [= <-]. apply HP. rewrite E.
    split; [constructor|simpl; lia].
  - apply Hloop. destruct src; [done|simpl; lia].
Qed.

(** C31. Decompression ends, whatever was sent: it gives an error, or all that the stream
    writes for the data, which is no more than the limit and twice the data. The limit
    itself may be passed once. *)
Theorem zlib_decompress_ends :
  (payload_limit + 4 * N < 2 ^ 31)%Z →
  ∃ n strm outcome,
    libssh2_comp_method_zlib_comp allocates strm0 false payload_limit src = Ok (n, strm, outcome) ∧
    ∀ out, outcome = inr out →
      calls false strm0 src out strm [] ∧ (Z.of_nat (length out) ≤ payload_limit + 2 * N)%Z.
Proof.
  intros Hl. set (bound := (payload_limit + 2 * N)%Z).
  assert (Hinv : ∀ fuel n strm input out out_maxlen (limiter : bool),
    (payload_limit - out_maxlen + 3 ≤ Z.of_nat fuel)%Z → 2 ≤ fuel →
    (Z.of_nat (length out) ≤ out_maxlen ≤ bound)%Z →
    (if limiter then payload_limit < out_maxlen else out_maxlen ≤ payload_limit)%Z →
    calls false strm0 src out strm input → 0 < length input ≤ length src →
    ends (comp_loop allocates false payload_limit fuel n strm input out out_maxlen limiter)
      (written false strm0 src bound)).
  { induction fuel as [|fuel IH]; intros n strm input out out_maxlen limiter Hf Hf2 Hout Hm Hc Hi; [lia|].
    eapply comp_loop_ends; try done; try lia. intros n' strm' input' o avail_in. cbv zeta. cbn [negb andb].
    intros Hc' Hi' Hl'. rewrite wrap_s_small by (unfold in_s; lia). set (m := (out_maxlen + _)%Z). intros Hover.
    assert (Hu : u32 m = m) by (apply wrap_u_small; unfold in_u; lia). rewrite Hu in Hover |- *.
    destruct (Z.ltb_spec m 0); [lia|]. simpl Nat.sub. rewrite Nat.sub_0_r.
    destruct (Z.ltb_spec payload_limit m) as [Ho|Ho]; cbn [andb] in Hover.
    - destruct limiter; [done|]. cbn [orb]. apply IH; try done; lia.
    - destruct limiter; [lia|]. cbn [orb]. apply IH; try done; lia. }
  apply (start_ends false bound (written false strm0 src bound)); [lia|done|lia|].
  intros Hi. pose proof (first_size_bounds false). apply Hinv; try lia; try constructor; simpl; lia.
Qed.

(** Compression ends when what the stream can write for the data is not more than five
    times the limit. *)
Lemma zlib_compress_ends bound :
  (∀ out strm input, calls true strm0 src out strm input → (Z.of_nat (length out) ≤ bound)%Z) →
  (payload_limit ≤ bound ≤ 5 * payload_limit)%Z → (bound + N + 4 < 2 ^ 31)%Z →
  ends (libssh2_comp_method_zlib_comp allocates strm0 true payload_limit src)
    (λ strm out, calls true strm0 src out strm []).
Proof.
  intros Hb Hl HN. set (top := (bound + N + 4)%Z).
  assert (Hinv : ∀ fuel n strm input out out_maxlen,
    (payload_limit - out_maxlen + 2 ≤ Z.of_nat fuel)%Z → (bound - out_maxlen + 10 ≤ 5 * Z.of_nat fuel)%Z → 1 ≤ fuel →
    (Z.of_nat (length out) ≤ out_maxlen ≤ top)%Z →
    calls true strm0 src out strm input → 0 < length input ≤ length src →
    ends (comp_loop allocates true payload_limit fuel n strm input out out_maxlen false)
      (λ strm out, calls true strm0 src out strm [])).
  { induction fuel as [|fuel IH]; intros n strm input out out_maxlen Hf Hf2 Hf3 Hout Hc Hi; [lia|].
    eapply (comp_loop_ends _ _ _ _ _ _ _ _ _ _ _ _ top); try done; try lia; [by intros ? ? []|].
    intros n' strm' input' o avail_in. cbv zeta. cbn [negb andb]. intros Hc' Hi' Hl' _.
    pose proof (Hb _ _ _ Hc'). rewrite wrap_s_small by (unfold in_s; lia). destruct (Z.ltb_spec (out_maxlen + (avail_in + 4)) 0); [lia|].
    cbn [orb]. simpl Nat.sub. rewrite Nat.sub_0_r. apply IH; try done; lia. }
  apply (start_ends true top); [lia|by intros ? ? []|lia|].
  intros Hi. pose proof (first_size_bounds true). apply Hinv; try lia; try constructor; simpl; lia.
Qed.
End comp_facts.

(** ** An instance *)

(** A stream that changes nothing. *)
Definition demo_zlib : zlib := {|
  deflateInit := Some [];
  inflateInit := Some [];
  deflate strm i n := (strm, Some (drop n i, take n i));
  inflate strm i n := (strm, Some (drop n i, take n i)) |}.

#[export] Instance demo_zlib_laws : @zlib_laws demo_zlib.
Proof.
  split; intros strm i n strm' r o [= <- <- <-].
  1,2: rewrite length_take; lia.
  1,2: exists (take n i); by rewrite take_drop.
  all: rewrite length_take; destruct (le_lt_dec (length i) n); [left; by apply drop_ge|right; lia].
Qed.

#[local] Existing Instance demo_zlib.

(** 60 bytes into a limit of 30: the buffer grows once, over the limit. *)
Lemma zlib_decompress_ends_witness :
  ∃ n strm out, libssh2_comp_method_zlib_comp (λ _, true) [] false 30 (replicate 60 "x"%char) = Ok (n, strm, inr out) ∧
    calls false [] (replicate 60 "x"%char) out strm [] ∧ (Z.of_nat (length out) ≤ 150)%Z.
Proof.
  destruct (zlib_decompress_ends (λ _, true) 30 [] (replicate 60 "x"%char)) as (n & strm & outcome & E & H); [lia|..].
  { vm_compute. reflexivity. }
  destruct outcome as [code|out]; [by vm_compute in E|].
  exists n, strm, out. split; [exact E|]. exact (H out eq_refl).
Defined.
