(* ===== verification/Ssh2Packet.v ===== *)
(** * libssh2: the transport layer ([ssh/libssh2/packet.c])

    Reading packets from the socket, the packets that are handled when they
    arrive, the brigade of the others, and writing packets; with the three
    functions of [channel.c] that [packet.c] calls. *)
From S2P Require Import Prelude StdString Ssh2Misc Ssh2Session.

(** Unsigned 32-bit subtraction. *)
Definition usub (a b : Z) : Z := u32 (a - b).

Definition has_state (bit : Z) (s : session) : bool := negb (Z.land (state s) bit =? 0)%Z.
Definition connected (s : session) : bool := (socket_state s =? LIBSSH2_SOCKET_CONNECTED)%Z.
Definition disconnected (s : session) : bool := (socket_state s =? LIBSSH2_SOCKET_DISCONNECTED)%Z.

Section packet.
Context (e : surroundings).

(** ** Writing *)

(** A cipher applied to [n] consecutive blocks. *)
Fixpoint crypt_blocks (m : crypt_method) (n : nat) (abstract s : str) : option (str * str) :=
  match n with
  | 0 => Some (abstract, [])
  | S n =>
      match crypt_block m abstract (take (blocksize m) s) with
      | None => None
      | Some (abstract, block) =>
          match crypt_blocks m n abstract (drop (blocksize m) s) with
          | None => None
          | Some (abstract, rest) => Some (abstract, block ++ rest)
          end
      end
  end.

(** The padding that makes the packet a multiple of the block size. *)
Definition padding_for (block_size data_len : nat) : nat :=
  let packet_length := data_len + 1 in
  let padding_length := block_size - (packet_length + 4) mod block_size in
  if decide (padding_length < 4) then padding_length + block_size else padding_length.

(** The length and padding bytes in front of the data. *)
Definition packet_header (data_len padding_length : nat) : str :=
  libssh2_htonu32 (Z.of_nat (data_len + 1 + padding_length)) ++ [of_code (u8 (Z.of_nat padding_length))].

Definition update_local (f : endpoint → endpoint) : ST () :=
  modify (λ s, set_s_local (f (s_local s)) s).
Definition update_remote (f : endpoint → endpoint) : ST () :=
  modify (λ s, set_s_remote (f (s_remote s)) s).

Definition next_seqno (ep : endpoint) : endpoint := set_seqno (u32 (seqno ep + 1)) ep.

Definition update_endpoint (local : bool) (f : endpoint → endpoint) : ST () :=
  if local then update_local f else update_remote f.
Definition endpoint_of (local : bool) (s : session) : endpoint :=
  if local then s_local s else s_remote s.

(** Whether the allocations from now on succeed, and what [n] of them leave. *)
Definition allocates (s : session) (n : nat) : bool := alloc_ok e (allocs s + n).
Definition allocated (n : nat) : ST () := modify (λ s, set_allocs (allocs s + n) s).

(** The compression method of a side at work; [None] when it fails. *)
Definition run_comp (local : bool) (limit : Z) (data : str) : ST (option str) :=
  s ← get_session;
  let ep := endpoint_of local s in
  r ← lift (comp_run (comp ep) (allocates s) (comp_abstract ep) local limit data);
  let '(n, abstract, outcome) := r in
  allocated n;;
  update_endpoint local (set_comp_abstract abstract);;
  match outcome with
  | inl code => libssh2_error code;; mret None
  | inr data => mret (Some data)
  end.

(** Compression, when it has been negotiated. *)
Definition compress (data : str) : ST (option str) :=
  s ← get_session;
  if has_state LIBSSH2_STATE_NEWKEYS s && bool_decide (comp_name (comp (s_local s)) ≠ &"none")
  then run_comp true LIBSSH2_PACKET_MAXCOMP data
  else mret (Some data).

Definition write_encrypted (data : str) : ST Z :=
  s ← get_session;
  let ep := s_local s in
  if decide (blocksize (crypt ep) = 0) then undefined else
  let padding := padding_for (blocksize (crypt ep)) (length data) in
  ok ← alloc e;
  if negb ok then libssh2_error LIBSSH2_ERROR_ALLOC;; mret (-1)%Z else
  let plain := packet_header (length data) padding ++ data ++ random_bytes e (sends s) padding in
  let digest := mac_hash (mac_m ep) (mac_abstract ep) (seqno ep) plain in
  match crypt_blocks (crypt ep) (length plain / blocksize (crypt ep)) (crypt_abstract ep) plain with
  | None => undefined
  | Some (abstract, enc) =>
      update_local (λ ep, next_seqno (set_crypt_abstract abstract ep));;
      ok ← send e (enc ++ digest);
      mret (if (ok : bool) then 0 else -1)%Z
  end.

(** The padding of a plain packet is what the stack buffer holds. *)
Definition write_plain (data : str) : ST Z :=
  s ← get_session;
  let padding := padding_for 8 (length data) in
  update_local next_seqno;;
  ok ← send e (packet_header (length data) padding ++ data ++ stack_bytes e (sends s) padding);
  mret (if (ok : bool) then 0 else 1)%Z.

Definition libssh2_packet_write (data : str) : ST Z :=
  data ← compress data;
  match data with
  | None => mret (-1)%Z
  | Some data =>
      new_keys ← gets (has_state LIBSSH2_STATE_NEWKEYS);
      if (new_keys : bool) then write_encrypted data else write_plain data
  end.

(** ** Channels: identifiers, lookup, the receive window *)

Definition libssh2_channel_nextid : ST Z :=
  s ← get_session;
  let i := fold_left (λ i c, if (i <? ch_id c)%Z then ch_id c else i) (channels s) (next_channel s) in
  modify (set_next_channel (u32 (i + 1)));;
  mret i.

Definition libssh2_channel_locate (channel_id : Z) : ST (option channel) :=
  gets (λ s, find_channel (channels s) channel_id).

Definition on_remote (f : channel_data → channel_data) (c : channel) : channel :=
  set_ch_remote (f (ch_remote c)) c.
Definition on_local (f : channel_data → channel_data) (c : channel) : channel :=
  set_ch_local (f (ch_local c)) c.

Definition libssh2_channel_receive_window_adjust (i adjustment : Z) (force : bool) : ST Z :=
  c ← the_channel i;
  let queued := u32 (adjustment + adjust_queue c) in
  if negb force && (queued <? LIBSSH2_CHANNEL_MINADJUST)%Z then
    update_channel i (set_adjust_queue queued);;
    mret (window_size (ch_remote c))
  else if (adjustment =? 0)%Z && (adjust_queue c =? 0)%Z then mret (window_size (ch_remote c))
  else
    update_channel i (set_adjust_queue 0);;
    rc ← libssh2_packet_write (of_code SSH_MSG_CHANNEL_WINDOW_ADJUST ::
           libssh2_htonu32 (id (ch_remote c)) ++ libssh2_htonu32 queued);
    (if (rc =? 0)%Z
     then update_channel i (on_remote (λ d, set_window_size (u32 (window_size d + queued)) d))
     else libssh2_error LIBSSH2_ERROR_SOCKET_SEND;; update_channel i (set_adjust_queue queued));;
    c ← the_channel i;
    mret (window_size (ch_remote c)).

(** ** Connections the other side opens *)

(** The fields of a channel-open request after its type: the sender's channel,
    window and packet size. *)
Record open_request := { sender_channel : Z; initial_window_size : Z; open_packet_size : Z }.

Definition read_open (data : str) (s : nat) : ST open_request :=
  a ← ntohu32 data s;
  b ← ntohu32 data (s + 4);
  c ← ntohu32 data (s + 8);
  mret {| sender_channel := a; initial_window_size := b; open_packet_size := c |}.

(** A channel for a forwarded connection. *)
Definition incoming_channel (type : str) (r : open_request) (local_id : Z) : channel :=
  {| channel_type := type; blocking := false; exit_status := 0;
     ch_local := {| id := local_id; window_size_initial := initial_window_size r;
                    window_size := initial_window_size r; packet_size := open_packet_size r;
                    close := false; eof := false; extended_data_ignore_mode := 0 |};
     ch_remote := {| id := sender_channel r;
                     window_size_initial := LIBSSH2_CHANNEL_WINDOW_DEFAULT;
                     window_size := LIBSSH2_CHANNEL_WINDOW_DEFAULT;
                     packet_size := LIBSSH2_CHANNEL_PACKET_DEFAULT;
                     close := false; eof := false; extended_data_ignore_mode := 0 |};
     adjust_queue := 0; close_cb := false |}.

Definition open_confirmation (c : channel) : str :=
  of_code SSH_MSG_CHANNEL_OPEN_CONFIRMATION :: libssh2_htonu32 (id (ch_remote c)) ++
  libssh2_htonu32 (ch_id c) ++ libssh2_htonu32 (window_size_initial (ch_remote c)) ++
  libssh2_htonu32 (packet_size (ch_remote c)).

(** The refusal: [memcpy] puts the description at [s], the end of the data that
    was read, not in the packet; past the end of the buffer it is undefined. The
    packet's own bytes for the description are whatever the stack holds. *)
Definition open_failure (data : str) (s : nat) (sender failure_code : Z) (description : nat) : ST Z :=
  if decide (length data < s + description) then undefined else
  n ← gets sends;
  rc ← libssh2_packet_write (of_code SSH_MSG_CHANNEL_OPEN_FAILURE ::
         libssh2_htonu32 sender ++ libssh2_htonu32 failure_code ++
         libssh2_htonu32 (Z.of_nat description) ++ stack_bytes e n description ++ libssh2_htonu32 0);
  if (rc =? 0)%Z then mret 0%Z else libssh2_error LIBSSH2_ERROR_SOCKET_SEND;; mret (-1)%Z.

(** The two allocations of a new channel: whether both succeed. *)
Definition alloc_channel : ST bool :=
  a ← alloc e;
  if negb a then libssh2_error LIBSSH2_ERROR_ALLOC;; mret false else
  b ← alloc e;
  if negb b then libssh2_error LIBSSH2_ERROR_ALLOC;; mret false else mret true.

Definition listener_matches (port : Z) (host : str) (l : listener) : bool :=
  bool_decide (li_port l = port) && bool_decide (li_host l = host).

Fixpoint find_listener (p : listener → bool) (ls : list listener) : option (nat * listener) :=
  match ls with
  | [] => None
  | l :: ls => if p l then Some (0, l) else
                 match find_listener p ls with Some (n, l) => Some (S n, l) | None => None end
  end.

(** The channel joins the queue of the listener; the first one is not counted. *)
Definition enqueue (c : channel) (l : listener) : listener :=
  match queue l with
  | [] => set_queue [c] l
  | q => set_queue_size (queue_size l + 1) (set_queue (q ++ [c]) l)
  end.

Definition queue_full (l : listener) : bool :=
  negb (queue_maxsize l =? 0)%Z && (queue_maxsize l <=? queue_size l)%Z.

(** The branch of the matching listener: the return code, or the failure code. *)
Definition accept_forward (n : nat) (l : listener) (r : open_request) : ST (Z + Z) :=
  if queue_full l then mret (inr 4%Z) else
  ok ← alloc_channel;
  if negb ok then mret (inr 4%Z) else
  i ← libssh2_channel_nextid;
  let c := incoming_channel &"forwarded-tcpip" r i in
  rc ← libssh2_packet_write (open_confirmation c);
  if (rc =? 0)%Z then
    modify (λ s, set_listeners (alter (enqueue c) n (listeners s)) s);;
    mret (inl 0%Z)
  else libssh2_error LIBSSH2_ERROR_SOCKET_SEND;; mret (inl (-1)%Z).

Definition libssh2_packet_queue_listener (data : str) : ST Z :=
  let s := 15 + 5 in
  r ← read_open data s;
  host_len ← ntohu32 data (s + 12);
  let s := s + 16 in
  host ← bytes (Z.to_nat host_len) data s;
  let s := s + Z.to_nat host_len in
  port ← ntohu32 data s;
  shost_len ← ntohu32 data (s + 4);
  let s := s + 8 + Z.to_nat shost_len in
  sport ← ntohu32 data s;
  let s := s + 4 in
  found ← gets (λ w, find_listener (listener_matches port host) (listeners w));
  answer ← match found with
           | None => mret (inr 1%Z)
           | Some (n, l) => accept_forward n l r
           end;
  match answer with
  | inl rc => mret rc
  | inr failure_code => open_failure data s (sender_channel r) failure_code 21
  end.

Definition libssh2_packet_x11_open (data : str) : ST Z :=
  let s := 3 + 5 in
  r ← read_open data s;
  shost_len ← ntohu32 data (s + 12);
  let s := s + 16 in
  let after_ := s + Z.to_nat shost_len in
  sport ← ntohu32 data after_;
  x11 ← gets cb_x11;
  ok ← (if (x11 : bool) then alloc_channel else mret false);
  if negb ok then open_failure data (after_ + 4) (sender_channel r) 4 23 else
  i ← libssh2_channel_nextid;
  let c := incoming_channel &"x11" r i in
  rc ← libssh2_packet_write (open_confirmation c);
  if (rc =? 0)%Z then
    modify (λ s, set_channels (channels s ++ [c]) s);;
    shost ← bytes (Z.to_nat shost_len) data s;
    emit (CB_x11_open i shost sport);;
    mret 0%Z
  else libssh2_error LIBSSH2_ERROR_SOCKET_SEND;; mret (-1)%Z.

(** ** Packets that arrive *)

(** A packet whose MAC is wrong: [None] when it is dropped. *)
Definition check_mac (data : str) (datalen macstate : Z) : ST (option Z) :=
  if negb (macstate =? LIBSSH2_MAC_INVALID)%Z then mret (Some macstate) else
  s ← get_session;
  let seen := take (Z.to_nat datalen) data in
  (if cb_macerror s then emit (CB_macerror seen) else mret ());;
  if cb_macerror s && (macerror_answer e seen =? 0)%Z then mret (Some LIBSSH2_MAC_CONFIRMED)
  else
    libssh2_error LIBSSH2_ERROR_INVALID_MAC;;
    (if cb_disconnect s
     then emit (CB_disconnect SSH_DISCONNECT_MAC_ERROR &"Invalid MAC received" [])
     else mret ());;
    mret None.

(** A message and a language tag, as the disconnect and debug packets carry them
    from [ofs] on: terminators are written over the packet, so the text must lie
    inside the buffer. *)
Definition message_language (data : str) (ofs : nat) : ST (str * str) :=
  message_len ← ntohu32 data (ofs - 4);
  if (2 ^ 31 <=? message_len)%Z then undefined else
  let m := Z.to_nat message_len in
  language_len ← ntohu32 data (ofs + m);
  if (2 ^ 31 <=? language_len)%Z then undefined else
  message ← bytes m data ofs;
  language ← bytes (Z.to_nat language_len) data (ofs + m + 4);
  mret (message, language).

Definition disconnect_packet (data : str) : ST Z :=
  reason ← ntohu32 data 1;
  ml ← message_language data 9;
  s ← get_session;
  (if cb_disconnect s then emit (CB_disconnect (s32 reason) ml.1 ml.2) else mret ());;
  modify (set_socket_state LIBSSH2_SOCKET_DISCONNECTED);;
  mret (-1)%Z.

(** The terminator of an ignore packet goes to [data\[datalen\]]. *)
Definition ignore_packet (data : str) (datalen : Z) : ST Z :=
  if decide (datalen < 5 ∨ Z.of_nat (length data) ≤ datalen)%Z then undefined else
  s ← get_session;
  (if cb_ignore s then emit (CB_ignore (take (Z.to_nat datalen - 5) (drop 5 data))) else mret ());;
  mret 0%Z.

(** [LIBSSH2_DEBUG] calls the disconnect callback. *)
Definition debug_packet (data : str) : ST Z :=
  always_display ← byte_at data 0;
  ml ← message_language data 6;
  s ← get_session;
  (if cb_debug s then
     if cb_disconnect s then emit (CB_disconnect always_display ml.1 ml.2) else undefined
   else mret ());;
  mret 0%Z.

(** What the window of the channel lets through: the length kept of a data packet,
    [None] when it is dropped. *)
Definition data_packet (data : str) (datalen data_head : Z) : ST (option Z) :=
  i ← ntohu32 data 1;
  found ← libssh2_channel_locate i;
  match found with
  | None => libssh2_error LIBSSH2_ERROR_CHANNEL_UNKNOWN;; mret None
  | Some c =>
      type ← byte_at data 0;
      let r := ch_remote c in
      if (extended_data_ignore_mode r =? LIBSSH2_CHANNEL_EXTENDED_DATA_IGNORE)%Z &&
         (type =? SSH_MSG_CHANNEL_EXTENDED_DATA)%Z then
        _ ← libssh2_channel_receive_window_adjust i (usub datalen 13) false;
        mret None
      else
        let exceeds := (packet_size r <? usub datalen data_head)%Z in
        (if exceeds then libssh2_error LIBSSH2_ERROR_CHANNEL_PACKET_EXCEEDED else mret ());;
        let datalen := if exceeds then u32 (packet_size r + data_head) else datalen in
        if (window_size r =? 0)%Z then
          libssh2_error LIBSSH2_ERROR_CHANNEL_WINDOW_EXCEEDED;; mret None
        else
          update_channel i (on_remote (set_eof false));;
          if (window_size r <? usub datalen data_head)%Z then
            libssh2_error LIBSSH2_ERROR_CHANNEL_WINDOW_EXCEEDED;;
            mret (Some (u32 (window_size r + data_head)))
          else
            update_channel i (on_remote (λ d,
              set_window_size (usub (window_size d) (usub datalen data_head)) d));;
            mret (Some datalen)
  end.

(** A change of the channel a packet names, if there is one. *)
Definition if_channel (data : str) (f : channel → channel) : ST Z :=
  i ← ntohu32 data 1;
  update_channel i f;;
  mret 0%Z.

Definition is_prefix (n : nat) (data : str) (i : nat) (s : str) : ST bool :=
  d ← bytes n data i; mret (bool_decide (d = s)).

(** A channel request: [true] when it was an exit status. *)
Definition request_packet (data : str) : ST bool :=
  len ← ntohu32 data 5;
  if negb (len =? 11)%Z then mret false else
  is_exit ← is_prefix 11 data 9 &"exit-status";
  if negb is_exit then mret false else
  i ← ntohu32 data 1;
  found ← libssh2_channel_locate i;
  match found with
  | None => mret true
  | Some _ =>
      status ← ntohu32 data 21;
      update_channel i (set_exit_status (s32 status));;
      mret true
  end.

(** A channel-open packet of a type that is accepted here. *)
Definition opens (data : str) (datalen : Z) (type : str) : ST bool :=
  if (datalen <? Z.of_nat (length type) + 5)%Z then mret false else
  len ← ntohu32 data 1;
  if negb (len =? Z.of_nat (length type))%Z then mret false
  else is_prefix (length type) data 5 type.

Definition window_adjust_packet (data : str) : ST Z :=
  bytestoadd ← ntohu32 data 5;
  if_channel data (on_local (λ d, set_window_size (u32 (window_size d + bytestoadd)) d)).

(** What is done with a packet at once: the return code of [libssh2_packet_add],
    or the length and the head of the packet that joins the brigade. *)
Definition packet_exceptions (data : str) (datalen : Z) : ST (Z + Z * Z) :=
  type ← byte_at data 0;
  let finish (m : ST Z) : ST (Z + Z * Z) := rc ← m; mret (inl rc) in
  let keep : ST (Z + Z * Z) := mret (inr (datalen, 0%Z)) in
  if (type =? SSH_MSG_DISCONNECT)%Z then finish (disconnect_packet data)
  else if (type =? SSH_MSG_IGNORE)%Z then finish (ignore_packet data datalen)
  else if (type =? SSH_MSG_DEBUG)%Z then finish (debug_packet data)
  else if (type =? SSH_MSG_CHANNEL_EXTENDED_DATA)%Z || (type =? SSH_MSG_CHANNEL_DATA)%Z then
    let data_head := if (type =? SSH_MSG_CHANNEL_EXTENDED_DATA)%Z then 13%Z else 9%Z in
    kept ← data_packet data datalen data_head;
    mret (match kept with None => inl 0%Z | Some datalen => inr (datalen, data_head) end)
  else if (type =? SSH_MSG_CHANNEL_EOF)%Z then finish (if_channel data (on_remote (set_eof true)))
  else if (type =? SSH_MSG_CHANNEL_REQUEST)%Z then
    handled ← request_packet data;
    if (handled : bool) then mret (inl 0%Z) else keep
  else if (type =? SSH_MSG_CHANNEL_CLOSE)%Z then
    finish (if_channel data (on_remote (set_close true)))
  else if (type =? SSH_MSG_CHANNEL_OPEN)%Z then
    forwarded ← opens data datalen &"forwarded-tcpip";
    if (forwarded : bool) then finish (libssh2_packet_queue_listener data) else
    x11 ← opens data datalen &"x11";
    if (x11 : bool) then finish (libssh2_packet_x11_open data) else keep
  else if (type =? SSH_MSG_CHANNEL_WINDOW_ADJUST)%Z then finish (window_adjust_packet data)
  else keep.

(** The key exchange that a [KEXINIT] of the other side starts ([kex.c]). *)
Context (kex_exchange : ST Z).

Definition libssh2_packet_add (data : str) (datalen macstate : Z) : ST Z :=
  checked ← check_mac data datalen macstate;
  match checked with
  | None => mret (-1)%Z
  | Some macstate =>
      r ← packet_exceptions data datalen;
      match r with
      | inl rc => mret rc
      | inr (datalen, data_head) =>
          ok ← alloc e;
          if negb ok then undefined else
          modify (λ s, set_packets (packets s ++ [mk_packet data datalen data_head macstate]) s);;
          type ← byte_at data 0;
          exchanging ← gets (has_state LIBSSH2_STATE_EXCHANGING_KEYS);
          if (type =? SSH_MSG_KEXINIT)%Z && negb exchanging
          then _ ← kex_exchange; mret 0%Z else mret 0%Z
      end
  end.

(** ** Reading from the socket *)

(** The loop of [libssh2_blocking_read] until [want] more bytes have come: the
    return code ([None]: all of them), the bytes, the answers left, and whether the
    socket is gone. Without more answers it waits for ever, and the end of the
    stream ([recv] gives 0) does not end it. *)
Fixpoint read_events (evs : list recv_event) (want : nat) (acc : str)
    : res (bool * str * list recv_event * bool) :=
  match want with
  | 0 => Ok (true, acc, evs, false)
  | _ =>
      match evs with
      | [] => Undef
      | Recv_bytes s :: evs =>
          if decide (want < length s) then
            Ok (true, acc ++ take want s, Recv_bytes (drop want s) :: evs, false)
          else read_events evs (want - length s) (acc ++ s)
      | Recv_again ready :: evs =>
          if (ready : bool) then read_events evs want acc else Ok (false, acc, evs, false)
      | Recv_error errno :: evs =>
          if (errno =? EINTR)%Z then read_events evs want acc
          else Ok (false, acc, evs,
                   (errno =? EBADF)%Z || (errno =? EIO)%Z || (errno =? ENOTCONN)%Z)
      end
  end.

(** [libssh2_blocking_read]: the value returned and the bytes stored. *)
Definition libssh2_blocking_read (count : nat) : ST (Z * str) :=
  s ← get_session;
  r ← lift (read_events (incoming s) count []);
  let '(ok, buf, evs, gone) := r in
  modify (set_incoming evs);;
  (if (gone : bool) then modify (set_socket_state LIBSSH2_SOCKET_DISCONNECTED) else mret ());;
  mret (if (ok : bool) then Z.of_nat count else (-1)%Z, buf).

(** [recv] of one byte from the non-blocking socket. *)
Definition recv_one : ST (Z * str) :=
  evs ← gets incoming;
  match evs with
  | [] => mret ((-1)%Z, [])
  | Recv_bytes [] :: evs => modify (set_incoming evs);; mret (0%Z, [])
  | Recv_bytes (c :: s) :: evs =>
      modify (set_incoming (match s with [] => evs | _ => Recv_bytes s :: evs end));;
      mret (1%Z, [c])
  | _ :: evs => modify (set_incoming evs);; mret ((-1)%Z, [])
  end.

(** The value when a read came short. *)
Definition short_read : ST Z :=
  gone ← gets disconnected; mret (if (gone : bool) then 0 else -1)%Z.

(** One block is decrypted. *)
Definition decrypt (block : str) : ST (option str) :=
  ep ← gets s_remote;
  match crypt_block (crypt ep) (crypt_abstract ep) block with
  | None => libssh2_error LIBSSH2_ERROR_DECRYPT;; mret None
  | Some (abstract, block) => update_remote (set_crypt_abstract abstract);; mret (Some block)
  end.

(** [strncmp (a, b, n) == 0]: the comparison ends at a zero byte. *)
Fixpoint strncmp_equal (n : nat) (a b : str) : bool :=
  match n, a, b with
  | S n, x :: a, y :: b =>
      if decide (x = y) then if decide (x = NUL) then true else strncmp_equal n a b else false
  | _, _, _ => true
  end.

(** The loop that reads the rest of the payload, block by block. The length read
    is compared as an unsigned number, so that -1 is not short, and then bytes that
    were not read are used. *)
Fixpoint read_blocks (fuel bs : nat) (payload : str) (payload_len : Z) : ST (option str) :=
  if (Z.of_nat (length payload) <? payload_len)%Z then
    match fuel with
    | 0 => undefined
    | S fuel =>
        r ← libssh2_blocking_read bs;
        if (u32 r.1 <? Z.of_nat bs)%Z then mret None
        else if decide (length r.2 < bs) then undefined
        else
          block ← decrypt r.2;
          match block with
          | None => mret None
          | Some block => read_blocks fuel bs (payload ++ block) payload_len
          end
    end
  else if (payload_len <? Z.of_nat (length payload))%Z then undefined
  else mret (Some payload).

(** The payload without its padding, decompressed. *)
Definition unpack (payload : str) (payload_len : Z) : ST (option (str * Z)) :=
  ep ← gets s_remote;
  if decide (comp_name (comp ep) = &"none") then mret (Some (payload, payload_len))
  else if (Z.of_nat (length payload) <? payload_len)%Z then undefined
  else
    data ← run_comp false LIBSSH2_PACKET_MAXDECOMP (take (Z.to_nat payload_len) payload);
    mret ((λ data, (data, Z.of_nat (length data))) <$> data).

(** After the payload: the MAC, the padding, the compression, the packet. *)
Definition finish_encrypted (tmp payload : str) (payload_len : Z) (padding_len : Z) : ST Z :=
  ep ← gets s_remote;
  r ← libssh2_blocking_read (mac_len (mac_m ep));
  if (r.1 <? Z.of_nat (mac_len (mac_m ep)))%Z then mret (-1)%Z else
  let digest := mac_hash (mac_m ep) (mac_abstract ep) (seqno ep) (tmp ++ payload) in
  let macstate := if strncmp_equal (mac_len (mac_m ep)) r.2 digest
                  then LIBSSH2_MAC_CONFIRMED else LIBSSH2_MAC_INVALID in
  update_remote next_seqno;;
  unpacked ← unpack payload (usub payload_len padding_len);
  match unpacked with
  | None => mret (-1)%Z
  | Some (payload, payload_len) =>
      packet_type ← byte_at payload 0;
      _ ← libssh2_packet_add payload payload_len macstate;
      mret packet_type
  end.

(** The first block: [None] when the function returns at once. *)
Definition first_block (should_block : bool) (bs : nat) : ST (option (Z * str)) :=
  if should_block then r ← libssh2_blocking_read bs; mret (Some r)
  else
    r1 ← recv_one;
    if (r1.1 <=? 0)%Z then mret None
    else
      r2 ← libssh2_blocking_read (bs - 1);
      mret (Some ((r1.1 + r2.1)%Z, r1.2 ++ r2.2)).

(** A block size of 0 divides by zero. *)
Definition read_encrypted (should_block : bool) : ST Z :=
  bs ← gets (λ s, blocksize (crypt (s_remote s)));
  first ← first_block should_block bs;
  match first with
  | None => mret 0%Z
  | Some (read_len, raw) =>
      if (u32 read_len <? Z.of_nat bs)%Z then short_read
      else if decide (length raw < bs) then undefined
      else
        block ← decrypt raw;
        match block with
        | None => mret (-1)%Z
        | Some block =>
            packet_len ← ntohu32 block 0;
            padding_len ← byte_at block 4;
            let payload_len := usub packet_len 1 in
            if (payload_len <=? LIBSSH2_PACKET_MAXPAYLOAD)%Z && (bs =? 0)%nat then undefined
            else if (LIBSSH2_PACKET_MAXPAYLOAD <? payload_len)%Z ||
               negb (u32 (packet_len + 4) mod Z.of_nat bs =? 0)%Z then
              modify (set_socket_state LIBSSH2_SOCKET_DISCONNECTED);;
              libssh2_error LIBSSH2_ERROR_PROTO;; mret (-1)%Z
            else
              ok ← alloc e;
              if negb ok then undefined else
              payload ← read_blocks (Z.to_nat payload_len) bs (drop 5 block) payload_len;
              match payload with
              | None => mret (-1)%Z
              | Some payload => finish_encrypted (take 5 block) payload payload_len padding_len
              end
        end
  end.

(** The five bytes in front of a plain packet: what [buf_len] becomes and what has
    been stored in [buf], [None] when the function returns at once. In the second
    case the bytes after the first are stored at [buf], over it, and a failed
    [recv] is not noticed ([buf_len] is unsigned). *)
Definition plain_header (should_block : bool) : ST (option (Z * str)) :=
  if should_block then r ← libssh2_blocking_read 5; mret (Some (u32 r.1, r.2))
  else
    r1 ← recv_one;
    if (u32 r1.1 =? 0)%Z then mret None
    else
      r2 ← libssh2_blocking_read (Z.to_nat (usub 5 (u32 r1.1)));
      mret (Some (u32 (u32 r1.1 + r2.1), r2.2 ++ drop (length r2.2) r1.2)).

(** The padding goes to the 24 bytes of [buf]. *)
Definition flush_padding (padding_length : Z) : ST () :=
  if (padding_length =? 0)%Z then mret () else
  r ← libssh2_blocking_read (Z.to_nat padding_length);
  if decide (24 < length r.2) then undefined else mret ().

Definition read_plain (should_block : bool) : ST Z :=
  header ← plain_header should_block;
  match header with
  | None => mret 0%Z
  | Some (buf_len, buf) =>
      if (buf_len <? 5)%Z then mret (-1)%Z else
      packet_length ← ntohu32 buf 0;
      padding_length ← byte_at buf 4;
      let payload_len := usub packet_length (padding_length + 1) in
      ok ← alloc e;
      if negb ok then libssh2_error LIBSSH2_ERROR_ALLOC;; mret (-1)%Z else
      r ← libssh2_blocking_read (Z.to_nat payload_len);
      if (u32 r.1 <? payload_len)%Z then short_read
      else if (Z.of_nat (length r.2) <? payload_len)%Z then undefined
      else
        flush_padding padding_length;;
        packet_type ← byte_at r.2 0;
        _ ← libssh2_packet_add r.2 payload_len LIBSSH2_MAC_CONFIRMED;
        update_remote next_seqno;;
        mret packet_type
  end.

Definition libssh2_packet_read (should_block : bool) : ST Z :=
  gone ← gets disconnected;
  if (gone : bool) then mret 0%Z else
  new_keys ← gets (has_state LIBSSH2_STATE_NEWKEYS);
  if (new_keys : bool) then read_encrypted should_block else read_plain should_block.

(** ** The brigade *)

(** The packets a caller asks for: a type, and bytes at an offset. *)
Definition packet_matches (packet_type : Z) (match_ofs : nat) (match_buf : str) (p : packet) : res bool :=
  match data p with
  | [] => Undef
  | c :: _ =>
      if negb (code c =? packet_type)%Z then Ok false
      else if (data_len p <? Z.of_nat (match_ofs + length match_buf))%Z then Ok false
      else let! d := bytes_at (length match_buf) (data p) match_ofs in
           Ok (bool_decide (d = match_buf))
  end.

(** The first packet that matches, and the others. *)
Fixpoint pick (f : packet → res bool) (ps : list packet) : res (option packet * list packet) :=
  match ps with
  | [] => Ok (None, [])
  | p :: ps =>
      let! m := f p in
      if (m : bool) then Ok (Some p, ps)
      else let! (found, ps) := pick f ps in Ok (found, p :: ps)
  end.

(** [libssh2_packet_ask_ex]: the data of the packet, [None] for -1. The head of the
    brigade is read before the socket is, so a brigade that was empty stays so. *)
Definition libssh2_packet_ask_ex (packet_type : Z) (match_ofs : nat) (match_buf : str)
    (poll_socket : bool) : ST (option (str * Z)) :=
  empty ← gets (λ s, bool_decide (packets s = []));
  rc ← (if poll_socket then libssh2_packet_read false else mret 0%Z);
  if (rc <? 0)%Z || (empty : bool) then mret None else
  ps ← gets packets;
  r ← lift (pick (packet_matches packet_type match_ofs match_buf) ps);
  modify (set_packets r.2);;
  mret ((λ p, (data p, data_len p)) <$> r.1).

Fixpoint askv (packet_types : list Z) (match_ofs : nat) (match_buf : str) (poll_socket : bool)
    : ST (option (str * Z)) :=
  match packet_types with
  | [] => mret None
  | t :: packet_types =>
      r ← libssh2_packet_ask_ex t match_ofs match_buf poll_socket;
      match r with
      | Some d => mret (Some d)
      | None => askv packet_types match_ofs match_buf false
      end
  end.

Definition libssh2_packet_askv_ex := askv.

(** The bytes and answers that are still to come: each packet that is read uses
    one of them. *)
Definition fuel_of (s : session) : nat :=
  S (length (incoming s) +
     sum_list ((λ ev, match ev with Recv_bytes b => length b | _ => 0 end) <$> incoming s)).

(** The waiting loops: packets are read until one has a type in [types]; [None]
    when the socket dies. *)
Fixpoint wait_type (fuel : nat) (alive : session → bool) (types : Z → bool) : ST (option Z) :=
  up ← gets alive;
  if negb up then mret None else
  match fuel with
  | 0 => undefined
  | S fuel =>
      ret ← libssh2_packet_read true;
      if (ret <? 0)%Z then mret None
      else if (ret =? 0)%Z then wait_type fuel alive types
      else if types ret then mret (Some ret)
      else wait_type fuel alive types
  end.

Definition libssh2_packet_require_ex (packet_type : Z) (match_ofs : nat) (match_buf : str)
    : ST (option (str * Z)) :=
  r ← libssh2_packet_ask_ex packet_type match_ofs match_buf false;
  match r with
  | Some d => mret (Some d)
  | None =>
      fuel ← gets fuel_of;
      ret ← wait_type fuel connected (λ t, (t =? packet_type)%Z);
      match ret with
      | None => mret None
      | Some _ => libssh2_packet_ask_ex packet_type match_ofs match_buf false
      end
  end.

Definition libssh2_packet_requirev_ex (packet_types : list Z) (match_ofs : nat) (match_buf : str)
    : ST (option (str * Z)) :=
  r ← libssh2_packet_askv_ex packet_types match_ofs match_buf false;
  match r with
  | Some d => mret (Some d)
  | None =>
      fuel ← gets fuel_of;
      ret ← wait_type fuel (λ s, negb (disconnected s)) (λ t, bool_decide (t ∈ packet_types));
      match ret with
      | None => mret None
      | Some _ => libssh2_packet_askv_ex packet_types match_ofs match_buf false
      end
  end.

(** [libssh2_packet_burn]: the array of the 255 types has no terminator, so the
    bytes [beyond] it, up to a zero, are types too. *)
Definition libssh2_packet_burn (beyond : list Z) : ST Z :=
  r ← libssh2_packet_askv_ex ((Z.of_nat <$> seq 1 255) ++ beyond) 0 [] false;
  match r with
  | Some (d, _) => byte_at d 0
  | None =>
      let fix loop (fuel : nat) : ST Z :=
        up ← gets connected;
        if negb up then mret (-1)%Z else
        match fuel with
        | 0 => undefined
        | S fuel =>
            ret ← libssh2_packet_read true;
            if (ret <? 0)%Z then mret (-1)%Z
            else if (ret =? 0)%Z then loop fuel
            else
              r ← libssh2_packet_ask_ex ret 0 [] false;
              match r with Some _ => mret ret | None => loop fuel end
        end in
      fuel ← gets fuel_of;
      loop fuel
  end.
End packet.

(** ** Framing *)

Lemma padding_for_spec block_size len :
  8 ≤ block_size →
  4 ≤ padding_for block_size len < block_size + 4 ∧
  (len + 5 + padding_for block_size len) mod block_size = 0.
Proof.
  intros Hb. unfold padding_for.
  replace (len + 1 + 4) with (len + 5) by lia. set (m := (len + 5) mod block_size).
  assert (Hm : m < block_size) by (apply Nat.mod_upper_bound; lia).
  pose proof (Nat.div_mod_eq (len + 5) block_size) as E. fold m in E.
  set (q := (len + 5) / block_size) in *. split; [case_decide; lia|].
  apply Nat.Lcm0.mod_divide. case_decide.
  - exists (q + 2). lia.
  - exists (q + 1). lia.
Qed.

Lemma length_htonu32 v : length (libssh2_htonu32 v) = 4.
Proof. done. Qed.

Lemma length_header n k : length (packet_header n k) = 5.
Proof. done. Qed.

(** ** Reading what was written *)

Section roundtrip.
Context (e : surroundings) (kex_exchange : ST Z).
Context (Hstack : ∀ n k, length (stack_bytes e n k) = k).
Context (Halloc : ∀ n, alloc_ok e n = true).

Lemma read_events_take a b evs :
  a ≠ [] → b ≠ [] →
  read_events (Recv_bytes (a ++ b) :: evs) (length a) [] = Ok (true, a, Recv_bytes b :: evs, false).
Proof.
  intros Ha Hb. destruct a as [|c a]; [done|]. cbn [read_events length].
  rewrite decide_True.
  - change (S (length a)) with (length (c :: a)). by rewrite take_app_length, drop_app_length.
  - rewrite length_app. destruct b; [done|]. simpl. lia.
Qed.

Lemma read_events_all a evs :
  a ≠ [] → read_events (Recv_bytes a :: evs) (length a) [] = Ok (true, a, evs, false).
Proof.
  intros Ha. destruct a as [|c a]; [done|]. cbn [read_events length].
  rewrite decide_False by (simpl; lia). simpl length. rewrite Nat.sub_diag. by destruct evs.
Qed.

Lemma blocking_read_ok s count a evs :
  read_events (incoming s) count [] = Ok (true, a, evs, false) →
  libssh2_blocking_read count s = Ok ((Z.of_nat count, a), set_incoming evs s).
Proof.
  intros H. unfold libssh2_blocking_read, mbind, ST_bind, get_session, lift, modify. by rewrite H.
Qed.

(** A packet that is only put in the brigade. *)
Definition plain_type (t : Z) : bool :=
  bool_decide (t ∉ [SSH_MSG_DISCONNECT; SSH_MSG_IGNORE; SSH_MSG_DEBUG; SSH_MSG_KEXINIT;
    SSH_MSG_CHANNEL_OPEN; SSH_MSG_CHANNEL_WINDOW_ADJUST; SSH_MSG_CHANNEL_DATA;
    SSH_MSG_CHANNEL_EXTENDED_DATA; SSH_MSG_CHANNEL_EOF; SSH_MSG_CHANNEL_CLOSE;
    SSH_MSG_CHANNEL_REQUEST]).

Lemma packet_add_plain s c data macstate :
  plain_type (code c) = true → macstate ≠ LIBSSH2_MAC_INVALID →
  libssh2_packet_add e kex_exchange (c :: data) (Z.of_nat (length (c :: data))) macstate s =
  Ok (0%Z, set_packets
    (packets s ++ [mk_packet (c :: data) (Z.of_nat (length (c :: data))) 0 macstate])
    (set_allocs (S (allocs s)) s)).
Proof.
  intros Ht Hm. unfold plain_type in Ht. apply bool_decide_eq_true_1 in Ht.
  rewrite !not_elem_of_cons in Ht. destruct Ht as (H1 & H2 & H3 & H4 & H5 & H6 & H7 & H8 & H9 & H10 & H11 & _).
  unfold libssh2_packet_add. rewrite (bind_Ok _ _ s (Some macstate) s).
  2: { unfold check_mac. rewrite (proj2 (Z.eqb_neq _ _)) by done. done. }
  cbv beta. rewrite (bind_Ok _ _ s (inr (Z.of_nat (length (c :: data)), 0%Z)) s).
  2: { unfold packet_exceptions. rewrite (bind_Ok _ _ s (code c) s) by done.
       rewrite !(proj2 (Z.eqb_neq _ _)) by done. done. }
  cbv beta iota. erewrite bind_Ok; [|done]. cbv beta. rewrite Halloc.
  cbn [negb]. erewrite bind_Ok; [|done]. cbv beta. erewrite bind_Ok; [|done]. cbv beta.
  erewrite bind_Ok; [|done]. rewrite (proj2 (Z.eqb_neq (code c) SSH_MSG_KEXINIT)) by done. done.
Qed.

(** The bytes of a plain packet. *)
Definition plain_frame (n : nat) (data : str) : str :=
  packet_header (length data) (padding_for 8 (length data)) ++ data ++
  stack_bytes e n (padding_for 8 (length data)).

Lemma read_plain_frame s n c data evs :
  plain_type (code c) = true → (Z.of_nat (length (c :: data)) < 2 ^ 31)%Z →
  incoming s = Recv_bytes (plain_frame n (c :: data)) :: evs →
  read_plain e kex_exchange true s =
  Ok (code c,
      set_s_remote (next_seqno (s_remote s))
        (set_packets (packets s ++
           [mk_packet (c :: data) (Z.of_nat (length (c :: data))) 0 LIBSSH2_MAC_CONFIRMED])
          (set_allocs (S (S (allocs s))) (set_incoming evs s)))).
Proof.
  intros Ht Hlen Hin. set (d := c :: data) in *.
  destruct (padding_for_spec 8 (length d)) as [Hp _]; [lia|]. unfold plain_frame in Hin.
  set (k := padding_for 8 (length d)) in *. set (h := packet_header (length d) k) in *.
  set (pad := stack_bytes e n k) in *. assert (Hpad : length pad = k) by apply Hstack.
  assert (Hd0 : d ≠ []) by done. assert (Hp0 : pad ≠ []) by (intros E; rewrite E in Hpad; simpl in Hpad; lia).
  set (s1 := set_incoming (Recv_bytes (d ++ pad) :: evs) s).
  set (s2 := set_allocs (S (allocs s)) s1). set (s3 := set_incoming (Recv_bytes pad :: evs) s2).
  set (s4 := set_incoming evs s3). unfold read_plain.
  rewrite (bind_Ok _ _ s (Some (5%Z, h)) s1).
  2: { unfold plain_header. rewrite (bind_Ok _ _ s (5%Z, h) s1); [done|].
       apply (blocking_read_ok s 5). rewrite Hin. apply (read_events_take h); [done|].
       by destruct d. }
  cbv beta iota. cbn [Z.ltb Z.compare Pos.compare Pos.compare_cont].
  set (v := Z.of_nat (length d + 1 + k)).
  rewrite (bind_Ok _ _ s1 v s1).
  2: { apply (ntohu32_ok s1 [] v). subst v. unfold in_u. lia. }
  cbv beta. rewrite (bind_Ok _ _ s1 (Z.of_nat k) s1).
  2: { change h with (libssh2_htonu32 v ++ [of_code (u8 (Z.of_nat k))]).
       rewrite (byte_at_ok s1 (libssh2_htonu32 v)), (wrap_u_small 8), code_of_code by (unfold in_u; lia).
       done. }
  cbv beta zeta. replace (usub v (Z.of_nat k + 1)) with (Z.of_nat (length d)).
  2: { unfold usub. rewrite wrap_u_small; subst v; unfold in_u; lia. }
  rewrite (bind_Ok _ _ s1 true s2).
  2: { unfold alloc, gets, modify, mbind, ST_bind, mret, ST_ret. by rewrite Halloc. }
  cbn [negb]. cbv beta. rewrite Nat2Z.id. rewrite (bind_Ok _ _ s2 (Z.of_nat (length d), d) s3).
  2: { apply blocking_read_ok, read_events_take; done. }
  cbv beta. cbn [fst snd]. rewrite (wrap_u_small 32) by (unfold in_u; lia). rewrite Z.ltb_irrefl.
  rewrite (bind_Ok _ _ s3 () s4).
  2: { unfold flush_padding. rewrite (proj2 (Z.eqb_neq _ _)) by lia. rewrite Nat2Z.id.
       rewrite (bind_Ok _ _ s3 (Z.of_nat k, pad) s4).
       - cbn [snd]. by rewrite decide_False by lia.
       - apply blocking_read_ok. rewrite <- Hpad. by apply read_events_all. }
  cbv beta. rewrite (bind_Ok _ _ s4 (code c) s4) by done. cbv beta.
  erewrite bind_Ok by by apply packet_add_plain. done.
Qed.
End roundtrip.



(** Every packet sent has between 4 and 255 bytes of padding, its length field
    counts what follows it, and its length is a multiple of the block size, for any
    block size the buffer of [libssh2_packet_write] allows for. *)
Lemma packet_framing block_size data padding :
  8 ≤ block_size ≤ 240 → (Z.of_nat (length data) < 2 ^ 31)%Z →
  length padding = padding_for block_size (length data) →
  let frame := packet_header (length data) (length padding) ++ data ++ padding in
  4 ≤ length padding ≤ 255 ∧ length frame mod block_size = 0 ∧
  libssh2_ntohu32 frame 0 = Ok (Z.of_nat (length frame - 4)) ∧
  code <$> (frame !! 4) = Some (Z.of_nat (length padding)).
Proof.
  intros Hb Hl Hp frame. destruct (padding_for_spec block_size (length data)) as [H1 H2]; [lia|].
  rewrite <- Hp in H1, H2.
  assert (Hf : length frame = length data + 5 + length padding).
  { unfold frame. rewrite !length_app, length_header. lia. }
  split_and!; [lia|lia|by rewrite Hf|..].
  - set (v := Z.of_nat (length data + 1 + length padding)).
    assert (Hv : Z.of_nat (length frame - 4) = v) by (rewrite Hf; subst v; lia).
    rewrite Hv. unfold frame, packet_header. fold v. rewrite <- !app_assoc.
    apply (ntohu32_at [] v). subst v. unfold in_u. lia.
  - cbn -[Z.of_nat wrap_u]. f_equal. rewrite (wrap_u_small 8), code_of_code; unfold in_u; lia.
Qed.

Lemma packet_framing_witness :
  length (packet_header 6 (padding_for 8 6) ++ &"5hello" ++ replicate (padding_for 8 6) NUL) mod 8 = 0.
Proof.
  destruct (packet_framing 8 &"5hello" (replicate (padding_for 8 6) NUL)) as (_ & H & _).
  - lia.
  - vm_compute. reflexivity.
  - reflexivity.
  - exact H.
Defined.

(** ** The receive window *)

Lemma find_change cs i c f :
  find_channel cs i = Some c → ch_id (f c) = ch_id c →
  find_channel (change_channel f cs i) i = Some (f c).
Proof.
  intros H Hf. induction cs as [|d cs IH]; [done|]. cbn [find_channel change_channel] in *.
  destruct (ch_id d =? i)%Z eqn:E.
  - injection H as ->. cbn [find_channel]. by rewrite Hf, E.
  - cbn [find_channel]. rewrite E. by apply IH.
Qed.

Lemma find_id cs i c : find_channel cs i = Some c → ch_id c = i.
Proof.
  induction cs as [|d cs IH]; [done|]. cbn [find_channel].
  destruct (ch_id d =? i)%Z eqn:E; [|done]. intros [= ->]. lia.
Qed.

(** C19. A data packet that is kept carries at most what the channel's window and
    packet size allow, and the window shrinks by what is kept, unless the packet was
    cut to the window: then the window stays as it was. *)
Theorem data_packet_window e data datalen head s kept s' i c :
  data_packet e data datalen head s = Ok (Some kept, s') →
  libssh2_ntohu32 data 1 = Ok i → find_channel (channels s) i = Some c →
  (0 ≤ head ≤ datalen)%Z → (datalen < 2 ^ 31)%Z →
  in_u 31 (window_size (ch_remote c)) → in_u 31 (packet_size (ch_remote c)) → (head < 2 ^ 4)%Z →
  (head ≤ kept ≤ datalen)%Z ∧ (kept - head ≤ window_size (ch_remote c))%Z ∧
  (kept - head ≤ packet_size (ch_remote c))%Z ∧
  ∃ c', find_channel (channels s') i = Some c' ∧ ch_local c' = ch_local c ∧
    window_size (ch_remote c') =
      if decide (Z.min (datalen - head) (packet_size (ch_remote c)) ≤ window_size (ch_remote c))%Z
      then (window_size (ch_remote c) - (kept - head))%Z else window_size (ch_remote c).
Proof.
  intros H Hi Hc Hh Hd Hw Hp Hh4. unfold in_u in Hw, Hp.
  unfold data_packet in H. unfold ntohu32 in H. rewrite Hi in H.
  erewrite bind_Ok in H by reflexivity. unfold libssh2_channel_locate in H.
  erewrite bind_Ok in H by (unfold gets; by rewrite Hc). cbv beta iota in H.
  apply bind_inv in H as (type & s1 & H1 & H).
  assert (s1 = s) as ->. { unfold byte_at in H1. destruct (data !! 0); by inversion H1. }
  destruct (_ && _) in H; [by apply bind_inv in H as (? & ? & _ & [= ?])|].
  assert (E1 : usub datalen head = (datalen - head)%Z).
  { unfold usub. apply wrap_u_small. unfold in_u. lia. }
  rewrite E1 in H. set (cut := if (_ <? _)%Z then _ else datalen) in H.
  assert (Hcut : cut = (head + Z.min (datalen - head) (packet_size (ch_remote c)))%Z).
  { subst cut. destruct (Z.ltb_spec (packet_size (ch_remote c)) (datalen - head)); [|lia].
    rewrite wrap_u_small by (unfold in_u; lia). lia. }
  apply bind_inv in H as ([] & s1 & H2 & H).
  assert (Hs1 : channels s1 = channels s).
  { destruct (_ <? _)%Z in H2; by inversion H2. }
  destruct (Z.eqb_spec (window_size (ch_remote c)) 0) as [E0|E0];
    [by apply bind_inv in H as (? & ? & _ & [= ?])|].
  assert (E2 : usub cut head = (cut - head)%Z).
  { unfold usub. apply wrap_u_small. unfold in_u. lia. }
  rewrite E2 in H. apply bind_inv in H as ([] & s2 & [= <-] & H).
  assert (Hf : find_channel (change_channel (on_remote (set_eof false)) (channels s1) i) i =
               Some (on_remote (set_eof false) c)).
  { apply find_change; [by rewrite Hs1|done]. }
  destruct (Z.ltb_spec (window_size (ch_remote c)) (cut - head)) as [Hl|Hl].
  - apply bind_inv in H as ([] & s3 & [= <-] & [= <- <-]).
    rewrite wrap_u_small by (unfold in_u; lia). split_and!; [lia..|].
    exists (on_remote (set_eof false) c). split; [exact Hf|]. split; [done|].
    rewrite decide_False by lia. done.
  - apply bind_inv in H as ([] & s3 & [= <-] & [= <- <-]). split_and!; [lia..|].
    eexists. split; [apply find_change; [exact Hf|done]|]. split; [done|].
    rewrite decide_True by lia. cbn. unfold usub.
    rewrite wrap_u_small by (unfold in_u; lia). lia.
Qed.

Definition demo_channel (w p : Z) : channel :=
  incoming_channel &"session" {| sender_channel := 7; initial_window_size := w; open_packet_size := p |} 0.

Lemma data_packet_window_witness :
  let s := set_channels [on_remote (set_window_size 3) (demo_channel 9 9)] (demo_session []) in
  ∃ s', data_packet demo_surroundings (of_code 94 :: libssh2_htonu32 0 ++ libssh2_htonu32 5 ++ &"hello")
          14 9 s = Ok (Some 12%Z, s') ∧
        ∃ c', find_channel (channels s') 0 = Some c' ∧ window_size (ch_remote c') = 3%Z.
Proof.
  intros s. destruct (data_packet demo_surroundings
    (of_code 94 :: libssh2_htonu32 0 ++ libssh2_htonu32 5 ++ &"hello") 14 9 s) as [[[kept|] s']| |] eqn:E;
    [|by vm_compute in E..].
  assert (kept = 12%Z) as -> by (vm_compute in E; congruence).
  destruct (data_packet_window _ _ _ _ _ _ _ 0%Z (on_remote (set_window_size 3) (demo_channel 9 9)) E)
    as (_ & _ & _ & c' & Hc & _ & Hw).
  - vm_compute. reflexivity.
  - reflexivity.
  - lia.
  - lia.
  - vm_compute. split; congruence.
  - vm_compute. split; congruence.
  - lia.
  - exists s'. split; [done|]. exists c'. split; [exact Hc|]. exact Hw.
Defined.

(** The MAC is compared as a C string: digests that agree up to a zero byte are
    taken for equal. *)
Lemma mac_comparison_stops_at_zero a b n :
  strncmp_equal (S n) (NUL :: a) (NUL :: b) = true.
Proof. done. Qed.

(** Without blocking, the bytes after the first one overwrite it, and the fifth byte
    of the header is never stored. *)
Lemma nonblocking_header_undefined e kex_exchange c1 c2 c3 c4 c5 rest s :
  incoming s = [Recv_bytes (c1 :: c2 :: c3 :: c4 :: c5 :: rest)] → rest ≠ [] →
  read_plain e kex_exchange false s = Undef.
Proof.
  intros H Hr. set (s1 := set_incoming [Recv_bytes (c2 :: c3 :: c4 :: c5 :: rest)] s).
  unfold read_plain.
  rewrite (bind_Ok _ _ s (Some (5%Z, [c2; c3; c4; c5])) (set_incoming [Recv_bytes rest] s1)).
  - cbv beta iota. cbn [Z.ltb Z.compare Pos.compare Pos.compare_cont].
    by erewrite bind_Ok.
  - unfold plain_header. rewrite (bind_Ok _ _ s (1%Z, [c1]) s1).
    2: { unfold recv_one, gets, modify, mbind, ST_bind. by rewrite H. }
    cbv beta. change (u32 (fst (1%Z, [c1])) =? 0)%Z with false. cbv iota.
    change (Z.to_nat (usub 5 (u32 (fst (1%Z, [c1]))))) with 4.
    rewrite (bind_Ok _ _ s1 (4%Z, [c2; c3; c4; c5]) (set_incoming [Recv_bytes rest] s1)); [done|].
    apply (blocking_read_ok s1 4). by apply (read_events_take [c2; c3; c4; c5]).
Qed.
