(* ===== verification/Ssh2Channel.v ===== *)
(** * libssh2: channels ([ssh/libssh2/channel.c])

    Opening, requests, listeners, flushing, reading, writing and closing. A channel
    pointer is the channel's local identifier; following one whose channel has been
    freed is undefined. *)
From S2P Require Import Prelude StdString Ssh2Misc Ssh2Session Ssh2Packet.

Section channel.
Context (e : surroundings) (kex_exchange : ST Z).

Abbreviation packet_read := (libssh2_packet_read e kex_exchange).
Abbreviation packet_ask := (libssh2_packet_ask_ex e kex_exchange).
Abbreviation packet_requirev := (libssh2_packet_requirev_ex e kex_exchange).
Abbreviation packet_write := (libssh2_packet_write e).
Abbreviation htonu32 := libssh2_htonu32.

(** ** Freeing *)

(** The loop that throws away the data packets of a channel. Every packet found
    leaves the brigade, and one is read at each turn. *)
Fixpoint drop_data (fuel : nat) (channel_id : str) : ST () :=
  match fuel with
  | 0 => undefined
  | S fuel =>
      a ← packet_ask SSH_MSG_CHANNEL_DATA 1 channel_id true;
      match a with
      | Some _ => drop_data fuel channel_id
      | None =>
          b ← packet_ask SSH_MSG_CHANNEL_EXTENDED_DATA 1 channel_id true;
          match b with Some _ => drop_data fuel channel_id | None => mret () end
      end
  end.

Definition clear_packets (i : Z) : ST () :=
  s ← get_session;
  drop_data (length (packets s) + fuel_of s) (htonu32 i).

Fixpoint remove_channel (cs : list channel) (i : Z) : list channel :=
  match cs with
  | [] => []
  | c :: cs => if (ch_id c =? i)%Z then cs else c :: remove_channel cs i
  end.

(** ** [libssh2_channel_open_ex] *)

Definition new_channel (type : str) (i ws ps : Z) : channel :=
  {| channel_type := type; blocking := false; exit_status := 0;
     ch_local := {| id := i; window_size_initial := 0; window_size := 0; packet_size := 0;
                    close := false; eof := false; extended_data_ignore_mode := 0 |};
     ch_remote := {| id := 0; window_size_initial := ws; window_size := ws; packet_size := ps;
                     close := false; eof := false; extended_data_ignore_mode := 0 |};
     adjust_queue := 0; close_cb := false |}.

Definition open_packet (type : str) (i ws ps : Z) (message : str) : str :=
  of_code SSH_MSG_CHANNEL_OPEN :: ssh_string type ++ htonu32 i ++ htonu32 ws ++ htonu32 ps ++ message.

(** The fields of the confirmation. *)
Definition confirmed (remote_id ws ps : Z) (c : channel) : channel :=
  on_remote (set_id remote_id)
    (on_local (λ d, set_packet_size ps (set_window_size_initial ws (set_window_size ws d))) c).

(** [channel_error]: the channel leaves the session. *)
Definition open_error (i : Z) : ST (option Z) :=
  modify (λ s, set_channels (remove_channel (channels s) i) s);;
  clear_packets i;;
  mret None.

Definition open_reply (i : Z) (d : str) : ST (option Z) :=
  type ← byte_at d 0;
  if (type =? SSH_MSG_CHANNEL_OPEN_CONFIRMATION)%Z then
    remote_id ← ntohu32 d 5;
    ws ← ntohu32 d 9;
    ps ← ntohu32 d 13;
    update_channel i (confirmed remote_id ws ps);;
    mret (Some i)
  else
    (if (type =? SSH_MSG_CHANNEL_OPEN_FAILURE)%Z
     then libssh2_error LIBSSH2_ERROR_CHANNEL_FAILURE else mret ());;
    open_error i.

Definition libssh2_channel_open_ex (type : str) (ws ps : Z) (message : str) : ST (option Z) :=
  i ← libssh2_channel_nextid;
  ok ← alloc_channel e;
  if negb ok then mret None else
  modify (λ s, set_channels (channels s ++ [new_channel type i (u32 ws) (u32 ps)]) s);;
  ok ← alloc e;
  if negb ok then libssh2_error LIBSSH2_ERROR_ALLOC;; mret None else
  rc ← packet_write (open_packet type i ws ps message);
  if negb (rc =? 0)%Z then libssh2_error LIBSSH2_ERROR_SOCKET_SEND;; open_error i else
  d ← packet_requirev [SSH_MSG_CHANNEL_OPEN_CONFIRMATION; SSH_MSG_CHANNEL_OPEN_FAILURE] 1 (htonu32 i);
  match d with
  | None => open_error i
  | Some (d, _) => open_reply i d
  end.

Definition libssh2_channel_direct_tcpip_ex (host : str) (port : Z) (shost : str) (sport : Z)
    : ST (option Z) :=
  ok ← alloc e;
  if negb ok then libssh2_error LIBSSH2_ERROR_ALLOC;; mret None else
  libssh2_channel_open_ex &"direct-tcpip" LIBSSH2_CHANNEL_WINDOW_DEFAULT
    LIBSSH2_CHANNEL_PACKET_DEFAULT
    (ssh_string host ++ htonu32 port ++ ssh_string shost ++ htonu32 sport).

(** ** Listeners *)

(** A request that is sent in a packet of its own: [false] when it could not be. *)
Definition send_request (p : str) : ST bool :=
  ok ← alloc e;
  if negb ok then libssh2_error LIBSSH2_ERROR_ALLOC;; mret false else
  rc ← packet_write p;
  if (rc =? 0)%Z then mret true else libssh2_error LIBSSH2_ERROR_SOCKET_SEND;; mret false.

(** [forward_listen]: the port bound, [None] on failure. The new listener comes
    first; the server's port counts when the one asked for is 0. *)
Definition listen_reply (host : str) (port : Z) (maxsize : Z) (d : str) (data_len : Z)
    : ST (option Z) :=
  type ← byte_at d 0;
  if (type =? SSH_MSG_REQUEST_SUCCESS)%Z then
    ok ← alloc_channel e;
    if negb ok then mret None else
    bound ← (if (5 <=? data_len)%Z && (port =? 0)%Z
             then p ← ntohu32 d 1; mret (s32 p) else mret port);
    modify (λ s, set_listeners
      ({| li_host := host; li_port := bound; queue := []; queue_size := 0; queue_maxsize := maxsize |}
       :: listeners s) s);;
    mret (Some bound)
  else if (type =? SSH_MSG_REQUEST_FAILURE)%Z
  then libssh2_error LIBSSH2_ERROR_REQUEST_DENIED;; mret None
  else mret None.

Definition libssh2_channel_forward_listen_ex (host : option str) (port maxsize : Z) : ST (option Z) :=
  let host := default &"0.0.0.0" host in
  sent ← send_request (of_code SSH_MSG_GLOBAL_REQUEST :: ssh_string &"tcpip-forward" ++
                       [of_code 255] ++ ssh_string host ++ htonu32 port);
  if negb sent then mret None else
  d ← packet_requirev [SSH_MSG_REQUEST_SUCCESS; SSH_MSG_REQUEST_FAILURE] 0 [];
  match d with
  | None => mret None
  | Some (d, data_len) => listen_reply host port maxsize d data_len
  end.

(** [libssh2_channel_close] of a channel that need not be in the session. *)
Definition close_packet (c : channel) : str := of_code SSH_MSG_CHANNEL_CLOSE :: htonu32 (id (ch_remote c)).

(** A queued channel is freed: it is closed, its packets are dropped and it is
    unlinked; one without a predecessor makes the next of the queue the head of the
    session's channels. [false] when the close packet could not be sent. *)
Definition free_queued (has_prev : bool) (c : channel) (rest : list channel) : ST bool :=
  s ← get_session;
  rc ← (if negb (close (ch_local c)) && connected s then packet_write (close_packet c) else mret 0%Z);
  if negb (rc =? 0)%Z then libssh2_error LIBSSH2_ERROR_SOCKET_SEND;; mret false else
  clear_packets (ch_id c);;
  (if has_prev then mret () else modify (set_channels rest));;
  mret true.

(** The result of each call is not looked at; a channel that stays is the
    predecessor of the next. *)
Fixpoint free_queue (has_prev : bool) (q : list channel) : ST () :=
  match q with
  | [] => mret ()
  | c :: q => freed ← free_queued has_prev c q; free_queue (has_prev || negb freed) q
  end.

(** [forward_cancel] of the [n]-th listener. *)
Definition libssh2_channel_forward_cancel (n : nat) : ST Z :=
  l ← gets (λ s, listeners s !! n);
  match l with
  | None => undefined
  | Some l =>
      sent ← send_request (of_code SSH_MSG_GLOBAL_REQUEST :: ssh_string &"cancel-tcpip-forward" ++
                           [of_code 0] ++ ssh_string (li_host l) ++ htonu32 (li_port l));
      if negb sent then mret (-1)%Z else
      free_queue false (queue l);;
      modify (λ s, set_listeners (delete n (listeners s)) s);;
      mret 0%Z
  end.

(** [while (libssh2_packet_read (session, 0) > 0);] *)
Fixpoint drain (fuel : nat) (block : bool) : ST () :=
  match fuel with
  | 0 => undefined
  | S fuel =>
      ret ← packet_read block;
      if (0 <? ret)%Z then drain fuel false else mret ()
  end.

Definition libssh2_channel_forward_accept (n : nat) : ST (option Z) :=
  fuel ← gets fuel_of;
  drain fuel false;;
  l ← gets (λ s, listeners s !! n);
  match l with
  | None => undefined
  | Some l =>
      match queue l with
      | [] => mret None
      | c :: q =>
          modify (λ s, set_channels (c :: channels s)
            (set_listeners (alter (λ l, set_queue_size (queue_size l - 1) (set_queue q l)) n
                              (listeners s)) s));;
          mret (Some (ch_id c))
      end
  end.

(** ** Channel requests *)

(** The request named [name] on a channel, and the wait for its answer: 0 when it
    is granted. *)
Definition channel_request (i : Z) (name body : str) : ST Z :=
  c ← the_channel i;
  sent ← send_request (of_code SSH_MSG_CHANNEL_REQUEST :: htonu32 (id (ch_remote c)) ++
                       ssh_string name ++ [of_code 255] ++ body);
  if negb sent then mret (-1)%Z else
  d ← packet_requirev [SSH_MSG_CHANNEL_SUCCESS; SSH_MSG_CHANNEL_FAILURE] 1 (htonu32 i);
  match d with
  | None => mret (-1)%Z
  | Some (d, _) =>
      type ← byte_at d 0;
      if (type =? SSH_MSG_CHANNEL_SUCCESS)%Z then mret 0%Z
      else libssh2_error LIBSSH2_ERROR_CHANNEL_REQUEST_DENIED;; mret (-1)%Z
  end.

Definition libssh2_channel_setenv_ex (i : Z) (varname value : str) : ST Z :=
  channel_request i &"env" (ssh_string varname ++ ssh_string value).

Definition libssh2_channel_request_pty_ex (i : Z) (term modes : str)
    (width height width_px height_px : Z) : ST Z :=
  channel_request i &"pty-req"
    (ssh_string term ++ htonu32 width ++ htonu32 height ++ htonu32 width_px ++ htonu32 height_px ++
     ssh_string modes).

Definition LIBSSH2_X11_RANDOM_COOKIE_LEN : nat := 32.

Definition HEX : str := &"0123456789ABCDEF".
Definition hex_digit (d : Z) : chr := nth (Z.to_nat d) HEX NUL.

(** [_snprintf (s + (i * 2), 2, "%02X", buffer\[i\])] stores two characters and no
    terminator; [buffer] is of [char], so a byte from 128 on prints as a negative
    number, of which the first two digits are FF. *)
Definition x11_cookie (random : str) : str :=
  flat_map (λ c, if decide (code c < 128)%Z then [hex_digit (code c / 16); hex_digit (code c mod 16)]
                 else &"FF") random.

Definition libssh2_channel_x11_req_ex (i : Z) (single_connection : bool)
    (auth_proto auth_cookie : option str) (screen_number : Z) : ST Z :=
  n ← gets sends;
  let proto := default &"MIT-MAGIC-COOKIE-1" auth_proto in
  let cookie := match auth_cookie with
                | Some c => c
                | None => x11_cookie (random_bytes e n (LIBSSH2_X11_RANDOM_COOKIE_LEN / 2))
                end in
  channel_request i &"x11-req"
    ([of_code (if single_connection then 255 else 0)] ++ ssh_string proto ++ ssh_string cookie ++
     htonu32 screen_number).

Definition libssh2_channel_process_startup (i : Z) (request : str) (message : option str) : ST Z :=
  channel_request i request (from_option ssh_string [] message).

Definition libssh2_channel_set_blocking (i : Z) (b : bool) : ST () :=
  update_channel i (set_blocking b).

(** ** Flushing *)

(** Whether the packet is data of the channel. *)
Definition data_of (i : Z) (p : packet) : res bool :=
  match data p with
  | [] => Undef
  | c :: _ =>
      if negb ((code c =? SSH_MSG_CHANNEL_DATA)%Z || (code c =? SSH_MSG_CHANNEL_EXTENDED_DATA)%Z)
      then Ok false
      else let! n := libssh2_ntohu32 (data p) 1 in Ok (n =? i)%Z
  end.

Definition is_extended (p : packet) : bool :=
  bool_decide (head (data p) = Some (of_code SSH_MSG_CHANNEL_EXTENDED_DATA)).

(** The stream of a packet of the channel: [None] when it is not data of it. *)
Definition stream_of (i : Z) (p : packet) : res (option Z) :=
  let! mine := data_of i p in
  if negb mine then Ok None
  else if is_extended p then let! s := libssh2_ntohu32 (data p) 5 in Ok (Some s)
  else Ok (Some 0%Z).

(** Whether [libssh2_channel_flush_ex] throws the packet away. *)
Definition to_flush (i streamid : Z) (p : packet) : res bool :=
  let! s := stream_of i p in
  Ok (match s with
      | None => false
      | Some s =>
          (streamid =? LIBSSH2_CHANNEL_FLUSH_ALL)%Z ||
          (is_extended p && ((streamid =? LIBSSH2_CHANNEL_FLUSH_EXTENDED_DATA)%Z ||
                             (u32 streamid =? s)%Z)) ||
          (negb (is_extended p) && (streamid =? 0)%Z)
      end).

(** The packets kept, the bytes to refund and the bytes flushed. The refund counts
    13 bytes of header for every packet. *)
Fixpoint flush_loop (i streamid : Z) (ps : list packet) (refund flushed : Z)
    : res (list packet * Z * Z) :=
  match ps with
  | [] => Ok ([], refund, flushed)
  | p :: ps =>
      let! out := to_flush i streamid p in
      if (out : bool) then
        flush_loop i streamid ps (u32 (refund + usub (data_len p) 13))
          (u32 (flushed + usub (data_len p) (data_head p)))
      else
        let! (kept, refund, flushed) := flush_loop i streamid ps refund flushed in
        Ok (p :: kept, refund, flushed)
  end.

Definition libssh2_channel_flush_ex (i streamid : Z) : ST Z :=
  ps ← gets packets;
  r ← lift (flush_loop i streamid ps 0 0);
  let '(kept, refund, flushed) := r in
  modify (set_packets kept);;
  (if (refund =? 0)%Z then mret ()
   else _ ← libssh2_channel_receive_window_adjust e i refund false; mret ());;
  mret (s32 flushed).

Definition libssh2_channel_get_exit_status (i : Z) : ST Z :=
  c ← the_channel i; mret (exit_status c).

Definition libssh2_channel_handle_extended_data (i ignore_mode : Z) : ST () :=
  update_channel i (on_remote (set_extended_data_ignore_mode (wrap_s 8 ignore_mode)));;
  if (ignore_mode =? LIBSSH2_CHANNEL_EXTENDED_DATA_IGNORE)%Z
  then _ ← libssh2_channel_flush_ex i LIBSSH2_CHANNEL_FLUSH_EXTENDED_DATA; mret ()
  else mret ().

(** ** Reading *)

(** Whether the packet holds data of the stream that is read. *)
Definition readable (i stream_id mode : Z) (p : packet) : res bool :=
  let! mine := data_of i p in
  if negb mine then Ok false
  else if (stream_id =? 0)%Z
  then Ok (negb (is_extended p) || (mode =? LIBSSH2_CHANNEL_EXTENDED_DATA_MERGE)%Z)
  else if is_extended p then
    let! s := libssh2_ntohu32 (data p) 5 in Ok (u32 stream_id =? s)%Z
  else Ok false.

(** One pass over the brigade: packets are used up until [want] bytes are read. A
    packet that is used up leaves, and its length less the header of the stream
    asked for is refunded. *)
Fixpoint read_packets (i stream_id : Z) (ps : list packet) (want : nat) (buf : str)
    : ST (list packet * str) :=
  match ps with
  | [] => mret ([], buf)
  | p :: ps =>
      if decide (want = 0) then mret (p :: ps, buf) else
      c ← the_channel i;
      ok ← lift (readable i stream_id (extended_data_ignore_mode (ch_remote c)) p);
      if negb ok then
        r ← read_packets i stream_id ps want buf;
        mret (p :: r.1, r.2)
      else
        let available := usub (data_len p) (data_head p) in
        if (available <=? Z.of_nat want)%Z then
          b ← bytes (Z.to_nat available) (data p) (Z.to_nat (data_head p));
          _ ← libssh2_channel_receive_window_adjust e i
                (usub (data_len p) (if (stream_id =? 0)%Z then 9 else 13)) false;
          read_packets i stream_id ps (want - Z.to_nat available) (buf ++ b)
        else
          b ← bytes want (data p) (Z.to_nat (data_head p));
          mret (set_data_head (u32 (data_head p + Z.of_nat want)) p :: ps, buf ++ b)
  end.

(** [libssh2_channel_read_ex]: the loop goes on while a blocking channel that the
    other side has not closed has given nothing. *)
Fixpoint read_loop (fuel : nat) (i stream_id : Z) (buflen : nat) (block : bool) : ST str :=
  match fuel with
  | 0 => undefined
  | S fuel =>
      n ← gets fuel_of;
      drain n block;;
      ps ← gets packets;
      r ← read_packets i stream_id ps buflen [];
      modify (set_packets r.1);;
      c ← the_channel i;
      if blocking c && bool_decide (r.2 = []) && negb (close (ch_remote c))
      then read_loop fuel i stream_id buflen true
      else mret r.2
  end.

Definition libssh2_channel_read_ex (i stream_id : Z) (buflen : nat) : ST str :=
  fuel ← gets fuel_of;
  buf ← read_loop fuel i stream_id buflen false;
  c ← the_channel i;
  (if blocking c && bool_decide (buf = []) then libssh2_error LIBSSH2_ERROR_CHANNEL_CLOSED
   else mret ());;
  mret buf.

(** ** Writing *)

(** [while (channel->local.window_size <= 0)]: packets are read until the other side
    opens its window; [false] when that fails. *)
Fixpoint wait_window (fuel : nat) (i : Z) : ST bool :=
  c ← the_channel i;
  if (0 <? window_size (ch_local c))%Z then mret true
  else
    match fuel with
    | 0 => undefined
    | S fuel =>
        ret ← packet_read true;
        if (ret <? 0)%Z then mret false else wait_window fuel i
    end.

(** The bytes one packet may carry. *)
Definition write_size (c : channel) (buflen : nat) : nat :=
  Nat.min (Nat.min buflen (Z.to_nat (window_size (ch_local c)))) (Z.to_nat (packet_size (ch_local c))).

Definition data_packet_of (c : channel) (stream_id : Z) (chunk : str) : str :=
  of_code (if (stream_id =? 0)%Z then SSH_MSG_CHANNEL_DATA else SSH_MSG_CHANNEL_EXTENDED_DATA) ::
  htonu32 (id (ch_remote c)) ++ (if (stream_id =? 0)%Z then [] else htonu32 stream_id) ++
  ssh_string chunk.

(** The loop: the number of bytes written, -1 on failure. A packet size of 0 makes
    it send empty packets for ever. *)
Fixpoint write_loop (fuel : nat) (i stream_id : Z) (buf : str) (wrote : Z) : ST Z :=
  if decide (buf = []) then mret wrote else
  match fuel with
  | 0 => undefined
  | S fuel =>
      n ← gets fuel_of;
      open ← wait_window n i;
      if negb open then mret (-1)%Z else
      c ← the_channel i;
      let size := write_size c (length buf) in
      rc ← packet_write (data_packet_of c stream_id (take size buf));
      if negb (rc =? 0)%Z then libssh2_error LIBSSH2_ERROR_SOCKET_SEND;; mret (-1)%Z else
      update_channel i (on_local (λ d, set_window_size (usub (window_size d) (Z.of_nat size)) d));;
      if negb (blocking c) then mret (wrote + Z.of_nat size)%Z
      else write_loop fuel i stream_id (drop size buf) (wrote + Z.of_nat size)
  end.

Definition libssh2_channel_write_ex (i stream_id : Z) (buf : str) : ST Z :=
  c ← the_channel i;
  if close (ch_local c) then libssh2_error LIBSSH2_ERROR_CHANNEL_CLOSED;; mret (-1)%Z else
  (if eof (ch_local c) then libssh2_error LIBSSH2_ERROR_CHANNEL_EOF_SENT else mret ());;
  if negb (blocking c) && (window_size (ch_local c) =? 0)%Z then mret 0%Z else
  ok ← alloc e;
  if negb ok then libssh2_error LIBSSH2_ERROR_ALLOC;; mret (-1)%Z
  else write_loop (length buf) i stream_id buf 0.

(** ** The end of a channel *)

Definition libssh2_channel_send_eof (i : Z) : ST Z :=
  c ← the_channel i;
  rc ← packet_write (of_code SSH_MSG_CHANNEL_EOF :: htonu32 (id (ch_remote c)));
  if negb (rc =? 0)%Z then libssh2_error LIBSSH2_ERROR_SOCKET_SEND;; mret (-1)%Z
  else update_channel i (on_local (set_eof true));; mret 0%Z.

Fixpoint any_data (i : Z) (ps : list packet) : res bool :=
  match ps with
  | [] => Ok false
  | p :: ps => let! d := data_of i p in if (d : bool) then Ok true else any_data i ps
  end.

Definition libssh2_channel_eof (i : Z) : ST bool :=
  ps ← gets packets;
  waiting ← lift (any_data i ps);
  c ← the_channel i;
  mret (negb waiting && eof (ch_remote c)).

Definition libssh2_channel_close (i : Z) : ST Z :=
  c ← the_channel i;
  if close (ch_local c) then mret 0%Z else
  (if close_cb c then emit (CB_channel_close i) else mret ());;
  update_channel i (on_local (set_close true));;
  rc ← packet_write (close_packet c);
  if (rc =? 0)%Z then mret 0%Z else libssh2_error LIBSSH2_ERROR_SOCKET_SEND;; mret (-1)%Z.

Fixpoint wait_closed (fuel : nat) (i : Z) : ST () :=
  c ← the_channel i;
  if close (ch_remote c) then mret () else
  match fuel with
  | 0 => undefined
  | S fuel =>
      ret ← packet_read true;
      if (0 <? ret)%Z then wait_closed fuel i else mret ()
  end.

Definition libssh2_channel_wait_closed (i : Z) : ST Z :=
  fuel ← gets fuel_of;
  wait_closed fuel i;;
  mret 1%Z.

Definition libssh2_channel_free (i : Z) : ST Z :=
  c ← the_channel i;
  up ← gets connected;
  rc ← (if negb (close (ch_local c)) && (up : bool) then libssh2_channel_close i else mret 0%Z);
  if negb (rc =? 0)%Z then mret (-1)%Z else
  clear_packets i;;
  modify (λ s, set_channels (remove_channel (channels s) i) s);;
  mret 0%Z.

(** ** The windows *)

Fixpoint bytes_queued (i : Z) (ps : list packet) (n : Z) : res Z :=
  match ps with
  | [] => Ok n
  | p :: ps =>
      let! d := data_of i p in
      bytes_queued i ps (if (d : bool) then u32 (n + usub (data_len p) (data_head p)) else n)
  end.

(** The window, the bytes that can be read, and the initial window. *)
Definition libssh2_channel_window_read_ex (i : Z) : ST (Z * Z * Z) :=
  c ← the_channel i;
  ps ← gets packets;
  n ← lift (bytes_queued i ps 0);
  mret (window_size (ch_remote c), n, window_size_initial (ch_remote c)).

Definition libssh2_channel_window_write_ex (i : Z) : ST (Z * Z) :=
  c ← the_channel i;
  mret (window_size (ch_local c), window_size_initial (ch_local c)).
End channel.

(** ** Writing sends everything *)

(** The pieces of at most [ps] bytes. *)
Fixpoint chunks (fuel ps : nat) (buf : str) : list str :=
  match fuel, buf with
  | S fuel, _ :: _ => take ps buf :: chunks fuel ps (drop ps buf)
  | _, _ => []
  end.

Lemma chunks_spec fuel ps buf :
  0 < ps → length buf ≤ fuel →
  concat (chunks fuel ps buf) = buf ∧ Forall (λ d, d ≠ [] ∧ length d ≤ ps) (chunks fuel ps buf).
Proof.
  intros Hps. revert buf. induction fuel as [|fuel IH]; intros buf Hf.
  { destruct buf; [done|simpl in Hf; lia]. }
  destruct buf as [|c buf]; [done|]. cbn [chunks concat].
  destruct (IH (drop ps (c :: buf))) as [H1 H2]; [rewrite length_drop; simpl in *; lia|].
  rewrite H1, take_drop. split; [done|]. constructor; [|done]. split.
  - destruct ps; [lia|done].
  - rewrite length_take. lia.
Qed.

Section writing.
Context (e : surroundings) (kex_exchange : ST Z).
Context (Hsend : ∀ n, send_ok e n = true).

(** The frames of the data packets of a channel, before encryption starts. *)
Fixpoint frames (n : nat) (c : channel) (stream_id : Z) (cs : list str) : list str :=
  match cs with
  | [] => []
  | d :: cs => plain_frame e n (data_packet_of c stream_id d) :: frames (S n) c stream_id cs
  end.

Definition written (d : str) (s : session) : session :=
  set_sent (sent s ++ [plain_frame e (sends s) d])
    (set_sends (S (sends s)) (set_s_local (next_seqno (s_local s)) s)).

Lemma packet_write_plain d s :
  has_state LIBSSH2_STATE_NEWKEYS s = false → libssh2_packet_write e d s = Ok (0%Z, written d s).
Proof.
  intros Hs. unfold libssh2_packet_write. rewrite (bind_Ok _ _ s (Some d) s).
  2: { unfold compress, mbind, ST_bind, get_session. by rewrite Hs. }
  rewrite (bind_Ok _ _ s false s) by (unfold gets; by rewrite Hs).
  unfold write_plain, send, mbind, ST_bind, get_session, gets, modify, update_local. cbn [mret ST_ret].
  unfold modify. by rewrite Hsend.
Qed.

(** The channel after [n] bytes more. *)
Definition shrunk (n : nat) (c : channel) : channel :=
  on_local (λ d, set_window_size (usub (window_size d) (Z.of_nat n)) d) c.

Lemma frames_shrunk n k c stream cs : frames n (shrunk k c) stream cs = frames n c stream cs.
Proof. revert n. induction cs as [|d cs IH]; intros n; cbn [frames]; [done|]. by rewrite IH. Qed.

Lemma the_channel_ok i c s : find_channel (channels s) i = Some c → the_channel i s = Ok (c, s).
Proof. intros H. unfold the_channel, mbind, ST_bind, gets. by rewrite H. Qed.

(** As much goes into a packet as it may hold, when the window is large enough. *)
Lemma write_size_cut c (data : str) :
  (Z.of_nat (length data) ≤ window_size (ch_local c))%Z → (0 < packet_size (ch_local c))%Z →
  let ps := Z.to_nat (packet_size (ch_local c)) in
  write_size c (length data) = Nat.min (length data) ps ∧
  take (write_size c (length data)) data = take ps data ∧
  drop (write_size c (length data)) data = drop ps data.
Proof.
  intros Hw Hp ps. assert (write_size c (length data) = Nat.min (length data) ps) as -> by (unfold write_size; lia).
  split; [done|]. destruct (Nat.le_ge_cases (length data) ps); [|by rewrite Nat.min_r].
  rewrite Nat.min_l by done. by rewrite !take_ge, !drop_ge.
Qed.

Lemma write_loop_sends fuel i stream_id buf wrote c s :
  length buf ≤ fuel → has_state LIBSSH2_STATE_NEWKEYS s = false →
  find_channel (channels s) i = Some c → blocking c = true →
  (Z.of_nat (length buf) ≤ window_size (ch_local c))%Z → in_u 32 (window_size (ch_local c)) →
  (0 < packet_size (ch_local c))%Z →
  ∃ s' c', write_loop e kex_exchange fuel i stream_id buf wrote s =
             Ok ((wrote + Z.of_nat (length buf))%Z, s') ∧
    sent s' = sent s ++ frames (sends s) c stream_id
                          (chunks fuel (Z.to_nat (packet_size (ch_local c))) buf) ∧
    find_channel (channels s') i = Some c' ∧
    window_size (ch_local c') = (window_size (ch_local c) - Z.of_nat (length buf))%Z.
Proof.
  revert buf wrote c s. induction fuel as [|fuel IH]; intros buf wrote c s Hf Hk Hc Hb Hw Hu Hp.
  { destruct buf as [|b buf]; [|simpl in Hf; lia]. exists s, c. cbn [write_loop frames chunks length]. rewrite decide_True, app_nil_r by done.
    split_and!; [|done|done|lia]. unfold mret, ST_ret. do 2 f_equal. lia. }
  destruct buf as [|b buf].
  { exists s, c. cbn [write_loop frames chunks length]. rewrite decide_True, app_nil_r by done.
    split_and!; [|done|done|lia]. unfold mret, ST_ret. do 2 f_equal. lia. }
  set (data := b :: buf) in *. cbn [write_loop chunks]. rewrite decide_False by done.
  rewrite (bind_Ok _ _ s (fuel_of s) s) by done.
  rewrite (bind_Ok _ _ s true s).
  2: { assert (Hpos : (0 <? window_size (ch_local c))%Z = true) by (simpl in Hw; lia).
       unfold fuel_of. cbn [wait_window]. rewrite (bind_Ok _ _ s c s) by by apply the_channel_ok.
       by rewrite Hpos. }
  cbn [negb]. rewrite (bind_Ok _ _ s c s) by by apply the_channel_ok. cbv zeta.
  set (ps := Z.to_nat (packet_size (ch_local c))).
  destruct (write_size_cut c data) as (Hsize & Htake & Hdrop); [done..|]. fold ps in Hsize, Htake, Hdrop.
  rewrite Htake, Hdrop. set (pkt := data_packet_of c stream_id (take ps data)).
  rewrite (bind_Ok _ _ s 0%Z (written pkt s)) by by apply packet_write_plain.
  cbn [Z.eqb negb]. set (size := write_size c (length data)) in *.
  set (s1 := set_channels (change_channel (shrunk size) (channels (written pkt s)) i) (written pkt s)).
  rewrite (bind_Ok _ _ (written pkt s) () s1) by done. rewrite Hb. cbn [negb].
  assert (Hlen : length (drop ps data) + size = length data) by (rewrite length_drop; lia).
  assert (Hsz : 0 < size) by (unfold data in *; simpl length in *; unfold ps in *; lia).
  assert (Hwin : window_size (ch_local (shrunk size c)) = (window_size (ch_local c) - Z.of_nat size)%Z).
  { change (usub (window_size (ch_local c)) (Z.of_nat size) = window_size (ch_local c) - Z.of_nat size)%Z.
    apply wrap_u_small. unfold in_u in *. lia. }
  destruct (IH (drop ps data) (wrote + Z.of_nat size)%Z (shrunk size c) s1) as (s' & c' & H1 & H2 & H3 & H4).
  - lia.
  - done.
  - apply find_change; [exact Hc|done].
  - done.
  - rewrite Hwin. lia.
  - rewrite Hwin. unfold in_u in *. lia.
  - done.
  - exists s', c'. split_and!.
    + rewrite H1. f_equal. f_equal. lia.
    + rewrite H2. cbn [frames]. change (sent s1) with (sent s ++ [plain_frame e (sends s) pkt]).
      rewrite <- app_assoc, frames_shrunk. done.
    + done.
    + rewrite H4, Hwin. lia.
Qed.
End writing.



(** ** What goes wrong *)

(** The refund of a flush counts 13 bytes of header for every packet: a data packet
    with less than four bytes of data makes it wrap around. *)
Lemma flush_refund_underflow :
  let d := of_code 94 :: libssh2_htonu32 0 ++ libssh2_htonu32 3 ++ &"abc" in
  flush_loop 0 0 [mk_packet d 12 9 0] 0 0 = Ok ([], 4294967295%Z, 3%Z).
Proof. reflexivity. Qed.

(** A random byte gives its two digits, or FF when it is 128 or more. *)
Lemma x11_cookie_ff : x11_cookie [of_code 74; of_code 200; of_code 255] = &"4AFFFF".
Proof. reflexivity. Qed.
