(* ===== verification/Ssh2Fields.v ===== *)
(** * libssh2: the fields of a packet

    Readers of the numbers and strings that packets, keys and answers are made of, as
    the sources write them out everywhere, and what they read of what was written. A
    read past the end is undefined. *)
From S2P Require Import Prelude StdString Ssh2Misc Ssh2Session Ssh2Packet.

(** [strncmp (a, b, n) == 0]: the comparison ends at a zero byte, and runs on behind a
    string without one. *)
Fixpoint strncmp_is_0 (n : nat) (a b : str) : res bool :=
  match n with
  | O => Ok true
  | S n =>
      match a, b with
      | x :: a, y :: b =>
          if decide (x = y) then if decide (x = NUL) then Ok true else strncmp_is_0 n a b else Ok false
      | _, _ => Undef
      end
  end.

(** Each gives the field at a position and the position behind it. *)
Definition u32_at (data : str) (s : nat) : res (Z * nat) :=
  let! v := libssh2_ntohu32 data s in Ok (v, s + 4).

Definition string_at (data : str) (s : nat) : res (str * nat) :=
  let! (n, s) := u32_at data s in
  let! b := bytes_at (Z.to_nat n) data s in
  Ok (b, s + length b).

(** A string can be written with its length. *)
Definition sized (s : str) : Prop := (Z.of_nat (length s) < 2 ^ 32)%Z.

Lemma length_ssh_string s : length (ssh_string s) = 4 + length s.
Proof. unfold ssh_string. by rewrite length_app, length_htonu32. Qed.

Lemma u32_at_spec before v after_ :
  in_u 32 v → u32_at (before ++ libssh2_htonu32 v ++ after_) (length before) = Ok (v, length before + 4).
Proof. intros Hv. unfold u32_at. by rewrite ntohu32_at. Qed.

Lemma bytes_at_spec before b after_ : bytes_at (length b) (before ++ b ++ after_) (length before) = Ok b.
Proof.
  unfold bytes_at. rewrite decide_True by (rewrite !length_app; lia).
  by rewrite drop_app_length, take_app_length.
Qed.

Lemma string_at_spec before b after_ :
  sized b →
  string_at (before ++ ssh_string b ++ after_) (length before) = Ok (b, length (before ++ ssh_string b)).
Proof.
  intros Hb. unfold string_at, ssh_string. rewrite <- app_assoc.
  rewrite u32_at_spec by (unfold sized, in_u in *; lia). cbn [rbind]. rewrite Nat2Z.id.
  rewrite app_assoc. replace (length before + 4) with (length (before ++ libssh2_htonu32 (Z.of_nat (length b)))).
  2: { by rewrite length_app, length_htonu32. }
  rewrite bytes_at_spec. cbn [rbind]. by rewrite !length_app, length_htonu32, Nat.add_assoc.
Qed.

(** [reads r p b a]: wherever the bytes [b] are, the reader [r] takes them and gives [a]. *)
Definition reads {A} (r : str → nat → res (A * nat)) (b : str) (a : A) : Prop :=
  ∀ before after_, r (before ++ b ++ after_) (length before) = Ok (a, length (before ++ b)).

Lemma reads_u32 v : in_u 32 v → reads u32_at (libssh2_htonu32 v) v.
Proof. intros Hv before after_. rewrite u32_at_spec by done. by rewrite length_app, length_htonu32. Qed.

Lemma reads_string b : sized b → reads string_at (ssh_string b) b.
Proof. intros Hb before after_. by apply string_at_spec. Qed.

(** Readers one after the other. *)
Lemma reads_bind {A B} (r : str → nat → res (A * nat)) (k : A → str → nat → res (B * nat)) b b' a c :
  reads r b a → reads (k a) b' c →
  reads (λ d s, let! (x, s) := r d s in k x d s) (b ++ b') c.
Proof.
  intros Hr Hk before after_. rewrite <- app_assoc. rewrite (Hr before (b' ++ after_)). cbn [rbind].
  rewrite app_assoc. rewrite Hk. by rewrite !app_assoc.
Qed.

Lemma reads_ret {A} (a : A) : reads (λ _ s, Ok (a, s)) [] a.
Proof. intros before after_. by rewrite app_nil_r. Qed.

Lemma reads_ext {A} (r r' : str → nat → res (A * nat)) b a :
  (∀ d s, r d s = r' d s) → reads r b a → reads r' b a.
Proof. intros H Hr before after_. by rewrite <- H. Qed.
