(* ===== verification/Ssh2Kex.v ===== *)
(** * libssh2: negotiation ([ssh/libssh2/kex.c], and the tables of [crypt.c], [mac.c],
    [comp.c] and [hostkey.c])

    The lists of methods, the [KEXINIT] packet, the choice of the methods both sides
    know, the driver of the key exchange and the preferences of the application. The
    ciphers and digests are parameters: they are OpenSSL's. So is the exchange that a
    method stands for: [Ssh2Dh] has the Diffie-Hellman ones. *)
From S2P Require Import Prelude StdString Ssh2Misc Ssh2Session Ssh2Packet Ssh2Comp.

Definition COMMA : chr := of_code 44.

(** ** The tables *)

(** A cipher by the name of its OpenSSL generator, a keyed digest by its name: key,
    bytes. *)
Section tables.
Context (evp : str → str → str → option (str * str)) (hmac : str → str → str → str).
Context `{zlib}.

Definition cbc (name : str) (block : nat) (iv secret : Z) (generator : str) : crypt_method :=
  {| crypt_name := name; blocksize := block; iv_len := iv; secret_len := secret;
     crypt_evp := true; crypt_block := evp generator |}.

Definition libssh2_crypt_methods : list crypt_method :=
  [ cbc &"aes256-cbc" 16 16 32 &"EVP_aes_256_cbc";
    cbc &"rijndael-cbc@lysator.liu.se" 16 16 32 &"EVP_aes_256_cbc";
    cbc &"aes192-cbc" 16 16 24 &"EVP_aes_192_cbc";
    cbc &"aes128-cbc" 16 16 16 &"EVP_aes_128_cbc";
    cbc &"blowfish-cbc" 8 8 16 &"EVP_bf_cbc";
    cbc &"arcfour" 8 8 16 &"EVP_rc4";
    cbc &"cast128-cbc" 8 8 16 &"EVP_cast5_cbc";
    cbc &"3des-cbc" 8 8 24 &"EVP_des_ede3_cbc" ].

(** The digest of the sequence number and the bytes, with the first [n] bytes of the
    key. *)
Definition hmac_hash (digest : str) (n : nat) (abstract : str) (seqno : Z) (packet : str) : str :=
  hmac digest (take n abstract) (libssh2_htonu32 seqno ++ packet).

Definition libssh2_mac_method_hmac_sha1_hash := hmac_hash &"EVP_sha1" 20.
Definition libssh2_mac_method_hmac_sha1_96_hash (abstract : str) (seqno : Z) (packet : str) : str :=
  take 12 (libssh2_mac_method_hmac_sha1_hash abstract seqno packet).
Definition libssh2_mac_method_hmac_md5_hash := hmac_hash &"EVP_md5" 16.
Definition libssh2_mac_method_hmac_md5_96_hash (abstract : str) (seqno : Z) (packet : str) : str :=
  take 12 (libssh2_mac_method_hmac_md5_hash abstract seqno packet).
Definition libssh2_mac_method_hmac_ripemd160_hash := hmac_hash &"EVP_ripemd160" 20.

Definition libssh2_mac_methods : list mac_method :=
  [ {| mac_name := &"hmac-sha1"; mac_len := 20; key_len := 20; mac_init := true;
       mac_hash := libssh2_mac_method_hmac_sha1_hash |};
    {| mac_name := &"hmac-sha1-96"; mac_len := 12; key_len := 20; mac_init := true;
       mac_hash := libssh2_mac_method_hmac_sha1_96_hash |};
    {| mac_name := &"hmac-md5"; mac_len := 16; key_len := 16; mac_init := true;
       mac_hash := libssh2_mac_method_hmac_md5_hash |};
    {| mac_name := &"hmac-md5-96"; mac_len := 12; key_len := 16; mac_init := true;
       mac_hash := libssh2_mac_method_hmac_md5_96_hash |};
    {| mac_name := &"hmac-ripemd160"; mac_len := 20; key_len := 20; mac_init := true;
       mac_hash := libssh2_mac_method_hmac_ripemd160_hash |};
    {| mac_name := &"hmac-ripemd160@openssh.com"; mac_len := 20; key_len := 20; mac_init := true;
       mac_hash := libssh2_mac_method_hmac_ripemd160_hash |} ].

Definition libssh2_comp_methods : list comp_method :=
  [ {| comp_name := &"none"; comp_init := None; comp_run := libssh2_comp_method_none_comp |};
    {| comp_name := &"zlib"; comp_init := Some libssh2_comp_method_zlib_init;
       comp_run := libssh2_comp_method_zlib_comp |} ].
End tables.

Definition libssh2_hostkey_methods : list hostkey_method :=
  [ {| hostkey_name := &"ssh-rsa"; encrypt := false; sig_verify := true; initPEM := true |};
    {| hostkey_name := &"ssh-dss"; encrypt := false; sig_verify := true; initPEM := true |} ].

Definition libssh2_kex_methods : list kex_method :=
  [ {| kex_name := &"diffie-hellman-group14-sha1"; kex_flags := LIBSSH2_KEX_METHOD_FLAG_REQ_SIGN_HOSTKEY |};
    {| kex_name := &"diffie-hellman-group-exchange-sha1";
       kex_flags := LIBSSH2_KEX_METHOD_FLAG_REQ_SIGN_HOSTKEY |};
    {| kex_name := &"diffie-hellman-group1-sha1"; kex_flags := LIBSSH2_KEX_METHOD_FLAG_REQ_SIGN_HOSTKEY |} ].

(** ** Name lists *)

(** The names with commas between them ([libssh2_kex_method_list]; the comma after
    the last one is written over). *)
Fixpoint method_list (names : list str) : str :=
  match names with
  | [] => []
  | [n] => n
  | n :: names => n ++ COMMA :: method_list names
  end.

(** [strncmp (h, needle, n) == 0] for a needle of [n] characters: [h] is read up to
    the first difference. *)
Fixpoint strncmp_eq (h needle : str) {struct needle} : res bool :=
  match needle with
  | [] => Ok true
  | y :: needle =>
      match h with
      | [] => Undef
      | x :: h => if decide (x = y) then if decide (x = NUL) then Ok true else strncmp_eq h needle
                  else Ok false
      end
  end.

(** [strchr (h, c)] in a buffer. *)
Fixpoint strchr (h : str) (c : chr) : res (option nat) :=
  match h with
  | [] => Undef
  | x :: h => if decide (x = c) then Ok (Some 0) else if decide (x = NUL) then Ok None
              else let! r := strchr h c in Ok (S <$> r)
  end.

(** The needle is at [s], and its end is that of the list or a comma. *)
Definition name_at (h : str) (s : nat) (haystack_len : Z) (needle : str) : res bool :=
  let! eq := strncmp_eq (drop s h) needle in
  if negb eq then Ok false
  else if (Z.of_nat (s + length needle) =? haystack_len)%Z then Ok true
  else match h !! (s + length needle) with
       | Some c => Ok (bool_decide (c = COMMA))
       | None => Undef
       end.

(** The loop over the commas: the length that is left is an unsigned number. *)
Fixpoint agree_loop (fuel : nat) (h : str) (s : nat) (haystack_len : Z) (needle : str)
    : res (option nat) :=
  match fuel with
  | 0 => Undef
  | S fuel =>
      let! p := strchr (drop s h) COMMA in
      match p with
      | None => Ok None
      | Some d =>
          if (Z.of_nat (length needle) <? usub haystack_len (Z.of_nat (s + d)))%Z then
            let s := S (s + d) in
            let! here := name_at h s haystack_len needle in
            if (here : bool) then Ok (Some s) else agree_loop fuel h s haystack_len needle
          else Ok None
      end
  end.

(** [libssh2_kex_agree_instr]: where the name stands in the list that starts [h]. *)
Definition libssh2_kex_agree_instr (h : str) (haystack_len : Z) (needle : str) : res (option nat) :=
  if (haystack_len <? Z.of_nat (length needle))%Z then Ok None else
  let! here := name_at h 0 haystack_len needle in
  if (here : bool) then Ok (Some 0) else agree_loop (S (length h)) h 0 haystack_len needle.

Section choice.
Context {T : Type} (name : T → str) (methods : list T).

Fixpoint libssh2_get_method_by_name (n : str) (ms : list T) : option T :=
  match ms with
  | [] => None
  | m :: ms => if decide (name m = n) then Some m else libssh2_get_method_by_name n ms
  end.

(** The names of a preference string, as the loops cut it: a comma at the end is
    followed by none. *)
Fixpoint pref_names (cur s : str) : list str :=
  match s with
  | [] => [cur]
  | c :: s => if decide (c = COMMA)
              then cur :: match s with [] => [] | _ => pref_names [] s end
              else pref_names (cur ++ [c]) s
  end.

Definition prefs_of (s : str) : list str := match s with [] => [] | _ => pref_names [] s end.

Context (h : str) (haystack_len : Z) (settle : T → nat → ST bool).

(** The loop over the preferences, and the one over the table. [settle] says whether
    a method that both sides know is taken. *)
Fixpoint agree_prefs (names : list str) : ST Z :=
  match names with
  | [] => mret (-1)%Z
  | n :: names =>
      q ← lift (libssh2_kex_agree_instr h haystack_len n);
      match q with
      | None => agree_prefs names
      | Some q =>
          match libssh2_get_method_by_name n methods with
          | None => mret (-1)%Z
          | Some m => ok ← settle m q; if (ok : bool) then mret 0%Z else agree_prefs names
          end
      end
  end.

Fixpoint agree_table (ms : list T) : ST Z :=
  match ms with
  | [] => mret (-1)%Z
  | m :: ms =>
      q ← lift (libssh2_kex_agree_instr h haystack_len (name m));
      match q with
      | None => agree_table ms
      | Some q => ok ← settle m q; if (ok : bool) then mret 0%Z else agree_table ms
      end
  end.

Definition agree (prefs : option str) : ST Z :=
  match prefs with
  | Some p => agree_prefs (prefs_of p)
  | None => agree_table methods
  end.
End choice.

(** ** The choice of the methods *)

Section kex.
Context (e : surroundings).
Context (crypt_methods : list crypt_method) (mac_methods : list mac_method).
Context (comp_methods : list comp_method).

Definition has_flag (flags bit : Z) : bool := negb (Z.land flags bit =? 0)%Z.

(** Whether the host key serves the key exchange. *)
Definition suits (kex_flags : Z) (m : hostkey_method) : bool :=
  (negb (has_flag kex_flags LIBSSH2_KEX_METHOD_FLAG_REQ_ENC_HOSTKEY) || encrypt m) &&
  (negb (has_flag kex_flags LIBSSH2_KEX_METHOD_FLAG_REQ_SIGN_HOSTKEY) || sig_verify m).

Definition libssh2_kex_agree_hostkey (kex_flags : Z) (hostkey : str) (hostkey_len : Z) : ST Z :=
  prefs ← gets hostkey_prefs;
  agree hostkey_name libssh2_hostkey_methods hostkey hostkey_len
    (λ m _, if suits kex_flags m then modify (set_hostkey (Some m));; mret true else mret false)
    prefs.

(** A key exchange is taken with a host key for it. The first packet of the server's
    guess is not thrown away when the guess was right. *)
Definition libssh2_kex_agree_kex_hostkey (kex : str) (kex_len : Z) (hostkey : str)
    (hostkey_len : Z) : ST Z :=
  prefs ← gets kex_prefs;
  agree kex_name libssh2_kex_methods kex kex_len
    (λ m q,
      r ← libssh2_kex_agree_hostkey (kex_flags m) hostkey hostkey_len;
      if negb (r =? 0)%Z then mret false else
      modify (set_kex (Some m));;
      modify (λ s, if burn_optimistic_kexinit s && (q =? 0)%nat
                   then set_burn_optimistic_kexinit false s else s);;
      mret true)
    prefs.

(** The side of the connection a list is for. *)

Definition libssh2_kex_agree_crypt (local : bool) (crypt : str) (crypt_len : Z) : ST Z :=
  prefs ← gets (λ s, crypt_prefs (endpoint_of local s));
  agree crypt_name crypt_methods crypt crypt_len
    (λ m _, update_endpoint local (set_crypt m);; mret true) prefs.

Definition libssh2_kex_agree_mac (local : bool) (mac : str) (mac_len : Z) : ST Z :=
  prefs ← gets (λ s, mac_prefs (endpoint_of local s));
  agree mac_name mac_methods mac mac_len
    (λ m _, update_endpoint local (set_mac_m m);; mret true) prefs.

Definition libssh2_kex_agree_comp (local : bool) (comp : str) (comp_len : Z) : ST Z :=
  prefs ← gets (λ s, comp_prefs (endpoint_of local s));
  agree comp_name comp_methods comp comp_len
    (λ m _, update_endpoint local (set_comp m);; mret true) prefs.

(** The [n] lists from [s] on: where each starts and its length; and the end. *)
Fixpoint locate_lists (n : nat) (data : str) (s : nat) : ST (list (str * Z) * nat) :=
  match n with
  | 0 => mret ([], s)
  | S n =>
      len ← ntohu32 data s;
      r ← locate_lists n data (s + 4 + Z.to_nat len);
      mret ((drop (s + 4) data, len) :: r.1, r.2)
  end.

(** The first state of a compression method, when it has one. *)
Definition init_comp (local compress : bool) : ST Z :=
  s ← get_session;
  match comp_init (comp (endpoint_of local s)) with
  | None => mret 0%Z
  | Some init =>
      let (n, outcome) := init (allocates e s) compress in
      allocated n;;
      match outcome with
      | inl (Some code) => libssh2_error code;; mret (-1)%Z
      | inl None => mret (-1)%Z
      | inr abstract => update_endpoint local (set_comp_abstract abstract);; mret 0%Z
      end
  end.

(** Steps that give 0 one after the other; the first that does not ends them. *)
Fixpoint all_zero (steps : list (ST Z)) : ST Z :=
  match steps with
  | [] => mret 0%Z
  | m :: steps => r ← m; if (r =? 0)%Z then all_zero steps else mret (-1)%Z
  end.

(** [libssh2_kex_agree_methods]; [libssh2_kex_agree_lang] is a macro that gives 0. *)
Definition libssh2_kex_agree_methods (data : str) : ST Z :=
  r ← locate_lists 10 data (1 + 16);
  match r with
  | ([kex; hostkey; crypt_cs; crypt_sc; mac_cs; mac_sc; comp_cs; comp_sc; _; _], s) =>
      burn ← byte_at data s;
      modify (set_burn_optimistic_kexinit (Z.odd burn));;
      all_zero
        [ libssh2_kex_agree_kex_hostkey kex.1 kex.2 hostkey.1 hostkey.2;
          libssh2_kex_agree_crypt true crypt_cs.1 crypt_cs.2;
          libssh2_kex_agree_crypt false crypt_sc.1 crypt_sc.2;
          libssh2_kex_agree_mac true mac_cs.1 mac_cs.2;
          libssh2_kex_agree_mac false mac_sc.1 mac_sc.2;
          libssh2_kex_agree_comp true comp_cs.1 comp_cs.2;
          libssh2_kex_agree_comp false comp_sc.1 comp_sc.2;
          init_comp true true;
          init_comp false false ]
  | _ => undefined
  end.

(** ** [KEXINIT] and the exchange *)

(** The list of one kind: the preferences, or the names of the table. *)
Definition offer (prefs : option str) (names : list str) : str :=
  ssh_string (default (method_list names) prefs).

Definition kexinit_packet (s : session) (cookie : str) : str :=
  of_code SSH_MSG_KEXINIT :: cookie ++
  offer (kex_prefs s) (kex_name <$> libssh2_kex_methods) ++
  offer (hostkey_prefs s) (hostkey_name <$> libssh2_hostkey_methods) ++
  offer (crypt_prefs (s_local s)) (crypt_name <$> crypt_methods) ++
  offer (crypt_prefs (s_remote s)) (crypt_name <$> crypt_methods) ++
  offer (mac_prefs (s_local s)) (mac_name <$> mac_methods) ++
  offer (mac_prefs (s_remote s)) (mac_name <$> mac_methods) ++
  offer (comp_prefs (s_local s)) (comp_name <$> comp_methods) ++
  offer (comp_prefs (s_remote s)) (comp_name <$> comp_methods) ++
  offer (lang_prefs (s_local s)) [] ++ offer (lang_prefs (s_remote s)) [] ++
  replicate 5 NUL.

Definition libssh2_kexinit : ST Z :=
  ok ← alloc e;
  if negb ok then libssh2_error LIBSSH2_ERROR_ALLOC;; mret (-1)%Z else
  s ← get_session;
  let data := kexinit_packet s (random_bytes e (sends s) 16) in
  rc ← libssh2_packet_write e data;
  if negb (rc =? 0)%Z then libssh2_error LIBSSH2_ERROR_SOCKET_SEND;; mret (-1)%Z else
  update_local (set_kexinit (Some data));;
  mret 0%Z.

(** The exchange of the keys proper, by the method agreed on. *)
Context (exchange_keys : kex_method → ST Z).

(** Packets are read while the state says that keys are exchanged, so that
    [libssh2_packet_add] does not start another exchange. *)
Definition no_exchange : ST Z := undefined.

(** The negotiation: [None] when it is done, the return code when it fails. *)
Definition negotiate : ST (option Z) :=
  old ← gets (λ s, kexinit (s_local s));
  update_local (set_kexinit None);;
  rc ← libssh2_kexinit;
  if negb (rc =? 0)%Z then update_local (set_kexinit old);; mret (Some (-1)%Z) else
  d ← libssh2_packet_require_ex e no_exchange SSH_MSG_KEXINIT 0 [];
  match d with
  | None => update_local (set_kexinit old);; mret (Some (-1)%Z)
  | Some (data, _) =>
      update_remote (set_kexinit (Some data));;
      rc ← libssh2_kex_agree_methods data;
      mret (if (rc =? 0)%Z then None else Some (-1)%Z)
  end.

Definition add_state (bit : Z) : ST () := modify (λ s, set_state (Z.lor (state s) bit) s).
Definition drop_state (bit : Z) : ST () := modify (λ s, set_state (Z.land (state s) (Z.lnot bit)) s).

Definition libssh2_kex_exchange (reexchange : bool) : ST Z :=
  add_state LIBSSH2_STATE_EXCHANGING_KEYS;;
  (if reexchange then modify (λ s, set_hostkey None (set_kex None s)) else mret ());;
  s ← get_session;
  failed ← (if bool_decide (kex s = None) || bool_decide (hostkey s = None)
            then negotiate else mret None);
  match failed with
  | Some rc => mret rc
  | None =>
      m ← gets kex;
      match m with
      | None => undefined
      | Some m =>
          rc ← exchange_keys m;
          if negb (rc =? 0)%Z then
            libssh2_error LIBSSH2_ERROR_KEY_EXCHANGE_FAILURE;; mret (-1)%Z
          else
            update_local (set_kexinit None);;
            update_remote (set_kexinit None);;
            drop_state LIBSSH2_STATE_EXCHANGING_KEYS;;
            mret 0%Z
      end
  end.

(** ** The application's preferences *)

(** The loop that strikes out the names that are not known, on the buffer, from
    [s] on. After a name is struck out [s] is moved as if it was still there. *)
Fixpoint strip_loop (fuel : nat) (names : list str) (buf : str) (s : nat) : res str :=
  match fuel with
  | 0 => Undef
  | S fuel =>
      let rest := c_str (drop s buf) in
      if decide (rest = []) then Ok buf else
      let p := find [COMMA] rest in
      let method_len := default (length rest) p in
      let known := bool_decide (take method_len rest ∈ names) in
      match p with
      | Some p =>
          let n := length rest - method_len in
          if known then strip_loop fuel names buf (s + p + 1)
          else strip_loop fuel names
                 (take s buf ++ take n (drop (s + p + 1) buf) ++ drop (s + n) buf) (s + p + 1)
      | None => Ok (if known then buf else <[ (s - 1) := NUL ]> buf)
      end
  end.

(** The field a method type stands for, and the names of its table: [None] for the
    languages, which have no table. *)
Definition set_prefs (method_type : Z) (v : str) : option (session → session) :=
  let local f s := set_s_local (f (Some v) (s_local s)) s in
  let remote f s := set_s_remote (f (Some v) (s_remote s)) s in
  if (method_type =? LIBSSH2_METHOD_KEX)%Z then Some (set_kex_prefs (Some v))
  else if (method_type =? LIBSSH2_METHOD_HOSTKEY)%Z then Some (set_hostkey_prefs (Some v))
  else if (method_type =? LIBSSH2_METHOD_CRYPT_CS)%Z then Some (local set_crypt_prefs)
  else if (method_type =? LIBSSH2_METHOD_CRYPT_SC)%Z then Some (remote set_crypt_prefs)
  else if (method_type =? LIBSSH2_METHOD_MAC_CS)%Z then Some (local set_mac_prefs)
  else if (method_type =? LIBSSH2_METHOD_MAC_SC)%Z then Some (remote set_mac_prefs)
  else if (method_type =? LIBSSH2_METHOD_COMP_CS)%Z then Some (local set_comp_prefs)
  else if (method_type =? LIBSSH2_METHOD_COMP_SC)%Z then Some (remote set_comp_prefs)
  else if (method_type =? LIBSSH2_METHOD_LANG_CS)%Z then Some (local set_lang_prefs)
  else if (method_type =? LIBSSH2_METHOD_LANG_SC)%Z then Some (remote set_lang_prefs)
  else None.

Definition names_of (method_type : Z) : option (list str) :=
  if (method_type =? LIBSSH2_METHOD_KEX)%Z then Some (kex_name <$> libssh2_kex_methods)
  else if (method_type =? LIBSSH2_METHOD_HOSTKEY)%Z then Some (hostkey_name <$> libssh2_hostkey_methods)
  else if (method_type =? LIBSSH2_METHOD_CRYPT_CS)%Z || (method_type =? LIBSSH2_METHOD_CRYPT_SC)%Z
  then Some (crypt_name <$> crypt_methods)
  else if (method_type =? LIBSSH2_METHOD_MAC_CS)%Z || (method_type =? LIBSSH2_METHOD_MAC_SC)%Z
  then Some (mac_name <$> mac_methods)
  else if (method_type =? LIBSSH2_METHOD_COMP_CS)%Z || (method_type =? LIBSSH2_METHOD_COMP_SC)%Z
  then Some (comp_name <$> comp_methods)
  else None.

(** The table of the languages is the null pointer, which is followed as soon as
    there is a name to look up. *)
Definition libssh2_session_method_pref (method_type : Z) (prefs : str) : ST Z :=
  match set_prefs method_type [] with
  | None => libssh2_error LIBSSH2_ERROR_INVAL;; mret (-1)%Z
  | Some _ =>
      ok ← alloc e;
      if negb ok then libssh2_error LIBSSH2_ERROR_ALLOC;; mret (-1)%Z else
      buf ← (match names_of method_type with
             | Some names => lift (strip_loop (S (length prefs)) names (prefs ++ [NUL]) 0)
             | None => if decide (prefs = []) then mret [NUL] else undefined
             end);
      let newprefs := c_str buf in
      if decide (newprefs = []) then
        libssh2_error LIBSSH2_ERROR_METHOD_NOT_SUPPORTED;; mret (-1)%Z
      else
        (match set_prefs method_type newprefs with Some f => modify f | None => mret () end);;
        mret 0%Z
  end.
End kex.

(** ** Searching a name list *)

Definition plain_name (n : str) : Prop := NUL ∉ n ∧ COMMA ∉ n.

#[global] Instance plain_name_dec n : Decision (plain_name n).
Proof. unfold plain_name. apply _. Defined.

Lemma plain_name_cons c n : plain_name (c :: n) ↔ c ≠ NUL ∧ c ≠ COMMA ∧ plain_name n.
Proof. unfold plain_name. rewrite !not_elem_of_cons. naive_solver. Qed.

Lemma strncmp_eq_spec n needle c tl :
  plain_name n → plain_name needle → c = NUL ∨ c = COMMA →
  strncmp_eq (n ++ c :: tl) needle = Ok (bool_decide (needle `prefix_of` n)).
Proof.
  intros Hn Hneedle Hc. revert n Hn. induction needle as [|y needle IH]; intros n Hn.
  { rewrite (bool_decide_eq_true_2 _ (prefix_nil n)). done. }
  apply plain_name_cons in Hneedle as (Hy1 & Hy2 & Hneedle). cbn [strncmp_eq].
  destruct n as [|x n]; cbn [app].
  - rewrite decide_False by (destruct Hc; congruence).
    rewrite bool_decide_eq_false_2; [done|apply prefix_nil_not].
  - apply plain_name_cons in Hn as (Hx1 & Hx2 & Hn). case_decide as E.
    + subst y. rewrite decide_False, IH by done. f_equal.
      apply bool_decide_ext. split; [apply prefix_cons|apply prefix_cons_inv_2].
    + rewrite bool_decide_false; [done|]. intros ?%prefix_cons_inv_1. congruence.
Qed.

Lemma strchr_comma n tl : plain_name n → strchr (n ++ COMMA :: tl) COMMA = Ok (Some (length n)).
Proof.
  induction n as [|x n IH]; intros Hn; cbn [strchr app length].
  - by rewrite decide_True.
  - apply plain_name_cons in Hn as (? & ? & ?). by rewrite !decide_False, IH.
Qed.

Lemma strchr_end n tl : plain_name n → strchr (n ++ NUL :: tl) COMMA = Ok None.
Proof.
  induction n as [|x n IH]; intros Hn; cbn [strchr app].
  - done.
  - apply plain_name_cons in Hn as (? & ? & ?). by rewrite !decide_False, IH.
Qed.

(** What follows the first name of a list that ends at [len]: the end of the list,
    or a comma and more. *)
Definition follows (c : chr) (s len : nat) (n : str) : Prop :=
  (c = NUL ∧ s + length n = len) ∨ (c = COMMA ∧ s + length n < len).

Lemma name_at_spec h s len n c tl needle :
  drop s h = n ++ c :: tl → plain_name n → plain_name needle → follows c s len n →
  name_at h s (Z.of_nat len) needle = Ok (bool_decide (n = needle)).
Proof.
  intros Hd Hn Hneedle Hc. unfold follows in Hc. unfold name_at. rewrite Hd.
  rewrite strncmp_eq_spec by (done || destruct Hc; naive_solver). cbn [rbind].
  case_bool_decide as Hp; cbn [negb].
  2: { rewrite bool_decide_false; [done|]. intros ->. by apply Hp. }
  destruct Hp as [k ->]. rewrite length_app in Hc.
  destruct (Z.eqb_spec (Z.of_nat (s + length needle)) (Z.of_nat len)) as [E|E].
  { assert (k = []) as -> by (apply nil_length_inv; destruct Hc; lia).
    by rewrite app_nil_r, bool_decide_true. }
  rewrite <- lookup_drop, Hd, <- app_assoc, lookup_app_r, Nat.sub_diag by lia.
  destruct k as [|x k]; cbn [app lookup list_lookup].
  - rewrite app_nil_r. f_equal. rewrite !bool_decide_true; [done..|].
    destruct Hc as [[_ ?]|[? _]]; [simpl in *; lia|done].
  - f_equal. rewrite !bool_decide_false; [done|..].
    + intros E2. apply (f_equal length) in E2. rewrite length_app in E2. simpl in E2. lia.
    + intros ->. apply Hn. set_solver.
Qed.

Lemma method_list_cons n m ms : method_list (n :: m :: ms) = n ++ COMMA :: method_list (m :: ms).
Proof. done. Qed.

Lemma length_in_list n ns : n ∈ ns → length n ≤ length (method_list ns).
Proof.
  induction ns as [|m ns IH]; [by intros ?%elem_of_nil|]. intros [->|H]%elem_of_cons.
  - destruct ns; simpl; [done|]. rewrite length_app. lia.
  - destruct ns as [|m' ns]; [by apply elem_of_nil in H|]. specialize (IH H).
    rewrite method_list_cons, length_app. cbn [length]. lia.
Qed.

Lemma agree_loop_spec fuel h s len n ns rest needle :
  Forall plain_name (n :: ns) → plain_name needle →
  drop s h = method_list (n :: ns) ++ NUL :: rest →
  s + length (method_list (n :: ns)) = len → (Z.of_nat len < 2 ^ 31)%Z → length ns < fuel →
  ∃ r, agree_loop fuel h s (Z.of_nat len) needle = Ok r ∧ (is_Some r ↔ needle ∈ ns).
Proof.
  intros Hns Hneedle. revert s n ns Hns. induction fuel as [|fuel IH];
    intros s n ns Hns Hd Hl Hlen Hf; [lia|]. apply Forall_cons in Hns as [Hn Hns]. cbn [agree_loop].
  destruct ns as [|m ns].
  { rewrite Hd. cbn [method_list]. rewrite strchr_end by done. cbn [rbind]. exists None.
    split; [done|]. rewrite elem_of_nil. split; [by intros [? ?]|done]. }
  rewrite method_list_cons, <- app_assoc in Hd. rewrite method_list_cons, length_app in Hl.
  cbn [app length] in Hl, Hd. rewrite Hd, strchr_comma by done. cbn [rbind].
  set (tail := method_list (m :: ns)) in *.
  assert (Hu : usub (Z.of_nat len) (Z.of_nat (s + length n)) = Z.of_nat (S (length tail))).
  { unfold usub. rewrite wrap_u_small; [lia|]. unfold in_u. lia. }
  rewrite Hu. destruct (Z.ltb_spec (Z.of_nat (length needle)) (Z.of_nat (S (length tail)))) as [Hlt|Hge].
  2: { exists None. split; [done|]. split; [by intros [? ?]|]. intros H%length_in_list.
       fold tail in H. lia. }
  assert (Hd2 : drop (S (s + length n)) h = tail ++ NUL :: rest).
  { replace (S (s + length n)) with (s + (length n + 1)) by lia. rewrite <- drop_drop, Hd.
    rewrite <- drop_drop, drop_app_length. done. }
  assert (Hat : name_at h (S (s + length n)) (Z.of_nat len) needle = Ok (bool_decide (m = needle))).
  { apply Forall_cons in Hns as [Hm _]. destruct ns as [|m' ns].
    - eapply name_at_spec; [exact Hd2|done|done|]. left. split; [done|]. unfold tail in Hl.
      simpl in *. lia.
    - unfold tail in Hd2. rewrite method_list_cons, <- app_assoc in Hd2. cbn [app] in Hd2.
      eapply name_at_spec; [exact Hd2|done|done|]. right. split; [done|].
      unfold tail in Hl. rewrite method_list_cons, length_app in Hl. cbn [length] in Hl. lia. }
  rewrite Hat. cbn [rbind]. case_bool_decide as E.
  - exists (Some (S (s + length n))). split; [done|]. split; [|done]. intros _. set_solver.
  - destruct (IH (S (s + length n)) m ns) as (r & Hr & Hi); [done|exact Hd2|unfold tail in Hl; lia|done|
      simpl in Hf; lia|].
    exists r. split; [exact Hr|]. rewrite Hi, elem_of_cons. naive_solver.
Qed.

Lemma length_names ns : length ns ≤ S (length (method_list ns)).
Proof.
  induction ns as [|n ns IH]; [simpl; lia|]. destruct ns as [|m ns]; [simpl; lia|].
  rewrite method_list_cons, length_app. cbn [length] in *. lia.
Qed.

Lemma agree_instr_list ns rest needle :
  ns ≠ [] → Forall plain_name ns → plain_name needle → (Z.of_nat (length (method_list ns)) < 2 ^ 31)%Z →
  ∃ r, libssh2_kex_agree_instr (method_list ns ++ NUL :: rest) (Z.of_nat (length (method_list ns)))
         needle = Ok r ∧ (is_Some r ↔ needle ∈ ns).
Proof.
  intros Hne Hns Hneedle Hlen. unfold libssh2_kex_agree_instr.
  destruct (Z.ltb_spec (Z.of_nat (length (method_list ns))) (Z.of_nat (length needle))) as [Hlt|Hge].
  { exists None. split; [done|]. split; [by intros [? ?]|]. intros H%length_in_list. lia. }
  destruct ns as [|n ns]; [done|]. set (h := method_list (n :: ns) ++ NUL :: rest).
  assert (Hat : name_at h 0 (Z.of_nat (length (method_list (n :: ns)))) needle =
                Ok (bool_decide (n = needle))).
  { apply Forall_cons in Hns as [Hn _]. destruct ns as [|m ns].
    - by eapply (name_at_spec _ _ _ n NUL rest); [..|left].
    - eapply (name_at_spec _ _ _ n COMMA (method_list (m :: ns) ++ NUL :: rest)); [|done..|right].
      + unfold h. by rewrite method_list_cons, drop_0, <- app_assoc.
      + split; [done|]. rewrite method_list_cons, length_app. cbn [length]. lia. }
  rewrite Hat. cbn [rbind]. case_bool_decide as E.
  { exists (Some 0). split; [done|]. set_solver. }
  destruct (agree_loop_spec (S (length h)) h 0 (length (method_list (n :: ns))) n ns rest needle)
    as (r & Hr & Hi); [done..| |].
  { unfold h. rewrite length_app. pose proof (length_names (n :: ns)). simpl in *. lia. }
  exists r. split; [exact Hr|]. rewrite Hi, elem_of_cons. naive_solver.
Qed.

(** ** The choice *)

Section agreement.
Context {T : Type} (name : T → str) (methods : list T).
Context (settle : T → nat → ST bool) (f : T → session → session).
Context (Hsettle : ∀ m q s, settle m q s = Ok (true, f m s)).
Context (Hmethods : Forall (λ m, plain_name (name m)) methods).

(** The methods of the client, in the order it prefers them. *)
Definition client_order (prefs : option str) : list T :=
  match prefs with
  | None => methods
  | Some p => omap (λ n, libssh2_get_method_by_name name n methods) (prefs_of p)
  end.

(** Only methods there are may be preferred. *)
Definition known_prefs (prefs : option str) : Prop :=
  match prefs with
  | None => True
  | Some p => Forall (λ n, n ∈ name <$> methods) (prefs_of p)
  end.

Lemma get_method_name n ms m : libssh2_get_method_by_name name n ms = Some m → name m = n ∧ m ∈ ms.
Proof.
  induction ms as [|m' ms IH]; [done|]. cbn [libssh2_get_method_by_name]. case_decide.
  - intros [= ->]. set_solver.
  - intros [??]%IH. set_solver.
Qed.

Lemma get_method_known n ms : n ∈ name <$> ms → is_Some (libssh2_get_method_by_name name n ms).
Proof.
  induction ms as [|m ms IH]; [by intros ?%elem_of_nil|].
  rewrite fmap_cons, elem_of_cons. cbn [libssh2_get_method_by_name]. case_decide; [by eexists|].
  naive_solver.
Qed.

Context (names : list str) (rest : str).
Context (Hne : names ≠ []) (Hnames : Forall plain_name names).
Context (Hlen : (Z.of_nat (length (method_list names)) < 2 ^ 31)%Z).
Let h : str := method_list names ++ NUL :: rest.
Let len : Z := Z.of_nat (length (method_list names)).

Definition chosen (order : list T) : option T := head (filter (λ m, name m ∈ names) order).

(** What the choice of [m] gives. *)
Definition settled (m : option T) (s : session) : res (Z * session) :=
  match m with Some m => Ok (0%Z, f m s) | None => Ok ((-1)%Z, s) end.

Lemma agree_instr_ok n :
  plain_name n → ∃ r, libssh2_kex_agree_instr h len n = Ok r ∧ (is_Some r ↔ n ∈ names).
Proof. intros Hn. by apply agree_instr_list. Qed.

Lemma chosen_cons m ms :
  chosen (m :: ms) = if decide (name m ∈ names) then Some m else chosen ms.
Proof. unfold chosen. rewrite filter_cons. by case_decide. Qed.

Lemma agree_step {B} n (k : option nat → ST B) s r :
  libssh2_kex_agree_instr h len n = Ok r →
  (lift (libssh2_kex_agree_instr h len n) ≫= k) s = k r s.
Proof. intros H. apply bind_Ok. unfold lift. by rewrite H. Qed.

Lemma agree_table_spec ms s :
  Forall (λ m, plain_name (name m)) ms →
  agree_table name h len settle ms s = settled (chosen ms) s.
Proof.
  induction ms as [|m ms IH]; intros Hms; [done|]. apply Forall_cons in Hms as [Hm Hms].
  cbn [agree_table]. destruct (agree_instr_ok (name m) Hm) as (r & Hr & Hi).
  erewrite agree_step by exact Hr. rewrite chosen_cons.
  destruct r as [q|]; cbv beta iota.
  - rewrite decide_True by (apply Hi; by eexists). by erewrite bind_Ok by apply Hsettle.
  - rewrite decide_False by (intros [? ?]%Hi; done). by apply IH.
Qed.

Lemma agree_prefs_spec ns s :
  Forall (λ n, n ∈ name <$> methods) ns →
  agree_prefs name methods h len settle ns s =
  settled (chosen (omap (λ n, libssh2_get_method_by_name name n methods) ns)) s.
Proof.
  induction ns as [|n ns IH]; intros Hns; [done|]. apply Forall_cons in Hns as [Hn Hns].
  destruct (get_method_known n methods Hn) as [m Hm].
  destruct (get_method_name _ _ _ Hm) as [En Hin].
  assert (Hp : plain_name n).
  { rewrite <- En. by apply (proj1 (Forall_forall _ _) Hmethods). }
  cbn [agree_prefs omap list_omap]. rewrite Hm, chosen_cons, En.
  destruct (agree_instr_ok n Hp) as (r & Hr & Hi). erewrite agree_step by exact Hr.
  destruct r as [q|]; cbv beta iota.
  - rewrite decide_True by (apply Hi; by eexists). by erewrite bind_Ok by apply Hsettle.
  - rewrite decide_False by (intros [? ?]%Hi; done). by apply IH.
Qed.

Lemma agree_chosen prefs s :
  known_prefs prefs →
  agree name methods h len settle prefs s = settled (chosen (client_order prefs)) s.
Proof.
  destruct prefs as [p|]; intros Hp; [by apply agree_prefs_spec|by apply agree_table_spec].
Qed.
End agreement.

(** C22. The cipher of each direction is the first one of the client's list (its
    preferences, or the table) that the server's list names; without one the choice
    fails and the session is as before. *)
Theorem agree_crypt_spec crypt_methods local names rest s :
  names ≠ [] → Forall plain_name names → (Z.of_nat (length (method_list names)) < 2 ^ 31)%Z →
  Forall (λ m, plain_name (crypt_name m)) crypt_methods →
  known_prefs crypt_name crypt_methods (crypt_prefs (endpoint_of local s)) →
  libssh2_kex_agree_crypt crypt_methods local (method_list names ++ NUL :: rest)
    (Z.of_nat (length (method_list names))) s =
  match chosen crypt_name names
          (client_order crypt_name crypt_methods (crypt_prefs (endpoint_of local s))) with
  | Some m => Ok (0%Z, if local then set_s_local (set_crypt m (s_local s)) s
                       else set_s_remote (set_crypt m (s_remote s)) s)
  | None => Ok ((-1)%Z, s)
  end.
Proof.
  intros. unfold libssh2_kex_agree_crypt. rewrite (bind_Ok _ _ s (crypt_prefs (endpoint_of local s)) s) by done.
  rewrite (agree_chosen crypt_name crypt_methods _
    (λ m s, if local then set_s_local (set_crypt m (s_local s)) s
            else set_s_remote (set_crypt m (s_remote s)) s)); try done.
  intros m q s'. by destruct local.
Qed.

Lemma agree_crypt_spec_witness :
  let ms := libssh2_crypt_methods (λ _ a s, Some (a, s)) in
  let names := [&"3des-cbc"; &"aes128-cbc"; &"none"] in
  ∃ s', libssh2_kex_agree_crypt ms true (method_list names ++ [NUL]) 24 (demo_session []) = Ok (0%Z, s') ∧
        crypt_name (crypt (s_local s')) = &"aes128-cbc".
Proof.
  intros ms names.
  assert (H := agree_crypt_spec ms true names [] (demo_session [])).
  eexists. split.
  - etrans; [apply H|vm_compute; reflexivity].
    + done.
    + repeat constructor; vm_compute; set_solver.
    + vm_compute. reflexivity.
    + repeat constructor; vm_compute; set_solver.
    + done.
  - reflexivity.
Defined.

(** ** The whole negotiation *)

Lemma agree_table_first {T} (name : T → str) names rest settle ms m s (P : session → Prop) :
  names ≠ [] → Forall plain_name names → (Z.of_nat (length (method_list names)) < 2 ^ 31)%Z →
  Forall (λ m, plain_name (name m)) ms → chosen name names ms = Some m →
  (∀ q, ∃ s', settle m q s = Ok (true, s') ∧ P s') →
  ∃ s', agree_table name (method_list names ++ NUL :: rest) (Z.of_nat (length (method_list names)))
          settle ms s = Ok (0%Z, s') ∧ P s'.
Proof.
  intros Hne Hnames Hlen Hms Hm Hs. induction ms as [|m' ms IH]; [done|].
  apply Forall_cons in Hms as [Hm' Hms]. cbn [agree_table].
  destruct (agree_instr_list names rest (name m')) as (r & Hr & Hi); [done..|].
  rewrite chosen_cons in Hm. erewrite bind_Ok by (unfold lift; by rewrite Hr).
  destruct r as [q|]; cbv beta iota.
  - rewrite decide_True in Hm by (apply Hi; by eexists). injection Hm as ->.
    destruct (Hs q) as (s' & Hs' & HP). exists s'. split; [|done]. by erewrite bind_Ok by exact Hs'.
  - rewrite decide_False in Hm by (intros [? ?]%Hi; done). by apply IH.
Qed.

(** The lists of a [KEXINIT] packet, and what comes after the last of them. *)
Fixpoint name_lists (lists : list (list str)) (tail : str) : str :=
  match lists with
  | [] => tail
  | l :: lists => ssh_string (method_list l) ++ name_lists lists tail
  end.

Definition small_list (names : list str) : Prop := (Z.of_nat (length (method_list names)) < 2 ^ 24)%Z.

Lemma ssh_string_at before s after_ w :
  (Z.of_nat (length s) < 2 ^ 32)%Z →
  ntohu32 (before ++ ssh_string s ++ after_) (length before) w = Ok (Z.of_nat (length s), w).
Proof.
  intros Hs. unfold ssh_string. rewrite <- app_assoc. apply ntohu32_ok. unfold in_u. lia.
Qed.

(** What [locate_lists] gives for them: from each list on, its length. *)
Fixpoint located (lists : list (list str)) (tail : str) : list (str * Z) :=
  match lists with
  | [] => []
  | l :: lists => (method_list l ++ name_lists lists tail, Z.of_nat (length (method_list l))) ::
                  located lists tail
  end.

Lemma locate_lists_spec before lists tail w :
  Forall small_list lists →
  locate_lists (length lists) (before ++ name_lists lists tail) (length before) w =
  Ok ((located lists tail, length before + length (name_lists lists []) ), w).
Proof.
  revert before. induction lists as [|l lists IH]; intros before Hl; cbn [length locate_lists].
  { cbn [name_lists length]. by rewrite Nat.add_0_r. }
  apply Forall_cons in Hl as [Hl Hls]. unfold small_list in Hl. cbn [name_lists].
  erewrite bind_Ok by (apply ssh_string_at; lia). cbv beta. rewrite Nat2Z.id.
  assert (E : length (ssh_string (method_list l)) = 4 + length (method_list l)).
  { unfold ssh_string. by rewrite length_app. }
  rewrite app_assoc.
  replace (length before + 4 + length (method_list l))
    with (length (before ++ ssh_string (method_list l))) by (rewrite length_app, E; lia).
  erewrite bind_Ok by by apply IH. cbn [located fst snd]. unfold mret, ST_ret. f_equal. f_equal.
  f_equal.
  - f_equal. f_equal. rewrite <- app_assoc, <- drop_drop, drop_app_length. done.
  - rewrite !length_app, E. lia.
Qed.

(** In such a packet a small list is followed by a zero byte. *)
Lemma name_lists_tail lists tail :
  Forall small_list lists → lists ≠ [] → ∃ r, name_lists lists tail = NUL :: r.
Proof.
  intros Hl Hne. destruct lists as [|l lists]; [done|]. apply Forall_cons in Hl as [Hl _].
  cbn [name_lists]. unfold ssh_string. unfold small_list in Hl.
  destruct (htonu32_small (Z.of_nat (length (method_list l)))) as [r ->]; [lia|].
  by eexists.
Qed.

Section negotiation.
Context (crypt_methods : list crypt_method) (mac_methods : list mac_method).
Context (comp_methods : list comp_method).

(** The session has no preferences, and every name is a plain one. *)
Definition no_prefs (s : session) : Prop :=
  kex_prefs s = None ∧ hostkey_prefs s = None ∧
  crypt_prefs (s_local s) = None ∧ crypt_prefs (s_remote s) = None ∧
  mac_prefs (s_local s) = None ∧ mac_prefs (s_remote s) = None ∧
  comp_prefs (s_local s) = None ∧ comp_prefs (s_remote s) = None.

Definition plain_tables : Prop :=
  Forall (λ m, plain_name (crypt_name m)) crypt_methods ∧
  Forall (λ m, plain_name (mac_name m)) mac_methods ∧
  Forall (λ m, plain_name (comp_name m)) comp_methods.

Definition good_list (names : list str) : Prop :=
  names ≠ [] ∧ Forall plain_name names ∧ small_list names.

Lemma kex_plain : Forall (λ m, plain_name (kex_name m)) libssh2_kex_methods.
Proof. apply (bool_decide_eq_true_1 _). vm_compute. reflexivity. Qed.

Lemma hostkey_plain : Forall (λ m, plain_name (hostkey_name m)) libssh2_hostkey_methods.
Proof. apply (bool_decide_eq_true_1 _). vm_compute. reflexivity. Qed.

(** Every host key serves every key exchange. *)
Lemma all_suit m k :
  m ∈ libssh2_kex_methods → k ∈ libssh2_hostkey_methods → suits (kex_flags m) k = true.
Proof.
  intros Hm Hk. unfold libssh2_kex_methods, libssh2_hostkey_methods in *.
  repeat (apply elem_of_cons in Hm as [->|Hm]; [|]); try by apply elem_of_nil in Hm.
  all: repeat (apply elem_of_cons in Hk as [->|Hk]; [done|]); by apply elem_of_nil in Hk.
Qed.

Lemma chosen_in {T} (name : T → str) names ms m : chosen name names ms = Some m → m ∈ ms.
Proof.
  unfold chosen. intros H%head_Some_elem_of. by apply list_elem_of_filter in H as [_ ?].
Qed.

Lemma agree_hostkey_first names rest m k s :
  good_list names → hostkey_prefs s = None → m ∈ libssh2_kex_methods →
  chosen hostkey_name names libssh2_hostkey_methods = Some k →
  libssh2_kex_agree_hostkey (kex_flags m) (method_list names ++ NUL :: rest)
    (Z.of_nat (length (method_list names))) s = Ok (0%Z, set_hostkey (Some k) s).
Proof.
  intros (Hne & Hn & Hl) Hp Hm Hk. unfold libssh2_kex_agree_hostkey. unfold small_list in Hl.
  rewrite (bind_Ok _ _ s None s) by (unfold gets; by rewrite Hp). cbn [agree].
  match goal with |- agree_table _ _ _ ?st _ _ = _ => destruct (agree_table_first hostkey_name names
    rest st libssh2_hostkey_methods k s (λ s', s' = set_hostkey (Some k) s))
    as (s' & H & ->) end; [done|done|lia|apply hostkey_plain|exact Hk| |exact H].
  intros q. eexists. split; [|done]. cbv beta. rewrite all_suit by (done || by eapply chosen_in).
  done.
Qed.

(** The state after the choice of the key exchange: only the guess may change. *)
Definition agreed_kex (m : kex_method) (k : hostkey_method) (s s' : session) : Prop :=
  ∃ b, s' = set_burn_optimistic_kexinit b (set_kex (Some m) (set_hostkey (Some k) s)).

Lemma agree_kex_first names rest names' rest' m k s :
  good_list names → good_list names' → kex_prefs s = None → hostkey_prefs s = None →
  chosen kex_name names libssh2_kex_methods = Some m →
  chosen hostkey_name names' libssh2_hostkey_methods = Some k →
  ∃ s', libssh2_kex_agree_kex_hostkey
    (method_list names ++ NUL :: rest) (Z.of_nat (length (method_list names)))
    (method_list names' ++ NUL :: rest') (Z.of_nat (length (method_list names'))) s = Ok (0%Z, s') ∧
  agreed_kex m k s s'.
Proof.
  intros (Hne & Hn & Hl) Hg Hp Hp' Hm Hk. unfold libssh2_kex_agree_kex_hostkey. unfold small_list in Hl.
  rewrite (bind_Ok _ _ s None s) by (unfold gets; by rewrite Hp). cbn [agree].
  apply (agree_table_first kex_name names rest _ _ m s (agreed_kex m k s)); [done|done|lia|apply kex_plain|done|].
  intros q. eexists. split.
  - erewrite bind_Ok by exact (agree_hostkey_first names' rest' m k s Hg Hp' (chosen_in _ _ _ _ Hm) Hk).
    reflexivity.
  - set (s1 := set_kex (Some m) (set_hostkey (Some k) s)).
    destruct (burn_optimistic_kexinit s1 && (q =? 0)%nat).
    + by exists false.
    + exists (burn_optimistic_kexinit s). subst s1. by destruct s.
Qed.

(** The choices of the client among the lists of the server. *)
Record agreement := {
  a_kex : kex_method; a_hostkey : hostkey_method; a_crypt_cs : crypt_method;
  a_crypt_sc : crypt_method; a_mac_cs : mac_method; a_mac_sc : mac_method;
  a_comp_cs : comp_method; a_comp_sc : comp_method }.

(** [a] holds the first method of each table that the server's list names; the
    compression methods need no state. *)
Definition agrees (lists : list (list str)) (a : agreement) : Prop :=
  match lists with
  | [k; h; ccs; csc; mcs; msc; zcs; zsc; _; _] =>
      chosen kex_name k libssh2_kex_methods = Some (a_kex a) ∧
      chosen hostkey_name h libssh2_hostkey_methods = Some (a_hostkey a) ∧
      chosen crypt_name ccs crypt_methods = Some (a_crypt_cs a) ∧
      chosen crypt_name csc crypt_methods = Some (a_crypt_sc a) ∧
      chosen mac_name mcs mac_methods = Some (a_mac_cs a) ∧
      chosen mac_name msc mac_methods = Some (a_mac_sc a) ∧
      chosen comp_name zcs comp_methods = Some (a_comp_cs a) ∧
      chosen comp_name zsc comp_methods = Some (a_comp_sc a) ∧
      comp_init (a_comp_cs a) = None ∧ comp_init (a_comp_sc a) = None
  | _ => False
  end.

Definition agreed (a : agreement) (s s' : session) : Prop :=
  kex s' = Some (a_kex a) ∧ hostkey s' = Some (a_hostkey a) ∧
  crypt (s_local s') = a_crypt_cs a ∧ crypt (s_remote s') = a_crypt_sc a ∧
  mac_m (s_local s') = a_mac_cs a ∧ mac_m (s_remote s') = a_mac_sc a ∧
  comp (s_local s') = a_comp_cs a ∧ comp (s_remote s') = a_comp_sc a ∧
  incoming s' = incoming s ∧ sent s' = sent s ∧ packets s' = packets s.

Lemma agree_default {T} (name : T → str) settle f ms names rest m s :
  good_list names → Forall (λ m, plain_name (name m)) ms → (∀ m q s, settle m q s = Ok (true, f m s)) →
  chosen name names ms = Some m →
  agree name ms (method_list names ++ NUL :: rest) (Z.of_nat (length (method_list names))) settle None s =
  Ok (0%Z, f m s).
Proof.
  intros (Hne & Hn & Hl) Hms Hf Hm. unfold small_list in Hl.
  rewrite (agree_chosen name ms settle f) by (done || lia). cbn [client_order]. by rewrite Hm.
Qed.

Lemma step_crypt local names rest m s :
  plain_tables → good_list names → crypt_prefs (endpoint_of local s) = None →
  chosen crypt_name names crypt_methods = Some m →
  libssh2_kex_agree_crypt crypt_methods local (method_list names ++ NUL :: rest)
    (Z.of_nat (length (method_list names))) s =
  Ok (0%Z, if local then set_s_local (set_crypt m (s_local s)) s
           else set_s_remote (set_crypt m (s_remote s)) s).
Proof.
  intros (Ht & _ & _) Hg Hp Hm. unfold libssh2_kex_agree_crypt.
  rewrite (bind_Ok _ _ s None s) by (unfold gets; by rewrite Hp).
  apply (agree_default crypt_name _ (λ m s, if local then set_s_local (set_crypt m (s_local s)) s
           else set_s_remote (set_crypt m (s_remote s)) s)); try done. by destruct local.
Qed.

Lemma step_mac local names rest m s :
  plain_tables → good_list names → mac_prefs (endpoint_of local s) = None →
  chosen mac_name names mac_methods = Some m →
  libssh2_kex_agree_mac mac_methods local (method_list names ++ NUL :: rest)
    (Z.of_nat (length (method_list names))) s =
  Ok (0%Z, if local then set_s_local (set_mac_m m (s_local s)) s
           else set_s_remote (set_mac_m m (s_remote s)) s).
Proof.
  intros (_ & Ht & _) Hg Hp Hm. unfold libssh2_kex_agree_mac.
  rewrite (bind_Ok _ _ s None s) by (unfold gets; by rewrite Hp).
  apply (agree_default mac_name _ (λ m s, if local then set_s_local (set_mac_m m (s_local s)) s
           else set_s_remote (set_mac_m m (s_remote s)) s)); try done. by destruct local.
Qed.

Lemma step_comp local names rest m s :
  plain_tables → good_list names → comp_prefs (endpoint_of local s) = None →
  chosen comp_name names comp_methods = Some m →
  libssh2_kex_agree_comp comp_methods local (method_list names ++ NUL :: rest)
    (Z.of_nat (length (method_list names))) s =
  Ok (0%Z, if local then set_s_local (set_comp m (s_local s)) s
           else set_s_remote (set_comp m (s_remote s)) s).
Proof.
  intros (_ & _ & Ht) Hg Hp Hm. unfold libssh2_kex_agree_comp.
  rewrite (bind_Ok _ _ s None s) by (unfold gets; by rewrite Hp).
  apply (agree_default comp_name _ (λ m s, if local then set_s_local (set_comp m (s_local s)) s
           else set_s_remote (set_comp m (s_remote s)) s)); try done. by destruct local.
Qed.

Lemma init_comp_none e local compress s :
  comp_init (comp (endpoint_of local s)) = None → init_comp e local compress s = Ok (0%Z, s).
Proof.
  intros H. unfold init_comp. rewrite (bind_Ok _ _ s s s) by done. by rewrite H.
Qed.

Lemma all_zero_step m steps s s1 :
  m s = Ok (0%Z, s1) → all_zero (m :: steps) s = all_zero steps s1.
Proof. intros H. cbn [all_zero]. by erewrite bind_Ok by exact H. Qed.

(** The eight lists that are looked at are followed by a zero byte. *)
Lemma located_at lists tail i l :
  Forall small_list lists → lists !! i = Some l → S i < length lists →
  ∃ rest, located lists tail !! i = Some (method_list l ++ NUL :: rest, Z.of_nat (length (method_list l))).
Proof.
  revert i. induction lists as [|l' lists IH]; intros i Hs Hi Hl; [done|].
  apply Forall_cons in Hs as [_ Hs]. destruct i as [|i].
  - injection Hi as ->. destruct (name_lists_tail lists tail Hs) as [r Hr].
    { intros ->. simpl in Hl. lia. }
    exists r. cbn. by rewrite Hr.
  - apply IH; [done|done|simpl in Hl; lia].
Qed.
End negotiation.

Lemma name_lists_app lists tail : name_lists lists tail = name_lists lists [] ++ tail.
Proof. induction lists as [|l lists IH]; [done|]. cbn [name_lists]. by rewrite IH, <- app_assoc. Qed.


Definition demo_lists : list (list str) :=
  let ciphers := [&"3des-cbc"; &"aes128-cbc"] in
  let macs := [&"hmac-md5"; &"none"] in
  [ [&"diffie-hellman-group1-sha1"]; [&"ssh-dss"]; ciphers; ciphers; macs; macs;
    [&"zlib"; &"none"]; [&"none"]; []; [] ].

Definition demo_ciphers : list crypt_method := libssh2_crypt_methods (λ _ a s, Some (a, s)).
Definition demo_macs : list mac_method := libssh2_mac_methods (λ _ k _, k).
Definition demo_comps : list comp_method := @libssh2_comp_methods demo_zlib.

Definition demo_agreement : option agreement :=
  match nth_error libssh2_kex_methods 2, nth_error libssh2_hostkey_methods 1,
        nth_error demo_ciphers 3, nth_error demo_macs 2, nth_error demo_comps 0 with
  | Some k, Some h, Some c, Some m, Some z => Some (Build_agreement k h c c m m z z)
  | _, _, _, _, _ => None
  end.


(** ** Preferences that go wrong *)

(** What follows an unknown name is moved to its place, and the loop goes on inside
    it: two names that are known become one that is not. *)
Lemma method_pref_skips :
  (let! buf := strip_loop 20 [&"aes128-cbc"; &"3des-cbc"] (&"des,aes128-cbc,3des-cbc" ++ [NUL]) 0 in
   Ok (c_str buf)) = Ok &"aes13des-c".
Proof. vm_compute. reflexivity. Qed.

(** The languages have no table: the null pointer is followed. *)
Lemma method_pref_language e s :
  alloc_ok e (allocs s) = true →
  libssh2_session_method_pref e demo_ciphers demo_macs demo_comps LIBSSH2_METHOD_LANG_CS &"en" s = Undef.
Proof.
  intros H. unfold libssh2_session_method_pref. cbn [set_prefs].
  change (set_prefs LIBSSH2_METHOD_LANG_CS [])
    with (Some (λ s, set_s_local (set_lang_prefs (Some []) (s_local s)) s)). cbv iota.
  rewrite (bind_Ok _ _ s true (set_allocs (S (allocs s)) s)); [reflexivity|].
  unfold alloc, gets, modify, mbind, ST_bind, mret, ST_ret. by rewrite H.
Qed.
