(* ===== verification/Ssh2Keeps.v ===== *)
(** * libssh2: what the transport leaves alone

    Reading, handling and writing packets change the queues, the channels and the
    state of the ciphers; the [core] of a session is what they do not touch. [leaves
    view m] says that [m] does not change a [view] of the core, and the tactic
    [leaving] proves it along the structure of [m]. *)
From S2P Require Import Prelude StdString Ssh2Misc Ssh2Session Ssh2Packet Ssh2Channel Ssh2Kex.

(** What a key exchange and a login are about. *)
Record core := {
  c_state : Z;
  c_session_id : option str;
  c_kex : option kex_method;
  c_hostkey : option hostkey_method;
  c_server_hostkey : option str;
  c_md5 : str;
  c_sha1 : str;
  c_burn : bool;
  c_banners : option str * option str;
  c_kexinits : option str * option str }.

Definition core_of (s : session) : core := {|
  c_state := state s; c_session_id := session_id s; c_kex := kex s; c_hostkey := hostkey s;
  c_server_hostkey := server_hostkey s; c_md5 := server_hostkey_md5 s; c_sha1 := server_hostkey_sha1 s;
  c_burn := burn_optimistic_kexinit s; c_banners := (banner (s_local s), banner (s_remote s));
  c_kexinits := (kexinit (s_local s), kexinit (s_remote s)) |}.

Definition leaves {X} (view : core → X) {A} (m : ST A) : Prop :=
  ∀ s a s', m s = Ok (a, s') → view (core_of s') = view (core_of s).

Create HintDb leaves.

Section structure.
Context {X : Type} (view : core → X).

Lemma leaves_ret {A} (a : A) : leaves view (mret a).
Proof. by intros s ? ? [= _ <-]. Qed.

Lemma leaves_bind {A B} (m : ST A) (k : A → ST B) :
  leaves view m → (∀ a, leaves view (k a)) → leaves view (m ≫= k).
Proof. intros Hm Hk s b s' (a & s1 & H1 & H2)%bind_inv. by rewrite (Hk _ _ _ _ H2), (Hm _ _ _ H1). Qed.

Lemma leaves_undefined {A} : leaves view (undefined (A := A)).
Proof. done. Qed.

Lemma leaves_gets {A} (f : session → A) : leaves view (gets f).
Proof. by intros s ? ? [= _ <-]. Qed.

Lemma leaves_session : leaves view get_session.
Proof. by intros s ? ? [= _ <-]. Qed.

Lemma leaves_modify f : (∀ s, view (core_of (f s)) = view (core_of s)) → leaves view (modify f).
Proof. intros H s a s' [= _ <-]. apply H. Qed.

Lemma leaves_lift {A} (r : res A) : leaves view (lift r).
Proof. intros s a s' H. unfold lift in H. destruct r; by inversion H. Qed.
End structure.

#[export] Hint Resolve leaves_ret leaves_undefined leaves_gets leaves_session leaves_lift : leaves.

Ltac leave_step :=
  match goal with
  | |- leaves _ (_ ≫= _) => apply leaves_bind; [|intros ?]
  | |- leaves _ (if ?b then _ else _) => destruct b
  | |- leaves _ (match ?x with _ => _ end) => destruct x
  | |- leaves _ (let _ := _ in _) => cbv zeta
  | |- leaves _ (modify _) => apply leaves_modify; done
  | |- leaves _ (update_channel _ _) => apply leaves_modify; done
  | |- leaves _ (update_local _) => apply leaves_modify; done
  | |- leaves _ (update_remote _) => apply leaves_modify; done
  | |- leaves _ (emit _) => apply leaves_modify; done
  | |- leaves _ (ntohu32 _ _) => apply leaves_lift
  | |- leaves _ (bytes _ _ _) => apply leaves_lift
  | |- leaves _ _ => solve [eauto with leaves]
  end.
Ltac leaving := repeat leave_step.

Section packets.
Context {X : Type} (view : core → X) (e : surroundings) (kex_exchange : ST Z).

Lemma leaves_byte_at b i : leaves view (byte_at b i).
Proof. unfold byte_at. leaving. Qed.

Lemma leaves_the_channel i : leaves view (the_channel i).
Proof. unfold the_channel. leaving. Qed.

#[local] Hint Resolve leaves_byte_at leaves_the_channel : leaves.

Lemma leaves_error c : leaves view (libssh2_error c).
Proof. by apply leaves_modify. Qed.

Lemma leaves_alloc : leaves view (alloc e).
Proof. unfold alloc. leaving. Qed.

Lemma leaves_send d : leaves view (send e d).
Proof. unfold send. leaving. Qed.

#[local] Hint Resolve leaves_error leaves_alloc leaves_send : leaves.

Lemma leaves_allocated n : leaves view (allocated n).
Proof. by apply leaves_modify. Qed.

Lemma leaves_comp_state l a : leaves view (update_endpoint l (set_comp_abstract a)).
Proof. destruct l; by apply leaves_modify. Qed.

#[local] Hint Resolve leaves_allocated leaves_comp_state : leaves.

Lemma leaves_run_comp l limit d : leaves view (run_comp e l limit d).
Proof. unfold run_comp. leaving. Qed.

#[local] Hint Resolve leaves_run_comp : leaves.

Lemma leaves_packet_write d : leaves view (libssh2_packet_write e d).
Proof. unfold libssh2_packet_write, compress, write_encrypted, write_plain. leaving. Qed.

#[local] Hint Resolve leaves_packet_write : leaves.

Lemma leaves_window_adjust i a f : leaves view (libssh2_channel_receive_window_adjust e i a f).
Proof. unfold libssh2_channel_receive_window_adjust. leaving. Qed.

Lemma leaves_alloc_channel : leaves view (alloc_channel e).
Proof. unfold alloc_channel. leaving. Qed.

Lemma leaves_nextid : leaves view libssh2_channel_nextid.
Proof. unfold libssh2_channel_nextid. leaving. Qed.

Lemma leaves_open_failure d s a b n : leaves view (open_failure e d s a b n).
Proof. unfold open_failure. leaving. Qed.

Lemma leaves_message d n : leaves view (message_language d n).
Proof. unfold message_language. leaving. Qed.

#[local] Hint Resolve leaves_window_adjust leaves_alloc_channel leaves_nextid leaves_open_failure
  leaves_message : leaves.

Lemma leaves_queue_listener d : leaves view (libssh2_packet_queue_listener e d).
Proof. unfold libssh2_packet_queue_listener, accept_forward, read_open. leaving. Qed.

Lemma leaves_x11_open d : leaves view (libssh2_packet_x11_open e d).
Proof. unfold libssh2_packet_x11_open, read_open. leaving. Qed.

Lemma leaves_data d n h : leaves view (data_packet e d n h).
Proof. unfold data_packet, libssh2_channel_locate. leaving. Qed.

Lemma leaves_if_channel d f : leaves view (if_channel d f).
Proof. unfold if_channel. leaving. Qed.

Lemma leaves_request d : leaves view (request_packet d).
Proof. unfold request_packet, is_prefix, libssh2_channel_locate. leaving. Qed.

Lemma leaves_opens d n t : leaves view (opens d n t).
Proof. unfold opens, is_prefix. leaving. Qed.

#[local] Hint Resolve leaves_queue_listener leaves_x11_open leaves_data leaves_if_channel leaves_request
  leaves_opens : leaves.

Lemma leaves_exceptions d n : leaves view (packet_exceptions e d n).
Proof.
  unfold packet_exceptions, disconnect_packet, ignore_packet, debug_packet, window_adjust_packet. leaving.
Qed.

Lemma leaves_check_mac d n m : leaves view (check_mac e d n m).
Proof. unfold check_mac. leaving. Qed.

Lemma leaves_blocking_read n : leaves view (libssh2_blocking_read n).
Proof. unfold libssh2_blocking_read. leaving. Qed.

Lemma leaves_recv_one : leaves view recv_one.
Proof. unfold recv_one. leaving. Qed.

Lemma leaves_decrypt b : leaves view (decrypt b).
Proof. unfold decrypt. leaving. Qed.

#[local] Hint Resolve leaves_exceptions leaves_check_mac leaves_blocking_read leaves_recv_one leaves_decrypt : leaves.

Lemma leaves_read_blocks fuel bs p n : leaves view (read_blocks fuel bs p n).
Proof. revert p. induction fuel as [|fuel IH]; intros p; cbn [read_blocks]; leaving. Qed.

Lemma leaves_flush_padding n : leaves view (flush_padding n).
Proof. unfold flush_padding. leaving. Qed.

#[local] Hint Resolve leaves_read_blocks leaves_flush_padding : leaves.

(** The key exchange that the other side may start. *)
Context (Hkex : leaves view kex_exchange).
#[local] Hint Resolve Hkex : leaves.

Lemma leaves_packet_add d n m : leaves view (libssh2_packet_add e kex_exchange d n m).
Proof. unfold libssh2_packet_add. leaving. Qed.

#[local] Hint Resolve leaves_packet_add : leaves.

Lemma leaves_packet_read b : leaves view (libssh2_packet_read e kex_exchange b).
Proof.
  unfold libssh2_packet_read, read_encrypted, read_plain, plain_header, first_block, short_read,
    finish_encrypted, unpack. leaving.
Qed.

#[local] Hint Resolve leaves_packet_read : leaves.

Lemma leaves_ask t o b p : leaves view (libssh2_packet_ask_ex e kex_exchange t o b p).
Proof. unfold libssh2_packet_ask_ex. leaving. Qed.

#[local] Hint Resolve leaves_ask : leaves.

Lemma leaves_askv ts o b p : leaves view (askv e kex_exchange ts o b p).
Proof. revert p. induction ts as [|t ts IH]; intros p; cbn [askv]; leaving. Qed.

Lemma leaves_wait_type fuel up ts : leaves view (wait_type e kex_exchange fuel up ts).
Proof. induction fuel as [|fuel IH]; cbn [wait_type]; leaving. Qed.

#[local] Hint Resolve leaves_askv leaves_wait_type : leaves.

Lemma leaves_requirev ts o b : leaves view (libssh2_packet_requirev_ex e kex_exchange ts o b).
Proof. unfold libssh2_packet_requirev_ex, libssh2_packet_askv_ex. leaving. Qed.

Lemma leaves_require t o b : leaves view (libssh2_packet_require_ex e kex_exchange t o b).
Proof. unfold libssh2_packet_require_ex. leaving. Qed.

Lemma leaves_burn beyond : leaves view (libssh2_packet_burn e kex_exchange beyond).
Proof.
  unfold libssh2_packet_burn, libssh2_packet_askv_ex. apply leaves_bind; [leaving|intros [[d ?]|]]; [leaving|].
  cbv zeta. apply leaves_bind; [leaving|]. intros fuel. induction fuel as [|fuel IH]; leaving.
Qed.

Lemma leaves_no_exchange : leaves view no_exchange.
Proof. apply leaves_undefined. Qed.

Lemma leaves_send_request d : leaves view (send_request e d).
Proof. unfold send_request. leaving. Qed.
End packets.

#[export] Hint Resolve leaves_byte_at leaves_the_channel leaves_error leaves_alloc leaves_send leaves_allocated leaves_comp_state leaves_run_comp
  leaves_packet_write leaves_blocking_read leaves_packet_read leaves_ask leaves_askv leaves_wait_type
  leaves_requirev leaves_require leaves_burn leaves_no_exchange leaves_send_request : leaves.
(** ** The negotiation leaves a login alone *)

Definition auth_view (c : core) : bool := negb (Z.land (c_state c) LIBSSH2_STATE_AUTHENTICATED =? 0)%Z.

Section exchange.
Context (e : surroundings) (cms : list crypt_method) (mms : list mac_method) (cps : list comp_method).
Context (exchange_keys : kex_method → ST Z) (Hkeys : ∀ m, leaves auth_view (exchange_keys m)).

Lemma leaves_add_exchanging : leaves auth_view (add_state LIBSSH2_STATE_EXCHANGING_KEYS).
Proof.
  apply leaves_modify. intros s. unfold auth_view. simpl.
  change LIBSSH2_STATE_EXCHANGING_KEYS with 1%Z. change LIBSSH2_STATE_AUTHENTICATED with 4%Z.
  by rewrite Z.land_lor_distr_l, Z.lor_0_r.
Qed.

Lemma leaves_drop_exchanging : leaves auth_view (drop_state LIBSSH2_STATE_EXCHANGING_KEYS).
Proof.
  apply leaves_modify. intros s. unfold auth_view. simpl.
  change LIBSSH2_STATE_EXCHANGING_KEYS with 1%Z. change LIBSSH2_STATE_AUTHENTICATED with 4%Z.
  by rewrite <- Z.land_assoc.
Qed.

#[local] Hint Resolve leaves_add_exchanging leaves_drop_exchanging Hkeys : leaves.

Lemma leaves_update_endpoint l f : leaves auth_view (update_endpoint l f).
Proof. destruct l; by apply leaves_modify. Qed.

#[local] Hint Resolve leaves_update_endpoint : leaves.

(** The loops of the choice keep it when taking a method does. *)
Lemma leaves_agree {T} (name : T → str) methods h n settle prefs :
  (∀ m q, leaves auth_view (settle m q)) → leaves auth_view (agree name methods h n settle prefs).
Proof.
  intros Hs. unfold agree. destruct prefs as [p|].
  - generalize (prefs_of p). intros ns. induction ns as [|x ns IH]; cbn [agree_prefs]; leaving.
  - generalize methods at 1. intros ms. induction ms as [|m ms IH]; cbn [agree_table]; leaving.
Qed.

Lemma leaves_agree_methods data : leaves auth_view (libssh2_kex_agree_methods e cms mms cps data).
Proof.
  assert (Hl : ∀ n s, leaves auth_view (locate_lists n data s)).
  { induction n as [|n IH]; intros s; cbn [locate_lists]; leaving. }
  assert (Hz : ∀ steps, Forall (leaves auth_view) steps → leaves auth_view (all_zero steps)).
  { induction 1 as [|m steps Hm _ IH]; cbn [all_zero]; leaving. }
  unfold libssh2_kex_agree_methods. repeat leave_step.
  apply Hz. repeat constructor; unfold libssh2_kex_agree_kex_hostkey, libssh2_kex_agree_crypt,
    libssh2_kex_agree_mac, libssh2_kex_agree_comp, init_comp; leaving;
    apply leaves_agree; intros ??; unfold libssh2_kex_agree_hostkey; leaving; try (apply leaves_agree; intros ??; leaving).
  apply leaves_modify. intros s. by destruct (_ && _).
Qed.

Lemma leaves_kexinit : leaves auth_view (libssh2_kexinit e cms mms cps).
Proof. unfold libssh2_kexinit. leaving. Qed.

#[local] Hint Resolve leaves_agree_methods leaves_kexinit : leaves.

Lemma leaves_kex_exchange b : leaves auth_view (libssh2_kex_exchange e cms mms cps exchange_keys b).
Proof. unfold libssh2_kex_exchange, negotiate. leaving. Qed.
End exchange.

