(* ===== verification/Openssl.v ===== *)
(** * What libssh2 takes from OpenSSL

    Big numbers, digests, ciphers, and the keys that sign: a class has the operations,
    another what their documentation says of them. OpenSSL is not in the repository. *)
From S2P Require Import Prelude StdString Ssh2Misc Ssh2Session.

(** ** What OpenSSL does *)

(** [BN_rand n bits] is the random number drawn after [n] packets were sent;
    [BN_mod_exp a x p] is what the result holds afterwards; [EVP_CipherInit cipher
    secret iv encrypt] is the state of a cipher. A key is made of its numbers, or read
    from the text of a file with a callback, which is given the size of a buffer and
    gives a passphrase. [RSA_verify] and [DSA_do_verify] say whether 1 is returned. *)
Class openssl := {
  BN_rand : nat → Z → Z;
  BN_mod_exp : Z → Z → Z → Z;
  BN_num_bits : Z → Z;
  BN_bn2bin : Z → str;
  BN_bin2bn : str → Z;
  SHA1 : str → str;
  MD5 : str → str;
  EVP_CipherInit : crypt_method → str → str → bool → str;
  RSA : Type;
  RSA_public : Z → Z → RSA;
  PEM_read_RSAPrivateKey : str → (nat → str) → option RSA;
  RSA_sign : str → RSA → option str;
  RSA_verify : str → str → RSA → bool;
  DSA : Type;
  DSA_public : Z → Z → Z → Z → DSA;
  PEM_read_DSAPrivateKey : str → (nat → str) → option DSA;
  DSA_do_sign : str → DSA → option (Z * Z);
  DSA_do_verify : str → Z * Z → DSA → bool }.

(** The number that bytes are, the first being the highest. *)
Definition big_endian (s : str) : Z := fold_left (λ a c, 256 * a + code c)%Z s 0%Z.

Class openssl_laws `{openssl} : Prop := {
  mod_exp_law a x p : (0 < p)%Z → (0 ≤ x)%Z → BN_mod_exp a x p = (a ^ x mod p)%Z;
  num_bits_law z : (0 ≤ z)%Z → BN_num_bits z = if decide (z = 0)%Z then 0%Z else (Z.log2 z + 1)%Z;
  bn2bin_law z : (0 ≤ z)%Z → big_endian (BN_bn2bin z) = z ∧
    Z.of_nat (length (BN_bn2bin z)) = ((BN_num_bits z + 7) / 8)%Z;
  bin2bn_law s : BN_bin2bn s = big_endian s;
  rand_law n bits : (0 ≤ BN_rand n bits)%Z;
  sha1_law s : length (SHA1 s) = 20 }.

(** ** Numbers *)

Lemma big_endian_app s t : big_endian (s ++ t) = (big_endian s * 256 ^ Z.of_nat (length t) + big_endian t)%Z.
Proof.
  assert (H : ∀ t a, fold_left (λ a c, 256 * a + code c)%Z t a = (a * 256 ^ Z.of_nat (length t) + big_endian t)%Z).
  { clear. unfold big_endian. induction t as [|c t IH]; intros a; cbn [fold_left length]; [lia|].
    rewrite IH, (IH (256 * 0 + code c)%Z), Nat2Z.inj_succ, Z.pow_succ_r by lia. lia. }
  unfold big_endian at 1. rewrite fold_left_app. apply H.
Qed.

Lemma big_endian_range s : (0 ≤ big_endian s < 256 ^ Z.of_nat (length s))%Z.
Proof.
  induction s as [|c s IH] using rev_ind; [done|]. rewrite big_endian_app, length_app. simpl.
  pose proof (code_range c). change (big_endian [c]) with (256 * 0 + code c)%Z.
  rewrite Nat2Z.inj_add, Z.pow_add_r by lia. simpl. lia.
Qed.

Lemma big_endian_cons c s : big_endian (c :: s) = (code c * 256 ^ Z.of_nat (length s) + big_endian s)%Z.
Proof. change (c :: s) with ([c] ++ s). by rewrite big_endian_app. Qed.

Section numbers.
Context `{openssl}.

Definition BN_num_bytes (z : Z) : Z := ((BN_num_bits z + 7) / 8)%Z.

Context `{!openssl_laws}.

Lemma num_bits_range z : (0 ≤ z)%Z → (0 ≤ BN_num_bits z)%Z ∧ (z < 2 ^ BN_num_bits z)%Z.
Proof.
  intros Hz. rewrite num_bits_law by done. case_decide as E; [subst; done|].
  pose proof (Z.log2_nonneg z). pose proof (Z.log2_spec z). lia.
Qed.

End numbers.

(** ** An instance *)

Fixpoint be_bytes (n : nat) (z : Z) : str :=
  match n with 0 => [] | S n => be_bytes n (z / 256) ++ [of_code (z mod 256)] end.

Definition bits_of (z : Z) : Z := if decide (z = 0)%Z then 0%Z else (Z.log2 z + 1)%Z.

(** Small stand-ins: a digest is one end of the text, a signature is made of the digest. *)
Definition demo_openssl : openssl := {|
  BN_rand _ _ := 6%Z;
  BN_mod_exp a x p := (a ^ x mod p)%Z;
  BN_num_bits := bits_of;
  BN_bn2bin z := be_bytes (Z.to_nat ((bits_of z + 7) / 8)) z;
  BN_bin2bn := big_endian;
  SHA1 s := take 20 (s ++ replicate 20 NUL);
  MD5 s := drop (length s - 16) s;
  EVP_CipherInit _ _ _ _ := [];
  RSA := Z;
  RSA_public e n := (e + n)%Z;
  PEM_read_RSAPrivateKey text pass := Some (big_endian text);
  RSA_sign h _ := Some h;
  RSA_verify h sig _ := bool_decide (sig = h);
  DSA := Z;
  DSA_public p q g y := (p + q + g + y)%Z;
  PEM_read_DSAPrivateKey text pass := Some (big_endian text);
  DSA_do_sign h _ := Some (1 + big_endian h, 2 ^ 159)%Z;
  DSA_do_verify h sig _ := bool_decide (sig = (1 + big_endian h, 2 ^ 159)%Z) |}.

Lemma be_bytes_length n z : length (be_bytes n z) = n.
Proof. revert z. induction n as [|n IH]; intros z; [done|]. cbn [be_bytes]. rewrite length_app, IH. simpl. lia. Qed.

Lemma Zmod_mult_split a c : (0 < c)%Z → (a mod (256 * c) = a mod 256 + 256 * ((a / 256) mod c))%Z.
Proof. intros Hc. apply Z.rem_mul_r; lia. Qed.

Lemma be_bytes_value n z : (0 ≤ z)%Z → big_endian (be_bytes n z) = (z mod 256 ^ Z.of_nat n)%Z.
Proof.
  revert z. induction n as [|n IH]; intros z Hz; [by rewrite Z.mod_1_r|].
  cbn [be_bytes]. rewrite big_endian_app, IH by (apply Z.div_pos; lia).
  pose proof (Z.mod_pos_bound z 256). change (big_endian [of_code (z mod 256)]) with
    (256 * 0 + code (of_code (z mod 256)))%Z. rewrite code_of_code by lia.
  rewrite Nat2Z.inj_succ, Z.pow_succ_r by lia. change (Z.of_nat (length [of_code (z mod 256)])) with 1%Z.
  rewrite (Zmod_mult_split z) by (apply Z.pow_pos_nonneg; lia). lia.
Qed.

#[local] Existing Instance demo_openssl.

#[local] Instance demo_openssl_laws : openssl_laws.
Proof.
  split; try done.
  - intros z Hz. assert (Hb : (0 ≤ bits_of z)%Z ∧ (z < 2 ^ bits_of z)%Z).
    { unfold bits_of. case_decide as E; [by subst|]. pose proof (Z.log2_nonneg z). pose proof (Z.log2_spec z). lia. }
    destruct Hb as [Hb Hlt]. assert (Hq : (0 ≤ (bits_of z + 7) / 8)%Z) by (apply Z.div_pos; lia).
    simpl. rewrite be_bytes_length, be_bytes_value, Z2Nat.id by done. split; [|done].
    apply Z.mod_small. split; [done|]. eapply Z.lt_le_trans; [exact Hlt|].
    change 256%Z with (2 ^ 8)%Z. rewrite <- Z.pow_mul_r by lia. apply Z.pow_le_mono_r; [lia|].
    pose proof (Z.div_mod (bits_of z + 7) 8). pose proof (Z.mod_pos_bound (bits_of z + 7) 8). lia.
  - intros s. change (SHA1 s) with (take 20 (s ++ replicate 20 NUL)).
    rewrite length_take, length_app, length_replicate. lia.
Qed.

