(* ===== verification/Ssh2Hostkey.v ===== *)
(** * libssh2: host keys ([ssh/libssh2/hostkey.c])

    Keys of servers and private keys of files, RSA and DSA: how they are read, how a
    signature is made, laid out and checked. *)
From S2P Require Import Prelude StdString Ssh2Misc Ssh2Session Ssh2Packet Ssh2Kex Ssh2Keeps Ssh2Fields Openssl.

Section hostkey.
Context `{openssl} (e : surroundings) (open_file : str → option str).

(** The names of the methods have seven characters. *)
Definition named (name hostkey_data : str) : res bool :=
  let! len := libssh2_ntohu32 hostkey_data 0 in
  if negb (len =? 7)%Z then Ok false else strncmp_is_0 7 (drop 4 hostkey_data) name.

(** The bytes handed back for a buffer of [size], and their number. *)
Definition libssh2_hostkey_method_ssh_rsadsa_passphrase_cb (size : Z) (passphrase : str) : res (str * Z) :=
  let len := Z.of_nat (length (c_str passphrase)) in
  let passphrase_len := if (size - 1 <? len)%Z then (size - 1)%Z else len in
  if (passphrase_len <? 0)%Z then Undef
  else Ok (take (Z.to_nat passphrase_len) (c_str passphrase) ++ [NUL], passphrase_len).

(** What OpenSSL gets as the passphrase. *)
Definition asked_for (passphrase : str) (size : nat) : str :=
  match libssh2_hostkey_method_ssh_rsadsa_passphrase_cb (Z.of_nat size) passphrase with
  | Ok (buf, n) => take (Z.to_nat n) buf
  | _ => []
  end.

(** ** ssh-rsa *)

Definition libssh2_hostkey_method_ssh_rsa_init (hostkey_data : str) : res (option RSA) :=
  let! ok := named &"ssh-rsa" hostkey_data in
  if negb ok then Ok None else
  let! (e, s) := string_at hostkey_data 11 in
  let! (n, s) := string_at hostkey_data s in
  Ok (Some (RSA_public (BN_bin2bn e) (BN_bin2bn n))).

Definition libssh2_hostkey_method_ssh_rsa_initPEM (privkeyfile passphrase : str) : option RSA :=
  match open_file privkeyfile with
  | None => None
  | Some text => PEM_read_RSAPrivateKey text (asked_for passphrase)
  end.

(** The name of the method and two lengths are skipped. *)
Definition libssh2_hostkey_method_ssh_rsa_sig_verify (sig m : str) (key : RSA) : ST Z :=
  if decide (length sig < 15) then undefined else
  mret (if RSA_verify (SHA1 m) (drop 15 sig) key then 0 else -1)%Z.

Definition libssh2_hostkey_method_ssh_rsa_sign (buf : str) (key : RSA) : ST (option str) :=
  ok ← alloc e;
  if negb ok then mret None else mret (RSA_sign (SHA1 buf) key).

Definition libssh2_hostkey_method_ssh_rsa_signv (datavec : list str) (key : RSA) : ST (option str) :=
  libssh2_hostkey_method_ssh_rsa_sign (concat datavec) key.

(** ** ssh-dss *)

Definition libssh2_hostkey_method_ssh_dss_init (hostkey_data : str) : res (option DSA) :=
  let! ok := named &"ssh-dss" hostkey_data in
  if negb ok then Ok None else
  let! (p, s) := string_at hostkey_data 11 in
  let! (q, s) := string_at hostkey_data s in
  let! (g, s) := string_at hostkey_data s in
  let! (y, s) := string_at hostkey_data s in
  Ok (Some (DSA_public (BN_bin2bn p) (BN_bin2bn q) (BN_bin2bn g) (BN_bin2bn y))).

Definition libssh2_hostkey_method_ssh_dss_initPEM (privkeyfile passphrase : str) : option DSA :=
  match open_file privkeyfile with
  | None => None
  | Some text => PEM_read_DSAPrivateKey text (asked_for passphrase)
  end.

(** The two numbers of a signature, of 20 bytes each. *)
Definition dss_numbers (sig : str) : Z * Z := (BN_bin2bn (take 20 sig), BN_bin2bn (take 20 (drop 20 sig))).

Definition libssh2_hostkey_method_ssh_dss_sig_verify (sig m : str) (key : DSA) : ST Z :=
  if decide (length sig < 15) then undefined else
  if decide (length (drop 15 sig) ≠ 40) then libssh2_error LIBSSH2_ERROR_PROTO;; mret (-1)%Z else
  mret (if DSA_do_verify (SHA1 m) (dss_numbers (drop 15 sig)) key then 0 else -1)%Z.

(** [sign] writes each number at the start of its half: the bytes behind a shorter one
    are what [memory] held. *)
Definition dss_halves (memory : str) (r s : Z) : res str :=
  let write (b d : str) (i : nat) : res str :=
    if decide (i + length b ≤ length d) then Ok (take i d ++ b ++ drop (i + length b) d) else Undef in
  let! d := write (BN_bn2bin r) memory 0 in
  write (BN_bn2bin s) d 20.

Definition libssh2_hostkey_method_ssh_dss_sign (memory buf : str) (key : DSA) : ST (option str) :=
  ok ← alloc e;
  if negb ok then mret None else
  match DSA_do_sign (SHA1 buf) key with
  | None => mret None
  | Some (r, s) => sig ← lift (dss_halves memory r s); mret (Some sig)
  end.

(** [signv] fills up in front of the first number; [None] when both are too long. *)
Definition dss_signature (r s : Z) : option str :=
  let rs_pad := (40 - (BN_num_bytes r + BN_num_bytes s))%Z in
  if (rs_pad <? 0)%Z then None else Some (replicate (Z.to_nat rs_pad) NUL ++ BN_bn2bin r ++ BN_bn2bin s).

(** The memory is cleared before it is known to be there. *)
Definition libssh2_hostkey_method_ssh_dss_signv (datavec : list str) (key : DSA) : ST (option str) :=
  ok ← alloc e;
  if negb ok then undefined else
  match DSA_do_sign (SHA1 (concat datavec)) key with
  | None => mret None
  | Some (r, s) => mret (dss_signature r s)
  end.

(** ** The functions of a method *)

Inductive host_key := Rsa (key : RSA) | Dss (key : DSA).

Definition is_rsa (m : hostkey_method) : bool := bool_decide (hostkey_name m = &"ssh-rsa").

Definition hostkey_init (m : hostkey_method) (hostkey_data : str) : res (option host_key) :=
  if is_rsa m then let! k := libssh2_hostkey_method_ssh_rsa_init hostkey_data in Ok (Rsa <$> k)
  else let! k := libssh2_hostkey_method_ssh_dss_init hostkey_data in Ok (Dss <$> k).

Definition hostkey_initPEM (m : hostkey_method) (privkeyfile passphrase : str) : option host_key :=
  if is_rsa m then Rsa <$> libssh2_hostkey_method_ssh_rsa_initPEM privkeyfile passphrase
  else Dss <$> libssh2_hostkey_method_ssh_dss_initPEM privkeyfile passphrase.

Definition hostkey_sig_verify (abstract : host_key) (sig m : str) : ST Z :=
  match abstract with
  | Rsa key => libssh2_hostkey_method_ssh_rsa_sig_verify sig m key
  | Dss key => libssh2_hostkey_method_ssh_dss_sig_verify sig m key
  end.

Definition hostkey_signv (abstract : host_key) (datavec : list str) : ST (option str) :=
  match abstract with
  | Rsa key => libssh2_hostkey_method_ssh_rsa_signv datavec key
  | Dss key => libssh2_hostkey_method_ssh_dss_signv datavec key
  end.
End hostkey.

(** A signature that the check accepts, which then changes nothing. *)
Definition signed_by `{openssl} (abstract : host_key) (sig m : str) : Prop :=
  ∀ s, hostkey_sig_verify abstract sig m s = Ok (0%Z, s).

Lemma sig_verify_signed `{openssl} abstract sig m s s' :
  hostkey_sig_verify abstract sig m s = Ok (0%Z, s') → signed_by abstract sig m ∧ s' = s.
Proof.
  unfold signed_by. destruct abstract; cbn [hostkey_sig_verify];
    unfold libssh2_hostkey_method_ssh_rsa_sig_verify, libssh2_hostkey_method_ssh_dss_sig_verify;
    repeat case_decide; try done; case_match; try done; by intros [= <-].
Qed.

Lemma leaves_sig_verify `{openssl} {X} (view : core → X) abstract sig m :
  leaves view (hostkey_sig_verify abstract sig m).
Proof.
  destruct abstract; cbn [hostkey_sig_verify]; unfold libssh2_hostkey_method_ssh_rsa_sig_verify,
    libssh2_hostkey_method_ssh_dss_sig_verify; leaving.
Qed.

Lemma leaves_signv `{openssl} {X} (view : core → X) e abstract datavec :
  leaves view (hostkey_signv e abstract datavec).
Proof.
  destruct abstract; cbn [hostkey_signv]; unfold libssh2_hostkey_method_ssh_rsa_signv,
    libssh2_hostkey_method_ssh_rsa_sign, libssh2_hostkey_method_ssh_dss_signv; leaving.
Qed.

#[export] Hint Resolve leaves_sig_verify leaves_signv : leaves.

(** ** Properties: reading *)

(** A host key as RFC 4253, section 6.6, writes it. *)
Definition rsa_blob (e n : str) : str := ssh_string &"ssh-rsa" ++ ssh_string e ++ ssh_string n.
Definition dss_blob (p q g y : str) : str :=
  ssh_string &"ssh-dss" ++ ssh_string p ++ ssh_string q ++ ssh_string g ++ ssh_string y.

Section reading.
Context `{openssl_laws}.

Lemma string_behind before b after_ i :
  i = length before → sized b → string_at (before ++ ssh_string b ++ after_) i = Ok (b, i + length (ssh_string b)).
Proof. intros -> Hb. by rewrite string_at_spec, length_app. Qed.

(** The fields behind the name are read as they were written. *)
Lemma rsa_init_spec e n :
  sized e → sized n →
  libssh2_hostkey_method_ssh_rsa_init (rsa_blob e n) = Ok (Some (RSA_public (big_endian e) (big_endian n))).
Proof.
  intros He Hn. unfold libssh2_hostkey_method_ssh_rsa_init, rsa_blob.
  change (named &"ssh-rsa" _) with (Ok true). cbn [rbind negb].
  rewrite (string_behind (ssh_string &"ssh-rsa") e) by done. cbn [rbind].
  rewrite app_assoc, <- (app_nil_r (ssh_string n)), string_behind by (by rewrite ?length_app).
  cbn [rbind]. by rewrite !bin2bn_law.
Qed.

Lemma dss_init_spec p q g y :
  sized p → sized q → sized g → sized y →
  libssh2_hostkey_method_ssh_dss_init (dss_blob p q g y) =
    Ok (Some (DSA_public (big_endian p) (big_endian q) (big_endian g) (big_endian y))).
Proof.
  intros Hp Hq Hg Hy. unfold libssh2_hostkey_method_ssh_dss_init, dss_blob.
  change (named &"ssh-dss" _) with (Ok true). cbn [rbind negb].
  rewrite (string_behind (ssh_string &"ssh-dss") p) by done. cbn [rbind].
  rewrite app_assoc, string_behind by (by rewrite ?length_app). cbn [rbind].
  rewrite app_assoc, string_behind by (by rewrite ?length_app). cbn [rbind].
  rewrite app_assoc, <- (app_nil_r (ssh_string y)), string_behind by (by rewrite ?length_app).
  cbn [rbind]. by rewrite !bin2bn_law.
Qed.

(** The passphrase is cut to the buffer, and its end fits in. *)
Lemma passphrase_cb_fits size passphrase buf n :
  libssh2_hostkey_method_ssh_rsadsa_passphrase_cb size passphrase = Ok (buf, n) →
  (Z.of_nat (length buf) ≤ size)%Z ∧ (0 ≤ n < size)%Z ∧ buf = take (Z.to_nat n) (c_str passphrase) ++ [NUL].
Proof.
  unfold libssh2_hostkey_method_ssh_rsadsa_passphrase_cb. set (len := Z.of_nat _).
  destruct (_ <? 0)%Z eqn:E; [done|]. intros [= <- <-]. rewrite length_app, length_take.
  destruct (size - 1 <? len)%Z eqn:E2; simpl length; split_and!; try done; lia.
Qed.

(** ** Properties: signing *)

Lemma big_endian_zeros n s : big_endian (replicate n NUL ++ s) = big_endian s.
Proof.
  rewrite big_endian_app. replace (big_endian (replicate n NUL)) with 0%Z; [lia|].
  induction n as [|n IH]; [done|]. cbn [replicate]. by rewrite big_endian_cons, <- IH.
Qed.

Lemma bn2bin_length z : (0 ≤ z)%Z → Z.of_nat (length (BN_bn2bin z)) = BN_num_bytes z.
Proof. intros Hz. by apply bn2bin_law. Qed.

Lemma length_dss_signature r s sig :
  (0 ≤ r)%Z → (0 ≤ s)%Z → dss_signature r s = Some sig → length sig = 40.
Proof.
  intros Hr Hs. unfold dss_signature. destruct (_ <? 0)%Z eqn:E; [done|]. intros [= <-].
  rewrite !length_app, length_replicate. pose proof (bn2bin_length r Hr). pose proof (bn2bin_length s Hs). lia.
Qed.

(** What the other side makes of the 40 bytes is one number cut into two halves. *)
Lemma dss_numbers_halves sig : length sig = 40 →
  dss_numbers sig = (big_endian sig / 2 ^ 160, big_endian sig mod 2 ^ 160)%Z.
Proof.
  intros Hl. unfold dss_numbers. rewrite !bin2bn_law.
  assert (Hd : length (drop 20 sig) = 20) by (rewrite length_drop; lia).
  rewrite (take_ge (drop 20 sig)) by lia.
  rewrite <- (take_drop 20 sig) at 3 4. rewrite big_endian_app, Hd. change (256 ^ Z.of_nat 20)%Z with (2 ^ 160)%Z.
  pose proof (big_endian_range (drop 20 sig)) as R. rewrite Hd in R. change (256 ^ Z.of_nat 20)%Z with (2 ^ 160)%Z in R.
  f_equal.
  - rewrite Z.div_add_l by lia. rewrite (Z.div_small (big_endian (drop 20 sig))) by lia. lia.
  - rewrite Z.add_comm, Z.mod_add by lia. by rewrite Z.mod_small.
Qed.

Lemma dss_signature_value r s sig :
  (0 ≤ r)%Z → (0 ≤ s)%Z → dss_signature r s = Some sig →
  big_endian sig = (r * 256 ^ BN_num_bytes s + s)%Z.
Proof.
  intros Hr Hs. unfold dss_signature. destruct (_ <? 0)%Z eqn:E; [done|]. intros [= <-].
  rewrite big_endian_zeros, big_endian_app, bn2bin_length by done.
  by rewrite (proj1 (bn2bin_law r Hr)), (proj1 (bn2bin_law s Hs)).
Qed.

(** A signature is read as it was made if and only if its second number has all of its
    20 bytes, as the room in front is filled up for both together. *)
Lemma dss_signature_read r s sig :
  (0 < r)%Z → (0 ≤ s)%Z → dss_signature r s = Some sig →
  dss_numbers sig = (r, s) ↔ BN_num_bytes s = 20%Z.
Proof.
  intros Hr Hs Hsig. assert (Hr0 : (0 ≤ r)%Z) by lia.
  rewrite dss_numbers_halves by (by apply (length_dss_signature r s)).
  rewrite (dss_signature_value r s sig) by done. set (k := BN_num_bytes s).
  assert (Hlt : (0 ≤ k ∧ s < 256 ^ k)%Z).
  { pose proof (bn2bin_length s Hs) as El. split; [lia|]. subst k. rewrite <- El.
    rewrite <- (proj1 (bn2bin_law s Hs)) at 1. apply big_endian_range. }
  destruct Hlt as [Hk Hlt]. set (P := (256 ^ k)%Z) in *.
  assert (HP : (0 < P)%Z) by (apply Z.pow_pos_nonneg; lia). split.
  - intros [= Hq _]. apply (f_equal (λ z, (z * 2 ^ 160)%Z)) in Hq.
    pose proof (Z.div_mod (r * P + s) (2 ^ 160)) as D. pose proof (Z.mod_pos_bound (r * P + s) (2 ^ 160)) as B.
    destruct (Z.lt_trichotomy k 20) as [Hlow|[->|Hhigh]]; [exfalso| done |exfalso].
    + assert (256 * P ≤ 2 ^ 160)%Z; [|nia]. unfold P. rewrite <- Z.pow_succ_r by lia.
      change (2 ^ 160)%Z with (256 ^ 20)%Z. apply Z.pow_le_mono_r; lia.
    + assert (256 * 2 ^ 160 ≤ P)%Z; [|nia]. unfold P. change (256 * 2 ^ 160)%Z with (256 ^ 21)%Z.
      apply Z.pow_le_mono_r; lia.
  - intros E. unfold P in *. rewrite E in *. change (256 ^ 20)%Z with (2 ^ 160)%Z in *.
    f_equal; [rewrite Z.div_add_l, Z.div_small by lia; lia|].
    by rewrite Z.add_comm, Z.mod_add, Z.mod_small by lia.
Qed.

(** A key and the public key that OpenSSL accepts its signatures with. *)
Definition pair (private public : host_key) : Prop :=
  match private, public with
  | Rsa k, Rsa p => ∀ h sig, RSA_sign h k = Some sig → RSA_verify h sig p = true
  | Dss k, Dss p => ∀ h rs, DSA_do_sign h k = Some rs → DSA_do_verify h rs p = true
  | _, _ => False
  end.

(** The numbers of a signature are as long as they mostly are: the second has 20 bytes,
    the first no more than that. *)
Definition full_size (private : host_key) (m : str) : Prop :=
  match private with
  | Rsa _ => True
  | Dss k => ∀ r s, DSA_do_sign (SHA1 m) k = Some (r, s) → (0 < r)%Z ∧ (0 ≤ s)%Z ∧ BN_num_bytes s = 20%Z
  end.

(** C35. What [signv] makes of several pieces of text, packed with the name of the method
    and the lengths as a login sends it, is accepted by [sig_verify] for the whole
    text, unless the second number of a DSA signature is shorter than 20 bytes. *)
Theorem signature_accepted e private public method datavec sig s s1 s2 :
  pair private public → full_size private (concat datavec) → length method = 7 →
  hostkey_signv e private datavec s = Ok (Some sig, s1) →
  hostkey_sig_verify public (ssh_string method ++ ssh_string sig) (concat datavec) s2 = Ok (0%Z, s2).
Proof.
  intros Hp Hf Hm. assert (Hd : drop 15 (ssh_string method ++ ssh_string sig) = sig).
  { do 8 (destruct method as [|? method]; try done). }
  assert (Hl : ¬ length (ssh_string method ++ ssh_string sig) < 15)
    by (rewrite length_app, !length_ssh_string; lia).
  destruct private as [k|k], public as [p|p]; try done; cbn [pair full_size hostkey_signv hostkey_sig_verify] in *;
    intros (ok & s3 & _ & T)%bind_inv; (destruct ok; [|done]); cbn [negb] in T.
  - injection T as T _. unfold libssh2_hostkey_method_ssh_rsa_sig_verify.
    rewrite decide_False by done. by rewrite Hd, (Hp _ _ T).
  - destruct (DSA_do_sign _ k) as [[r t]|] eqn:Es; [|done]. injection T as T _.
    destruct (Hf _ _ eq_refl) as (Hr & Ht & Hn).
    unfold libssh2_hostkey_method_ssh_dss_sig_verify. rewrite decide_False by done. rewrite Hd.
    rewrite decide_False by (intros C; apply C, (length_dss_signature r t); [lia|lia|done]).
    by rewrite (proj2 (dss_signature_read r t sig Hr Ht T) Hn), (Hp _ _ Es).
Qed.
End reading.

(** ** An instance *)

#[local] Existing Instances demo_openssl demo_openssl_laws.

Definition demo_dss : host_key := @Dss demo_openssl 7%Z.

Lemma signature_accepted_witness :
  ∃ sig s1, hostkey_signv demo_surroundings demo_dss [&"the "; &"text"] (demo_session []) = Ok (Some sig, s1) ∧
  hostkey_sig_verify demo_dss (ssh_string &"ssh-dss" ++ ssh_string sig) &"the text" (demo_session []) =
    Ok (0%Z, demo_session []).
Proof.
  eexists _, _. split; [reflexivity|].
  apply (signature_accepted demo_surroundings demo_dss demo_dss &"ssh-dss" [&"the "; &"text"] _
    (demo_session []) (set_allocs 1 (demo_session [])) (demo_session [])).
  - intros h rs [= <-]. by apply bool_decide_eq_true.
  - intros r s [= <- <-]. split_and!; by vm_compute.
  - reflexivity.
  - reflexivity.
Defined.
