(* ===== verification/Ssh2Dh.v ===== *)
(** * libssh2: the Diffie-Hellman exchanges ([ssh/libssh2/kex.c])

    The two fixed groups, the group that the server chooses, the exchange proper and
    the keys that are made of the shared secret. *)
From S2P Require Import Prelude StdString Ssh2Misc Ssh2Session Ssh2Packet Ssh2Channel Ssh2Kex Ssh2Keeps Ssh2Fields Openssl Ssh2Hostkey.

Definition LIBSSH2_SSH_DEFAULT_BANNER : str := &"SSH-2.0-libssh2_0.14".
Definition LIBSSH2_DH_GEX_MINGROUP : Z := 1024.
Definition LIBSSH2_DH_GEX_OPTGROUP : Z := 1536.
Definition LIBSSH2_DH_GEX_MAXGROUP : Z := 2048.

Section dh.
Context `{openssl} (e : surroundings) (beyond : list Z).

(** ** What is hashed *)

(** A number with its length, and a zero in front when its highest bit would make it
    negative. *)
Definition mpint (z : Z) : str :=
  let pad := (BN_num_bits z mod 8 =? 0)%Z in
  libssh2_htonu32 (BN_num_bytes z + if pad then 1 else 0) ++ (if pad then [NUL] else []) ++ BN_bn2bin z.

(** The banner that was sent, without its line end. *)
Definition local_version (s : session) : str :=
  match banner (s_local s) with
  | Some b => take (length (c_str b) - 2) (c_str b)
  | None => LIBSSH2_SSH_DEFAULT_BANNER
  end.

Definition exchange_text (s : session) (gex : bool) (remote_version hostkey midhash : str)
    (E : Z) (f_value k_value : str) : str :=
  ssh_string (local_version s) ++ ssh_string remote_version ++
  ssh_string (default [] (kexinit (s_local s))) ++ ssh_string (default [] (kexinit (s_remote s))) ++
  ssh_string hostkey ++
  (if gex then libssh2_htonu32 LIBSSH2_DH_GEX_MINGROUP ++ libssh2_htonu32 LIBSSH2_DH_GEX_OPTGROUP ++
               libssh2_htonu32 LIBSSH2_DH_GEX_MAXGROUP else []) ++
  midhash ++ mpint E ++ ssh_string f_value ++ k_value.

(** ** The keys *)

(** [LIBSSH2_KEX_METHOD_DIFFIE_HELLMAN_SHA1_HASH]: digests are added while the value
    is too short. *)
Fixpoint sha1_hash (fuel : nat) (k_value h session_id : str) (version : chr) (reqlen : Z) (value : str)
    : option str :=
  if (Z.of_nat (length value) <? reqlen)%Z then
    match fuel with
    | 0 => None
    | S fuel =>
        let more := match value with [] => version :: session_id | _ => value end in
        sha1_hash fuel k_value h session_id version reqlen (value ++ SHA1 (k_value ++ h ++ more))
    end
  else Some value.

(** A value of [reqlen] bytes and more, in memory of its own. *)
Definition derive (k_value h : str) (version : chr) (reqlen : Z) : ST str :=
  ok ← alloc e;
  if negb ok then undefined else
  sid ← gets session_id;
  match sha1_hash (Z.to_nat reqlen) k_value h (default [] sid) version reqlen [] with
  | Some value => mret value
  | None => undefined
  end.

(** A new state for the cipher of one side; [false] when there is no memory for it. *)
Definition new_cipher (local : bool) (k_value h : str) : ST bool :=
  ep ← gets (endpoint_of local);
  let m := crypt ep in
  if negb (crypt_evp m) then mret true else
  update_endpoint local (set_crypt_abstract []);;
  iv ← derive k_value h (if local then "A" else "B")%char (iv_len m);
  secret ← derive k_value h (if local then "C" else "D")%char (secret_len m);
  ok ← alloc e;
  if negb ok then mret false else
  update_endpoint local (set_crypt_abstract (EVP_CipherInit m secret iv local));;
  mret true.

Definition new_mac (local : bool) (k_value h : str) : ST () :=
  ep ← gets (endpoint_of local);
  if negb (mac_init (mac_m ep)) then mret () else
  key ← derive k_value h (if local then "E" else "F")%char (key_len (mac_m ep));
  update_endpoint local (set_mac_abstract key).

(** The keys of both sides. *)
Definition new_keys (k_value h : str) : ST Z :=
  ok ← new_cipher true k_value h;
  if negb ok then mret (-1)%Z else
  ok ← new_cipher false k_value h;
  if negb ok then mret (-1)%Z else
  new_mac true k_value h;;
  new_mac false k_value h;;
  mret 0%Z.

(** From [NEWKEYS] on: the first digest becomes the name of the session. *)
Definition take_keys (k_value h : str) : ST Z :=
  add_state LIBSSH2_STATE_NEWKEYS;;
  sid ← gets session_id;
  match sid with
  | Some _ => new_keys k_value h
  | None =>
      ok ← alloc e;
      if negb ok then mret (-1)%Z else
      modify (set_session_id (Some h));;
      new_keys k_value h
  end.

(** ** The exchange *)

Definition fail_with (code rc : Z) : ST Z := libssh2_error code;; mret rc.

(** The packet that the server is waited for. *)
Definition packet_require (packet_type : Z) : ST (option (str * Z)) :=
  libssh2_packet_require_ex e no_exchange packet_type 0 [].

(** Both sides change to the new keys. *)
Definition change_keys (k_value h : str) : ST Z :=
  rc ← libssh2_packet_write e [of_code SSH_MSG_NEWKEYS];
  if negb (rc =? 0)%Z then fail_with LIBSSH2_ERROR_SOCKET_SEND (-1) else
  d ← packet_require SSH_MSG_NEWKEYS;
  match d with
  | None => fail_with LIBSSH2_ERROR_TIMEOUT (-1)
  | Some _ => take_keys k_value h
  end.

(** The number and the signature at [s] of the answer; the signature is what makes
    the host key count. *)
Definition check_answer (p x E : Z) (gex : bool) (midhash data : str) (s : nat)
    (abstract : host_key) (hostkey_bytes : str) : ST Z :=
  f_value_len ← ntohu32 data s;
  f_value ← bytes (Z.to_nat f_value_len) data (s + 4);
  let s := s + 4 + Z.to_nat f_value_len in
  h_sig_len ← ntohu32 data s;
  h_sig ← bytes (Z.to_nat h_sig_len) data (s + 4);
  let k_value := mpint (BN_mod_exp (BN_bin2bn f_value) x p) in
  ok ← alloc e;
  if negb ok then fail_with LIBSSH2_ERROR_ALLOC (-1) else
  st ← get_session;
  match banner (s_remote st) with
  | None => undefined
  | Some remote =>
      let h := SHA1 (exchange_text st gex (c_str remote) hostkey_bytes midhash E f_value k_value) in
      rc ← hostkey_sig_verify abstract h_sig h;
      if (rc =? 0)%Z then change_keys k_value h
      else fail_with LIBSSH2_ERROR_HOSTKEY_SIGN (-1)
  end.

(** The answer: it starts with the host key. *)
Definition finish_exchange (p x E : Z) (gex : bool) (midhash data : str) : ST Z :=
  hostkey_len ← ntohu32 data 1;
  ok ← alloc e;
  if negb ok then fail_with LIBSSH2_ERROR_ALLOC (-1) else
  hostkey_bytes ← bytes (Z.to_nat hostkey_len) data 5;
  modify (set_server_hostkey (Some hostkey_bytes));;
  modify (set_server_hostkey_md5 (MD5 hostkey_bytes));;
  modify (set_server_hostkey_sha1 (SHA1 hostkey_bytes));;
  m ← gets hostkey;
  match m with
  | None => undefined
  | Some m =>
      abstract ← lift (hostkey_init m hostkey_bytes);
      match abstract with
      | None => fail_with LIBSSH2_ERROR_HOSTKEY_INIT (-1)
      | Some abstract =>
          check_answer p x E gex midhash data (5 + Z.to_nat hostkey_len) abstract hostkey_bytes
      end
  end.

(** A packet of the server's that was a wrong guess is thrown away: [false] when it
    does not come. *)
Definition burn_guess : ST bool :=
  burn ← gets burn_optimistic_kexinit;
  if negb burn then mret true else
  burn_type ← libssh2_packet_burn e no_exchange beyond;
  if (burn_type <=? 0)%Z then mret false
  else modify (set_burn_optimistic_kexinit false);; mret true.

(** The public number is sent, and the answer waited for. *)
Definition start_exchange (g p group_order packet_type_init packet_type_reply : Z) (midhash : str) : ST Z :=
  n ← gets sends;
  let x := BN_rand n group_order in
  let E := BN_mod_exp g x p in
  ok ← alloc e;
  if negb ok then fail_with LIBSSH2_ERROR_ALLOC (-1) else
  rc ← libssh2_packet_write e (of_code packet_type_init :: mpint E);
  if negb (rc =? 0)%Z then fail_with LIBSSH2_ERROR_SOCKET_SEND (-11) else
  burnt ← burn_guess;
  if negb burnt then mret (-1)%Z else
  d ← packet_require packet_type_reply;
  match d with
  | None => fail_with LIBSSH2_ERROR_TIMEOUT (-1)
  | Some (data, _) =>
      finish_exchange p x E (packet_type_init =? SSH_MSG_KEX_DH_GEX_INIT)%Z midhash data
  end.

Definition libssh2_kex_method_diffie_hellman_groupGP_sha1_key_exchange
    (g p group_order packet_type_init packet_type_reply : Z) (midhash : str) : ST Z :=
  ret ← start_exchange g p group_order packet_type_init packet_type_reply midhash;
  modify (set_server_hostkey None);;
  mret ret.

(** ** The groups *)

Definition group1_p_value : str := of_code <$>
  [ 0xFF; 0xFF; 0xFF; 0xFF; 0xFF; 0xFF; 0xFF; 0xFF;
    0xC9; 0x0F; 0xDA; 0xA2; 0x21; 0x68; 0xC2; 0x34;
    0xC4; 0xC6; 0x62; 0x8B; 0x80; 0xDC; 0x1C; 0xD1;
    0x29; 0x02; 0x4E; 0x08; 0x8A; 0x67; 0xCC; 0x74;
    0x02; 0x0B; 0xBE; 0xA6; 0x3B; 0x13; 0x9B; 0x22;
    0x51; 0x4A; 0x08; 0x79; 0x8E; 0x34; 0x04; 0xDD;
    0xEF; 0x95; 0x19; 0xB3; 0xCD; 0x3A; 0x43; 0x1B;
    0x30; 0x2B; 0x0A; 0x6D; 0xF2; 0x5F; 0x14; 0x37;
    0x4F; 0xE1; 0x35; 0x6D; 0x6D; 0x51; 0xC2; 0x45;
    0xE4; 0x85; 0xB5; 0x76; 0x62; 0x5E; 0x7E; 0xC6;
    0xF4; 0x4C; 0x42; 0xE9; 0xA6; 0x37; 0xED; 0x6B;
    0x0B; 0xFF; 0x5C; 0xB6; 0xF4; 0x06; 0xB7; 0xED;
    0xEE; 0x38; 0x6B; 0xFB; 0x5A; 0x89; 0x9F; 0xA5;
    0xAE; 0x9F; 0x24; 0x11; 0x7C; 0x4B; 0x1F; 0xE6;
    0x49; 0x28; 0x66; 0x51; 0xEC; 0xE6; 0x53; 0x81;
    0xFF; 0xFF; 0xFF; 0xFF; 0xFF; 0xFF; 0xFF; 0xFF ]%Z.

Definition group14_p_value : str := of_code <$>
  [ 0xFF; 0xFF; 0xFF; 0xFF; 0xFF; 0xFF; 0xFF; 0xFF;
    0xC9; 0x0F; 0xDA; 0xA2; 0x21; 0x68; 0xC2; 0x34;
    0xC4; 0xC6; 0x62; 0x8B; 0x80; 0xDC; 0x1C; 0xD1;
    0x29; 0x02; 0x4E; 0x08; 0x8A; 0x67; 0xCC; 0x74;
    0x02; 0x0B; 0xBE; 0xA6; 0x3B; 0x13; 0x9B; 0x22;
    0x51; 0x4A; 0x08; 0x79; 0x8E; 0x34; 0x04; 0xDD;
    0xEF; 0x95; 0x19; 0xB3; 0xCD; 0x3A; 0x43; 0x1B;
    0x30; 0x2B; 0x0A; 0x6D; 0xF2; 0x5F; 0x14; 0x37;
    0x4F; 0xE1; 0x35; 0x6D; 0x6D; 0x51; 0xC2; 0x45;
    0xE4; 0x85; 0xB5; 0x76; 0x62; 0x5E; 0x7E; 0xC6;
    0xF4; 0x4C; 0x42; 0xE9; 0xA6; 0x37; 0xED; 0x6B;
    0x0B; 0xFF; 0x5C; 0xB6; 0xF4; 0x06; 0xB7; 0xED;
    0xEE; 0x38; 0x6B; 0xFB; 0x5A; 0x89; 0x9F; 0xA5;
    0xAE; 0x9F; 0x24; 0x11; 0x7C; 0x4B; 0x1F; 0xE6;
    0x49; 0x28; 0x66; 0x51; 0xEC; 0xE4; 0x5B; 0x3D;
    0xC2; 0x00; 0x7C; 0xB8; 0xA1; 0x63; 0xBF; 0x05;
    0x98; 0xDA; 0x48; 0x36; 0x1C; 0x55; 0xD3; 0x9A;
    0x69; 0x16; 0x3F; 0xA8; 0xFD; 0x24; 0xCF; 0x5F;
    0x83; 0x65; 0x5D; 0x23; 0xDC; 0xA3; 0xAD; 0x96;
    0x1C; 0x62; 0xF3; 0x56; 0x20; 0x85; 0x52; 0xBB;
    0x9E; 0xD5; 0x29; 0x07; 0x70; 0x96; 0x96; 0x6D;
    0x67; 0x0C; 0x35; 0x4E; 0x4A; 0xBC; 0x98; 0x04;
    0xF1; 0x74; 0x6C; 0x08; 0xCA; 0x18; 0x21; 0x7C;
    0x32; 0x90; 0x5E; 0x46; 0x2E; 0x36; 0xCE; 0x3B;
    0xE3; 0x9E; 0x77; 0x2C; 0x18; 0x0E; 0x86; 0x03;
    0x9B; 0x27; 0x83; 0xA2; 0xEC; 0x07; 0xA2; 0x8F;
    0xB5; 0xC5; 0x5D; 0xF0; 0x6F; 0x4C; 0x52; 0xC9;
    0xDE; 0x2B; 0xCB; 0xF6; 0x95; 0x58; 0x17; 0x18;
    0x39; 0x95; 0x49; 0x7C; 0xEA; 0x95; 0x6A; 0xE5;
    0x15; 0xD2; 0x26; 0x18; 0x98; 0xFA; 0x05; 0x10;
    0x15; 0x72; 0x8E; 0x5A; 0x8A; 0xAC; 0xAA; 0x68;
    0xFF; 0xFF; 0xFF; 0xFF; 0xFF; 0xFF; 0xFF; 0xFF ]%Z.

Definition libssh2_kex_method_diffie_hellman_group1_sha1_key_exchange : ST Z :=
  libssh2_kex_method_diffie_hellman_groupGP_sha1_key_exchange 2 (BN_bin2bn group1_p_value) 128
    SSH_MSG_KEXDH_INIT SSH_MSG_KEXDH_REPLY [].

Definition libssh2_kex_method_diffie_hellman_group14_sha1_key_exchange : ST Z :=
  libssh2_kex_method_diffie_hellman_groupGP_sha1_key_exchange 2 (BN_bin2bn group14_p_value) 256
    SSH_MSG_KEXDH_INIT SSH_MSG_KEXDH_REPLY [].

(** The server gives the group, of the size asked for or not. *)
Definition libssh2_kex_method_diffie_hellman_group_exchange_sha1_key_exchange : ST Z :=
  rc ← libssh2_packet_write e (of_code SSH_MSG_KEX_DH_GEX_REQUEST ::
         libssh2_htonu32 LIBSSH2_DH_GEX_MINGROUP ++ libssh2_htonu32 LIBSSH2_DH_GEX_OPTGROUP ++
         libssh2_htonu32 LIBSSH2_DH_GEX_MAXGROUP);
  if negb (rc =? 0)%Z then fail_with LIBSSH2_ERROR_SOCKET_SEND (-1) else
  d ← packet_require SSH_MSG_KEX_DH_GEX_GROUP;
  match d with
  | None => fail_with LIBSSH2_ERROR_TIMEOUT (-1)
  | Some (data, data_len) =>
      p_len ← ntohu32 data 1;
      p ← bytes (Z.to_nat p_len) data 5;
      let s := 5 + Z.to_nat p_len in
      g_len ← ntohu32 data s;
      g ← bytes (Z.to_nat g_len) data (s + 4);
      midhash ← bytes (Z.to_nat (usub data_len 1)) data 1;
      libssh2_kex_method_diffie_hellman_groupGP_sha1_key_exchange (BN_bin2bn g) (BN_bin2bn p) p_len
        SSH_MSG_KEX_DH_GEX_INIT SSH_MSG_KEX_DH_GEX_REPLY midhash
  end.

(** The function of a method of [libssh2_kex_methods]. *)
Definition exchange_keys (m : kex_method) : ST Z :=
  if decide (kex_name m = &"diffie-hellman-group14-sha1")
  then libssh2_kex_method_diffie_hellman_group14_sha1_key_exchange
  else if decide (kex_name m = &"diffie-hellman-group-exchange-sha1")
  then libssh2_kex_method_diffie_hellman_group_exchange_sha1_key_exchange
  else libssh2_kex_method_diffie_hellman_group1_sha1_key_exchange.
End dh.

(** ** Numbers *)

Section numbers.
Context `{openssl_laws}.

(** The bytes of a number whose highest bit is not that of a byte start below 128. *)
Lemma bn2bin_head z c s :
  (0 ≤ z)%Z → BN_bn2bin z = c :: s → (BN_num_bits z mod 8 ≠ 0)%Z → (code c < 128)%Z.
Proof.
  intros Hz E Hb. destruct (bn2bin_law z Hz) as [Hv Hl]. rewrite E in Hv, Hl.
  destruct (num_bits_range z Hz) as [Hn Hlt]. rewrite big_endian_cons in Hv.
  pose proof (big_endian_range s). simpl length in Hl. set (n := Z.of_nat (length s)) in *.
  assert (Hle : (BN_num_bits z ≤ 8 * n + 7)%Z).
  { assert (Z.of_nat (S (length s)) = n + 1)%Z as Hs by lia. rewrite Hs in Hl.
    pose proof (Z.div_mod (BN_num_bits z + 7) 8). pose proof (Z.mod_pos_bound (BN_num_bits z + 7) 8).
    assert (BN_num_bits z ≠ 8 * (n + 1))%Z by (intros Hq; rewrite Hq, Z.mul_comm, Z.mod_mul in Hb by done; done).
    lia. }
  assert (Hp : (2 ^ BN_num_bits z ≤ 128 * 256 ^ n)%Z).
  { change 256%Z with (2 ^ 8)%Z. change 128%Z with (2 ^ 7)%Z. rewrite <- Z.pow_mul_r, <- Z.pow_add_r by lia.
    apply Z.pow_le_mono_r; lia. }
  assert (0 < 256 ^ n)%Z by (apply Z.pow_pos_nonneg; lia). nia.
Qed.

(** [mpint]: a number that is not negative is written as a string of bytes that
    is read back as the same number, and is never taken for a negative one: its first
    byte is below 128. *)
Lemma mpint_spec z :
  (0 ≤ z)%Z → ∃ c s, mpint z = ssh_string (c :: s) ∧ big_endian (c :: s) = z ∧ (code c < 128)%Z.
Proof.
  intros Hz. unfold mpint, BN_num_bytes. destruct (bn2bin_law z Hz) as [Hv Hl]. rewrite <- Hl.
  destruct (Z.eqb_spec (BN_num_bits z mod 8) 0) as [E|E].
  - exists NUL, (BN_bn2bin z). split_and!; [|by rewrite big_endian_cons|done].
    unfold ssh_string. simpl length. by rewrite Nat2Z.inj_succ.
  - destruct (BN_bn2bin z) as [|c s] eqn:Eb.
    + exfalso. assert (z = 0)%Z as -> by (by rewrite <- Hv).
      rewrite num_bits_law in E by lia. by rewrite decide_True in E.
    + exists c, s. split_and!; [|done|by eapply bn2bin_head]. unfold ssh_string. by rewrite Z.add_0_r.
Qed.
End numbers.

(** ** Keys *)

Section keys.
Context `{openssl_laws} (k_value h session_id : str) (version : chr).

(** K1 to Kn of RFC 4253, section 7.2: every digest covers those before it. *)
Fixpoint rfc4253_keys (n : nat) : str :=
  match n with
  | 0 => []
  | 1 => SHA1 (k_value ++ h ++ version :: session_id)
  | S n => rfc4253_keys n ++ SHA1 (k_value ++ h ++ rfc4253_keys n)
  end.

Lemma rfc4253_keys_S n :
  rfc4253_keys (S n) = rfc4253_keys n ++
    SHA1 (k_value ++ h ++ match rfc4253_keys n with [] => version :: session_id | _ => rfc4253_keys n end).
Proof.
  destruct n as [|n]; [done|]. change (rfc4253_keys (S (S n))) with
    (rfc4253_keys (S n) ++ SHA1 (k_value ++ h ++ rfc4253_keys (S n))).
  destruct (rfc4253_keys (S n)) eqn:E; [|done]. exfalso.
  assert (Hl : length (rfc4253_keys (S n)) = 0) by (by rewrite E). destruct n as [|n].
  - simpl in Hl. by rewrite sha1_law in Hl.
  - simpl in Hl. rewrite length_app, sha1_law in Hl. lia.
Qed.

Lemma rfc4253_keys_length n : length (rfc4253_keys n) = 20 * n.
Proof. induction n as [|n IH]; [done|]. rewrite rfc4253_keys_S, length_app, sha1_law, IH. lia. Qed.

Lemma sha1_hash_keys fuel reqlen n :
  (reqlen ≤ Z.of_nat (fuel + 20 * n))%Z →
  ∃ k, sha1_hash fuel k_value h session_id version reqlen (rfc4253_keys n) = Some (rfc4253_keys k) ∧
       (reqlen ≤ Z.of_nat (20 * k))%Z ∧ (k = n ∨ (Z.of_nat (20 * k) < reqlen + 20)%Z).
Proof.
  revert n. induction fuel as [|fuel IH]; intros n Hf; cbn [sha1_hash]; rewrite rfc4253_keys_length;
    (destruct (Z.ltb_spec (Z.of_nat (20 * n)) reqlen); [|exists n; split_and!; [done|lia|by left]]); [lia|].
  rewrite <- rfc4253_keys_S. destruct (IH (S n)) as (k & Hk & Hlo & Hhi); [lia|].
  exists k. split_and!; [done|done|right]. destruct Hhi as [->|]; lia.
Qed.

(** C20. [LIBSSH2_KEX_METHOD_DIFFIE_HELLMAN_SHA1_HASH] ends, with the keys of RFC 4253:
    as many digests as it takes for the length wanted, and none that the buffer, which
    has room for one more digest than the length, would not hold. *)
Theorem sha1_hash_rfc4253 reqlen :
  (0 ≤ reqlen)%Z →
  ∃ n, sha1_hash (Z.to_nat reqlen) k_value h session_id version reqlen [] = Some (rfc4253_keys n) ∧
       (reqlen ≤ Z.of_nat (length (rfc4253_keys n)) < reqlen + 20)%Z.
Proof.
  intros Hr. destruct (sha1_hash_keys (Z.to_nat reqlen) reqlen 0) as (n & Hn & Hlo & Hhi); [lia|].
  exists n. rewrite rfc4253_keys_length. split; [done|]. destruct Hhi as [->|]; lia.
Qed.
End keys.

(** ** The exchange *)

(** What an exchange settles: the name of the session, the digest of the host key,
    and that there are new keys. *)
Definition settled (c : core) : option str * str * bool :=
  (c_session_id c, c_md5 c, negb (Z.land (c_state c) LIBSSH2_STATE_NEWKEYS =? 0)%Z).

Definition core_id (c : core) : core := c.

Section exchange.
Context `{openssl} (e : surroundings) (beyond : list Z).

Lemma leaves_derive {X} (view : core → X) k h v n : leaves view (derive e k h v n).
Proof. unfold derive. leaving. Qed.

Lemma leaves_cipher_state {X} (view : core → X) l v : leaves view (update_endpoint l (set_crypt_abstract v)).
Proof. destruct l; by apply leaves_modify. Qed.

Lemma leaves_mac_state {X} (view : core → X) l v : leaves view (update_endpoint l (set_mac_abstract v)).
Proof. destruct l; by apply leaves_modify. Qed.

#[local] Hint Resolve leaves_derive leaves_cipher_state leaves_mac_state : leaves.

Lemma leaves_new_cipher {X} (view : core → X) l k h : leaves view (new_cipher e l k h).
Proof. unfold new_cipher. leaving. Qed.

Lemma leaves_new_mac {X} (view : core → X) l k h : leaves view (new_mac e l k h).
Proof. unfold new_mac. leaving. Qed.

#[local] Hint Resolve leaves_new_cipher leaves_new_mac : leaves.

Lemma leaves_new_keys {X} (view : core → X) k h : leaves view (new_keys e k h).
Proof. unfold new_keys. leaving. Qed.

#[local] Hint Resolve leaves_new_keys : leaves.

Lemma leaves_fail {X} (view : core → X) c rc : leaves view (fail_with c rc).
Proof. unfold fail_with. leaving. Qed.

Lemma leaves_packet_require {X} (view : core → X) t : leaves view (packet_require e t).
Proof. unfold packet_require. leaving. Qed.

#[local] Hint Resolve leaves_fail leaves_packet_require : leaves.

Lemma leaves_add_newkeys : leaves auth_view (add_state LIBSSH2_STATE_NEWKEYS).
Proof.
  apply leaves_modify. intros s. unfold auth_view. simpl.
  change LIBSSH2_STATE_NEWKEYS with 2%Z. change LIBSSH2_STATE_AUTHENTICATED with 4%Z.
  by rewrite Z.land_lor_distr_l, Z.lor_0_r.
Qed.

#[local] Hint Resolve leaves_add_newkeys : leaves.

(** No exchange of keys changes whether the user is logged in. *)
Lemma leaves_exchange_keys m : leaves auth_view (exchange_keys e beyond m).
Proof.
  assert (Hgp : ∀ g p o i r mid, leaves auth_view
    (libssh2_kex_method_diffie_hellman_groupGP_sha1_key_exchange e beyond g p o i r mid)).
  { intros. unfold libssh2_kex_method_diffie_hellman_groupGP_sha1_key_exchange, start_exchange, burn_guess,
      finish_exchange, check_answer, change_keys, take_keys. leaving. }
  unfold exchange_keys, libssh2_kex_method_diffie_hellman_group1_sha1_key_exchange,
    libssh2_kex_method_diffie_hellman_group14_sha1_key_exchange,
    libssh2_kex_method_diffie_hellman_group_exchange_sha1_key_exchange. leaving; apply Hgp.
Qed.

(** What is hashed depends on the banners and the negotiation only. *)
Lemma exchange_text_core s s' gex r k mid E f kv :
  c_banners (core_of s') = c_banners (core_of s) → c_kexinits (core_of s') = c_kexinits (core_of s) →
  exchange_text s' gex r k mid E f kv = exchange_text s gex r k mid E f kv.
Proof. unfold exchange_text, local_version. simpl. by intros [= -> _] [= -> ->]. Qed.

Lemma take_keys_settled k h s rc s' :
  take_keys e k h s = Ok (rc, s') → rc = 0%Z →
  settled (core_of s') = (Some (default h (session_id s)), server_hostkey_md5 s, true).
Proof.
  unfold take_keys. intros (u & s1 & [= _ <-] & T)%bind_inv Hrc. set (s1 := set_state _ s) in T.
  assert (H1 : settled (core_of s1) = (session_id s, server_hostkey_md5 s, true)).
  { unfold settled, s1. simpl. f_equal. apply negb_true_iff, Z.eqb_neq. intros E.
    change LIBSSH2_STATE_NEWKEYS with 2%Z in E. apply (f_equal (λ z, Z.testbit z 1)) in E.
    by rewrite Z.land_spec, Z.lor_spec, orb_true_r in E. }
  apply bind_inv in T as (sid & s2 & [= <- <-] & T). change (session_id s1) with (session_id s) in T.
  destruct (session_id s) as [sid|].
  - by rewrite (leaves_new_keys settled _ _ _ _ _ T).
  - apply bind_inv in T as (ok & s3 & H3 & T). destruct ok; [|by injection T as <- _].
    apply bind_inv in T as (u1 & s4 & [= _ <-] & T). rewrite (leaves_new_keys settled _ _ _ _ _ T).
    apply (leaves_alloc settled) in H3. rewrite H1 in H3. unfold settled in *. simpl in *.
    by injection H3 as _ -> ->.
Qed.

Lemma change_keys_settled k h s s' :
  change_keys e k h s = Ok (0%Z, s') →
  settled (core_of s') = (Some (default h (session_id s)), server_hostkey_md5 s, true).
Proof.
  unfold change_keys. intros (rc & s1 & H1%(leaves_packet_write core_id) & T)%bind_inv.
  destruct (Z.eqb_spec rc 0); [|done].
  apply bind_inv in T as (d & s2 & H2%(leaves_packet_require core_id) & T). destruct d as [[d ?]|]; [|done].
  assert (Hcore : core_of s2 = core_of s) by (unfold core_id in *; congruence).
  rewrite (take_keys_settled _ _ _ _ _ T eq_refl).
  change (session_id s2) with (c_session_id (core_of s2)). change (server_hostkey_md5 s2) with (c_md5 (core_of s2)).
  by rewrite Hcore.
Qed.

(** [check_answer] gives 0 for a signature that holds only. *)
Lemma check_answer_signed p x E gex mid d pos abstract key s s' :
  check_answer e p x E gex mid d pos abstract key s = Ok (0%Z, s') →
  ∃ f_value h_sig remote,
    let k_value := mpint (BN_mod_exp (BN_bin2bn f_value) x p) in
    let h := SHA1 (exchange_text s gex (c_str remote) key mid E f_value k_value) in
    banner (s_remote s) = Some remote ∧ signed_by abstract h_sig h ∧
    settled (core_of s') = (Some (default h (session_id s)), server_hostkey_md5 s, true).
Proof.
  unfold check_answer. intros T.
  apply bind_inv in T as (f_len & s1 & H1%(leaves_lift core_id) & T).
  apply bind_inv in T as (f_value & s2 & H2%(leaves_lift core_id) & T).
  apply bind_inv in T as (sig_len & s3 & H3%(leaves_lift core_id) & T).
  apply bind_inv in T as (h_sig & s4 & H4%(leaves_lift core_id) & T).
  apply bind_inv in T as (ok & s5 & H5%(leaves_alloc core_id) & T). destruct ok; [|done].
  apply bind_inv in T as (st & ? & [= <- <-] & T).
  assert (Hcore : core_of s5 = core_of s) by (unfold core_id in *; congruence).
  destruct (banner (s_remote s5)) as [remote|] eqn:Er; [|done].
  assert (Hb := f_equal c_banners Hcore). assert (Hk := f_equal c_kexinits Hcore).
  exists f_value, h_sig, remote. cbv zeta.
  rewrite <- (exchange_text_core s s5) by done.
  apply bind_inv in T as (rc & s6 & Hv & T). destruct (Z.eqb_spec rc 0) as [->|]; [|done].
  apply sig_verify_signed in Hv as [Hv ->]. split_and!; [|done|].
  - change (banner (s_remote s)) with (c_banners (core_of s)).2. by rewrite <- Hb, <- Er.
  - apply change_keys_settled in T. rewrite T.
    by rewrite (f_equal c_session_id Hcore : session_id s5 = _), (f_equal c_md5 Hcore : server_hostkey_md5 s5 = _).
Qed.

Lemma finish_exchange_signed p x E gex mid d s s' :
  finish_exchange e p x E gex mid d s = Ok (0%Z, s') →
  ∃ m key abstract f_value h_sig remote,
    let k_value := mpint (BN_mod_exp (BN_bin2bn f_value) x p) in
    let h := SHA1 (exchange_text s gex (c_str remote) key mid E f_value k_value) in
    hostkey s = Some m ∧ banner (s_remote s) = Some remote ∧ hostkey_init m key = Ok (Some abstract) ∧
    signed_by abstract h_sig h ∧
    settled (core_of s') = (Some (default h (session_id s)), MD5 key, true).
Proof.
  unfold finish_exchange. intros (len & s1 & H1%(leaves_lift core_id) & T)%bind_inv.
  apply bind_inv in T as (ok & s2 & H2%(leaves_alloc core_id) & T). destruct ok; [|done].
  apply bind_inv in T as (key & s3 & H3%(leaves_lift core_id) & T).
  apply bind_inv in T as (u4 & s4 & [= _ <-] & T). apply bind_inv in T as (u5 & s5 & [= _ <-] & T).
  apply bind_inv in T as (u6 & s6 & [= _ <-] & T). apply bind_inv in T as (m & ? & [= <- <-] & T).
  assert (Hcore : core_of s3 = core_of s) by (unfold core_id in *; congruence).
  destruct (hostkey _) as [m|] eqn:Em in T; [|done]. simpl in Em.
  apply bind_inv in T as (abs & s7 & Hi & T). unfold lift in Hi.
  destruct (hostkey_init m key) as [a| |] eqn:Ei; [|done..]. injection Hi as -> <-.
  destruct abs as [abstract|]; [|done].
  apply check_answer_signed in T as (f & sig & remote & Hr & Hv & Hset).
  exists m, key, abstract, f, sig, remote. cbv zeta in *.
  erewrite exchange_text_core in Hv, Hset by (first [exact (f_equal c_banners Hcore)|exact (f_equal c_kexinits Hcore)]).
  split_and!; [| |done|done|].
  - change (hostkey s) with (c_hostkey (core_of s)). by rewrite <- Hcore.
  - change (banner (s_remote s)) with (c_banners (core_of s)).2. by rewrite <- Hcore.
  - rewrite Hset. simpl. change (session_id s3) with (c_session_id (core_of s3)). by rewrite Hcore.
Qed.

(** Both sides come to the same number. *)
Lemma shared_number `{!openssl_laws} g p x y : (0 < p)%Z → (0 ≤ x)%Z → (0 ≤ y)%Z →
  BN_mod_exp (g ^ y mod p) x p = (BN_mod_exp g x p ^ y mod p)%Z.
Proof.
  intros Hp Hx Hy. rewrite !mod_exp_law by done. rewrite !Z.mod_pow_l by lia.
  by rewrite <- !Z.pow_mul_r, Z.mul_comm by done.
Qed.

(** The part of it that a wrong guess does not change. *)
Definition still (c : core) :=
  (c_session_id c, c_hostkey c, c_banners c, c_kexinits c).

Lemma leaves_burn_guess : leaves still (burn_guess e beyond).
Proof. unfold burn_guess. leaving. Qed.

(** C4. An exchange of keys that succeeds was signed: the server's signature, checked
    with the host key it sent and the negotiated method, covers the banners and
    negotiation of both sides, that host key, both public numbers and the shared one;
    the digest that was signed becomes the name of the session unless it has one
    already. Whoever chose the server's number as [g ^ y] shares the number. *)
Theorem exchange_signed `{!openssl_laws} g p order init reply mid s s' :
  (0 < p)%Z →
  libssh2_kex_method_diffie_hellman_groupGP_sha1_key_exchange e beyond g p order init reply mid s = Ok (0%Z, s') →
  ∃ m key abstract f_value h_sig remote,
    let x := BN_rand (sends s) order in
    let E := BN_mod_exp g x p in
    let K := BN_mod_exp (BN_bin2bn f_value) x p in
    let h := SHA1 (exchange_text s (init =? SSH_MSG_KEX_DH_GEX_INIT)%Z (c_str remote) key mid E f_value (mpint K)) in
    hostkey s = Some m ∧ banner (s_remote s) = Some remote ∧
    hostkey_init m key = Ok (Some abstract) ∧ signed_by abstract h_sig h ∧
    session_id s' = Some (default h (session_id s)) ∧ server_hostkey_md5 s' = MD5 key ∧
    has_state LIBSSH2_STATE_NEWKEYS s' = true ∧
    ∀ y, (0 ≤ y)%Z → big_endian f_value = (g ^ y mod p)%Z → K = (E ^ y mod p)%Z.
Proof.
  intros Hp. unfold libssh2_kex_method_diffie_hellman_groupGP_sha1_key_exchange, start_exchange.
  intros (ret & s1 & T & (u & s2 & [= _ <-] & [= -> <-])%bind_inv)%bind_inv.
  apply bind_inv in T as (n & ? & [= <- <-] & T).
  apply bind_inv in T as (ok & s2 & H2%(leaves_alloc still) & T). destruct ok; [|done].
  apply bind_inv in T as (rc & s3 & H3%(leaves_packet_write still) & T). destruct (Z.eqb_spec rc 0); [|done].
  apply bind_inv in T as (burnt & s4 & H4%leaves_burn_guess & T). destruct burnt; [|done].
  apply bind_inv in T as (d & s5 & H5%(leaves_packet_require still) & T).
  destruct d as [[data ?]|]; [|done].
  destruct (finish_exchange_signed _ _ _ _ _ _ _ _ T) as (m & key & abstract & f & sig & remote & Hm & Hr & Hi & Hv & Hset).
  assert (Hst : still (core_of s5) = still (core_of s)) by congruence.
  injection Hst as Hsid Hhk Hb1 Hb2 Hk1 Hk2.
  exists m, key, abstract, f, sig, remote. cbv zeta in *.
  erewrite (exchange_text_core s s5) in Hv, Hset by (simpl; congruence).
  injection Hset as Hs Hd Hn. simpl in Hs. split_and!; try done; try congruence.
  { change (session_id (set_server_hostkey None s1)) with (session_id s1). by rewrite Hs, Hsid. }
  intros y Hy Hf. rewrite bin2bn_law, Hf. apply shared_number; [done|apply rand_law|done].
Qed.

(** The key exchange of a session, the first and any later one. *)
Definition key_exchange (cms : list crypt_method) (mms : list mac_method) (cps : list comp_method)
    (reexchange : bool) : ST Z :=
  libssh2_kex_exchange e cms mms cps (exchange_keys e beyond) reexchange.

Lemma leaves_key_exchange cms mms cps b : leaves auth_view (key_exchange cms mms cps b).
Proof. unfold key_exchange. apply leaves_kex_exchange. intros m. apply leaves_exchange_keys. Qed.
End exchange.

(** ** An instance *)

#[local] Existing Instances demo_openssl demo_openssl_laws.

Lemma mpint_spec_witness : ∃ c s, mpint 200 = ssh_string (c :: s) ∧ big_endian (c :: s) = 200%Z ∧ (code c < 128)%Z.
Proof. by apply (mpint_spec 200). Defined.

Lemma sha1_hash_rfc4253_witness :
  ∃ n, sha1_hash 24 &"K" &"H" &"S" "C"%char 24 [] = Some (rfc4253_keys &"K" &"H" &"S" "C"%char n) ∧
       (24 ≤ Z.of_nat (length (rfc4253_keys &"K" &"H" &"S" "C"%char n)) < 24 + 20)%Z.
Proof. by apply (sha1_hash_rfc4253 &"K" &"H" &"S" "C"%char 24). Defined.

Definition demo_host_key : str := rsa_blob &"e" &"0123456789abcdef".

(** The signature of the digest of the text, which starts with the banner. *)
Definition demo_signature : str := take 20 (ssh_string LIBSSH2_SSH_DEFAULT_BANNER).

(** The server's number is 5 ^ 7 mod 23; then its [NEWKEYS]. *)
Definition demo_exchange : session :=
  set_hostkey (Some {| hostkey_name := &"ssh-rsa"; encrypt := false; sig_verify := true; initPEM := true |})
    (set_s_remote (set_banner (Some &"SSH-2.0-OpenSSH") demo_endpoint)
      (demo_session
        [Recv_bytes (plain_frame demo_surroundings 0
           (of_code SSH_MSG_KEXDH_REPLY :: ssh_string demo_host_key ++ ssh_string [of_code 17] ++
            ssh_string (ssh_string &"ssh-rsa" ++ ssh_string demo_signature)));
         Recv_bytes (plain_frame demo_surroundings 0 [of_code SSH_MSG_NEWKEYS])])).

#[local] Abbreviation demo_run :=
  (libssh2_kex_method_diffie_hellman_groupGP_sha1_key_exchange demo_surroundings [] 5 23 8 SSH_MSG_KEXDH_INIT
     SSH_MSG_KEXDH_REPLY [] demo_exchange).

Lemma demo_exchange_runs : ∃ s, demo_run = Ok (0%Z, s).
Proof.
  assert (E : match demo_run with Ok (rc, _) => bool_decide (rc = 0%Z) | _ => false end = true) by by vm_compute.
  destruct demo_run as [[rc s]| |]; [|done..]. apply bool_decide_eq_true in E as ->. by exists s.
Qed.

Lemma exchange_signed_witness :
  ∃ s' key h, demo_run = Ok (0%Z, s') ∧ session_id s' = Some (SHA1 h) ∧ server_hostkey_md5 s' = MD5 key.
Proof.
  destruct demo_exchange_runs as [s' Hs'].
  destruct (exchange_signed demo_surroundings [] 5 23 8 SSH_MSG_KEXDH_INIT SSH_MSG_KEXDH_REPLY [] demo_exchange s'
    eq_refl Hs') as (m & key & abstract & f & sig & remote & _ & _ & _ & _ & Hid & Hmd & _).
  exists s', key. eexists. split_and!; [exact Hs'|exact Hid|exact Hmd].
Defined.
