(* ===== verification/Ssh2Startup.v ===== *)
(** * libssh2: sessions ([ssh/libssh2/session.c])

    The banners, the start of a session, its end, its callbacks and flags, and
    polling. The key exchange is an argument ([true] for a second one): [Ssh2Dh]
    has it. *)
From S2P Require Import Prelude StdString Ssh2Misc Ssh2Session Ssh2Packet Ssh2Channel Ssh2Kex.

Definition LIBSSH2_SSH_DEFAULT_BANNER_WITH_CRLF : str := &"SSH-2.0-libssh2_0.14" ++ [CR; LF].

(** ** Receiving the banner *)

Definition BANNER_SIZE : nat := 256.

(** The buffer is full, or ends with a line feed. *)
Definition banner_done (banner : str) : bool :=
  bool_decide (BANNER_SIZE ≤ length banner) || bool_decide (last banner = Some LF).

(** The bytes of one answer, one [recv] each: the banner, the bytes left, and whether
    a zero byte came. *)
Fixpoint banner_bytes (s banner : str) : str * str * bool :=
  if banner_done banner then (banner, s, false) else
  match s with
  | [] => (banner, [], false)
  | c :: s => if decide (c = NUL) then (banner, s, true) else banner_bytes s (banner ++ [c])
  end.

(** The loop: the line, [None] when it fails; and the answers left. An error other
    than [EAGAIN] ends it, the end of the stream does not. *)
Fixpoint banner_loop (evs : list recv_event) (banner : str) : res (option str * list recv_event) :=
  if banner_done banner then Ok (Some banner, evs) else
  match evs with
  | [] => Undef
  | Recv_again _ :: evs => banner_loop evs banner
  | Recv_error _ :: evs => Ok (None, evs)
  | Recv_bytes s :: evs =>
      let '(banner, rest, nul) := banner_bytes s banner in
      let left := match rest with [] => evs | _ => Recv_bytes rest :: evs end in
      if (nul : bool) then Ok (None, left)
      else if banner_done banner then Ok (Some banner, left)
      else banner_loop evs banner
  end.

Definition is_eol (c : chr) : bool := bool_decide (c = LF) || bool_decide (c = CR).

(** The trailing line ends leave. *)
Definition strip_eol (s : str) : str := reverse (dropwhile is_eol (reverse s)).

Section startup.
Context (e : surroundings) (kex_exchange : bool → ST Z).

Definition libssh2_banner_receive : ST Z :=
  evs ← gets incoming;
  r ← lift (banner_loop evs []);
  modify (set_incoming r.2);;
  match r.1 with
  | None => mret 1%Z
  | Some line =>
      let received := strip_eol line in
      if decide (received = []) then mret 1%Z else
      ok ← alloc e;
      if negb ok then undefined else
      update_remote (set_banner (Some received));;
      mret 0%Z
  end.

(** ** Sending the banner *)

Definition libssh2_banner_send : ST Z :=
  b ← gets (λ s, banner (s_local s));
  ok ← send e (default LIBSSH2_SSH_DEFAULT_BANNER_WITH_CRLF b);
  mret (if (ok : bool) then 0 else 1)%Z.

Definition libssh2_banner_set (b : option str) : ST Z :=
  update_local (set_banner None);;
  let b := default [] b in
  if decide (b = []) then mret 0%Z else
  ok ← alloc e;
  if negb ok then libssh2_error LIBSSH2_ERROR_ALLOC;; mret (-1)%Z else
  update_local (set_banner (Some (b ++ [CR; LF])));;
  mret 0%Z.

(** ** The session *)

(** All zero; the methods stand for null pointers, which are not followed before the
    negotiation has set them. *)
Definition new_endpoint (no_crypt : crypt_method) (no_mac : mac_method) (no_comp : comp_method) : endpoint := {|
  banner := None; kexinit := None; crypt := no_crypt; crypt_abstract := []; mac_m := no_mac;
  mac_abstract := []; seqno := 0; comp := no_comp; comp_abstract := []; crypt_prefs := None;
  mac_prefs := None; comp_prefs := None; lang_prefs := None |}.

(** [evs] is what the socket will answer. *)
Definition libssh2_session_init_ex (no_crypt : crypt_method) (no_mac : mac_method)
    (no_comp : comp_method) (evs : list recv_event) : res session :=
  if negb (alloc_ok e 0) then Undef else
  let ep := new_endpoint no_crypt no_mac no_comp in
  Ok {| cb_ignore := false; cb_debug := false; cb_disconnect := false; cb_macerror := false;
        cb_x11 := false; kex_prefs := None; hostkey_prefs := None; state := 0; flags := 0;
        kex := None; burn_optimistic_kexinit := false; session_id := None; hostkey := None;
        server_hostkey := None; server_hostkey_md5 := replicate 16 NUL;
        server_hostkey_sha1 := replicate 20 NUL; s_remote := ep; s_local := ep; packets := []; channels := [];
        next_channel := 0; listeners := []; socket_state := LIBSSH2_SOCKET_CONNECTED;
        err_code := None; allocs := 1; sends := 0; sent := []; incoming := evs; trace := [] |}.

(** The callback set before; [false] is none. *)
Definition libssh2_session_callback_set (cbtype : Z) (cb : bool) : ST bool :=
  let swap (get : session → bool) (set : bool → session → session) : ST bool :=
    old ← gets get; modify (set cb);; mret old in
  if (cbtype =? LIBSSH2_CALLBACK_IGNORE)%Z then swap cb_ignore set_cb_ignore
  else if (cbtype =? LIBSSH2_CALLBACK_DEBUG)%Z then swap cb_debug set_cb_debug
  else if (cbtype =? LIBSSH2_CALLBACK_DISCONNECT)%Z then swap cb_disconnect set_cb_disconnect
  else if (cbtype =? LIBSSH2_CALLBACK_MACERROR)%Z then swap cb_macerror set_cb_macerror
  else if (cbtype =? LIBSSH2_CALLBACK_X11)%Z then swap cb_x11 set_cb_x11
  else mret false.

(** The answer to the request for the authentication service. *)
Definition service_accepted (data : str) : ST Z :=
  service_length ← ntohu32 data 1;
  same ← (if (service_length =? 12)%Z then lift (strncmp_eq (drop 5 data) &"ssh-userauth")
          else mret false);
  if (same : bool) then mret 0%Z else libssh2_error LIBSSH2_ERROR_PROTO;; mret LIBSSH2_ERROR_PROTO.

Definition libssh2_session_startup (socket : Z) : ST Z :=
  let fail code := libssh2_error code;; mret code in
  if (socket <? 0)%Z then fail LIBSSH2_ERROR_SOCKET_NONE else
  rc ← libssh2_banner_send;
  if negb (rc =? 0)%Z then fail LIBSSH2_ERROR_BANNER_SEND else
  rc ← libssh2_banner_receive;
  if negb (rc =? 0)%Z then fail LIBSSH2_ERROR_BANNER_NONE else
  rc ← kex_exchange false;
  if negb (rc =? 0)%Z then fail LIBSSH2_ERROR_KEX_FAILURE else
  rc ← libssh2_packet_write e (of_code SSH_MSG_SERVICE_REQUEST :: ssh_string &"ssh-userauth");
  if negb (rc =? 0)%Z then fail LIBSSH2_ERROR_SOCKET_SEND else
  d ← libssh2_packet_require_ex e (kex_exchange true) SSH_MSG_SERVICE_ACCEPT 0 [];
  match d with
  | None => mret LIBSSH2_ERROR_SOCKET_DISCONNECT
  | Some (data, _) => service_accepted data
  end.

(** The result of the write is not looked at. *)
Definition libssh2_session_disconnect_ex (reason : Z) (description lang : option str) : ST Z :=
  ok ← alloc e;
  if negb ok then libssh2_error LIBSSH2_ERROR_ALLOC;; mret (-1)%Z else
  _ ← libssh2_packet_write e (of_code SSH_MSG_DISCONNECT :: libssh2_htonu32 reason ++
        ssh_string (default [] description) ++ ssh_string (default [] lang));
  mret 0%Z.

(** The channels are freed one by one; one that cannot be is unlinked. A packet that
    is read meanwhile may add one, hence the fuel. *)
Fixpoint free_channels (fuel : nat) : ST () :=
  cs ← gets channels;
  match cs with
  | [] => mret ()
  | c :: _ =>
      match fuel with
      | 0 => undefined
      | S fuel =>
          _ ← libssh2_channel_free e (kex_exchange true) (ch_id c);
          cs ← gets channels;
          (match cs with
           | c' :: rest => if (ch_id c' =? ch_id c)%Z then modify (set_channels rest) else mret ()
           | [] => mret ()
           end);;
          free_channels fuel
      end
  end.

(** A listener whose cancellation cannot be sent stays, and is tried again: [tries]
    is after how many times that is taken for a loop without end. *)
Fixpoint cancel_listeners (tries : nat) : ST () :=
  ls ← gets listeners;
  match ls with
  | [] => mret ()
  | _ :: _ =>
      match tries with
      | 0 => undefined
      | S tries => _ ← libssh2_channel_forward_cancel e (kex_exchange true) 0; cancel_listeners tries
      end
  end.

(** What other code can see of it: the packets that are sent. The memory is given
    back without conditions that matter to it. *)
Definition libssh2_session_free (tries : nat) : ST () :=
  fuel ← gets (λ s, length (channels s) + fuel_of s);
  free_channels fuel;;
  cancel_listeners tries;;
  modify (set_packets []).

Definition libssh2_session_flag (flag : Z) (value : bool) : ST Z :=
  modify (λ s, set_flags (if value then Z.lor (flags s) flag else Z.land (flags s) (Z.lnot flag)) s);;
  gets flags.

(** The methods in use: a method without a name is the null pointer of an endpoint that has
    not negotiated. The languages are always empty. *)
Definition active_method (method_type : Z) (s : session) : option (option str) :=
  let named name := if decide (name = []) then None else Some name in
  if (method_type =? LIBSSH2_METHOD_KEX)%Z then Some (kex_name <$> kex s)
  else if (method_type =? LIBSSH2_METHOD_HOSTKEY)%Z then Some (hostkey_name <$> hostkey s)
  else if (method_type =? LIBSSH2_METHOD_CRYPT_CS)%Z then Some (named (crypt_name (crypt (s_local s))))
  else if (method_type =? LIBSSH2_METHOD_CRYPT_SC)%Z then Some (named (crypt_name (crypt (s_remote s))))
  else if (method_type =? LIBSSH2_METHOD_MAC_CS)%Z then Some (named (mac_name (mac_m (s_local s))))
  else if (method_type =? LIBSSH2_METHOD_MAC_SC)%Z then Some (named (mac_name (mac_m (s_remote s))))
  else if (method_type =? LIBSSH2_METHOD_COMP_CS)%Z then Some (named (comp_name (comp (s_local s))))
  else if (method_type =? LIBSSH2_METHOD_COMP_SC)%Z then Some (named (comp_name (comp (s_remote s))))
  else if (method_type =? LIBSSH2_METHOD_LANG_CS)%Z then Some (Some [])
  else if (method_type =? LIBSSH2_METHOD_LANG_SC)%Z then Some (Some [])
  else None.

Definition libssh2_session_methods (method_type : Z) : ST (option str) :=
  m ← gets (active_method method_type);
  match m with
  | None => libssh2_error LIBSSH2_ERROR_INVAL;; mret None
  | Some None => libssh2_error LIBSSH2_ERROR_METHOD_NONE;; mret None
  | Some (Some name) => mret (Some name)
  end.

(** ** Polling *)

Fixpoint poll_loop (i : Z) (extended : bool) (ps : list packet) : res bool :=
  match ps with
  | [] => Ok false
  | p :: ps =>
      match data p with
      | [] => Undef
      | c :: _ =>
          if (code c =? if extended then SSH_MSG_CHANNEL_EXTENDED_DATA else SSH_MSG_CHANNEL_DATA)%Z then
            let! n := libssh2_ntohu32 (data p) 1 in
            if (i =? n)%Z then Ok true else poll_loop i extended ps
          else poll_loop i extended ps
      end
  end.

Definition libssh2_poll_channel_read (i : Z) (extended : bool) : ST bool :=
  ps ← gets packets; lift (poll_loop i extended ps).

Definition libssh2_poll_channel_write (c : channel) : bool := negb (window_size (ch_local c) =? 0)%Z.

Definition libssh2_poll_listener_queued (l : listener) : bool := negb (bool_decide (queue l = [])).

Definition LIBSSH2_POLLFD_POLLIN : Z := 0x0001.
Definition LIBSSH2_POLLFD_POLLEXT : Z := 0x0002.
Definition LIBSSH2_POLLFD_POLLOUT : Z := 0x0004.
Definition LIBSSH2_POLLFD_SESSION_CLOSED : Z := 0x0010.
Definition LIBSSH2_POLLFD_CHANNEL_CLOSED : Z := 0x0080.
Definition LIBSSH2_POLLFD_LISTENER_CLOSED : Z := 0x0080.

(** [LIBSSH2_POLLFD]: the type and the union are one. A listener is its place in the
    list. *)
Inductive poll_target := Poll_socket (fd : Z) | Poll_channel (i : Z) | Poll_listener (n : nat).
Record pollfd := { target : poll_target; events : Z; revents : Z }.

Definition has_bit (bit z : Z) : bool := negb (Z.land z bit =? 0)%Z.
Definition add_bit (bit : Z) (b : bool) (z : Z) : Z := if b then Z.lor z bit else z.

(** [fds\[i\].revents |= test () ? bit : 0] when the event is asked for and not known. *)
Definition poll_event (f : pollfd) (bit : Z) (test : ST bool) (revents : Z) : ST Z :=
  if has_bit bit (events f) && negb (has_bit bit revents)
  then b ← test; mret (add_bit bit b revents) else mret revents.

Definition poll_channel (f : pollfd) (i : Z) : ST Z :=
  r ← poll_event f LIBSSH2_POLLFD_POLLIN (libssh2_poll_channel_read i false) (revents f);
  r ← poll_event f LIBSSH2_POLLFD_POLLEXT (libssh2_poll_channel_read i true) r;
  c ← the_channel i;
  r ← poll_event f LIBSSH2_POLLFD_POLLOUT (mret (libssh2_poll_channel_write c)) r;
  gone ← gets disconnected;
  mret (add_bit (Z.lor LIBSSH2_POLLFD_CHANNEL_CLOSED LIBSSH2_POLLFD_SESSION_CLOSED) gone
          (add_bit LIBSSH2_POLLFD_CHANNEL_CLOSED (close (ch_remote c) || close (ch_local c)) r)).

Definition poll_listener (f : pollfd) (n : nat) : ST Z :=
  l ← gets (λ s, listeners s !! n);
  match l with
  | None => undefined
  | Some l =>
      r ← poll_event f LIBSSH2_POLLFD_POLLIN (mret (libssh2_poll_listener_queued l)) (revents f);
      gone ← gets disconnected;
      mret (add_bit (Z.lor LIBSSH2_POLLFD_LISTENER_CLOSED LIBSSH2_POLLFD_SESSION_CLOSED) gone r)
  end.

(** [libssh2_poll] as it is compiled for Windows, with neither [poll] nor [select]:
    one pass, no socket is looked at, and [revents] is not cleared first. *)
Fixpoint libssh2_poll (fds : list pollfd) : ST (Z * list pollfd) :=
  match fds with
  | [] => mret (0%Z, [])
  | f :: fds =>
      r ← (if (events f =? revents f)%Z then mret (revents f)
           else match target f with
                | Poll_socket _ => mret (revents f)
                | Poll_channel i => poll_channel f i
                | Poll_listener n => poll_listener f n
                end);
      rest ← libssh2_poll fds;
      mret ((rest.1 + if (r =? 0)%Z then 0 else 1)%Z,
            {| target := target f; events := events f; revents := r |} :: rest.2)
  end.
End startup.

(** ** Lines without line ends *)

Definition no_eol (s : str) : Prop := Forall (λ c, is_eol c = false) s.

Lemma strip_eol_id s : no_eol s → strip_eol s = s.
Proof.
  intros H. unfold strip_eol. apply Forall_reverse in H. destruct (reverse s) as [|c r] eqn:E.
  - cbn. by rewrite <- (reverse_involutive s), E.
  - apply Forall_cons in H as [Hc _]. rewrite dropwhile_cons_false, <- E by done. apply reverse_involutive.
Qed.

(** ** What the banner is *)

(** The bytes that the answers bring, when none is an error. *)
Definition quiet (ev : recv_event) : Prop := match ev with Recv_error _ => False | _ => True end.
Definition ev_bytes (ev : recv_event) : str := match ev with Recv_bytes b => b | _ => [] end.
Definition stream (evs : list recv_event) : str := evs ≫= ev_bytes.

Lemma banner_not_done banner more :
  LF ∉ banner → length (banner ++ more) < BANNER_SIZE → banner_done banner = false.
Proof.
  intros Hlf Hlen. unfold banner_done. rewrite length_app in Hlen.
  rewrite !bool_decide_false; [done| |lia]. intros Hl. apply Hlf. by apply last_Some_elem_of in Hl.
Qed.

Lemma banner_done_lf line : banner_done (line ++ [LF]) = true.
Proof. unfold banner_done. rewrite last_snoc, (bool_decide_true (Some LF = _)) by done. apply orb_true_r. Qed.

(** The bytes of one answer either all belong to the line, or end it. *)
Lemma banner_bytes_spec s banner more tl rest :
  NUL ∉ banner ++ more → LF ∉ banner ++ more → length (banner ++ more) < BANNER_SIZE →
  s ++ tl = more ++ LF :: rest →
  (∃ more', more = s ++ more' ∧ tl = more' ++ LF :: rest ∧
     banner_bytes s banner = (banner ++ s, [], false)) ∨
  (∃ s', s' ++ tl = rest ∧ banner_bytes s banner = (banner ++ more ++ [LF], s', false)).
Proof.
  revert banner more. induction s as [|c s IH]; intros banner more Hnul Hlf Hlen Heq; cbn [banner_bytes].
  - left. exists more. rewrite (banner_not_done banner more), app_nil_r by (done || set_solver). done.
  - rewrite (banner_not_done banner more) by (done || set_solver).
    destruct more as [|c' more]; injection Heq as -> Heq.
    + right. rewrite decide_False by done. exists s. split; [done|].
      destruct s; cbn [banner_bytes]; by rewrite banner_done_lf.
    + rewrite decide_False by set_solver.
      replace (banner ++ c' :: more) with ((banner ++ [c']) ++ more) in * by by rewrite <- app_assoc.
      destruct (IH (banner ++ [c']) more) as [(more' & -> & Htl & Hb)|(s' & Hs & Hb)]; [done..| |].
      * left. exists more'. rewrite Hb, <- app_assoc. done.
      * right. exists s'. rewrite Hb, <- app_assoc. done.
Qed.

Lemma banner_loop_spec evs banner more rest :
  NUL ∉ banner ++ more → LF ∉ banner ++ more → length (banner ++ more) < BANNER_SIZE →
  Forall quiet evs → stream evs = more ++ LF :: rest →
  ∃ evs', banner_loop evs banner = Ok (Some (banner ++ more ++ [LF]), evs') ∧
    Forall quiet evs' ∧ stream evs' = rest.
Proof.
  revert banner more. induction evs as [|ev evs IH]; intros banner more Hnul Hlf Hlen Hq Heq.
  { by destruct more. }
  apply Forall_cons in Hq as [Hev Hq]. cbn [banner_loop].
  rewrite (banner_not_done banner more) by (done || set_solver). destruct ev as [s| |]; [|by apply IH|done].
  destruct (banner_bytes_spec s banner more (stream evs) rest) as [(more' & -> & Htl & ->)|(s' & Hs & ->)]; [done..| |].
  - rewrite app_assoc in *. rewrite (banner_not_done (banner ++ s) more') by (done || set_solver).
    destruct (IH (banner ++ s) more') as (evs' & -> & ? & ?); [done..|]. exists evs'.
    by rewrite <- !app_assoc.
  - rewrite app_assoc, banner_done_lf.
    exists (match s' with [] => evs | _ => Recv_bytes s' :: evs end). split; [done|].
    destruct s'; [done|]. split; [by constructor|done].
Qed.

(** C23. However the network cuts it into pieces, the line that the server sends first
    is its banner, without the line end, and what follows it is left for the packets. *)
Theorem banner_receive_spec e line rest s :
  (∀ n, alloc_ok e n = true) → Forall quiet (incoming s) → stream (incoming s) = line ++ LF :: rest →
  NUL ∉ line → LF ∉ line → length line < BANNER_SIZE → strip_eol line ≠ [] →
  ∃ evs, libssh2_banner_receive e s =
    Ok (0%Z, set_s_remote (set_banner (Some (strip_eol line)) (s_remote s))
               (set_allocs (S (allocs s)) (set_incoming evs s))) ∧
    Forall quiet evs ∧ stream evs = rest.
Proof.
  intros Halloc Hq Hst Hnul Hlf Hlen Hne.
  destruct (banner_loop_spec (incoming s) [] line rest) as (evs & Hl & Hq' & Hr); [done..|].
  exists evs. split; [|done]. unfold libssh2_banner_receive.
  rewrite (bind_Ok _ _ s (incoming s) s) by done.
  rewrite (bind_Ok _ _ s (Some (line ++ [LF]), evs) s) by (unfold lift; by rewrite Hl).
  rewrite (bind_Ok _ _ s () (set_incoming evs s)) by done. cbn [fst snd].
  assert (E : strip_eol (line ++ [LF]) = strip_eol line) by (unfold strip_eol; by rewrite reverse_app).
  rewrite E, decide_False by done.
  rewrite (bind_Ok _ _ _ true (set_allocs (S (allocs s)) (set_incoming evs s))); [done|].
  unfold alloc, gets, modify, mbind, ST_bind, mret, ST_ret. by rewrite Halloc.
Qed.

Lemma banner_receive_spec_witness :
  ∃ evs, libssh2_banner_receive demo_surroundings
           (demo_session [Recv_bytes &"SSH-2.0-Op"; Recv_again true; Recv_bytes (&"enSSH" ++ [CR; LF] ++ &"abc")]) =
    Ok (0%Z, set_s_remote (set_banner (Some &"SSH-2.0-OpenSSH") demo_endpoint)
               (set_allocs 1 (demo_session evs))) ∧ stream evs = &"abc".
Proof.
  destruct (banner_receive_spec demo_surroundings (&"SSH-2.0-OpenSSH" ++ [CR]) &"abc"
    (demo_session [Recv_bytes &"SSH-2.0-Op"; Recv_again true; Recv_bytes (&"enSSH" ++ [CR; LF] ++ &"abc")]))
    as (evs & H & _ & Hs).
  - done.
  - repeat constructor.
  - reflexivity.
  - by apply (bool_decide_unpack _); vm_compute.
  - by apply (bool_decide_unpack _); vm_compute.
  - vm_compute. lia.
  - by vm_compute.
  - exists evs. split; [exact H|exact Hs].
Defined.

(** ** What goes wrong *)

(** At the end of the stream the loop goes on for ever. *)
Lemma banner_end_of_stream n : banner_loop (replicate n (Recv_bytes [])) [] = Undef.
Proof. induction n as [|n IH]; [done|]. cbn. exact IH. Qed.

(** A listener whose cancellation cannot be sent keeps the session from being freed. *)
Lemma free_never_ends e kex_exchange l ls tries s :
  (∀ n, alloc_ok e n = false) → listeners s = l :: ls → cancel_listeners e kex_exchange tries s = Undef.
Proof.
  intros Ha. revert s. induction tries as [|tries IH]; intros s Hl; cbn [cancel_listeners];
    rewrite (bind_Ok _ _ s (l :: ls) s) by (unfold gets; by rewrite Hl); [done|].
  rewrite (bind_Ok _ _ s (-1)%Z (set_err_code (Some LIBSSH2_ERROR_ALLOC) (set_allocs (S (allocs s)) s))).
  - by apply IH.
  - unfold libssh2_channel_forward_cancel.
    rewrite (bind_Ok _ _ s (Some l) s) by (unfold gets; by rewrite Hl).
    unfold send_request, alloc, gets, modify, libssh2_error, mbind, ST_bind, mret, ST_ret. by rewrite Ha.
Qed.
