(* ===== verification/Ssh2Auth.v ===== *)
(** * libssh2: authentication ([ssh/libssh2/userauth.c])

    The list of methods, passwords, key pairs in files and keyboard-interactive
    dialogues. The files are an argument, in text mode. *)
From S2P Require Import Prelude StdString Ssh2Misc Ssh2Session Ssh2Packet Ssh2Channel Ssh2Kex Ssh2Keeps Openssl Ssh2Hostkey Ssh2Dh Ssh2Startup.

(** ** Requests *)

Definition auth_request (username method body : str) : str :=
  of_code SSH_MSG_USERAUTH_REQUEST :: ssh_string username ++ ssh_string &"ssh-connection" ++
  ssh_string method ++ body.

(** The characters before the line end. The end of the file counts as one, as
    [feof] is asked before [fgetc] has met it. *)
Fixpoint count_line (s : str) : nat :=
  match s with
  | [] => 1
  | c :: s => if is_eol c then 0 else S (count_line s)
  end.

Section auth.
Context `{ssl : openssl} (e : surroundings) (kex_exchange : ST Z).
Context (open_file : str → option str).

Definition reply_of (types : list Z) : ST (option (str * Z)) :=
  libssh2_packet_requirev_ex e kex_exchange types 0 [].

Definition set_authenticated : ST Z := add_state LIBSSH2_STATE_AUTHENTICATED;; mret 0%Z.

Definition libssh2_userauth_list (username : str) : ST (option str) :=
  sent ← send_request e (auth_request username &"none" []);
  if negb sent then mret None else
  d ← reply_of [SSH_MSG_USERAUTH_SUCCESS; SSH_MSG_USERAUTH_FAILURE];
  match d with
  | None => mret None
  | Some (data, _) =>
      type ← byte_at data 0;
      if (type =? SSH_MSG_USERAUTH_SUCCESS)%Z then _ ← set_authenticated; mret None else
      methods_len ← ntohu32 data 1;
      methods ← bytes (Z.to_nat methods_len) data 5;
      mret (Some methods)
  end.

Definition libssh2_userauth_authenticated : ST bool := gets (has_state LIBSSH2_STATE_AUTHENTICATED).

(** ** Passwords *)

(** From the label [password_response] on; [change n] is the answer of the callback
    to its [n]-th call. Every turn takes a packet. *)
Fixpoint password_response (fuel : nat) (username password : str) (change : option (nat → option str))
    (n : nat) : ST Z :=
  match fuel with
  | 0 => undefined
  | S fuel =>
      d ← reply_of [SSH_MSG_USERAUTH_SUCCESS; SSH_MSG_USERAUTH_FAILURE; SSH_MSG_USERAUTH_PASSWD_CHANGEREQ];
      match d with
      | None => mret (-1)%Z
      | Some (data, _) =>
          type ← byte_at data 0;
          if (type =? SSH_MSG_USERAUTH_SUCCESS)%Z then set_authenticated
          else if (type =? SSH_MSG_USERAUTH_PASSWD_CHANGEREQ)%Z then
            match change with
            | None => libssh2_error LIBSSH2_ERROR_PASSWORD_EXPIRED;; mret (-1)%Z
            | Some cb =>
                match cb n with
                | None => libssh2_error LIBSSH2_ERROR_PASSWORD_EXPIRED;; mret (-1)%Z
                | Some newpw =>
                    sent ← send_request e (auth_request username &"password"
                             (of_code 255 :: ssh_string password ++ ssh_string newpw));
                    if (sent : bool) then password_response fuel username password change (S n)
                    else mret (-1)%Z
                end
            end
          else mret (-1)%Z
      end
  end.

Definition libssh2_userauth_password_ex (username password : str) (change : option (nat → option str)) : ST Z :=
  sent ← send_request e (auth_request username &"password" (NUL :: ssh_string password));
  if negb sent then mret (-1)%Z else
  fuel ← gets (λ s, length (packets s) + fuel_of s);
  password_response fuel username password change 0.

(** ** Keys in files *)

Definition file_error {A} : ST (option A) := libssh2_error LIBSSH2_ERROR_FILE;; mret None.

(** The name of the method and the key. The last character of the line is left out,
    or what counts for the end of the file. The second search goes one byte too far,
    where a space is as good as none. *)
Definition libssh2_file_read_publickey (pubkeyfile : str) : ST (option (str * str)) :=
  match open_file pubkeyfile with
  | None => file_error
  | Some content =>
      let pubkey_len := count_line content - 1 in
      if decide (pubkey_len ≤ 1) then file_error else
      ok ← alloc e;
      if negb ok then libssh2_error LIBSSH2_ERROR_ALLOC;; mret None else
      if decide (length content < pubkey_len) then file_error else
      let pubkey := strip_eol (take pubkey_len content) in
      if decide (pubkey = []) then file_error else
      match find &" " pubkey with
      | None => file_error
      | Some n =>
          let rest := drop (S n) pubkey in
          let key := match find &" " rest with Some k => take k rest | None => rest end in
          a ← gets allocs;
          ok ← alloc e;
          d ← (if (ok : bool)
               then lift (libssh2_base64_decode (code <$> stack_bytes e a (base64_size key)) key)
               else mret None);
          match d with
          | None => file_error
          | Some pubkeydata => mret (Some (take n pubkey, pubkeydata))
          end
      end
  end.

(** The first method whose name starts with [method]. *)
Fixpoint find_hostkey (method : str) (ms : list hostkey_method) : option hostkey_method :=
  match ms with
  | [] => None
  | m :: ms =>
      if initPEM m && strncmp_equal (length method) (hostkey_name m ++ [NUL]) method then Some m
      else find_hostkey method ms
  end.

Definition libssh2_file_read_privatekey (method privkeyfile passphrase : str)
    : ST (option host_key) :=
  match find_hostkey method libssh2_hostkey_methods with
  | None => libssh2_error LIBSSH2_ERROR_METHOD_NONE;; mret None
  | Some m =>
      match hostkey_initPEM open_file m privkeyfile passphrase with
      | None => file_error
      | Some abstract => mret (Some abstract)
      end
  end.

(** The packet with its signature; the buffer grows when the signature is longer than
    the public key. *)
Definition sign_packet (method pubkeydata privatekey passphrase packet : str) : ST (option str) :=
  key ← libssh2_file_read_privatekey method privatekey passphrase;
  match key with
  | None => mret None
  | Some abstract =>
      sid ← gets session_id;
      sig ← hostkey_signv e abstract [libssh2_htonu32 (Z.of_nat (length (default [] sid))); default [] sid; packet];
      match sig with
      | None => mret None
      | Some sig =>
          ok ← (if decide (length pubkeydata < length sig) then alloc e else mret true);
          if negb ok then libssh2_error LIBSSH2_ERROR_ALLOC;; mret None
          else mret (Some (packet ++ ssh_string (ssh_string method ++ ssh_string sig)))
      end
  end.

(** The signed packet is sent, and the server answers. *)
Definition finish_auth (packet : str) : ST Z :=
  rc ← libssh2_packet_write e packet;
  if negb (rc =? 0)%Z then libssh2_error LIBSSH2_ERROR_SOCKET_SEND;; mret (-1)%Z else
  d ← reply_of [SSH_MSG_USERAUTH_SUCCESS; SSH_MSG_USERAUTH_FAILURE];
  match d with
  | None => mret (-1)%Z
  | Some (data, _) =>
      type ← byte_at data 0;
      if (type =? SSH_MSG_USERAUTH_SUCCESS)%Z then set_authenticated
      else libssh2_error LIBSSH2_ERROR_PUBLICKEY_UNVERIFIED;; mret (-1)%Z
  end.

Definition libssh2_userauth_hostbased_fromfile_ex
    (username publickey privatekey passphrase hostname local_username : str) : ST Z :=
  key ← libssh2_file_read_publickey publickey;
  match key with
  | None => mret (-1)%Z
  | Some (method, pubkeydata) =>
      ok ← alloc e;
      if negb ok then undefined else
      packet ← sign_packet method pubkeydata privatekey passphrase
        (auth_request username &"hostbased" (ssh_string method ++ ssh_string pubkeydata ++
           ssh_string hostname ++ ssh_string local_username));
      match packet with
      | None => mret (-1)%Z
      | Some packet => finish_auth packet
      end
  end.

(** The request, without a signature ([flag] 0) and with one ([flag] 255). *)
Definition publickey_request (username method pubkeydata : str) (flag : Z) : str :=
  auth_request username &"publickey" (of_code flag :: ssh_string method ++ ssh_string pubkeydata).

Definition libssh2_userauth_publickey_fromfile_ex (username publickey privatekey passphrase : str) : ST Z :=
  key ← libssh2_file_read_publickey publickey;
  match key with
  | None => mret (-1)%Z
  | Some (method, pubkeydata) =>
      ok ← alloc e;
      if negb ok then undefined else
      rc ← libssh2_packet_write e (publickey_request username method pubkeydata 0);
      if negb (rc =? 0)%Z then libssh2_error LIBSSH2_ERROR_SOCKET_SEND;; mret (-1)%Z else
      d ← reply_of [SSH_MSG_USERAUTH_SUCCESS; SSH_MSG_USERAUTH_FAILURE; SSH_MSG_USERAUTH_PK_OK];
      match d with
      | None => mret (-1)%Z
      | Some (data, _) =>
          type ← byte_at data 0;
          if (type =? SSH_MSG_USERAUTH_SUCCESS)%Z then set_authenticated
          else if (type =? SSH_MSG_USERAUTH_FAILURE)%Z
          then libssh2_error LIBSSH2_ERROR_PUBLICKEY_UNRECOGNIZED;; mret (-1)%Z
          else
            packet ← sign_packet method pubkeydata privatekey passphrase
              (publickey_request username method pubkeydata 255);
            match packet with
            | None => mret (-1)%Z
            | Some packet => finish_auth packet
            end
      end
  end.

(** ** Keyboard-interactive *)

(** What the application answers to a name, an instruction and the prompts. *)
Context (respond : str → str → list (str * bool) → list str).

(** An allocation of the dialogue: [false] when it fails. *)
Definition alloc_or_error : ST bool :=
  ok ← alloc e;
  if (ok : bool) then mret true else libssh2_error LIBSSH2_ERROR_ALLOC;; mret false.

(** A string of the packet, copied: it and where it ends. *)
Definition copy_string (data : str) (s : nat) : ST (option (str * nat)) :=
  len ← ntohu32 data s;
  ok ← alloc_or_error;
  if negb ok then mret None else
  text ← bytes (Z.to_nat len) data (s + 4);
  mret (Some (text, s + 4 + Z.to_nat len)).

Fixpoint read_prompts (n : nat) (data : str) (s : nat) : ST (option (list (str * bool))) :=
  match n with
  | 0 => mret (Some [])
  | S n =>
      text ← copy_string data s;
      match text with
      | None => mret None
      | Some (text, s) =>
          echo ← byte_at data s;
          rest ← read_prompts n data (S s);
          mret (cons (text, negb (echo =? 0)%Z) <$> rest)
      end
  end.

(** The responses of the application, as many as there were prompts. *)
Definition responses_for (num_prompts : nat) (rs : list str) : list str :=
  take num_prompts (rs ++ replicate num_prompts []).

(** One dialogue: whether it was answered. *)
Definition answer_prompts (data : str) : ST bool :=
  name ← copy_string data 1;
  match name with
  | None => mret false
  | Some (auth_name, s) =>
      instruction ← copy_string data s;
      match instruction with
      | None => mret false
      | Some (auth_instruction, s) =>
          language_tag_len ← ntohu32 data s;
          let s := s + 4 + Z.to_nat language_tag_len in
          num_prompts ← ntohu32 data s;
          ok ← alloc_or_error;
          if negb ok then mret false else
          ok ← alloc_or_error;
          if negb ok then mret false else
          prompts ← read_prompts (Z.to_nat num_prompts) data (s + 4);
          match prompts with
          | None => mret false
          | Some prompts =>
              let rs := responses_for (Z.to_nat num_prompts) (respond auth_name auth_instruction prompts) in
              send_request e (of_code SSH_MSG_USERAUTH_INFO_RESPONSE :: libssh2_htonu32 num_prompts ++
                              concat (ssh_string <$> rs))
          end
      end
  end.

Fixpoint dialogue (fuel : nat) : ST Z :=
  match fuel with
  | 0 => undefined
  | S fuel =>
      d ← reply_of [SSH_MSG_USERAUTH_SUCCESS; SSH_MSG_USERAUTH_FAILURE; SSH_MSG_USERAUTH_INFO_REQUEST];
      match d with
      | None => mret (-1)%Z
      | Some (data, _) =>
          type ← byte_at data 0;
          if (type =? SSH_MSG_USERAUTH_SUCCESS)%Z then set_authenticated
          else if (type =? SSH_MSG_USERAUTH_FAILURE)%Z then mret (-1)%Z
          else
            answered ← answer_prompts data;
            if (answered : bool) then dialogue fuel else mret (-1)%Z
      end
  end.

Definition libssh2_userauth_keyboard_interactive_ex (username : str) : ST Z :=
  sent ← send_request e (auth_request username &"keyboard-interactive"
                           (libssh2_htonu32 0 ++ libssh2_htonu32 0));
  if negb sent then mret (-1)%Z else
  fuel ← gets (λ s, length (packets s) + fuel_of s);
  dialogue fuel.
End auth.

(** ** Who is authenticated *)

Definition authenticated (s : session) : bool := has_state LIBSSH2_STATE_AUTHENTICATED s.

(** ** Login *)

(** The calls that log in, but for [libssh2_userauth_list], which has no result for it. *)
Inductive login_call :=
  | By_password (username password : str) (change : option (nat → option str))
  | By_host (username publickey privatekey passphrase hostname local_username : str)
  | By_key (username publickey privatekey passphrase : str)
  | By_dialogue (username : str) (respond : str → str → list (str * bool) → list str).

Section login.
Context `{ssl : openssl} (e : surroundings) (kex_exchange : ST Z).
Context (open_file : str → option str).

Definition login (c : login_call) : ST Z :=
  match c with
  | By_password u p cb => libssh2_userauth_password_ex e kex_exchange u p cb
  | By_host u pub priv pass host local =>
      libssh2_userauth_hostbased_fromfile_ex e kex_exchange open_file u pub priv pass host local
  | By_key u pub priv pass =>
      libssh2_userauth_publickey_fromfile_ex e kex_exchange open_file u pub priv pass
  | By_dialogue u respond => libssh2_userauth_keyboard_interactive_ex e kex_exchange respond u
  end.

(** Code whose result 0 says that the user has been authenticated by it. *)
Definition decides (m : ST Z) : Prop := ∀ s rc s', m s = Ok (rc, s') →
  authenticated s' = authenticated s || (rc =? 0)%Z.

Lemma decides_then {A} (m : ST A) k : leaves auth_view m → (∀ a, decides (k a)) → decides (m ≫= k).
Proof.
  intros Hm Hk s rc s' (a & s1 & H1 & H2)%bind_inv. rewrite (Hk _ _ _ _ H2).
  by rewrite (Hm _ _ _ H1 : authenticated s1 = authenticated s).
Qed.

Lemma decides_failure rc : (rc =? 0)%Z = false → decides (mret rc).
Proof. intros H s ? ? [= <- <-]. by rewrite H, orb_false_r. Qed.

Lemma decides_undefined : decides undefined.
Proof. done. Qed.

Lemma decides_success : decides set_authenticated.
Proof.
  intros s rc s' [= <- <-]. rewrite orb_true_r. unfold authenticated, has_state, add_state. simpl.
  change LIBSSH2_STATE_AUTHENTICATED with 4%Z. apply negb_true_iff, Z.eqb_neq. intros H.
  apply (f_equal (λ z, Z.testbit z 2)) in H. rewrite Z.land_spec, Z.lor_spec, orb_true_r in H. done.
Qed.

Context (Hkex : leaves auth_view kex_exchange).

#[local] Hint Resolve decides_undefined decides_success : leaves.
#[local] Hint Extern 1 (decides (mret _)) => apply decides_failure; reflexivity : leaves.

Lemma leaves_reply ts : leaves auth_view (reply_of e kex_exchange ts).
Proof. unfold reply_of. apply leaves_requirev, Hkex. Qed.

Lemma leaves_file_error {A} : leaves auth_view (file_error (A := A)).
Proof. unfold file_error. leaving. Qed.

#[local] Hint Resolve leaves_reply leaves_file_error : leaves.

Lemma leaves_read_publickey f : leaves auth_view (libssh2_file_read_publickey e open_file f).
Proof. unfold libssh2_file_read_publickey. leaving. Qed.

Lemma leaves_sign_packet m d k p b : leaves auth_view (sign_packet e open_file m d k p b).
Proof. unfold sign_packet, libssh2_file_read_privatekey. leaving. Qed.

Lemma leaves_copy_string d s : leaves auth_view (copy_string e d s).
Proof. unfold copy_string, alloc_or_error. leaving. Qed.

#[local] Hint Resolve leaves_read_publickey leaves_sign_packet leaves_copy_string : leaves.

Lemma leaves_read_prompts n d s : leaves auth_view (read_prompts e n d s).
Proof. revert s. induction n as [|n IH]; intros s; cbn [read_prompts]; leaving. Qed.

#[local] Hint Resolve leaves_read_prompts : leaves.

Lemma leaves_answer respond d : leaves auth_view (answer_prompts e respond d).
Proof. unfold answer_prompts, alloc_or_error. leaving. Qed.

#[local] Hint Resolve leaves_answer : leaves.

Ltac decide_step :=
  match goal with
  | |- decides (_ ≫= _) => apply decides_then; [leaving|intros ?]
  | |- decides (if ?b then _ else _) => destruct b
  | |- decides (match ?x with _ => _ end) => destruct x
  | |- decides _ => solve [eauto with leaves]
  end.

Lemma decides_finish p : decides (finish_auth e kex_exchange p).
Proof. unfold finish_auth. repeat decide_step. Qed.

#[local] Hint Resolve decides_finish : leaves.

Lemma decides_password fuel u p cb n : decides (password_response e kex_exchange fuel u p cb n).
Proof. revert n. induction fuel as [|fuel IH]; intros n; cbn [password_response]; repeat decide_step. Qed.

Lemma decides_dialogue respond fuel : decides (dialogue e kex_exchange respond fuel).
Proof. induction fuel as [|fuel IH]; cbn [dialogue]; repeat decide_step. Qed.

#[local] Hint Resolve decides_password decides_dialogue : leaves.

Lemma decides_login c : decides (login c).
Proof.
  destruct c; cbn [login]; unfold libssh2_userauth_password_ex, libssh2_userauth_hostbased_fromfile_ex,
    libssh2_userauth_publickey_fromfile_ex, libssh2_userauth_keyboard_interactive_ex; repeat decide_step.
Qed.
End login.

(** C11. Whatever the server sends while a user logs in, new keys included, the session counts as
    authenticated afterwards if and only if it did before or the call returned 0, for
    every way to log in and any number of password changes or dialogues. *)
Theorem login_result `{openssl} e beyond cms mms cps open_file c s rc s' :
  login e (key_exchange e beyond cms mms cps true) open_file c s = Ok (rc, s') →
  authenticated s' = authenticated s || (rc =? 0)%Z.
Proof. apply decides_login, leaves_key_exchange. Qed.

(** ** Public key files *)

Lemma count_line_end line : no_eol line → count_line line = S (length line).
Proof. induction 1 as [|c line Hc _ IH]; [done|]. cbn [count_line length]. by rewrite Hc, IH. Qed.

Lemma count_line_eol line c more : no_eol line → is_eol c = true → count_line (line ++ c :: more) = length line.
Proof.
  intros Hl Hc. induction Hl as [|d line Hd _ IH]; cbn [count_line app length]; [by rewrite Hc|].
  by rewrite Hd, IH.
Qed.

(** The line is followed by nothing, or by a line end. *)
Definition line_end (ending : str) : Prop :=
  match ending with [] => True | c :: _ => is_eol c = true end.

(** What is read of a line: all of it, or all but its last character. *)
Definition shown (line ending : str) : str :=
  match ending with [] => line | _ => take (length line - 1) line end.

Lemma read_line line ending :
  no_eol line → line_end ending →
  take (count_line (line ++ ending) - 1) (line ++ ending) = shown line ending ∧
  count_line (line ++ ending) - 1 = length (shown line ending).
Proof.
  intros Hl He. destruct ending as [|c more]; cbn [shown].
  - rewrite app_nil_r, count_line_end by done. replace (S (length line) - 1) with (length line) by lia.
    split; [by apply take_ge|done].
  - rewrite count_line_eol by done. rewrite length_take. split; [|lia]. by rewrite take_app_le by lia.
Qed.

Lemma shown_no_eol line ending : no_eol line → no_eol (shown line ending).
Proof. intros H. destruct ending; [done|]. by apply Forall_take. Qed.

Lemma shown_app l1 l2 ending : l2 ≠ [] → shown (l1 ++ l2) ending = l1 ++ shown l2 ending.
Proof.
  intros Hl. destruct ending; [done|]. cbn [shown]. destruct l2 as [|c l2]; [done|].
  rewrite length_app, take_app_ge by (simpl; lia). do 2 f_equal. simpl. lia.
Qed.

(** A comment, with the space in front of it, or none. *)
Definition is_comment (s : str) : Prop := s = [] ∨ head s = Some SP.

Lemma shown_comment comment ending : is_comment comment → is_comment (shown comment ending).
Proof.
  intros H. destruct ending; [done|]. destruct H as [->|H]; [by left|]. destruct comment as [|c tl]; [done|].
  destruct tl; [by left|by right].
Qed.

Lemma find_comment key comment : SP ∉ key → is_comment comment →
  match find [SP] (key ++ comment) with Some k => take k (key ++ comment) | None => key ++ comment end = key.
Proof.
  intros Hk [->|Hc]; [by rewrite app_nil_r, (proj2 (find_char_None SP key))|].
  destruct comment as [|c tl]; [done|]. injection Hc as ->. rewrite find_char_app by done. apply take_app_length.
Qed.

(** The key that is seen in a line. *)
Definition seen (key comment ending : str) : str := if decide (comment = []) then shown key ending else key.

Lemma shown_key method key comment ending :
  key ≠ [] → is_comment comment →
  ∃ tl, shown (method ++ SP :: key ++ comment) ending = method ++ SP :: seen key comment ending ++ tl ∧
        is_comment tl.
Proof.
  intros Hk Hc. exists (shown comment ending). split; [|by apply shown_comment].
  rewrite shown_app by done. f_equal. change (SP :: key ++ comment) with ([SP] ++ (key ++ comment)).
  rewrite shown_app by (by destruct key). cbn [app]. f_equal. unfold seen. case_decide as E.
  - subst comment. rewrite app_nil_r. destruct ending; cbn; by rewrite app_nil_r.
  - by apply shown_app.
Qed.


Definition demo_key : str := &"ssh-rsa QUJD bob" ++ [LF].


#[local] Existing Instance demo_openssl.

(** A server that lets anyone in, and one that refuses. *)
Definition demo_answer (type : Z) : session :=
  demo_session [Recv_bytes (plain_frame demo_surroundings 0 [of_code type])].

#[local] Abbreviation demo_login := (login demo_surroundings (key_exchange demo_surroundings [] [] [] [] true) (λ _, None)
  (By_password &"pandora" &"secret" None)).

Definition returned (r : res (Z * session)) : option Z :=
  match r with Ok (rc, _) => Some rc | _ => None end.

Lemma demo_accepted : returned (demo_login (demo_answer 52)) = Some 0%Z.
Proof. vm_cast_no_check (eq_refl (Some 0%Z)). Qed.

Lemma demo_refused : returned (demo_login (demo_answer 51)) = Some (-1)%Z.
Proof. vm_cast_no_check (eq_refl (Some (-1)%Z)). Qed.

Lemma returned_inv r rc : returned r = Some rc → ∃ s, r = Ok (rc, s).
Proof. destruct r as [[? s]| |]; [|done..]. intros [= ->]. by exists s. Qed.

Lemma login_result_witness :
  (∃ s, demo_login (demo_answer 52) = Ok (0%Z, s) ∧ authenticated s = true) ∧
  (∃ s, demo_login (demo_answer 51) = Ok ((-1)%Z, s) ∧ authenticated s = false).
Proof.
  destruct (returned_inv _ _ demo_accepted) as [s1 H1], (returned_inv _ _ demo_refused) as [s2 H2].
  apply login_result in H1 as A1. apply login_result in H2 as A2. split; [exists s1|exists s2]; (split; [assumption|]).
  - rewrite A1. apply orb_true_r.
  - rewrite A2. reflexivity.
Defined.
