(* ===== verification/Ssh2Scp.v ===== *)
(** * libssh2: copies over SCP ([ssh/libssh2/scp.c])

    A command is run at the other end, and both ends speak in lines: a time line and
    a file line, each acknowledged by a zero byte. [long] has 32 bits and [st_mode]
    16, as on Windows. *)
From S2P Require Import Prelude StdString Scanf Ssh2Misc Ssh2Session Ssh2Packet Ssh2Channel Ssh2Kex Ssh2Startup.

Definition LIBSSH2_SCP_RESPONSE_BUFLEN : nat := 256.

(** ** Numbers *)

Definition digit_in (base : Z) (c : chr) : bool := ((48 <=? code c) && (code c <=? 47 + base))%Z.
Definition base_step (base a : Z) (c : chr) : Z := (base * a + (code c - 48))%Z.

(** [strtol] for a base up to 10: the number, what follows it, and whether [errno] is
    set because it does not fit. *)
Definition strtol (base : Z) (s : str) : Z * str * bool :=
  let (neg, t) := scan_sign (skip_ws s) in
  let ds := takewhile (digit_in base) t in
  if decide (ds = []) then (0%Z, s, false) else
  let v := fold_left (base_step base) ds 0%Z in
  let z := if (neg : bool) then (- v)%Z else v in
  let rest := dropwhile (digit_in base) t in
  if decide (in_s 32 z) then (z, rest, false)
  else (if neg then (- 2 ^ 31)%Z else (2 ^ 31 - 1)%Z, rest, true).

(** The digits of [%o]. *)
Fixpoint octal_go (fuel : nat) (n : Z) (acc : str) : str :=
  match fuel with
  | 0 => acc
  | S fuel =>
      let acc := digit_char (n mod 8) :: acc in
      if (n <? 8)%Z then acc else octal_go fuel (n / 8)%Z acc
  end.
Definition octal (n : Z) : str := octal_go (S (Z.to_nat (Z.log2 n))) n [].

(** ** Lines *)

(** What is known after one more byte. *)
Inductive verdict :=
  | Line_more
  | Line_bad
  | Line_done (line : str).

(** A line starts with [first], holds what [allowed] says and has [shortest] bytes
    with its line end. *)
Definition line_step (first : chr) (allowed : chr → bool) (shortest : nat) (response : str) : verdict :=
  if decide (head response ≠ Some first) then Line_bad else
  let c := default NUL (last response) in
  if bool_decide (1 < length response) && negb (allowed c) then Line_bad
  else if bool_decide (length response < shortest) || bool_decide (c ≠ LF) then
    if decide (length response = LIBSSH2_SCP_RESPONSE_BUFLEN) then Line_bad else Line_more
  else
    let line := strip_eol response in
    if decide (length line < shortest - 1) then Line_bad else Line_done line.

Definition time_char (c : chr) : bool := isdigit c || bool_decide (c = SP) || is_eol c.
Definition file_char (c : chr) : bool := is_eol c || ((32 <=? code c) && (code c <=? 126))%Z.

(** The loop, [next] being a read of one byte. *)
Fixpoint read_line (next : ST str) (first : chr) (allowed : chr → bool) (shortest : nat)
    (fuel : nat) (response : str) : ST (option str) :=
  match fuel with
  | 0 => undefined
  | S fuel =>
      b ← next;
      match b with
      | [] => mret None
      | c :: _ =>
          match line_step first allowed shortest (response ++ [c]) with
          | Line_more => read_line next first allowed shortest fuel (response ++ [c])
          | Line_bad => mret None
          | Line_done line => mret (Some line)
          end
      end
  end.

(** The field before the next space, not an empty one, and what follows the space. *)
Definition scp_field (s : str) : option (str * str) :=
  match find &" " s with
  | Some (S n) => Some (take (S n) s, drop (S (S n)) s)
  | _ => None
  end.

(** [T<mtime> 0 <atime> 0]: what follows the digits does not count. *)
Definition parse_times (line : str) : option (Z * Z) :=
  match scp_field (drop 1 line) with
  | None => None
  | Some (s, p) =>
      let '(mtime, _, errno) := strtol 10 s in
      if (errno : bool) then None else
      match scp_field p with
      | None => None
      | Some (_, s) =>
          match scp_field s with
          | None => None
          | Some (s, _) =>
              let '(atime, _, errno) := strtol 10 s in
              if (errno : bool) then None else Some (mtime, atime)
          end
      end
  end.

(** [C<mode> <size> <name>]: the mode and the size. *)
Definition parse_file (line : str) : option (Z * Z) :=
  match scp_field (drop 1 line) with
  | None => None
  | Some (s, p) =>
      let '(mode, e, errno) := strtol 8 s in
      if negb (bool_decide (e = [])) || errno then None else
      match scp_field p with
      | None => None
      | Some (p, _) =>
          let '(size, e, errno) := strtol 10 p in
          if negb (bool_decide (e = [])) || errno then None else Some (mode, size)
      end
  end.

(** ** Copies *)

Section scp.
Context (e : surroundings) (kex_exchange : ST Z).

(** [libssh2_channel_read (channel, response, 1)] and the write of an answer. *)
Definition next_byte (i : Z) : ST str := libssh2_channel_read_ex e kex_exchange i 0 1.
Definition send_ack (i : Z) : ST bool :=
  rc ← libssh2_channel_write_ex e kex_exchange i 0 [NUL];
  mret (rc =? 1)%Z.
Definition wait_ack (i : Z) : ST bool :=
  b ← next_byte i;
  mret (bool_decide (b = [NUL])).

Definition abandon {A} (i : Z) : ST (option A) := _ ← libssh2_channel_free e kex_exchange i; mret None.
Definition protocol_error {A} (i : Z) : ST (option A) :=
  libssh2_error LIBSSH2_ERROR_SCP_PROTOCOL;; abandon i.

(** The channel on which the command runs. *)
Definition start_command (command : str) : ST (option Z) :=
  ok ← alloc e;
  if negb ok then libssh2_error LIBSSH2_ERROR_ALLOC;; mret None else
  ch ← libssh2_channel_open_ex e kex_exchange &"session" LIBSSH2_CHANNEL_WINDOW_DEFAULT
         LIBSSH2_CHANNEL_PACKET_DEFAULT [];
  match ch with
  | None => mret None
  | Some i =>
      libssh2_channel_set_blocking i true;;
      rc ← libssh2_channel_process_startup e kex_exchange i &"exec" (Some command);
      if negb (rc =? 0)%Z then abandon i else mret (Some i)
  end.

Record file_stat := { st_mtime : Z; st_atime : Z; st_size : Z; st_mode : Z }.

(** A line of the other end, read, understood and acknowledged. *)
Definition receive_line (i : Z) (first : chr) (allowed : chr → bool) (shortest : nat)
    (parse : str → option (Z * Z)) : ST (option (Z * Z)) :=
  line ← read_line (next_byte i) first allowed shortest LIBSSH2_SCP_RESPONSE_BUFLEN [];
  match line with
  | None => protocol_error i
  | Some line =>
      match parse line with
      | None => protocol_error i
      | Some values =>
          ok ← send_ack i;
          if (ok : bool) then mret (Some values) else abandon i
      end
  end.

(** [sb] says whether the caller wants to know times, size and mode: the other end is
    asked for a time line only then. *)
Definition libssh2_scp_recv (path : str) (sb : bool) : ST (option (Z * option file_stat)) :=
  ch ← start_command ((if sb then &"scp -pf " else &"scp -f ") ++ path ++ [NUL]);
  match ch with
  | None => mret None
  | Some i =>
      ok ← send_ack i;
      if negb ok then abandon i else
      times ← (if sb then receive_line i "T"%char time_char 9 parse_times else mret (Some (0, 0)%Z));
      match times with
      | None => mret None
      | Some (mtime, atime) =>
          file ← receive_line i "C"%char file_char 7 parse_file;
          match file with
          | None => mret None
          | Some (mode, size) =>
              libssh2_channel_set_blocking i false;;
              mret (Some (i, if sb
                then Some {| st_mtime := mtime; st_atime := atime; st_size := size;
                             st_mode := wrap_u 16 mode |}
                else None))
          end
      end
  end.

(** The lines that are sent. *)
Definition time_line (mtime atime : Z) : str := "T"%char :: dec mtime ++ &" 0 " ++ dec atime ++ &" 0" ++ [LF].
Definition base_name (path : str) : str :=
  match rfind &"/" path with Some n => drop (S n) path | None => path end.
Definition file_line (mode size : Z) (base : str) : str :=
  &"C0" ++ octal (wrap_u 32 mode) ++ SP :: dec (wrap_u 32 size) ++ SP :: base ++ [LF].

(** A line is written and acknowledged. [_snprintf] answers -1 for a line that does
    not fit its buffer, and the write goes on behind it. *)
Definition announce (i : Z) (line : str) : ST bool :=
  if decide (LIBSSH2_SCP_RESPONSE_BUFLEN < length line) then undefined else
  rc ← libssh2_channel_write_ex e kex_exchange i 0 line;
  if negb (rc =? Z.of_nat (length line))%Z then libssh2_error LIBSSH2_ERROR_SOCKET_SEND;; mret false else
  ok ← wait_ack i;
  if (ok : bool) then mret true else libssh2_error LIBSSH2_ERROR_SCP_PROTOCOL;; mret false.

Definition libssh2_scp_send_ex (path : str) (mode size mtime atime : Z) : ST (option Z) :=
  let times := negb (mtime =? 0)%Z || negb (atime =? 0)%Z in
  ch ← start_command ((if times then &"scp -pt " else &"scp -t ") ++ path ++ [NUL]);
  match ch with
  | None => mret None
  | Some i =>
      ok ← wait_ack i;
      if negb ok then protocol_error i else
      ok ← (if times then announce i (time_line mtime atime) else mret true);
      if negb ok then abandon i else
      ok ← announce i (file_line mode size (base_name path));
      if negb ok then abandon i else
      libssh2_channel_set_blocking i false;;
      mret (Some i)
  end.
End scp.

(** ** Numbers are read back *)

Lemma octal_go_value fuel n acc :
  (0 ≤ n < 8 ^ Z.of_nat fuel)%Z →
  fold_left (base_step 8) (octal_go fuel n acc) 0%Z = fold_left (base_step 8) acc n.
Proof.
  revert n acc; induction fuel as [|fuel IH]; intros n acc Hn; simpl.
  - assert (n = 0)%Z as -> by (change (8 ^ Z.of_nat 0)%Z with 1%Z in Hn; lia). done.
  - rewrite Nat2Z.inj_succ, Z.pow_succ_r in Hn by lia.
    pose proof (Z.mod_pos_bound n 8). pose proof (Z.div_mod n 8). destruct (Z.ltb_spec n 8).
    + simpl. unfold base_step at 2. rewrite digit_char_code, Z.mod_small by lia. f_equal. lia.
    + rewrite IH by lia. simpl. unfold base_step at 2. rewrite digit_char_code by lia. f_equal. lia.
Qed.

Lemma octal_value n : (0 ≤ n)%Z → fold_left (base_step 8) (octal n) 0%Z = n.
Proof.
  intros Hn. unfold octal. rewrite octal_go_value; [done|]. split; [done|].
  rewrite Nat2Z.inj_succ, Z2Nat.id by apply Z.log2_nonneg.
  destruct (decide (n = 0)%Z) as [->|]; [done|]. destruct (Z.log2_spec n) as [_ H]; [lia|].
  eapply Z.lt_le_trans; [exact H|]. apply Z.pow_le_mono_l. lia.
Qed.

Lemma octal_go_digits fuel n acc :
  Forall (λ c, digit_in 8 c = true) acc → Forall (λ c, digit_in 8 c = true) (octal_go fuel n acc).
Proof.
  revert n acc; induction fuel as [|fuel IH]; intros n acc H; simpl; [done|].
  pose proof (Z.mod_pos_bound n 8).
  destruct (n <? 8)%Z; [|apply IH]; constructor; try done;
    unfold digit_in; rewrite digit_char_code; lia.
Qed.

Lemma digit_in_isdigit base c : (base ≤ 10)%Z → digit_in base c = true → isdigit c = true.
Proof. unfold digit_in, isdigit. lia. Qed.

(** Digits that make a number of 32 bits are read to their end. *)
Lemma strtol_digits base ds z :
  (base ≤ 10)%Z → Forall (λ c, digit_in base c = true) ds → ds ≠ [] →
  fold_left (base_step base) ds 0%Z = z → in_s 32 z → strtol base ds = (z, [], false).
Proof.
  intros Hb Hds Hne Hv Hz.
  assert (Hdig : Forall (λ c, isdigit c = true) ds).
  { eapply Forall_impl; [exact Hds|]. intros c. by apply digit_in_isdigit. }
  assert (Hws : skip_ws ds = ds).
  { destruct Hdig as [|c cs Hc _]; [done|]. unfold skip_ws. simpl.
    by destruct (isdigit_not_sign c Hc) as (_ & _ & -> & _). }
  unfold strtol. rewrite Hws, scan_sign_digits by done.
  rewrite takewhile_id by done. rewrite decide_False, Hv, decide_True by done. by rewrite (proj2 (dropwhile_nil _ _) Hds).
Qed.

Lemma strtol_dec z : (0 ≤ z < 2 ^ 31)%Z → strtol 10 (dec z) = (z, [], false).
Proof.
  intros Hz. apply strtol_digits; try done; [apply dec_digits; lia|apply dec_not_nil|..].
  - unfold dec. destruct (Z.ltb_spec z 0); [lia|]. apply dec_nonneg_value. lia.
  - unfold in_s. lia.
Qed.

Lemma strtol_octal z : (0 ≤ z < 2 ^ 31)%Z → strtol 8 ("0"%char :: octal z) = (z, [], false).
Proof.
  intros Hz. apply strtol_digits; try done.
  - constructor; [done|]. by apply octal_go_digits.
  - apply (octal_value z). lia.
  - unfold in_s. lia.
Qed.

(** ** Lines are read back *)

(** The reads give the bytes of a text, one by one. *)
Inductive feeds (next : ST str) : session → str → session → Prop :=
  | feeds_nil s : feeds next s [] s
  | feeds_cons s c s1 cs s2 :
      next s = Ok ([c], s1) → feeds next s1 cs s2 → feeds next s (c :: cs) s2.

Lemma line_step_more first allowed shortest body :
  head body = Some first → Forall (λ c, allowed c = true) (tail body) → LF ∉ body →
  length body < LIBSSH2_SCP_RESPONSE_BUFLEN →
  line_step first allowed shortest body = Line_more.
Proof.
  intros Hh Ha Hlf Hl. unfold line_step. destruct body as [|c body]; [done|]. injection Hh as ->.
  rewrite decide_False by (simpl; congruence). cbv zeta.
  destruct (last (first :: body)) as [d|] eqn:Hd; [|by apply last_None in Hd]. simpl (default _ _).
  assert (Hdl : d ≠ LF) by (intros ->; by apply Hlf, last_Some_elem_of).
  rewrite (bool_decide_eq_true_2 (d ≠ LF)), orb_true_r, decide_False by (done || lia).
  replace (_ && _) with false; [done|]. symmetry. apply andb_false_iff.
  destruct body as [|x body]; [by left|right]. apply negb_false_iff.
  simpl in Ha. rewrite Forall_forall in Ha. apply Ha, last_Some_elem_of. done.
Qed.

Lemma line_step_done first allowed shortest body :
  no_eol body → body ≠ [] → head body = Some first → allowed LF = true → shortest ≤ S (length body) →
  line_step first allowed shortest (body ++ [LF]) = Line_done body.
Proof.
  intros He Hne Hh Ha Hs. unfold line_step. rewrite last_snoc, length_app. simpl.
  rewrite decide_False by (destruct body; simpl in *; congruence).
  rewrite Ha, andb_false_r, bool_decide_eq_false_2 by lia. simpl.
  assert (E : strip_eol (body ++ [LF]) = body).
  { unfold strip_eol. rewrite reverse_app. by apply strip_eol_id. }
  rewrite E, decide_False by lia. done.
Qed.

Lemma read_line_prefix next first allowed shortest body cs :
  no_eol body → head body = Some first → Forall (λ c, allowed c = true) (tail body) → allowed LF = true →
  shortest ≤ S (length body) ≤ LIBSSH2_SCP_RESPONSE_BUFLEN →
  ∀ pre fuel s s', pre ++ cs = body → length cs < fuel → feeds next s (cs ++ [LF]) s' →
  read_line next first allowed shortest fuel pre s = Ok (Some body, s').
Proof.
  intros He Hh Ha Hlf Hs. induction cs as [|c cs IH]; intros pre fuel s s' E Hf Hfeed;
    (destruct fuel as [|fuel]; [simpl in Hf; lia|]); inversion Hfeed as [|? ? s1 ? ? Hn Hrest]; subst; clear Hfeed;
    cbn [read_line]; rewrite (bind_Ok _ _ _ _ _ Hn).
  - inversion Hrest; subst. rewrite app_nil_r in *. rewrite line_step_done; try done; [|lia].
    intros ->. done.
  - rewrite line_step_more.
    + apply (IH _ _ s1); [by rewrite <- app_assoc|simpl in Hf; lia|done].
    + by destruct pre.
    + destruct pre as [|p pre]; simpl in *; [constructor|]. rewrite Forall_app, Forall_cons in Ha.
      rewrite Forall_app, Forall_singleton. naive_solver.
    + intros Hin. unfold no_eol in He. rewrite Forall_forall in He. specialize (He LF). 
      ospecialize (He _); [|done]. set_solver.
    + rewrite length_app in *. simpl in *. lia.
Qed.

Lemma read_line_feeds next first allowed shortest body s s' :
  no_eol body → head body = Some first → Forall (λ c, allowed c = true) (tail body) → allowed LF = true →
  shortest ≤ S (length body) ≤ LIBSSH2_SCP_RESPONSE_BUFLEN → feeds next s (body ++ [LF]) s' →
  read_line next first allowed shortest LIBSSH2_SCP_RESPONSE_BUFLEN [] s = Ok (Some body, s').
Proof. intros. eapply read_line_prefix; try done. lia. Qed.

Lemma scp_field_app s t : s ≠ [] → SP ∉ s → scp_field (s ++ SP :: t) = Some (s, t).
Proof.
  intros Hne Hsp. unfold scp_field. change &" " with [SP]. rewrite find_char_app by done.
  destruct s as [|c s]; [done|]. simpl. by rewrite take_app_length, drop_app_ge, Nat.sub_succ_l, Nat.sub_diag by lia.
Qed.

(** What may stand in the lines. *)
Lemma digit_chars c : isdigit c = true →
  time_char c = true ∧ file_char c = true ∧ is_eol c = false ∧ c ≠ SP.
Proof.
  intros H. assert (Hn : c ≠ SP ∧ is_eol c = false).
  { split; [by intros ->|]. unfold is_eol. rewrite !bool_decide_eq_false_2; [done|by intros ->..]. }
  destruct Hn as [Hs He]. unfold time_char, file_char. rewrite H, He. split_and!; try done.
  unfold isdigit in H. simpl. lia.
Qed.

Lemma digits_lines ds : Forall (λ c, isdigit c = true) ds →
  Forall (λ c, time_char c = true) ds ∧ Forall (λ c, file_char c = true) ds ∧ no_eol ds ∧ SP ∉ ds.
Proof.
  intros H. split_and!; try (eapply Forall_impl; [exact H|]; intros c Hc; by destruct (digit_chars c Hc) as (? & ? & ? & ?)).
  intros Hin. rewrite Forall_forall in H. by apply H in Hin.
Qed.

Lemma octal_go_not_nil fuel n acc : acc ≠ [] → octal_go fuel n acc ≠ [].
Proof.
  revert n acc; induction fuel as [|fuel IH]; intros n acc H; simpl; [done|].
  destruct (n <? 8)%Z; [done|]. by apply IH.
Qed.

Lemma octal_not_nil n : octal n ≠ [].
Proof. unfold octal. simpl. destruct (n <? 8)%Z; [done|]. by apply octal_go_not_nil. Qed.

Lemma octal_digits n : Forall (λ c, isdigit c = true) ("0"%char :: octal n).
Proof.
  constructor; [done|]. eapply Forall_impl; [by apply (octal_go_digits (S (Z.to_nat (Z.log2 n))) n [])|].
  intros c. by apply digit_in_isdigit.
Qed.

Lemma time_line_received next mtime atime s s' :
  (0 ≤ mtime < 2 ^ 31)%Z → (0 ≤ atime < 2 ^ 31)%Z → feeds next s (time_line mtime atime) s' →
  ∃ line, read_line next "T"%char time_char 9 LIBSSH2_SCP_RESPONSE_BUFLEN [] s = Ok (Some line, s') ∧
          parse_times line = Some (mtime, atime).
Proof.
  intros Hm Ha Hf. set (line := "T"%char :: dec mtime ++ SP :: &"0" ++ SP :: dec atime ++ SP :: &"0").
  exists line. assert (Hmd := dec_digits mtime (proj1 Hm)). assert (Had := dec_digits atime (proj1 Ha)).
  pose proof (dec_not_nil mtime) as Hmn. pose proof (dec_not_nil atime) as Han.
  pose proof (dec_length_le _ Hm). pose proof (dec_length_le _ Ha).
  destruct (digits_lines _ Hmd) as (Hm1 & _ & Hm2 & Hm3), (digits_lines _ Had) as (Ha1 & _ & Ha2 & Ha3).
  assert (E : time_line mtime atime = line ++ [LF]).
  { unfold time_line, line. simpl. rewrite <- !app_assoc. simpl. by rewrite <- !app_assoc. }
  rewrite E in Hf. split.
  - apply read_line_feeds; try done.
    + unfold no_eol, line. repeat (constructor || apply Forall_app_2 || done).
    + unfold line. simpl tail. repeat (constructor || apply Forall_app_2 || done).
    + unfold line, LIBSSH2_SCP_RESPONSE_BUFLEN. simpl. rewrite !length_app. simpl. rewrite length_app. simpl.
      destruct (dec mtime), (dec atime); simpl in *; try done; lia.
  - unfold parse_times. change (drop 1 line) with (dec mtime ++ SP :: &"0" ++ SP :: dec atime ++ SP :: &"0").
    rewrite scp_field_app, strtol_dec, (scp_field_app &"0"), scp_field_app, strtol_dec by (done || set_solver). done.
Qed.

(** A size from 2 GiB on is written but not taken. *)
Lemma large_size_refused : parse_file (take 17 (file_line 438 (2 ^ 31) &"a")) = None.
Proof. by vm_compute. Qed.

(** C25. The lines that [libssh2_scp_send_ex] writes are lines that [libssh2_scp_recv]
    takes: read byte by byte they give back times, mode and size, for all of those
    that fit a signed 32-bit integer and a printable name short enough for the buffer. *)
Theorem scp_lines_received next mtime atime mode size base s s' t t' :
  (0 ≤ mtime < 2 ^ 31)%Z → (0 ≤ atime < 2 ^ 31)%Z → (0 ≤ mode < 2 ^ 31)%Z → (0 ≤ size < 2 ^ 31)%Z →
  Forall (λ c, 32 ≤ code c ≤ 126)%Z base →
  length (file_line mode size base) ≤ LIBSSH2_SCP_RESPONSE_BUFLEN →
  feeds next s (time_line mtime atime) s' → feeds next t (file_line mode size base) t' →
  (∃ line, read_line next "T"%char time_char 9 LIBSSH2_SCP_RESPONSE_BUFLEN [] s = Ok (Some line, s') ∧
           parse_times line = Some (mtime, atime)) ∧
  (∃ line, read_line next "C"%char file_char 7 LIBSSH2_SCP_RESPONSE_BUFLEN [] t = Ok (Some line, t') ∧
           parse_file line = Some (mode, size)).
Proof.
  intros Hmt Hat Hmo Hsz Hb Hl Hft Hff. split; [by apply time_line_received|].
  set (line := "C"%char :: ("0"%char :: octal mode) ++ SP :: dec size ++ SP :: base).
  exists line. pose proof (octal_digits mode) as Hod. assert (Hsd := dec_digits size (proj1 Hsz)).
  pose proof (dec_not_nil size) as Hsn.
  destruct (digits_lines _ Hod) as (_ & Ho1 & Ho2 & Ho3), (digits_lines _ Hsd) as (_ & Hs1 & Hs2 & Hs3).
  assert (E : file_line mode size base = line ++ [LF]).
  { unfold file_line, line. rewrite !wrap_u_small by (unfold in_u; lia). simpl.
    rewrite <- !app_assoc. simpl. by rewrite <- !app_assoc. }
  assert (Hbase : Forall (λ c, file_char c = true) base ∧ no_eol base).
  { split; (eapply Forall_impl; [exact Hb|]); intros c Hc; simpl in Hc.
    - unfold file_char. apply orb_true_iff. right. lia.
    - unfold is_eol. rewrite !bool_decide_eq_false_2; [done|intros ->; destruct Hc as [Hc _]; by apply Hc..]. }
  destruct Hbase as [Hb1 Hb2]. pose proof (Forall_inv_tail Ho1). pose proof (Forall_inv_tail Ho2). rewrite E in Hff, Hl. rewrite length_app in Hl. split.
  - apply read_line_feeds; try done.
    + unfold no_eol, line. repeat (constructor || apply Forall_app_2 || done).
    + unfold line. simpl tail. repeat (constructor || apply Forall_app_2 || done).
    + simpl in Hl. unfold line in *. simpl in *. rewrite !length_app in *. simpl in *. rewrite length_app in *.
      pose proof (octal_not_nil mode). destruct (octal mode), (dec size); simpl in *; (done || lia).
  - unfold parse_file. change (drop 1 line) with (("0"%char :: octal mode) ++ SP :: dec size ++ SP :: base).
    rewrite scp_field_app, strtol_octal, scp_field_app, strtol_dec by done. done.
Qed.

(** The bytes of [n] reads. *)
Fixpoint fed (next : ST str) (n : nat) (s : session) : option (str * session) :=
  match n with
  | 0 => Some ([], s)
  | S n =>
      match next s with
      | Ok ([c], s1) => (λ r, (c :: r.1, r.2)) <$> fed next n s1
      | _ => None
      end
  end.

Lemma fed_feeds next n s text s' : fed next n s = Some (text, s') → feeds next s text s'.
Proof.
  revert s text. induction n as [|n IH]; intros s text; cbn [fed]; [intros [= <- <-]; constructor|].
  destruct (next s) as [[[|c [|]] s1]| |] eqn:E; try done.
  destruct (fed next n s1) as [[cs s2]|] eqn:F; [|done]. intros [= <- <-].
  econstructor; [exact E|]. by apply IH.
Qed.

(** A blocking channel with a packet of the other end that holds both lines, and an
    encrypted connection that brings nothing more. *)
Definition demo_times : str := time_line 7 1250000000.
Definition demo_file : str := file_line 438 52000 &"h st.data".
Definition demo_scp : session :=
  let data := of_code SSH_MSG_CHANNEL_DATA :: libssh2_htonu32 0 ++ ssh_string (demo_times ++ demo_file) in
  set_channels [set_blocking true (demo_channel 100 100)]
    (set_packets [mk_packet data (Z.of_nat (length data)) 9 0] (set_state LIBSSH2_STATE_NEWKEYS (demo_session []))).

Definition demo_read : ST str := next_byte demo_surroundings (mret 0%Z) 0.

Lemma demo_fed :
  ∃ s t, fed demo_read (length demo_times) demo_scp = Some (demo_times, s) ∧
         fed demo_read (length demo_file) s = Some (demo_file, t).
Proof.
  destruct (fed demo_read (length demo_times) demo_scp) as [[a s]|] eqn:E; [|by vm_compute in E].
  destruct (fed demo_read (length demo_file) s) as [[b t]|] eqn:F.
  - exists s, t. vm_compute in E. injection E as <- <-. vm_compute in F. injection F as <- <-. done.
  - vm_compute in E. injection E as <- <-. by vm_compute in F.
Qed.

Lemma scp_lines_received_witness :
  ∃ s t, (∃ line, read_line demo_read "T"%char time_char 9 LIBSSH2_SCP_RESPONSE_BUFLEN [] demo_scp =
                    Ok (Some line, s) ∧ parse_times line = Some (7, 1250000000)%Z) ∧
         (∃ line, read_line demo_read "C"%char file_char 7 LIBSSH2_SCP_RESPONSE_BUFLEN [] s =
                    Ok (Some line, t) ∧ parse_file line = Some (438, 52000)%Z).
Proof.
  destruct demo_fed as (s & t & Hs & Ht). exists s, t.
  apply (scp_lines_received demo_read 7 1250000000 438 52000 &"h st.data"); try lia.
  - by repeat constructor.
  - by apply (bool_decide_unpack _); vm_compute.
  - by apply fed_feeds in Hs.
  - by apply fed_feeds in Ht.
Defined.
