(* ===== verification/Ssh2Subsystem.v ===== *)
(** * libssh2: subsystems over a channel

    What [ssh/libssh2/publickey.c] and [ssh/libssh2/sftp.c] share: a session channel
    on which a subsystem is started, and writes that must take everything. *)
From S2P Require Import Prelude StdString Ssh2Misc Ssh2Session Ssh2Packet Ssh2Channel.

Section subsystem.
Context (e : surroundings) (kex_exchange : ST Z).

Definition channel_read (channel : Z) (n : nat) : ST str := libssh2_channel_read_ex e kex_exchange channel 0 n.

(** [libssh2_channel_open_session], [libssh2_channel_subsystem] *)
Definition channel_open_session : ST (option Z) :=
  libssh2_channel_open_ex e kex_exchange &"session" LIBSSH2_CHANNEL_WINDOW_DEFAULT LIBSSH2_CHANNEL_PACKET_DEFAULT [].

Definition channel_subsystem (channel : Z) (name : str) : ST Z :=
  libssh2_channel_process_startup e kex_exchange channel &"subsystem" (Some name).

(** Whether a packet was written as a whole. *)
Definition channel_write_all (channel : Z) (packet : str) : ST bool :=
  n ← libssh2_channel_write_ex e kex_exchange channel 0 packet;
  mret (u32 n =? u32 (Z.of_nat (length packet)))%Z.

(** The bytes that can still come over a channel: those to be received, and those in
    the brigade. *)
Definition channel_fuel (s : session) : nat := fuel_of s + sum_list ((λ p, S (length (data p))) <$> packets s).
End subsystem.
