(* ===== verification/Ssh2PublicKey.v ===== *)
(** * libssh2: the public key subsystem ([ssh/libssh2/publickey.c])

    Keys of the account at the other end are added, removed and listed. A packet is a
    length and that many bytes, the answers start with their name. *)
From S2P Require Import Prelude StdString Ssh2Misc Ssh2Session Ssh2Packet Ssh2Channel Ssh2Startup Ssh2Fields Ssh2Subsystem.

Record publickey := { pk_channel : Z; version : Z }.

(** [libssh2_publickey_attribute]; [mandatory] is only sent, never read. *)
Record publickey_attribute := { attr_name : str; attr_value : str; mandatory : bool }.

(** An entry of [libssh2_publickey_list]. *)
Record publickey_entry := { key_name : str; key_blob : str; key_attrs : list publickey_attribute }.

Definition LIBSSH2_PUBLICKEY_VERSION : Z := 2.
Definition LIBSSH2_PUBLICKEY_RESPONSE_STATUS : Z := 0.
Definition LIBSSH2_PUBLICKEY_RESPONSE_VERSION : Z := 1.
Definition LIBSSH2_PUBLICKEY_RESPONSE_PUBLICKEY : Z := 2.
Definition LIBSSH2_PUBLICKEY_SUCCESS : Z := 0.
Definition LIBSSH2_PUBLICKEY_STATUS_CODE_MAX : Z := 8.

Definition libssh2_publickey_response_codes : list (Z * str) :=
  [ (LIBSSH2_PUBLICKEY_RESPONSE_STATUS, &"status");
    (LIBSSH2_PUBLICKEY_RESPONSE_VERSION, &"version");
    (LIBSSH2_PUBLICKEY_RESPONSE_PUBLICKEY, &"publickey") ].

Definition libssh2_publickey_status_codes : list str :=
  [ &"success"; &"access denied"; &"storage exceeded"; &"version not supported"; &"key not found";
    &"key not supported"; &"key already present"; &"general failure"; &"request not supported" ].

(** ** Answers *)

(** The text of a status; the number of the general failure was another in version 1. *)
Definition status_text (pkey : option publickey) (status : Z) : str :=
  let status := match pkey with
                | Some k => if (status =? 6)%Z && (version k =? 1)%Z then 7%Z else status
                | None => status
                end in
  if decide (0 ≤ status ≤ LIBSSH2_PUBLICKEY_STATUS_CODE_MAX)%Z
  then nth (Z.to_nat status) libssh2_publickey_status_codes [] else &"unknown".

Definition status_message (pkey : option publickey) (status : Z) (message : str) : str :=
  &"Publickey Subsystem Error: " ++ [QUOTE] ++ status_text pkey status ++ [QUOTE] ++
  &" Server Resports: " ++ [QUOTE] ++ message ++ [QUOTE].

(** The code of an answer and the position behind its name; -1 when it is malformed
    or not one of the list. *)
Definition libssh2_publickey_response_id (data : str) : res (Z * nat) :=
  if decide (length data < 4) then Ok ((-1)%Z, 0) else
  let! response_len := libssh2_ntohu32 data 0 in
  if decide (Z.of_nat (length data) - 4 < response_len)%Z then Ok ((-1)%Z, 0) else
  let name := take (Z.to_nat response_len) (drop 4 data) in
  Ok (match List.find (λ c, bool_decide (c.2 = name)) libssh2_publickey_response_codes with
      | Some (code, _) => (code, 4 + Z.to_nat response_len)
      | None => ((-1)%Z, 0)
      end).

(** The status and its description, [None] when the packet is too short for the
    language behind them. A field that starts behind the end is read there. *)
Definition read_status (data : str) (s : nat) : res (option (Z * str)) :=
  let! (status, s) := u32_at data s in
  let! (descr_len, s) := u32_at data s in
  let descr := s in
  let! (lang_len, s) := u32_at data (s + Z.to_nat descr_len) in
  if decide (length data < s + Z.to_nat lang_len) then Ok None else
  let! message := bytes_at (Z.to_nat descr_len) data descr in
  Ok (Some (status, message)).

(** The key of an answer. The name, the blob and the attributes are left where they are
    in the packet; one that reaches behind its end cannot be used. *)
Fixpoint read_attrs (n : nat) (data : str) (s : nat) : res (list publickey_attribute * nat) :=
  match n with
  | O => Ok ([], s)
  | S n =>
      let! (name, s) := string_at data s in
      let! (value, s) := string_at data s in
      let! (attrs, s) := read_attrs n data s in
      Ok ({| attr_name := name; attr_value := value; mandatory := false |} :: attrs, s)
  end.

(** Version 1: the comment is an attribute, when there is one. *)
Definition read_key_1 (data : str) (s : nat) : res (publickey_entry * nat) :=
  let! (comment, s) := string_at data s in
  let! (name, s) := string_at data s in
  let! (blob, s) := string_at data s in
  let attrs := if decide (comment = []) then []
               else [{| attr_name := &"comment"; attr_value := comment; mandatory := false |}] in
  Ok ({| key_name := name; key_blob := blob; key_attrs := attrs |}, s).

Definition read_key_2 (data : str) (s : nat) : res (publickey_entry * nat) :=
  let! (name, s) := string_at data s in
  let! (blob, s) := string_at data s in
  let! (num_attrs, s) := u32_at data s in
  let! (attrs, s) := read_attrs (Z.to_nat num_attrs) data s in
  Ok ({| key_name := name; key_blob := blob; key_attrs := attrs |}, s).

Definition read_key (v : Z) : str → nat → res (publickey_entry * nat) :=
  if (v =? 1)%Z then read_key_1 else read_key_2.

(** Whether memory is needed for attributes: the comment is not empty, or there are
    some. *)
Definition needs_attrs (v : Z) (data : str) (s : nat) : res bool :=
  if (v =? 1)%Z then let! (comment_len, _) := u32_at data s in Ok (negb (comment_len =? 0)%Z) else
  let! (_, s) := string_at data s in
  let! (_, s) := string_at data s in
  let! (num_attrs, _) := u32_at data s in Ok (negb (num_attrs =? 0)%Z).

(** ** Requests *)

(** A packet with its length in front. *)
Definition pk_packet (body : str) : str := libssh2_htonu32 (Z.of_nat (length body)) ++ body.

(** The comment of version 1: the value of the first attribute of that name. *)
Definition comment_of (attrs : list publickey_attribute) : str :=
  match List.find (λ a, bool_decide (attr_name a = &"comment")) attrs with
  | Some a => attr_value a
  | None => []
  end.

Definition flag_byte (b : bool) : str := [of_code (if b then 0xFF else 0)].

Definition attr_bytes (a : publickey_attribute) : str :=
  ssh_string (attr_name a) ++ ssh_string (attr_value a) ++ flag_byte (mandatory a).

Definition add_packet (v : Z) (name blob : str) (overwrite : bool) (attrs : list publickey_attribute) : str :=
  pk_packet (ssh_string &"add" ++
    if (v =? 1)%Z then ssh_string (comment_of attrs) ++ ssh_string name ++ ssh_string blob
    else ssh_string name ++ ssh_string blob ++ flag_byte overwrite ++
         libssh2_htonu32 (Z.of_nat (length attrs)) ++ flat_map attr_bytes attrs).

Definition remove_packet (name blob : str) : str :=
  pk_packet (ssh_string &"remove" ++ ssh_string name ++ ssh_string blob).

Section publickey.
Context (e : surroundings) (kex_exchange : ST Z).

(** The text of the message has no end, as none is written. *)
Definition libssh2_publickey_status_error (pkey : option publickey) (status : Z) (message : str) : ST (option str) :=
  ok ← alloc e;
  if negb ok then libssh2_error LIBSSH2_ERROR_ALLOC;; mret None
  else libssh2_error LIBSSH2_ERROR_PUBLICKEY_PROTOCOL;; mret (Some (status_message pkey status message)).

(** The packet, [None] when it cannot be read at once. *)
Definition libssh2_publickey_packet_receive (pkey : publickey) : ST (option str) :=
  buffer ← channel_read e kex_exchange (pk_channel pkey) 4;
  if decide (length buffer ≠ 4) then libssh2_error LIBSSH2_ERROR_PUBLICKEY_PROTOCOL;; mret None else
  packet_len ← ntohu32 buffer 0;
  ok ← alloc e;
  if negb ok then libssh2_error LIBSSH2_ERROR_ALLOC;; mret None else
  packet ← channel_read e kex_exchange (pk_channel pkey) (Z.to_nat packet_len);
  if decide (length packet ≠ Z.to_nat packet_len)
  then libssh2_error LIBSSH2_ERROR_SOCKET_TIMEOUT;; mret None else mret (Some packet).

(** A status: 0 for a success, -1 for an error or a malformed packet. *)
Definition take_status (pkey : option publickey) (data : str) (s : nat) : ST Z :=
  st ← lift (read_status data s);
  match st with
  | None => libssh2_error LIBSSH2_ERROR_PUBLICKEY_PROTOCOL;; mret (-1)%Z
  | Some (status, message) =>
      if (status =? LIBSSH2_PUBLICKEY_SUCCESS)%Z then mret 0%Z
      else _ ← libssh2_publickey_status_error pkey status message; mret (-1)%Z
  end.

(** The code is unsigned, so the test for a bad answer is never true, and such an
    answer is left aside like every one that is not a status. *)
Fixpoint response_loop (fuel : nat) (pkey : publickey) : ST Z :=
  match fuel with
  | O => undefined
  | S fuel =>
      data ← libssh2_publickey_packet_receive pkey;
      match data with
      | None => libssh2_error LIBSSH2_ERROR_SOCKET_TIMEOUT;; mret (-1)%Z
      | Some data =>
          r ← lift (libssh2_publickey_response_id data);
          if (r.1 =? LIBSSH2_PUBLICKEY_RESPONSE_STATUS)%Z then take_status (Some pkey) data r.2
          else libssh2_error LIBSSH2_ERROR_PUBLICKEY_PROTOCOL;; response_loop fuel pkey
      end
  end.

Definition libssh2_publickey_response_success (pkey : publickey) : ST Z :=
  fuel ← gets channel_fuel;
  response_loop fuel pkey.

(** ** The operations *)

(** The answer to the version packet. *)
Fixpoint init_loop (fuel : nat) (pkey : publickey) : ST (option publickey) :=
  match fuel with
  | O => undefined
  | S fuel =>
      data ← libssh2_publickey_packet_receive pkey;
      match data with
      | None => libssh2_error LIBSSH2_ERROR_SOCKET_TIMEOUT;; mret None
      | Some data =>
          r ← lift (libssh2_publickey_response_id data);
          if (r.1 <? 0)%Z then libssh2_error LIBSSH2_ERROR_PUBLICKEY_PROTOCOL;; mret None
          else if (r.1 =? LIBSSH2_PUBLICKEY_RESPONSE_STATUS)%Z then
            st ← lift (read_status data r.2);
            match st with
            | None => libssh2_error LIBSSH2_ERROR_PUBLICKEY_PROTOCOL;; mret None
            | Some (status, message) => _ ← libssh2_publickey_status_error None status message; mret None
            end
          else if (r.1 =? LIBSSH2_PUBLICKEY_RESPONSE_VERSION)%Z then
            v ← ntohu32 data r.2;
            mret (Some {| pk_channel := pk_channel pkey; version := Z.min v LIBSSH2_PUBLICKEY_VERSION |})
          else libssh2_error LIBSSH2_ERROR_PUBLICKEY_PROTOCOL;; init_loop fuel pkey
      end
  end.

(** [err_exit]: the channel is closed, not freed. *)
Definition init_failed (channel : option Z) : ST (option publickey) :=
  match channel with
  | None => mret None
  | Some i => _ ← libssh2_channel_close e i; mret None
  end.

Definition libssh2_publickey_init : ST (option publickey) :=
  ch ← channel_open_session e kex_exchange;
  match ch with
  | None => libssh2_error LIBSSH2_ERROR_CHANNEL_FAILURE;; init_failed None
  | Some i =>
      rc ← channel_subsystem e kex_exchange i &"publickey";
      if negb (rc =? 0)%Z then libssh2_error LIBSSH2_ERROR_CHANNEL_FAILURE;; init_failed (Some i) else
      libssh2_channel_set_blocking i true;;
      libssh2_channel_handle_extended_data e i LIBSSH2_CHANNEL_EXTENDED_DATA_IGNORE;;
      ok ← alloc e;
      if negb ok then libssh2_error LIBSSH2_ERROR_ALLOC;; init_failed (Some i) else
      sent ← channel_write_all e kex_exchange i
               (pk_packet (ssh_string &"version" ++ libssh2_htonu32 LIBSSH2_PUBLICKEY_VERSION));
      if negb sent then libssh2_error LIBSSH2_ERROR_SOCKET_SEND;; init_failed (Some i) else
      fuel ← gets channel_fuel;
      r ← init_loop fuel {| pk_channel := i; version := 0 |};
      match r with
      | None => init_failed (Some i)
      | Some k => mret (Some k)
      end
  end.

(** A request and the wait for its success. The packet is allocated with its length in
    32 bits; a longer one is written behind its end. *)
Definition pk_request (pkey : publickey) (packet : str) : ST Z :=
  ok ← alloc e;
  if negb ok then libssh2_error LIBSSH2_ERROR_ALLOC;; mret (-1)%Z else
  if decide (¬ sized packet) then undefined else
  sent ← channel_write_all e kex_exchange (pk_channel pkey) packet;
  if negb sent then libssh2_error LIBSSH2_ERROR_SOCKET_SEND;; mret (-1)%Z
  else libssh2_publickey_response_success pkey.

Definition libssh2_publickey_add_ex (pkey : publickey) (name blob : str) (overwrite : bool)
    (attrs : list publickey_attribute) : ST Z :=
  pk_request pkey (add_packet (version pkey) name blob overwrite attrs).

Definition libssh2_publickey_remove_ex (pkey : publickey) (name blob : str) : ST Z :=
  pk_request pkey (remove_packet name blob).

(** The list, which grows by eight entries, as far as it has come. [stale]: [data] is a
    packet that has been freed. The first entry is not initialised until it is
    complete, so the list cannot be freed before. *)
Fixpoint list_loop (fuel : nat) (pkey : publickey) (keys : list publickey_entry) (stale : bool)
    : ST (option (list publickey_entry)) :=
  match fuel with
  | O => undefined
  | S fuel =>
      let failed (first_open : bool) : ST (option (list publickey_entry)) :=
        if first_open && bool_decide (keys = []) then undefined else mret None in
      data ← libssh2_publickey_packet_receive pkey;
      match data with
      | None =>
          libssh2_error LIBSSH2_ERROR_SOCKET_TIMEOUT;;
          if stale then undefined else failed false
      | Some data =>
          r ← lift (libssh2_publickey_response_id data);
          if (r.1 =? LIBSSH2_PUBLICKEY_RESPONSE_STATUS)%Z then
            rc ← take_status (Some pkey) data r.2;
            if (rc =? 0)%Z then mret (Some keys) else failed false
          else if (r.1 =? LIBSSH2_PUBLICKEY_RESPONSE_PUBLICKEY)%Z then
            ok ← (if (length keys mod 8 =? 0)%nat then alloc e else mret true);
            if negb ok then libssh2_error LIBSSH2_ERROR_ALLOC;; mret None else
            needed ← lift (needs_attrs (version pkey) data r.2);
            ok ← (if (needed : bool) then alloc e else mret true);
            if negb ok then libssh2_error LIBSSH2_ERROR_ALLOC;; failed true else
            k ← lift (read_key (version pkey) data r.2);
            list_loop fuel pkey (keys ++ [k.1]) false
          else libssh2_error LIBSSH2_ERROR_PUBLICKEY_PROTOCOL;; list_loop fuel pkey keys true
      end
  end.

Definition libssh2_publickey_list_fetch (pkey : publickey) : ST (option (list publickey_entry)) :=
  sent ← channel_write_all e kex_exchange (pk_channel pkey) (pk_packet (ssh_string &"list"));
  if negb sent then libssh2_error LIBSSH2_ERROR_SOCKET_SEND;; mret None else
  fuel ← gets channel_fuel;
  list_loop fuel pkey [] false.

Definition libssh2_publickey_shutdown (pkey : publickey) : ST () :=
  _ ← libssh2_channel_free e kex_exchange (pk_channel pkey); mret ().
End publickey.

(** ** Properties *)

Definition attr_sized (a : publickey_attribute) : Prop := sized (attr_name a) ∧ sized (attr_value a).

(** What a server sends of a key: its attributes without the flag of [attr_bytes]. *)
Definition key_bytes_2 (k : publickey_entry) : str :=
  ssh_string (key_name k) ++ ssh_string (key_blob k) ++ libssh2_htonu32 (Z.of_nat (length (key_attrs k))) ++
  flat_map (λ a, ssh_string (attr_name a) ++ ssh_string (attr_value a)) (key_attrs k).

Definition key_bytes_1 (k : publickey_entry) : str :=
  ssh_string (comment_of (key_attrs k)) ++ ssh_string (key_name k) ++ ssh_string (key_blob k).

Definition optional (a : publickey_attribute) : publickey_attribute :=
  {| attr_name := attr_name a; attr_value := attr_value a; mandatory := false |}.

Lemma reads_attrs attrs :
  Forall attr_sized attrs →
  reads (read_attrs (length attrs)) (flat_map (λ a, ssh_string (attr_name a) ++ ssh_string (attr_value a)) attrs)
    (optional <$> attrs).
Proof.
  induction 1 as [|a attrs [Hn Hv] _ IH]; [apply reads_ret|].
  cbn [length read_attrs flat_map fmap list_fmap]. rewrite <- app_assoc.
  eapply reads_bind; [by apply reads_string|]. eapply reads_bind; [by apply reads_string|].
  rewrite <- (app_nil_r (flat_map _ attrs)). eapply reads_bind; [exact IH|]. apply reads_ret.
Qed.

(** A key of version 2 is read as the server wrote it, whatever stands before and behind
    it in the packet, but for the flags, which are not sent. *)
Lemma read_key_2_spec k :
  sized (key_name k) → sized (key_blob k) → (Z.of_nat (length (key_attrs k)) < 2 ^ 32)%Z →
  Forall attr_sized (key_attrs k) →
  reads (read_key 2) (key_bytes_2 k)
    {| key_name := key_name k; key_blob := key_blob k; key_attrs := optional <$> key_attrs k |}.
Proof.
  intros Hn Hb Hl Ha. unfold read_key, key_bytes_2. cbn [Z.eqb Pos.eqb].
  eapply reads_bind; [by apply reads_string|]. eapply reads_bind; [by apply reads_string|].
  eapply reads_bind; [apply reads_u32; unfold in_u; lia|]. rewrite Nat2Z.id.
  rewrite <- (app_nil_r (flat_map _ _)). eapply reads_bind; [by apply reads_attrs|]. apply reads_ret.
Qed.

(** Version 1 keeps the comment only, and an empty one not at all. *)
Lemma read_key_1_spec k :
  sized (comment_of (key_attrs k)) → sized (key_name k) → sized (key_blob k) →
  reads (read_key 1) (key_bytes_1 k)
    {| key_name := key_name k; key_blob := key_blob k;
       key_attrs := if decide (comment_of (key_attrs k) = []) then []
                    else [{| attr_name := &"comment"; attr_value := comment_of (key_attrs k); mandatory := false |}] |}.
Proof.
  intros Hc Hn Hb. unfold read_key, key_bytes_1. cbn [Z.eqb Pos.eqb].
  eapply reads_bind; [by apply reads_string|]. eapply reads_bind; [by apply reads_string|].
  rewrite <- (app_nil_r (ssh_string (key_blob k))). eapply reads_bind; [by apply reads_string|]. apply reads_ret.
Qed.

(** The answers are told apart by their names; the body follows the name. *)
Lemma response_id_spec code name rest :
  (code, name) ∈ libssh2_publickey_response_codes →
  libssh2_publickey_response_id (ssh_string name ++ rest) = Ok (code, length (ssh_string name)).
Proof.
  intros H. unfold libssh2_publickey_response_codes in H.
  assert (Hs : sized name).
  { repeat (apply elem_of_cons in H as [[= -> ->]|H]; [vm_compute; reflexivity|]). by apply elem_of_nil in H. }
  assert (E : libssh2_ntohu32 (ssh_string name ++ rest) 0 = Ok (Z.of_nat (length name))).
  { unfold ssh_string. rewrite <- app_assoc. apply (ntohu32_at []). unfold in_u, sized in *. lia. }
  assert (Ed : drop 4 (ssh_string name ++ rest) = name ++ rest) by done.
  unfold libssh2_publickey_response_id.
  rewrite decide_False by (rewrite length_app, length_ssh_string; lia). rewrite E. cbn [rbind].
  rewrite decide_False by (rewrite length_app, length_ssh_string; lia).
  rewrite Nat2Z.id, Ed, take_app_length, length_ssh_string.
  repeat (apply elem_of_cons in H as [[= -> ->]|H]; [reflexivity|]). by apply elem_of_nil in H.
Qed.

(** The length in front of a request is that of what follows it. *)
Lemma add_packet_length v name blob overwrite attrs :
  sized (add_packet v name blob overwrite attrs) →
  libssh2_ntohu32 (add_packet v name blob overwrite attrs) 0 =
    Ok (Z.of_nat (length (add_packet v name blob overwrite attrs)) - 4)%Z.
Proof.
  unfold add_packet, pk_packet. set (body := ssh_string &"add" ++ _). intros Hs.
  assert (El : length (libssh2_htonu32 (Z.of_nat (length body)) ++ body) = 4 + length body)
    by (by rewrite length_app, length_htonu32).
  unfold sized in Hs. rewrite El in Hs |- *.
  pose proof (ntohu32_at [] (Z.of_nat (length body)) body) as E. cbn [app length] in E.
  rewrite E by (unfold in_u; lia). f_equal. lia.
Qed.

(** A packet that is not an answer leaves the list with a packet that has been freed; it
    is freed again when no packet follows. *)
Lemma list_loop_double_free e kex_exchange fuel pkey keys s s1 :
  libssh2_publickey_packet_receive e kex_exchange pkey s = Ok (None, s1) →
  list_loop e kex_exchange (S fuel) pkey keys true s = Undef.
Proof. intros H. cbn [list_loop]. by rewrite (bind_Ok _ _ _ _ _ H). Qed.
