(* ===== verification/Ssh2Error.v ===== *)
(** * The text of the last error ([libssh2_priv.h], [session.c], [publickey.c])

    The session keeps a pointer to the text of its last error and whether it must free
    it.  [Ssh2Session] keeps the code of the error only; here is the rest, with the blocks
    of memory the pointer may lead to, so that who owns the text can be said. *)
From S2P Require Import Prelude StdString Ssh2Session Ssh2PublicKey.

(** ** Memory *)

(** A text of the program, or a block that [LIBSSH2_ALLOC] gave. *)
Inductive pointer := Null | Literal (s : str) | Block (b : nat).
#[global] Instance pointer_eq_dec : EqDecision pointer.
Proof. solve_decision. Defined.

(** The blocks in use; a byte that was never written is [None]. *)
Abbreviation cell := (option chr).
Record heap := mk_heap { blocks : gmap nat (list cell); next_block : nat }.

(** The new block has the contents that the caller writes next. *)
Definition LIBSSH2_ALLOC (ok : bool) (contents : list cell) (h : heap) : pointer * heap :=
  if ok then (Block (next_block h), mk_heap (<[next_block h := contents]> (blocks h)) (S (next_block h)))
  else (Null, h).

Definition LIBSSH2_FREE (p : pointer) (h : heap) : res heap :=
  match p with
  | Null => Ok h
  | Literal _ => Undef
  | Block b => match blocks h !! b with
               | Some _ => Ok (mk_heap (delete b (blocks h)) (next_block h))
               | None => Undef
               end
  end.

Definition cells_at (h : heap) (p : pointer) : option (list cell) :=
  match p with Null => None | Literal s => Some (Some <$> s ++ [NUL]) | Block b => blocks h !! b end.

(** The C string in some bytes. *)
Fixpoint string_in (cs : list cell) : res str :=
  match cs with
  | Some c :: cs => if decide (c = NUL) then Ok [] else let! s := string_in cs in Ok (c :: s)
  | _ => Undef
  end.
Definition string_of (h : heap) (p : pointer) : res str :=
  match cells_at h p with Some cs => string_in cs | None => Undef end.

(** What [memcpy] reads: cells are copied as they are, unwritten ones too. *)
Definition read_cells (h : heap) (p : pointer) (n : nat) : res (list cell) :=
  if decide (n = 0) then Ok [] else
  match cells_at h p with
  | Some cs => if decide (n ≤ length cs) then Ok (take n cs) else Undef
  | None => Undef
  end.

(** ** The error of a session *)

Record last_error := mk_last_error {
  err_msg : pointer;
  err_msglen : nat;
  err_should_free : bool;
  errcode : Z }.

(** [session] is all zero at first. *)
Definition no_error : last_error := mk_last_error Null 0 false 0.

(** The macro [libssh2_error]. *)
Definition set_last_error (code : Z) (msg : pointer) (should_free : bool) (e : last_error) (h : heap)
    : res (last_error * heap) :=
  let! h := if bool_decide (err_msg e ≠ Null) && err_should_free e then LIBSSH2_FREE (err_msg e) h
            else Ok h in
  let! text := string_of h msg in
  Ok (mk_last_error msg (length text) should_free code, h).

(** [*errmsg]: [ok] says whether the allocation succeeds. *)
Definition error_text (ok want_buf : bool) (e : last_error) (h : heap)
    : res (pointer * last_error * heap) :=
  let serrmsg := if decide (err_msg e = Null) then Literal [] else err_msg e in
  let ownbuf := if decide (err_msg e = Null) then false else err_should_free e in
  if negb want_buf then Ok (serrmsg, e, h)
  else if (ownbuf : bool) then
    Ok (serrmsg, mk_last_error (err_msg e) (err_msglen e) false (errcode e), h)
  else if negb ok then Ok (Null, e, h)
  else
    let! cs := read_cells h (err_msg e) (err_msglen e) in
    let (p, h) := LIBSSH2_ALLOC true (cs ++ [Some NUL]) h in Ok (p, e, h).

(** The code, what is stored through the two pointers, and what is left; [want_msg] and
    [want_len] say whether these are given. *)
Definition libssh2_session_last_error (ok want_msg want_len want_buf : bool) (e : last_error) (h : heap)
    : res (Z * option pointer * option nat * last_error * heap) :=
  if decide (errcode e = 0%Z) then
    let (p, h) := if want_buf then LIBSSH2_ALLOC (want_msg && ok) [Some NUL] h else (Literal [], h) in
    Ok (0%Z, if want_msg then Some p else None, if want_len then Some 0 else None, e, h)
  else
    let! (msg, e, h) :=
      if want_msg then let! (p, e, h) := error_text ok want_buf e h in Ok (Some p, e, h)
      else Ok (None, e, h) in
    Ok (errcode e, msg, if want_len then Some (err_msglen e) else None, e, h).

(** [libssh2_publickey_status_error]: the last byte of the block is not written. *)
Definition status_error (ok : bool) (pkey : option publickey) (status : Z) (message : str)
    (e : last_error) (h : heap) : res (last_error * heap) :=
  if negb ok
  then set_last_error LIBSSH2_ERROR_ALLOC (Literal &"Unable to allocate memory for status message") false e h
  else
    let (m, h) := LIBSSH2_ALLOC true ((Some <$> status_message pkey status message) ++ [None]) h in
    set_last_error LIBSSH2_ERROR_PUBLICKEY_PROTOCOL m true e h.

(** ** What the session keeps *)

(** The text that is kept, and that only a block is to be freed. *)
Definition keeps_text (e : last_error) (h : heap) (text : str) : Prop :=
  (if decide (err_msg e = Null) then text = [] else string_of h (err_msg e) = Ok text) ∧
  err_msglen e = length text ∧
  (err_should_free e = true → ∃ b, err_msg e = Block b).

(** Blocks get new numbers. *)
Definition numbered (h : heap) : Prop := ∀ b, next_block h ≤ b → blocks h !! b = None.

Lemma string_in_take cs s : string_in cs = Ok s → take (length s) cs = Some <$> s ∧ length s < length cs.
Proof.
  revert s; induction cs as [|[c|] cs IH]; intros s; cbn [string_in]; try done.
  case_decide as Hc; [intros [= <-]; by split; [|simpl; lia]|].
  intros (s' & [E L]%IH & [= <-])%rbind_Ok. cbn. rewrite E. by split; [|lia].
Qed.

Lemma string_in_text s : NUL ∉ s → string_in ((Some <$> s) ++ [Some NUL]) = Ok s.
Proof.
  induction s as [|c s IH]; intros Hs; [done|]. cbn. apply not_elem_of_cons in Hs as [Hc Hs].
  rewrite decide_False by done. by rewrite IH.
Qed.

Lemma string_in_no_NUL cs s : string_in cs = Ok s → NUL ∉ s.
Proof.
  revert s; induction cs as [|[c|] cs IH]; intros s; cbn [string_in]; try done.
  case_decide as Hc; [intros [= <-]; apply not_elem_of_nil|].
  intros (s' & H%IH & [= <-])%rbind_Ok. apply not_elem_of_cons. by split.
Qed.

Lemma string_of_Literal h s : NUL ∉ s → string_of h (Literal s) = Ok s.
Proof. intros Hs. unfold string_of. cbn. rewrite fmap_app. by apply string_in_text. Qed.

(** A text without a zero byte behind it has no end. *)
Lemma string_in_unended s : NUL ∉ s → string_in ((Some <$> s) ++ [None]) = Undef.
Proof.
  induction s as [|c s IH]; intros Hs; [done|]. cbn. apply not_elem_of_cons in Hs as [Hc Hs].
  rewrite decide_False by done. by rewrite IH.
Qed.

Lemma read_text e h text :
  keeps_text e h text → read_cells h (err_msg e) (err_msglen e) = Ok (Some <$> text) ∧ NUL ∉ text.
Proof.
  intros (Ht & Hl & _). unfold read_cells. rewrite Hl. destruct (decide (err_msg e = Null)).
  { subst text. by split; [|apply not_elem_of_nil]. }
  unfold string_of in Ht. destruct (cells_at h (err_msg e)) as [cs|]; [|done].
  pose proof (string_in_no_NUL _ _ Ht) as Hz. apply string_in_take in Ht as [E L]. split; [|done].
  case_decide as H0; [by apply length_zero_iff_nil in H0 as ->|]. rewrite decide_True by lia. by rewrite E.
Qed.

(** ** Setting and asking *)

(** A text of the program, or a block that is handed over, takes the place of the old
    one; a block that was owned is freed. Nothing is asked of a text that was not owned: it
    may have been given out and freed. *)
Lemma set_last_error_spec code msg own e h text :
  (err_should_free e = true → ∃ b t, err_msg e = Block b ∧ string_of h (Block b) = Ok t) →
  string_of h msg = Ok text → (err_should_free e = true → msg ≠ err_msg e) →
  (own = true → ∃ b, msg = Block b) →
  ∃ e' h', set_last_error code msg own e h = Ok (e', h') ∧ keeps_text e' h' text ∧
    errcode e' = code ∧ next_block h' = next_block h ∧
    blocks h' = match err_msg e with
                | Block b => if err_should_free e then delete b (blocks h) else blocks h
                | _ => blocks h
                end.
Proof.
  intros Hown Ht Hn Hb. unfold set_last_error.
  assert (Hnull : msg ≠ Null) by (intros ->; done).
  destruct (err_should_free e) eqn:Ef.
  - destruct (Hown eq_refl) as (b & t & Eb & Hl). rewrite Eb in *.
    rewrite bool_decide_true by done. unfold string_of in Hl. cbn in Hl. cbn [andb LIBSSH2_FREE].
    destruct (blocks h !! b) as [cs|] eqn:El; [|done]. cbn [rbind].
    assert (string_of (mk_heap (delete b (blocks h)) (next_block h)) msg = Ok text) as Ht'.
    { unfold string_of in *. destruct msg as [|s|b']; try done. cbn in *.
      rewrite lookup_delete_ne; [done|]. intros ->. by apply Hn. }
    rewrite Ht'. eexists _, _. split; [reflexivity|]. split_and!; try done.
    unfold keeps_text. cbn. rewrite decide_False by done. by split_and!.
  - rewrite andb_false_r. cbn [rbind]. rewrite Ht. eexists _, _. split; [reflexivity|].
    split_and!; [|done|done|by destruct (err_msg e)].
    unfold keeps_text. cbn. rewrite decide_False by done. by split_and!.
Qed.

(** Asked for a text of its own, the program gets one in a block in use, which the session
    does not free, and the code and the length go with it. *)
Lemma last_error_owned ok want_len e h text :
  keeps_text e h text → errcode e ≠ 0%Z → numbered h → (err_should_free e = false → ok = true) →
  ∃ b e' h', libssh2_session_last_error ok true want_len true e h =
      Ok (errcode e, Some (Block b), if want_len then Some (length text) else None, e', h') ∧
    string_of h' (Block b) = Ok text ∧ err_should_free e' = false ∧
    err_msg e' = err_msg e ∧ errcode e' = errcode e ∧
    if err_should_free e then h' = h ∧ err_msg e = Block b
    else blocks h' = <[b := (Some <$> text) ++ [Some NUL]]> (blocks h) ∧ blocks h !! b = None.
Proof.
  intros Hk Hc Hnum Hok. pose proof (read_text _ _ _ Hk) as [Hr Hz]. destruct Hk as (Ht & Hl & Hown).
  unfold libssh2_session_last_error. rewrite decide_False by done. unfold error_text. cbn [negb].
  destruct (err_should_free e) eqn:Ef.
  - destruct (Hown eq_refl) as [b Eb]. rewrite Eb in *. cbn in Ht |- *.
    eexists b, _, _. split; [rewrite Hl; reflexivity|]. by split_and!.
  - rewrite (Hok eq_refl). replace (if decide (err_msg e = Null) then false else false) with false
      by (by destruct (decide _)). cbn [negb]. rewrite Hr. cbn [rbind LIBSSH2_ALLOC].
    eexists (next_block h), e, _. split; [by rewrite Hl|]. split_and!; try done.
    + unfold string_of. cbn. rewrite lookup_insert_eq. by apply string_in_text.
    + by apply Hnum.
Qed.

(** Of what is given out nothing is given again while it is the program's to free: a text
    that the session owned is still the session's text, so asking once more after freeing
    it reads memory that was freed. *)
Lemma last_error_twice want_len e h (text : str) b rest :
  err_msg e = Block b → err_should_free e = true → errcode e ≠ 0%Z → err_msglen e = length text →
  text ≠ [] → blocks h !! b = Some rest →
  ∃ e' h', libssh2_session_last_error true true want_len true e h =
      Ok (errcode e, Some (Block b), if want_len then Some (length text) else None, e', h) ∧
    LIBSSH2_FREE (Block b) h = Ok h' ∧
    libssh2_session_last_error true true want_len true e' h' = Undef.
Proof.
  intros Eb Ef Hc Hl Ht Hb. unfold libssh2_session_last_error, error_text.
  rewrite !decide_False by (rewrite ?Eb; done). rewrite Ef, Eb. cbn [negb rbind LIBSSH2_FREE]. rewrite Hb, Hl.
  eexists _, _. split; [reflexivity|]. split; [reflexivity|]. cbn [errcode err_msg err_should_free err_msglen].
  rewrite !decide_False by (try apply Hc; done). cbn [negb]. unfold read_cells.
  rewrite decide_False by (by intros ->%length_zero_iff_nil). cbn. by rewrite lookup_delete_eq.
Qed.

(** A text of the program can be asked for any number of times. *)
Lemma last_error_literal want_len code s h :
  NUL ∉ s → code ≠ 0%Z →
  let e := mk_last_error (Literal s) (length s) false code in
  ∃ p h', libssh2_session_last_error true true want_len true e h =
      Ok (code, Some p, if want_len then Some (length s) else None, e, h') ∧ string_of h' p = Ok s.
Proof.
  intros Hs Hc e. assert (keeps_text e h s) as Hk.
  { split_and!; [|done|done]. rewrite decide_False by done. by apply string_of_Literal. }
  apply read_text in Hk as [Hr _]. unfold libssh2_session_last_error, error_text.
  rewrite decide_False by done. replace (if decide (err_msg e = Null) then _ else _) with false
    by (by destruct (decide _)).
  cbn [negb]. rewrite Hr. cbn [rbind LIBSSH2_ALLOC]. eexists _, _. split; [reflexivity|].
  unfold string_of. cbn [cells_at blocks]. rewrite lookup_insert_eq. by apply string_in_text.
Qed.

(** The text of a status of the public key subsystem is not ended: its length is looked for
    behind the block. *)
Lemma status_error_unended pkey status message e h :
  NUL ∉ status_message pkey status message → err_should_free e = false →
  status_error true pkey status message e h = Undef.
Proof.
  intros Hz Hf. unfold status_error, set_last_error. cbn [negb LIBSSH2_ALLOC]. rewrite Hf, andb_false_r.
  cbn [rbind]. unfold string_of. cbn [cells_at blocks]. rewrite lookup_insert_eq. by rewrite string_in_unended.
Qed.

(** ** The code of [Ssh2Session] *)

(** The two records agree on the code, [None] there for no error. *)
Definition same_code (s : session) (e : last_error) : Prop := default 0%Z (err_code s) = errcode e.

Lemma libssh2_error_same_code code msg own e h e' h' s s' :
  set_last_error code msg own e h = Ok (e', h') → libssh2_error code s = Ok ((), s') → same_code s' e'.
Proof.
  unfold set_last_error. intros (h1 & _ & (text & _ & [= <- <-])%rbind_Ok)%rbind_Ok [= <-]. done.
Qed.
