(* ===== verification/Ssh2Sftp.v ===== *)
(** * libssh2: SFTP ([ssh/libssh2/sftp.c])

    Files at the other end are opened, read, written, listed and changed by packets
    over a channel, each request with an identifier of its own. A handle is not in the
    list of the structure, which stays empty: [libssh2_sftp_open_ex] does not set it.
    [unsigned long] has 32 bits. *)
From S2P Require Import Prelude StdString Ssh2Misc Ssh2Session Ssh2Packet Ssh2Channel Ssh2Startup Ssh2Fields Ssh2Subsystem.

(** ** Constants *)

Definition SSH_FXP_INIT : Z := 1.
Definition SSH_FXP_VERSION : Z := 2.
Definition SSH_FXP_OPEN : Z := 3.
Definition SSH_FXP_CLOSE : Z := 4.
Definition SSH_FXP_READ : Z := 5.
Definition SSH_FXP_WRITE : Z := 6.
Definition SSH_FXP_LSTAT : Z := 7.
Definition SSH_FXP_FSTAT : Z := 8.
Definition SSH_FXP_SETSTAT : Z := 9.
Definition SSH_FXP_FSETSTAT : Z := 10.
Definition SSH_FXP_OPENDIR : Z := 11.
Definition SSH_FXP_READDIR : Z := 12.
Definition SSH_FXP_REMOVE : Z := 13.
Definition SSH_FXP_MKDIR : Z := 14.
Definition SSH_FXP_RMDIR : Z := 15.
Definition SSH_FXP_REALPATH : Z := 16.
Definition SSH_FXP_STAT : Z := 17.
Definition SSH_FXP_RENAME : Z := 18.
Definition SSH_FXP_READLINK : Z := 19.
Definition SSH_FXP_SYMLINK : Z := 20.
Definition SSH_FXP_STATUS : Z := 101.
Definition SSH_FXP_HANDLE : Z := 102.
Definition SSH_FXP_DATA : Z := 103.
Definition SSH_FXP_NAME : Z := 104.
Definition SSH_FXP_ATTRS : Z := 105.

Definition LIBSSH2_SFTP_ATTR_PFILETYPE_FILE : Z := 0x8000.
Definition LIBSSH2_SFTP_ATTR_PFILETYPE_DIR : Z := 0x4000.

Definition LIBSSH2_SFTP_VERSION : Z := 3.
Definition LIBSSH2_SFTP_PACKET_MAXLEN : Z := 40000.
Definition LIBSSH2_SFTP_OPENFILE : Z := 0.
Definition LIBSSH2_SFTP_OPENDIR : Z := 1.
Definition LIBSSH2_SFTP_STAT : Z := 0.
Definition LIBSSH2_SFTP_LSTAT : Z := 1.
Definition LIBSSH2_SFTP_SETSTAT : Z := 2.
Definition LIBSSH2_SFTP_SYMLINK : Z := 0.
Definition LIBSSH2_SFTP_READLINK : Z := 1.
Definition LIBSSH2_SFTP_REALPATH : Z := 2.

Definition LIBSSH2_SFTP_ATTR_SIZE : Z := 1.
Definition LIBSSH2_SFTP_ATTR_UIDGID : Z := 2.
Definition LIBSSH2_SFTP_ATTR_PERMISSIONS : Z := 4.
Definition LIBSSH2_SFTP_ATTR_ACMODTIME : Z := 8.

Definition LIBSSH2_FX_OK : Z := 0.
Definition LIBSSH2_FX_EOF : Z := 1.

(** ** Attributes *)

Record attributes := mk_attributes {
  attr_flags : Z;
  filesize : Z;
  uid : Z;
  gid : Z;
  permissions : Z;
  atime : Z;
  mtime : Z }.

Definition has (flags bit : Z) : bool := negb (Z.land flags bit =? 0)%Z.

Definition permissions_only (mode : Z) : attributes := mk_attributes LIBSSH2_SFTP_ATTR_PERMISSIONS 0 0 0 (u32 mode) 0 0.

(** [libssh2_sftp_attrsize]; [None] is the null pointer. *)
Definition libssh2_sftp_attrsize (attrs : option attributes) : Z :=
  match attrs with
  | None => 4
  | Some a =>
      4 + (if has (attr_flags a) LIBSSH2_SFTP_ATTR_SIZE then 8 else 0) +
      (if has (attr_flags a) LIBSSH2_SFTP_ATTR_UIDGID then 8 else 0) +
      (if has (attr_flags a) LIBSSH2_SFTP_ATTR_PERMISSIONS then 4 else 0) +
      (if has (attr_flags a) LIBSSH2_SFTP_ATTR_ACMODTIME then 8 else 0)
  end%Z.

Definition flag_mask : Z := Z.lor (Z.lor (Z.lor LIBSSH2_SFTP_ATTR_SIZE LIBSSH2_SFTP_ATTR_UIDGID)
  LIBSSH2_SFTP_ATTR_PERMISSIONS) LIBSSH2_SFTP_ATTR_ACMODTIME.

Definition libssh2_sftp_attr2bin (attrs : option attributes) : str :=
  match attrs with
  | None => libssh2_htonu32 0
  | Some a =>
      libssh2_htonu32 (Z.land (attr_flags a) flag_mask) ++
      (if has (attr_flags a) LIBSSH2_SFTP_ATTR_SIZE then libssh2_htonu64 (filesize a) else []) ++
      (if has (attr_flags a) LIBSSH2_SFTP_ATTR_UIDGID then libssh2_htonu32 (uid a) ++ libssh2_htonu32 (gid a) else []) ++
      (if has (attr_flags a) LIBSSH2_SFTP_ATTR_PERMISSIONS then libssh2_htonu32 (permissions a) else []) ++
      (if has (attr_flags a) LIBSSH2_SFTP_ATTR_ACMODTIME then libssh2_htonu32 (atime a) ++ libssh2_htonu32 (mtime a) else [])
  end.

(** The fields of a group that is not there stay zero. *)
Definition pair_at (data : str) (s : nat) : res (Z * Z * nat) :=
  let! (a, s) := u32_at data s in
  let! (b, s) := u32_at data s in
  Ok ((a, b), s).

Definition u64_at (data : str) (s : nat) : res (Z * nat) :=
  let! v := libssh2_ntohu64 data s in Ok (v, s + 8).

Definition if_has {A} (flags bit : Z) (absent : A) (r : str → nat → res (A * nat)) (data : str) (s : nat) : res (A * nat) :=
  if has flags bit then r data s else Ok (absent, s).

Definition libssh2_sftp_bin2attr (data : str) (s : nat) : res (attributes * nat) :=
  let! (flags, s) := u32_at data s in
  let! (size, s) := if_has flags LIBSSH2_SFTP_ATTR_SIZE 0%Z u64_at data s in
  let! (ids, s) := if_has flags LIBSSH2_SFTP_ATTR_UIDGID (0%Z, 0%Z) pair_at data s in
  let! (perm, s) := if_has flags LIBSSH2_SFTP_ATTR_PERMISSIONS 0%Z u32_at data s in
  let! (times, s) := if_has flags LIBSSH2_SFTP_ATTR_ACMODTIME (0%Z, 0%Z) pair_at data s in
  Ok (mk_attributes flags size ids.1 ids.2 perm times.1 times.2, s).

(** ** The structures *)

Record sftp := mk_sftp {
  sf_channel : Z;
  request_id : Z;
  sf_version : Z;
  sf_packets : list str;
  last_errno : Z }.

(** The union of a handle: where the next read or write is, or the names left of an
    answer, with the packet and the place of the next one. *)
Inductive handle_data :=
  | H_file (offset : Z)
  | H_dir (names_left : Z) (names_packet : str) (next_name : nat).

Record handle := mk_handle { h_name : str; h_data : handle_data }.

(** A computation with the structure and the session. *)
Definition FT (A : Type) : Type := sftp → ST (A * sftp).

#[global] Instance FT_ret : MRet FT := λ A a f, mret (a, f).
#[global] Instance FT_bind : MBind FT := λ A B k m f, m f ≫= λ r, k r.1 r.2.

Definition of_session {A} (m : ST A) : FT A := λ f, a ← m; mret (a, f).
Definition of_res {A} (r : res A) : FT A := of_session (lift r).
Definition get_sftp : FT sftp := λ f, mret (f, f).
Definition put_sftp (f : sftp) : FT () := λ _, mret ((), f).
Definition the_error (code : Z) : FT () := of_session (libssh2_error code).
Definition stop {A} : FT A := of_session undefined.

Lemma FT_bind_Ok {A B} (m : FT A) (k : A → FT B) f s a f1 s1 :
  m f s = Ok ((a, f1), s1) → (m ≫= k) f s = k a f1 s1.
Proof. intros H. unfold mbind, FT_bind, mbind, ST_bind. by rewrite H. Qed.

Lemma of_session_Ok {A} (m : ST A) f s a s1 : m s = Ok (a, s1) → of_session m f s = Ok ((a, f), s1).
Proof. intros H. unfold of_session, mbind, ST_bind. by rewrite H. Qed.

Definition set_last_errno (v : Z) : FT () :=
  f ← get_sftp; put_sftp (mk_sftp (sf_channel f) (request_id f) (sf_version f) (sf_packets f) v).

Definition set_sf_packets (ps : list str) : FT () :=
  f ← get_sftp; put_sftp (mk_sftp (sf_channel f) (request_id f) (sf_version f) ps (last_errno f)).

Section sftp.
Context (e : surroundings) (kex_exchange : ST Z).

(** ** Packets *)

(** A packet joins the brigade. *)
Definition libssh2_sftp_packet_add (data : str) : FT Z :=
  ok ← of_session (alloc e);
  if negb ok then the_error LIBSSH2_ERROR_ALLOC;; mret (-1)%Z else
  f ← get_sftp;
  set_sf_packets (sf_packets f ++ [data]);;
  mret 0%Z.

(** The loop that reads the rest of a packet; a channel that gives nothing more is asked
    for ever. *)
Fixpoint receive_rest (fuel : nat) (channel : Z) (packet : str) (packet_len : nat) : ST str :=
  if decide (packet_len ≤ length packet) then mret packet else
  match fuel with
  | O => undefined
  | S fuel =>
      b ← channel_read e kex_exchange channel (packet_len - length packet);
      receive_rest fuel channel (packet ++ b) packet_len
  end.

(** The bytes of the length; the code to return instead, when they do not come. *)
Definition packet_length (channel : Z) (should_block : bool) : ST (Z + str) :=
  if should_block then
    libssh2_channel_set_blocking channel true;;
    buffer ← channel_read e kex_exchange channel 4;
    if decide (length buffer ≠ 4) then libssh2_error LIBSSH2_ERROR_SOCKET_TIMEOUT;; mret (inl (-1)%Z)
    else mret (inr buffer)
  else
    libssh2_channel_set_blocking channel false;;
    first ← channel_read e kex_exchange channel 1;
    if decide (length first ≠ 1) then libssh2_error LIBSSH2_ERROR_SOCKET_TIMEOUT;; mret (inl 0%Z) else
    libssh2_channel_set_blocking channel true;;
    rest ← channel_read e kex_exchange channel 3;
    if decide (length rest ≠ 3) then libssh2_error LIBSSH2_ERROR_SOCKET_TIMEOUT;; mret (inl (-1)%Z)
    else mret (inr (first ++ rest)).

(** The type of the packet that was read; 0 when there is none, -1 on failure. The
    first byte of an empty packet is read behind its end. *)
Definition libssh2_sftp_packet_read (should_block : bool) : FT Z :=
  f ← get_sftp;
  l ← of_session (packet_length (sf_channel f) should_block);
  match l with
  | inl code => mret code
  | inr buffer =>
      packet_len ← of_session (ntohu32 buffer 0);
      if (LIBSSH2_SFTP_PACKET_MAXLEN <? packet_len)%Z
      then the_error LIBSSH2_ERROR_CHANNEL_PACKET_EXCEEDED;; mret (-1)%Z else
      ok ← of_session (alloc e);
      if negb ok then the_error LIBSSH2_ERROR_ALLOC;; mret (-1)%Z else
      fuel ← of_session (gets channel_fuel);
      packet ← of_session (receive_rest fuel (sf_channel f) [] (Z.to_nat packet_len));
      rc ← libssh2_sftp_packet_add packet;
      if negb (rc =? 0)%Z then mret (-1)%Z else of_session (byte_at packet 0)
  end.

(** The first five bytes of the answer that is looked for, of a version only one. *)
Definition match_buf (packet_type id : Z) : str :=
  of_code packet_type :: (if (packet_type =? SSH_FXP_VERSION)%Z then [] else libssh2_htonu32 id).

(** The first packet that matches, and the others. *)
Fixpoint take_packet (m : str) (ps : list str) : res (option str * list str) :=
  match ps with
  | [] => Ok (None, [])
  | p :: ps =>
      let! same := strncmp_is_0 (length m) p m in
      if (same : bool) then Ok (Some p, ps)
      else let! (r, ps) := take_packet m ps in Ok (r, p :: ps)
  end.

Definition libssh2_sftp_packet_ask (packet_type id : Z) (poll_channel : bool) : FT (option str) :=
  rc ← (if poll_channel then libssh2_sftp_packet_read false else mret 0%Z);
  if (rc <? 0)%Z then mret None else
  f ← get_sftp;
  r ← of_res (take_packet (match_buf packet_type id) (sf_packets f));
  set_sf_packets r.2;;
  mret r.1.

Fixpoint require_loop (fuel : nat) (packet_type id : Z) : FT (option str) :=
  up ← of_session (gets connected);
  if negb up then mret None else
  match fuel with
  | O => stop
  | S fuel =>
      ret ← libssh2_sftp_packet_read true;
      if (ret <? 0)%Z then mret None
      else if (ret =? packet_type)%Z && negb (ret =? 0)%Z then libssh2_sftp_packet_ask packet_type id false
      else require_loop fuel packet_type id
  end.

Definition libssh2_sftp_packet_require (packet_type id : Z) : FT (option str) :=
  d ← libssh2_sftp_packet_ask packet_type id false;
  match d with
  | Some d => mret (Some d)
  | None => fuel ← of_session (gets channel_fuel); require_loop fuel packet_type id
  end.

(** [while (libssh2_sftp_packet_read (sftp, 0) > 0)]: the channel does not block
    afterwards. *)
Fixpoint flush_loop (fuel : nat) : FT () :=
  match fuel with
  | O => stop
  | S fuel =>
      ret ← libssh2_sftp_packet_read false;
      if (0 <? ret)%Z then flush_loop fuel else mret ()
  end.

Fixpoint ask_each (valid_responses : list Z) (id : Z) : FT (option str) :=
  match valid_responses with
  | [] => mret None
  | t :: ts =>
      d ← libssh2_sftp_packet_ask t id false;
      match d with Some d => mret (Some d) | None => ask_each ts id end
  end.

Fixpoint requirev_loop (fuel : nat) (valid_responses : list Z) (id : Z) : FT (option str) :=
  up ← of_session (gets connected);
  if negb up then mret None else
  d ← ask_each valid_responses id;
  match d with
  | Some d => mret (Some d)
  | None =>
      match fuel with
      | O => stop
      | S fuel =>
          ret ← libssh2_sftp_packet_read true;
          if (ret <? 0)%Z then mret None else requirev_loop fuel valid_responses id
      end
  end.

Definition libssh2_sftp_packet_requirev (valid_responses : list Z) (id : Z) : FT (option str) :=
  fuel ← of_session (gets channel_fuel);
  flush_loop fuel;;
  fuel ← of_session (gets channel_fuel);
  requirev_loop fuel valid_responses id.

(** ** Requests *)

Definition fxp_packet (type id : Z) (body : str) : str :=
  libssh2_htonu32 (Z.of_nat (5 + length body)) ++ of_code type :: libssh2_htonu32 id ++ body.

(** A request with the next identifier, [None] when it cannot be sent. A packet longer
    than 32 bits can say is written behind its end. *)
Definition fxp_request (type : Z) (body : str) : FT (option Z) :=
  ok ← of_session (alloc e);
  if negb ok then the_error LIBSSH2_ERROR_ALLOC;; mret None else
  f ← get_sftp;
  let id := request_id f in
  put_sftp (mk_sftp (sf_channel f) (u32 (id + 1)) (sf_version f) (sf_packets f) (last_errno f));;
  let packet := fxp_packet type id body in
  if decide (¬ sized packet) then stop else
  sent ← of_session (channel_write_all e kex_exchange (sf_channel f) packet);
  if negb sent then the_error LIBSSH2_ERROR_SOCKET_SEND;; mret None else mret (Some id).

(** One of the answers that a request may have; [None] is a failure of any kind. *)
Definition fxp_call (type : Z) (body : str) (valid_responses : list Z) : FT (option str) :=
  id ← fxp_request type body;
  match id with
  | None => mret None
  | Some id =>
      d ← libssh2_sftp_packet_requirev valid_responses id;
      match d with
      | None => the_error LIBSSH2_ERROR_SOCKET_TIMEOUT;; mret None
      | Some d => mret (Some d)
      end
  end.

(** The status that a request is answered with. *)
Definition fxp_status (type : Z) (body : str) : FT (option Z) :=
  id ← fxp_request type body;
  match id with
  | None => mret None
  | Some id =>
      d ← libssh2_sftp_packet_require SSH_FXP_STATUS id;
      match d with
      | None => the_error LIBSSH2_ERROR_SOCKET_TIMEOUT;; mret None
      | Some d => retcode ← of_session (ntohu32 d 5); mret (Some retcode)
      end
  end.

Definition protocol_error (retcode : Z) : FT Z :=
  set_last_errno retcode;; the_error LIBSSH2_ERROR_SFTP_PROTOCOL;; mret (-1)%Z.

(** 0 for a success, -1 for everything else. *)
Definition status_code (retcode : Z) : FT Z :=
  if (retcode =? LIBSSH2_FX_OK)%Z then mret 0%Z else protocol_error retcode.

Definition fxp_simple (type : Z) (body : str) : FT Z :=
  st ← fxp_status type body;
  match st with None => mret (-1)%Z | Some retcode => status_code retcode end.

Definition is_status (data : str) : FT bool :=
  t ← of_session (byte_at data 0); mret (t =? SSH_FXP_STATUS)%Z.

(** ** The start and the end *)

(** The extensions of the server, which are skipped. *)
Fixpoint skip_extensions (fuel : nat) (data : str) (s : nat) : res () :=
  if decide (length data ≤ s) then Ok () else
  match fuel with
  | O => Undef
  | S fuel =>
      let! (name, s) := u32_at data s in
      let! (extdata_len, s) := u32_at data (s + Z.to_nat name) in
      skip_extensions fuel data (s + Z.to_nat extdata_len)
  end.

Definition give_back (channel : Z) : ST (option sftp) :=
  _ ← libssh2_channel_free e kex_exchange channel; mret None.

Definition libssh2_sftp_init : ST (option sftp) :=
  ch ← channel_open_session e kex_exchange;
  match ch with
  | None => libssh2_error LIBSSH2_ERROR_CHANNEL_FAILURE;; mret None
  | Some i =>
      rc ← channel_subsystem e kex_exchange i &"sftp";
      if negb (rc =? 0)%Z then libssh2_error LIBSSH2_ERROR_CHANNEL_FAILURE;; give_back i else
      libssh2_channel_set_blocking i true;;
      libssh2_channel_handle_extended_data e i LIBSSH2_CHANNEL_EXTENDED_DATA_IGNORE;;
      ok ← alloc e;
      if negb ok then libssh2_error LIBSSH2_ERROR_ALLOC;; give_back i else
      sent ← channel_write_all e kex_exchange i
               (libssh2_htonu32 5 ++ of_code SSH_FXP_INIT :: libssh2_htonu32 LIBSSH2_SFTP_VERSION);
      if negb sent then libssh2_error LIBSSH2_ERROR_SOCKET_SEND;; give_back i else
      r ← libssh2_sftp_packet_require SSH_FXP_VERSION 0 (mk_sftp i 0 0 [] 0);
      match r.1 with
      | None => libssh2_error LIBSSH2_ERROR_SOCKET_TIMEOUT;; give_back i
      | Some data =>
          if decide (length data < 5) then libssh2_error LIBSSH2_ERROR_SFTP_PROTOCOL;; give_back i else
          v ← ntohu32 data 1;
          _ ← lift (skip_extensions (length data) data 5);
          update_channel i (set_close_cb true);;
          let f := r.2 in
          mret (Some (mk_sftp i (request_id f) (Z.min v LIBSSH2_SFTP_VERSION) (sf_packets f) (last_errno f)))
      end
  end.

(** [libssh2_sftp_dtor], the callback of the channel, finds no handle to close. *)
Definition libssh2_sftp_shutdown (f : sftp) : ST Z := libssh2_channel_free e kex_exchange (sf_channel f).

(** ** Files and directories *)

Definition libssh2_sftp_open_ex (filename : str) (flags mode open_type : Z) : FT (option handle) :=
  let file := (open_type =? LIBSSH2_SFTP_OPENFILE)%Z in
  let kind := if file then LIBSSH2_SFTP_ATTR_PFILETYPE_FILE else LIBSSH2_SFTP_ATTR_PFILETYPE_DIR in
  let body := ssh_string filename ++
    if file then libssh2_htonu32 flags ++
                 libssh2_sftp_attr2bin (Some (permissions_only (Z.lor mode kind)))
    else [] in
  d ← fxp_call (if file then SSH_FXP_OPEN else SSH_FXP_OPENDIR) body [SSH_FXP_HANDLE; SSH_FXP_STATUS];
  match d with
  | None => mret None
  | Some d =>
      st ← is_status d;
      if (st : bool) then
        the_error LIBSSH2_ERROR_SFTP_PROTOCOL;;
        code ← of_session (ntohu32 d 5); set_last_errno code;; mret None
      else
        ok ← of_session (alloc e);
        if negb ok then the_error LIBSSH2_ERROR_ALLOC;; mret None else
        len ← of_session (ntohu32 d 5);
        (* the length is an int, so one from 2^31 on is not more than 256 *)
        let handle_len := if decide (256 < wrap_s 32 len)%Z then 256%Z else wrap_s 32 len in
        ok ← of_session (alloc e);
        if negb ok then the_error LIBSSH2_ERROR_ALLOC;; mret None else
        if decide (handle_len < 0)%Z then stop else
        name ← of_session (bytes (Z.to_nat handle_len) d 9);
        mret (Some (mk_handle name (if file then H_file 0 else H_dir 0 [] 0)))
  end.

(** The number of bytes and the bytes, -1 when there are none; more than the buffer has
    room for are written behind its end. The position belongs to a file: that of a
    directory is where its names are kept. *)
Definition libssh2_sftp_read (h : handle) (buffer_maxlen : nat) : FT (Z * str * handle) :=
  match h_data h with
  | H_dir _ _ _ => stop
  | H_file offset =>
      d ← fxp_call SSH_FXP_READ
            (ssh_string (h_name h) ++ libssh2_htonu64 offset ++ libssh2_htonu32 (Z.of_nat buffer_maxlen))
            [SSH_FXP_DATA; SSH_FXP_STATUS];
      match d with
      | None => mret ((-1)%Z, [], h)
      | Some d =>
          st ← is_status d;
          v ← of_session (ntohu32 d 5);
          if (st : bool) then
            set_last_errno v;; the_error LIBSSH2_ERROR_SFTP_PROTOCOL;; mret ((-1)%Z, [], h)
          else if (u32 (Z.of_nat (length d) - 9) <? v)%Z then mret ((-1)%Z, [], h)
          else
            b ← of_session (bytes (Z.to_nat v) d 9);
            if decide (buffer_maxlen < length b) then stop
            else mret (v, b, mk_handle (h_name h) (H_file (wrap_u 64 (offset + v))))
      end
  end.

(** The name at a position, cut to the buffer, its attributes, and the position of the
    next one. *)
Definition name_at (buffer_maxlen : nat) (data : str) (s : nat) : res (str * attributes * nat) :=
  let! (real_filename_len, s) := u32_at data s in
  let! name := bytes_at (Nat.min (Z.to_nat real_filename_len) buffer_maxlen) data s in
  let s := s + Z.to_nat real_filename_len in
  let! (longname_len, s) := u32_at data s in
  let s := s + Z.to_nat longname_len in
  let! (attrs, s) := libssh2_sftp_bin2attr data s in
  Ok ((name, attrs), s).

(** A name that an earlier answer had. *)
Definition pop_name (h : handle) (names_left : Z) (packet : str) (next : nat) (buffer_maxlen : nat)
    : FT (Z * str * option attributes * handle) :=
  r ← of_res (name_at buffer_maxlen packet next);
  let '(name, attrs, s) := r in
  mret (Z.of_nat (length name), name, Some attrs, mk_handle (h_name h) (H_dir (names_left - 1) packet s)).

(** The length and the name, 0 at the end, -1 on failure. A single name leaves the
    attributes aside when they are not wanted. *)
Definition libssh2_sftp_readdir (h : handle) (buffer_maxlen : nat) (wanted : bool)
    : FT (Z * str * option attributes * handle) :=
  match h_data h with
  | H_file _ => stop
  | H_dir names_left packet next =>
      if negb (names_left =? 0)%Z then pop_name h names_left packet next buffer_maxlen else
      d ← fxp_call SSH_FXP_READDIR (ssh_string (h_name h)) [SSH_FXP_NAME; SSH_FXP_STATUS];
      match d with
      | None => mret ((-1)%Z, [], None, h)
      | Some d =>
          st ← is_status d;
          v ← of_session (ntohu32 d 5);
          if (st : bool) then
            if (v =? LIBSSH2_FX_EOF)%Z then mret (0%Z, [], None, h)
            else rc ← protocol_error v; mret (rc, [], None, h)
          else if (v =? 0)%Z then mret (0%Z, [], None, h)
          else if (v =? 1)%Z then
            n ← of_session (ntohu32 d 9);
            name ← of_session (bytes (Nat.min (Z.to_nat n) buffer_maxlen) d 13);
            if negb wanted then mret (Z.of_nat (length name), name, None, h) else
            r ← of_res (name_at buffer_maxlen d 9);
            mret (Z.of_nat (length name), name, Some r.1.2, h)
          else pop_name h v d 9 buffer_maxlen
      end
  end.

Definition libssh2_sftp_write (h : handle) (buffer : str) : FT (Z * handle) :=
  match h_data h with
  | H_dir _ _ _ => stop
  | H_file offset =>
      let count := Z.of_nat (length buffer) in
      st ← fxp_status SSH_FXP_WRITE (ssh_string (h_name h) ++ libssh2_htonu64 offset ++ ssh_string buffer);
      match st with
      | None => mret ((-1)%Z, h)
      | Some retcode =>
          if (retcode =? LIBSSH2_FX_OK)%Z
          then mret (count, mk_handle (h_name h) (H_file (wrap_u 64 (offset + count))))
          else rc ← protocol_error retcode; mret (rc, h)
      end
  end.

(** The answer of a request for attributes. *)
Definition stat_answer (attrs : attributes) (d : str) : FT (Z * attributes) :=
  st ← is_status d;
  if (st : bool) then retcode ← of_session (ntohu32 d 5); rc ← status_code retcode; mret (rc, attrs)
  else r ← of_res (libssh2_sftp_bin2attr d 5); mret (0%Z, r.1).

Definition libssh2_sftp_fstat_ex (h : handle) (attrs : attributes) (setstat : bool) : FT (Z * attributes) :=
  d ← fxp_call (if setstat then SSH_FXP_FSETSTAT else SSH_FXP_FSTAT)
        (ssh_string (h_name h) ++ if setstat then libssh2_sftp_attr2bin (Some attrs) else [])
        [SSH_FXP_ATTRS; SSH_FXP_STATUS];
  match d with None => mret ((-1)%Z, attrs) | Some d => stat_answer attrs d end.

Definition libssh2_sftp_seek (h : handle) (offset : Z) : FT handle :=
  match h_data h with
  | H_file _ => mret (mk_handle (h_name h) (H_file (u32 offset)))
  | H_dir _ _ _ => stop
  end.

Definition libssh2_sftp_tell (h : handle) : FT Z :=
  match h_data h with H_file offset => mret (u32 offset) | H_dir _ _ _ => stop end.

(** The handle is freed when the answer is a success. *)
Definition libssh2_sftp_close_handle (h : handle) : FT Z := fxp_simple SSH_FXP_CLOSE (ssh_string (h_name h)).

(** ** Names *)

Definition libssh2_sftp_unlink_ex (filename : str) : FT Z := fxp_simple SSH_FXP_REMOVE (ssh_string filename).

Definition libssh2_sftp_rename_ex (source dest : str) (flags : Z) : FT Z :=
  f ← get_sftp;
  if (sf_version f <? 2)%Z then the_error LIBSSH2_ERROR_SFTP_PROTOCOL;; mret (-1)%Z else
  fxp_simple SSH_FXP_RENAME (ssh_string source ++ ssh_string dest ++
                             if (5 <=? sf_version f)%Z then libssh2_htonu32 flags else []).

Definition libssh2_sftp_mkdir_ex (path : str) (mode : Z) : FT Z :=
  fxp_simple SSH_FXP_MKDIR (ssh_string path ++
    libssh2_sftp_attr2bin (Some (permissions_only (Z.lor mode LIBSSH2_SFTP_ATTR_PFILETYPE_DIR)))).

Definition libssh2_sftp_rmdir_ex (path : str) : FT Z := fxp_simple SSH_FXP_RMDIR (ssh_string path).

Definition libssh2_sftp_stat_ex (path : str) (stat_type : Z) (attrs : attributes) : FT (Z * attributes) :=
  let type := if (stat_type =? LIBSSH2_SFTP_SETSTAT)%Z then SSH_FXP_SETSTAT
              else if (stat_type =? LIBSSH2_SFTP_LSTAT)%Z then SSH_FXP_LSTAT else SSH_FXP_STAT in
  d ← fxp_call type
        (ssh_string path ++
         if (stat_type =? LIBSSH2_SFTP_SETSTAT)%Z then libssh2_sftp_attr2bin (Some attrs) else [])
        [SSH_FXP_ATTRS; SSH_FXP_STATUS];
  match d with None => mret ((-1)%Z, attrs) | Some d => stat_answer attrs d end.

(** [target] is the other name of a new link, and the buffer for the name of an old
    one: its last byte is for the terminator, and an empty buffer has none. *)
Definition libssh2_sftp_symlink_ex (path target : str) (link_type : Z) : FT (Z * str) :=
  f ← get_sftp;
  if (sf_version f <? 3)%Z && negb (link_type =? LIBSSH2_SFTP_REALPATH)%Z
  then the_error LIBSSH2_ERROR_SFTP_PROTOCOL;; mret ((-1)%Z, target) else
  let type := if (link_type =? LIBSSH2_SFTP_REALPATH)%Z then SSH_FXP_REALPATH
              else if (link_type =? LIBSSH2_SFTP_SYMLINK)%Z then SSH_FXP_SYMLINK else SSH_FXP_READLINK in
  d ← fxp_call type
        (ssh_string path ++ if (link_type =? LIBSSH2_SFTP_SYMLINK)%Z then ssh_string target else [])
        [SSH_FXP_NAME; SSH_FXP_STATUS];
  match d with
  | None => mret ((-1)%Z, target)
  | Some d =>
      st ← is_status d;
      if (st : bool) then retcode ← of_session (ntohu32 d 5); rc ← status_code retcode; mret (rc, target)
      else
        names ← of_session (ntohu32 d 5);
        if (names <? 1)%Z then the_error LIBSSH2_ERROR_SFTP_PROTOCOL;; mret ((-1)%Z, target) else
        len ← of_session (ntohu32 d 9);
        if decide (target = []) then stop else
        let link_len := Nat.min (Z.to_nat len) (length target - 1) in
        name ← of_session (bytes link_len d 13);
        mret (Z.of_nat link_len, name ++ NUL :: drop (S link_len) target)
  end.

Definition libssh2_sftp_last_error (f : sftp) : Z := last_errno f.
End sftp.

(** ** Properties: attributes *)

(** What the other side keeps of attributes: the flags that are known, and the fields
    they stand for; of a size the lower half. *)
Definition kept (a : attributes) : attributes :=
  let f := Z.land (attr_flags a) flag_mask in
  let keep (bit v : Z) := if has (attr_flags a) bit then v else 0%Z in
  mk_attributes f (keep LIBSSH2_SFTP_ATTR_SIZE (u32 (filesize a)))
    (keep LIBSSH2_SFTP_ATTR_UIDGID (uid a)) (keep LIBSSH2_SFTP_ATTR_UIDGID (gid a))
    (keep LIBSSH2_SFTP_ATTR_PERMISSIONS (permissions a))
    (keep LIBSSH2_SFTP_ATTR_ACMODTIME (atime a)) (keep LIBSSH2_SFTP_ATTR_ACMODTIME (mtime a)).

(** The fields have their width. *)
Definition attributes_ok (a : attributes) : Prop :=
  in_u 32 (attr_flags a) ∧ in_u 64 (filesize a) ∧ in_u 32 (uid a) ∧ in_u 32 (gid a) ∧
  in_u 32 (permissions a) ∧ in_u 32 (atime a) ∧ in_u 32 (mtime a).

Lemma has_masked f bit : Z.land flag_mask bit = bit → has (Z.land f flag_mask) bit = has f bit.
Proof. intros H. unfold has. by rewrite <- Z.land_assoc, H. Qed.

Lemma reads_u64 v : in_u 64 v → reads u64_at (libssh2_htonu64 v) (u32 v).
Proof. intros Hv before after_. unfold u64_at. rewrite ntohu64_at by done. by rewrite length_app. Qed.

Lemma reads_pair a b : in_u 32 a → in_u 32 b → reads pair_at (libssh2_htonu32 a ++ libssh2_htonu32 b) (a, b).
Proof.
  intros Ha Hb. unfold pair_at. eapply reads_bind; [by apply reads_u32|].
  rewrite <- (app_nil_r (libssh2_htonu32 b)). eapply reads_bind; [by apply reads_u32|]. apply reads_ret.
Qed.

Lemma reads_if_has {A} flags bit (absent a : A) r b :
  (has flags bit = true → reads r b a) →
  reads (if_has flags bit absent r) (if has flags bit then b else []) (if has flags bit then a else absent).
Proof. intros H. unfold if_has. destruct (has flags bit); [by apply H|]. apply reads_ret. Qed.

(** Attributes that are sent are read back, wherever they are in a packet. *)
Lemma reads_attributes a :
  attributes_ok a → reads libssh2_sftp_bin2attr (libssh2_sftp_attr2bin (Some a)) (kept a).
Proof.
  intros (Hf & Hs & Hu & Hg & Hp & Hat & Hm).
  unfold libssh2_sftp_bin2attr, libssh2_sftp_attr2bin, kept. cbv zeta.
  eapply reads_bind.
  { apply reads_u32. change flag_mask with (Z.ones 4). rewrite Z.land_ones by done.
    pose proof (Z.mod_pos_bound (attr_flags a) (2 ^ 4)). unfold in_u. lia. }
  rewrite <- !(has_masked (attr_flags a)) by done. set (f := Z.land _ _).
  eapply reads_bind; [apply reads_if_has; intros _; by apply reads_u64|].
  eapply reads_bind; [apply reads_if_has; intros _; by apply reads_pair|].
  eapply reads_bind; [apply reads_if_has; intros _; by apply reads_u32|].
  rewrite <- (app_nil_r (if has f LIBSSH2_SFTP_ATTR_ACMODTIME then _ else _)).
  eapply reads_bind; [apply reads_if_has; intros _; by apply reads_pair|].
  eapply reads_ext; [|apply reads_ret]. intros d s. cbn beta.
  by destruct (has f LIBSSH2_SFTP_ATTR_UIDGID), (has f LIBSSH2_SFTP_ATTR_ACMODTIME).
Qed.

(** C38. Attributes that are sent are read back as they were, as far as their flags are
    known, wherever they are in a packet, but for the upper half of a size; and they
    take as many bytes as are allocated for them. *)
Theorem attributes_roundtrip a before after_ :
  attributes_ok a →
  libssh2_sftp_bin2attr (before ++ libssh2_sftp_attr2bin (Some a) ++ after_) (length before) =
    Ok (kept a, length (before ++ libssh2_sftp_attr2bin (Some a))) ∧
  Z.of_nat (length (libssh2_sftp_attr2bin (Some a))) = libssh2_sftp_attrsize (Some a).
Proof.
  intros Ha. split; [by apply reads_attributes|].
  unfold libssh2_sftp_attr2bin, libssh2_sftp_attrsize. rewrite !length_app, length_htonu32.
  repeat case_match; cbn; lia.
Qed.

Lemma attributes_roundtrip_witness :
  let a := mk_attributes 5 (2 ^ 32 + 7) 0 0 420 0 0 in
  libssh2_sftp_bin2attr (&"ab" ++ libssh2_sftp_attr2bin (Some a) ++ &"c") 2 = Ok (mk_attributes 5 7 0 0 420 0 0, 18).
Proof.
  intros a.
  exact (proj1 (attributes_roundtrip a &"ab" &"c" ltac:(vm_compute; split_and!; congruence))).
Defined.

(** ** Properties: names *)

(** A name of a directory: its short and its long form, and its attributes. *)
Record dir_entry := { de_name : str; de_long : str; de_attrs : attributes }.

Definition entry_ok (d : dir_entry) : Prop := sized (de_name d) ∧ sized (de_long d) ∧ attributes_ok (de_attrs d).

Definition entry_bytes (d : dir_entry) : str :=
  ssh_string (de_name d) ++ ssh_string (de_long d) ++ libssh2_sftp_attr2bin (Some (de_attrs d)).

Lemma reads_name buffer_maxlen d :
  entry_ok d → reads (name_at buffer_maxlen) (entry_bytes d) (take buffer_maxlen (de_name d), kept (de_attrs d)).
Proof.
  intros (Hn & Hl & Ha) before after_. unfold name_at, entry_bytes, ssh_string. rewrite <- !app_assoc.
  rewrite u32_at_spec by (unfold sized, in_u in *; lia). cbn [rbind]. rewrite Nat2Z.id.
  set (b1 := before ++ libssh2_htonu32 (Z.of_nat (length (de_name d)))).
  assert (E1 : length before + 4 = length b1) by (unfold b1; by rewrite length_app, length_htonu32).
  rewrite E1, (app_assoc before). fold b1.
  assert (Eb : ∀ rest, bytes_at (Nat.min (length (de_name d)) buffer_maxlen) (b1 ++ de_name d ++ rest) (length b1) =
               Ok (take buffer_maxlen (de_name d))).
  { intros rest. unfold bytes_at. rewrite decide_True by (rewrite !length_app; lia). rewrite drop_app_length.
    f_equal. rewrite take_app_le by lia.
    destruct (Nat.le_gt_cases buffer_maxlen (length (de_name d))); [by rewrite Nat.min_r|].
    by rewrite Nat.min_l, !take_ge by lia. }
  rewrite Eb. cbn [rbind].
  rewrite (app_assoc b1), <- length_app. rewrite u32_at_spec by (unfold sized, in_u in *; lia). cbn [rbind].
  rewrite Nat2Z.id. set (b2 := (b1 ++ de_name d) ++ libssh2_htonu32 (Z.of_nat (length (de_long d)))).
  assert (E2 : length (b1 ++ de_name d) + 4 = length b2) by (unfold b2; rewrite !length_app, length_htonu32; lia).
  rewrite E2, (app_assoc (b1 ++ de_name d)). fold b2. rewrite (app_assoc b2), <- length_app.
  rewrite (reads_attributes (de_attrs d) Ha). cbn [rbind]. do 3 f_equal. unfold b2, b1.
  by rewrite !app_assoc.
Qed.

Section dir.
Context (e : surroundings) (kex_exchange : ST Z) (buffer_maxlen : nat).

(** As many calls as there are names. *)
Fixpoint readdirs (n : nat) (h : handle) : FT (list (str * option attributes) * handle) :=
  match n with
  | O => mret ([], h)
  | S n =>
      r ← libssh2_sftp_readdir e kex_exchange h buffer_maxlen true;
      let '(rc, name, attrs, h) := r in
      r ← readdirs n h;
      mret ((name, attrs) :: r.1, r.2)
  end.

(** The names of one answer are given back one by one and in their order, each with
    its attributes and cut to the buffer, without another word to the server, until
    none is left. *)
Lemma readdir_names name before entries after_ f s :
  Forall entry_ok entries →
  let packet := before ++ flat_map entry_bytes entries ++ after_ in
  readdirs (length entries) (mk_handle name (H_dir (Z.of_nat (length entries)) packet (length before))) f s =
    Ok (((λ d, (take buffer_maxlen (de_name d), Some (kept (de_attrs d)))) <$> entries,
         mk_handle name (H_dir 0 packet (length (before ++ flat_map entry_bytes entries)))), f, s).
Proof.
  intros H. revert before. induction H as [|d entries Hd _ IH]; intros before packet.
  { cbn. by rewrite app_nil_r. }
  assert (Ep : packet = (before ++ entry_bytes d) ++ flat_map entry_bytes entries ++ after_).
  { unfold packet. cbn [flat_map]. by rewrite <- !app_assoc. }
  pose (first := take buffer_maxlen (de_name d)).
  assert (Es : libssh2_sftp_readdir e kex_exchange
      (mk_handle name (H_dir (Z.of_nat (length (d :: entries))) packet (length before))) buffer_maxlen true f s =
    Ok ((Z.of_nat (length first), first, Some (kept (de_attrs d)),
         mk_handle name (H_dir (Z.of_nat (length entries)) packet (length (before ++ entry_bytes d)))), f, s)).
  { unfold libssh2_sftp_readdir. cbn [h_data length]. rewrite (proj2 (Z.eqb_neq _ _)) by lia. cbn [negb].
    unfold pop_name.
    rewrite (FT_bind_Ok _ _ f s ((first, kept (de_attrs d)), length (before ++ entry_bytes d)) f s).
    - replace (Z.of_nat (S (length entries)) - 1)%Z with (Z.of_nat (length entries)) by lia. done.
    - apply of_session_Ok. unfold lift. by rewrite Ep, <- app_assoc, reads_name. }
  cbn [readdirs]. change (length (d :: entries)) with (S (length entries)) in Es |- *. cbn [readdirs].
  rewrite (FT_bind_Ok _ _ _ _ _ _ _ Es).
  cbn beta iota. rewrite Ep. erewrite FT_bind_Ok by apply IH.
  cbn [fst snd fmap list_fmap flat_map]. by rewrite <- !app_assoc.
Qed.
End dir.

Lemma readdir_names_witness :
  let entry n := {| de_name := n; de_long := &"-rw " ++ n; de_attrs := permissions_only 420 |} in
  let packet := &"h" ++ flat_map entry_bytes [entry &"a.txt"; entry &"bb"] in
  ∃ h, readdirs demo_surroundings undefined 3 2 (mk_handle &"d" (H_dir 2 packet 1)) (mk_sftp 0 0 3 [] 0) (demo_session []) =
    Ok (([(&"a.t", Some (permissions_only 420)); (&"bb", Some (permissions_only 420))], h),
        mk_sftp 0 0 3 [] 0, demo_session []) ∧
    ∃ s, h_data h = H_dir 0 packet s.
Proof.
  intros entry packet.
  pose proof (readdir_names demo_surroundings undefined 3 &"d" &"h" [entry &"a.txt"; entry &"bb"] []
    (mk_sftp 0 0 3 [] 0) (demo_session [])) as H.
  eexists. split.
  - apply H. repeat constructor; vm_compute; congruence.
  - by eexists.
Defined.

(** ** Properties: requests and answers *)

(** The length in front of a request is that of what follows. *)
Lemma fxp_packet_length type id body :
  sized (fxp_packet type id body) →
  libssh2_ntohu32 (fxp_packet type id body) 0 = Ok (Z.of_nat (length (fxp_packet type id body)) - 4)%Z.
Proof.
  unfold fxp_packet. intros Hs.
  assert (El : length (libssh2_htonu32 (Z.of_nat (5 + length body)) ++ of_code type :: libssh2_htonu32 id ++ body) =
               9 + length body) by done.
  unfold sized in Hs. rewrite El in Hs |- *.
  pose proof (ntohu32_at [] (Z.of_nat (5 + length body)) (of_code type :: libssh2_htonu32 id ++ body)) as E.
  cbn [app length] in E. rewrite E by (unfold in_u; lia). f_equal. lia.
Qed.

(** Until 2^24 requests were made, an answer is taken for that of any request: the
    comparison of the identifiers ends at their first byte, which is zero. *)
Lemma answer_of_any_request packet_type id id' rest :
  packet_type ≠ SSH_FXP_VERSION → (0 ≤ id < 2 ^ 24)%Z → (0 ≤ id' < 2 ^ 24)%Z →
  take_packet (match_buf packet_type id) [of_code packet_type :: libssh2_htonu32 id' ++ rest] =
    Ok (Some (of_code packet_type :: libssh2_htonu32 id' ++ rest), []).
Proof.
  intros Ht H H'. unfold match_buf. rewrite (proj2 (Z.eqb_neq _ _)) by done.
  destruct (htonu32_small id) as [l E]; [done|]. destruct (htonu32_small id') as [l' E']; [done|].
  rewrite E, E'. cbn [take_packet length strncmp_is_0 app]. rewrite decide_True by done.
  case_decide; [done|]. cbn. by rewrite decide_True by done.
Qed.

(** Every request has the identifier that is next, and moves it on, also when it cannot
    be sent. *)
Lemma fxp_request_id e kex_exchange type body f s r f1 s1 :
  fxp_request e kex_exchange type body f s = Ok ((r, f1), s1) →
  (request_id f1 = request_id f ∧ r = None) ∨
  (request_id f1 = u32 (request_id f + 1) ∧ (r = None ∨ r = Some (request_id f))).
Proof.
  unfold fxp_request, of_session, the_error, get_sftp, put_sftp, stop, of_session.
  unfold mbind, FT_bind, mbind, ST_bind, mret, FT_ret, mret, ST_ret.
  destruct (alloc e s) as [[[] s2]|?|]; cbn [negb fst snd]; [| |done|done].
  - case_decide; [done|]. destruct (channel_write_all _ _ _ _ _) as [[[] s3]|?|]; cbn; [..|done|done];
      intros [= <- <- _]; right; cbn; auto.
  - cbn. intros [= <- <- _]. by left.
Qed.

(** A write that the server takes moves the position by what was written, one that it
    refuses or that fails leaves it. *)
Lemma write_moves e kex_exchange name offset buffer f s rc h f1 s1 :
  libssh2_sftp_write e kex_exchange (mk_handle name (H_file offset)) buffer f s = Ok ((rc, h), f1, s1) →
  (rc = Z.of_nat (length buffer) ∧ h = mk_handle name (H_file (wrap_u 64 (offset + Z.of_nat (length buffer))))) ∨
  (rc = (-1)%Z ∧ h = mk_handle name (H_file offset)).
Proof.
  unfold libssh2_sftp_write. cbn [h_data h_name].
  unfold mbind at 1, FT_bind at 1, mbind at 1, ST_bind at 1.
  destruct (fxp_status _ _ _ _ _ _) as [[[st f2] s2]|?|]; [|done|done]. cbn [fst snd].
  destruct st as [retcode|]; [|intros [= <- <- _ _]; by right].
  destruct (retcode =? LIBSSH2_FX_OK)%Z; [intros [= <- <- _ _]; by left|].
  cbn. intros [= <- <- _ _]. by right.
Qed.
