(* ===== verification/SshClient.v ===== *)
(** * The SSH client of the agent ([ssh/pandora_ssh_client.cc])

    A connection, a login with a key pair, the copy of a file and the end, on libssh2.
    The network, OpenSSL and what a connection will receive are arguments.

    [newConnection] prints two digits, a colon and the terminator into [char_aux],
    which has three bytes: [padded] says whether the byte behind it is free, as
    nothing goes on otherwise. *)
From S2P Require Import Prelude StdString AgentConf PandoraFile Ssh2Misc Ssh2Session Ssh2Comp Ssh2Packet Ssh2Channel Ssh2Kex Ssh2Keeps Openssl Ssh2Hostkey Ssh2Dh Ssh2Startup Ssh2Auth Ssh2Scp.

Definition SOCKET_ERROR : Z := -1.
Definition AUTHENTICATION_FAILED : Z := 12.
Definition SESSION_ALREADY_OPENED : Z := 15.
Definition RESOLV_FAILED : Z := 16.
Definition CONNECTION_FAILED : Z := 17.
Definition SESSION_ERROR : Z := 18.
Definition SESSION_NOT_OPENED : Z := 19.

(** [Pandora_Ssh_Client]; [None] is the null pointer. *)
Record Pandora_Ssh_Client := {
  sock : Z;
  fingerprint : str;
  ssh_session : option session;
  ssh_channel : option Z }.

Definition new_client : Pandora_Ssh_Client :=
  {| sock := 0; fingerprint := []; ssh_session := None; ssh_channel := None |}.

Definition set_sock (v : Z) (c : Pandora_Ssh_Client) : Pandora_Ssh_Client :=
  {| sock := v; fingerprint := fingerprint c; ssh_session := ssh_session c; ssh_channel := ssh_channel c |}.
Definition set_fingerprint (v : str) (c : Pandora_Ssh_Client) : Pandora_Ssh_Client :=
  {| sock := sock c; fingerprint := v; ssh_session := ssh_session c; ssh_channel := ssh_channel c |}.
Definition set_session (v : option session) (c : Pandora_Ssh_Client) : Pandora_Ssh_Client :=
  {| sock := sock c; fingerprint := fingerprint c; ssh_session := v; ssh_channel := ssh_channel c |}.
Definition set_channel (v : option Z) (c : Pandora_Ssh_Client) : Pandora_Ssh_Client :=
  {| sock := sock c; fingerprint := fingerprint c; ssh_session := ssh_session c; ssh_channel := v |}.

(** Methods that change the client. *)
Definition CL (A : Type) : Type := Pandora_Ssh_Client → res (A * Pandora_Ssh_Client).

#[global] Instance CL_ret : MRet CL := λ A a c, Ok (a, c).
#[global] Instance CL_bind : MBind CL := λ A B k m c,
  match m c with Ok (a, c) => k a c | Err x => Err x | Undef => Undef end.

Definition client : CL Pandora_Ssh_Client := λ c, Ok (c, c).
Definition change (f : Pandora_Ssh_Client → Pandora_Ssh_Client) : CL () := λ c, Ok ((), f c).

(** A call of libssh2 with [session]. *)
Definition on_session {A} (m : ST A) : CL A := λ c,
  match ssh_session c with
  | None => Undef
  | Some s =>
      match m s with
      | Ok (a, s) => Ok (a, set_session (Some s) c)
      | Err x => Err x
      | Undef => Undef
      end
  end.

(** What the network gives: a socket, addresses of hosts, whether the connection is
    made, and what will be received over it. *)
Record network := {
  new_socket : Z;
  gethostbyname : str → option str;
  connects : str → Z → bool;
  replies : list recv_event }.

Definition hex_pair (c : chr) : str :=
  [hex_digit (code c / 16); hex_digit (code c mod 16)].

Section client.
Context `{ssl : openssl} (e : surroundings) (net : network) (fs : files).
Context (no_crypt : crypt_method) (no_mac : mac_method) (no_comp : comp_method).
Context (kex_exchange : bool → ST Z).
Context (open_file : str → option str).
Context (tries : nat).
Context (padded : bool).

(** [disconnect]; the socket is closed. *)
Definition disconnect : CL () :=
  c ← client;
  (match ssh_channel c with
   | None => mret ()
   | Some i =>
       _ ← on_session (libssh2_channel_send_eof e i);
       _ ← on_session (libssh2_channel_close e i);
       _ ← on_session (libssh2_channel_wait_closed e (kex_exchange true) i);
       _ ← on_session (libssh2_channel_free e (kex_exchange true) i);
       change (set_channel None)
   end);;
  c ← client;
  (match ssh_session c with
   | None => mret ()
   | Some _ =>
       _ ← on_session (libssh2_session_disconnect_ex e SSH_DISCONNECT_BY_APPLICATION (Some []) (Some []));
       on_session (libssh2_session_free e kex_exchange tries);;
       change (set_session None)
   end);;
  change (set_sock 0).

(** [finger_aux\[i\]] is defined up to the terminator. *)
Fixpoint finger_digits (n : nat) (finger_aux : str) : option str :=
  match n with
  | 0 => Some []
  | S n =>
      match finger_aux with
      | c :: rest => (λ t, hex_pair c ++ ":"%char :: t) <$> finger_digits n rest
      | [] => if decide (n = 0) then Some (hex_pair NUL ++ &":") else None
      end
  end.

Definition newConnection (host : str) (port : Z) : CL Z :=
  c ← client;
  match ssh_session c with
  | Some _ => mret SESSION_ALREADY_OPENED
  | None =>
      change (set_sock (new_socket net));;
      if (new_socket net =? -1)%Z then mret SOCKET_ERROR else
      match gethostbyname net (c_str host) with
      | None => disconnect;; mret RESOLV_FAILED
      | Some addr =>
          if negb (connects net addr (wrap_u 16 port)) then disconnect;; mret CONNECTION_FAILED else
          match libssh2_session_init_ex e no_crypt no_mac no_comp (replies net) with
          | Err x => λ _, Err x
          | Undef => λ _, Undef
          | Ok s =>
              change (set_session (Some s));;
              rc ← on_session (libssh2_session_startup e kex_exchange (new_socket net));
              if negb (rc =? 0)%Z then disconnect;; mret SESSION_ERROR else
              c ← client;
              match from_option (λ s, finger_digits 16 (c_str (server_hostkey_md5 s))) None (ssh_session c) with
              | Some t =>
                  if padded then change (set_fingerprint (take (length t - 1) t));; mret 0%Z
                  else λ _, Undef
              | None => λ _, Undef
              end
          end
      end
  end.

(** The result of [newConnection] is not looked at. *)
Definition connectWithPublicKey (host : str) (port : Z)
    (username filename_pubkey filename_privkey passphrase : str) : CL Z :=
  _ ← newConnection host port;
  c ← client;
  match ssh_session c with
  | None => mret 0%Z
  | Some _ =>
      rc ← on_session (libssh2_userauth_publickey_fromfile_ex e (kex_exchange true) open_file
             (c_str username) (c_str filename_pubkey) (c_str filename_privkey) (c_str passphrase));
      if negb (rc =? 0)%Z then disconnect;; mret AUTHENTICATION_FAILED else mret 0%Z
  end.

(** The number of bytes sent is unsigned, so it is never below 0. *)
Definition scpFileFilename (remote_filename filename : str) : CL Z :=
  c ← client;
  match ssh_session c with
  | None => mret SESSION_NOT_OPENED
  | Some _ =>
      let (rc, buffer) := readFile fs filename [] in
      if (rc =? FILE_NOT_FOUND)%Z then mret rc else
      scp_channel ← on_session (libssh2_scp_send_ex e (kex_exchange true) (c_str remote_filename) 438
                                  (Z.of_nat (length buffer)) 0 0);
      match scp_channel with
      | None => λ _, Err Channel_Error
      | Some i =>
          on_session (libssh2_channel_set_blocking i true);;
          _ ← on_session (libssh2_channel_write_ex e (kex_exchange true) i 0 buffer);
          _ ← on_session (libssh2_channel_send_eof e i);
          _ ← on_session (libssh2_channel_close e i);
          _ ← on_session (libssh2_channel_wait_closed e (kex_exchange true) i);
          _ ← on_session (libssh2_channel_free e (kex_exchange true) i);
          mret 0%Z
      end
  end.

Definition getFingerprint : CL str := c ← client; mret (fingerprint c).

(** [~Pandora_Ssh_Client] *)
Definition delete_client : CL () :=
  c ← client;
  match ssh_session c with Some _ => disconnect | None => mret () end.
End client.

(** ** Nothing is copied without a login *)

Lemma CL_inv {A B} (m : CL A) (k : A → CL B) c b c2 :
  (m ≫= k) c = Ok (b, c2) → ∃ a c1, m c = Ok (a, c1) ∧ k a c1 = Ok (b, c2).
Proof. unfold mbind, CL_bind. destruct (m c) as [[a c1]| |]; naive_solver. Qed.

Lemma on_session_inv {A} (m : ST A) c a c' :
  on_session m c = Ok (a, c') →
  ∃ s s', ssh_session c = Some s ∧ m s = Ok (a, s') ∧ c' = set_session (Some s') c.
Proof.
  unfold on_session. destruct (ssh_session c) as [s|]; [|done].
  destruct (m s) as [[b s']| |] eqn:E; [|done..]. intros [= <- <-]. by exists s, s'.
Qed.

Lemma disconnect_closes e kex_exchange tries c u c' :
  disconnect e kex_exchange tries c = Ok (u, c') → ssh_session c' = None ∧ sock c' = 0%Z.
Proof.
  unfold disconnect. intros (c0 & c1 & [= <- <-] & H)%CL_inv.
  apply CL_inv in H as (u1 & c2 & _ & H). apply CL_inv in H as (c3 & ? & [= <- <-] & H).
  apply CL_inv in H as (u3 & c4 & H4 & [= <- <-]). split; [|done]. cbn.
  destruct (ssh_session c2) as [s|] eqn:Es; [|injection H4 as _ <-; exact Es].
  apply CL_inv in H4 as (? & ? & _ & H4). by apply CL_inv in H4 as (? & ? & _ & [= <- <-]).
Qed.

Lemma connect_login `{openssl} e beyond cms mms cps net no_crypt no_mac no_comp open_file
    tries padded host port username pub priv passphrase c rc c' :
  let kex_exchange := key_exchange e beyond cms mms cps in
  connectWithPublicKey e net no_crypt no_mac no_comp kex_exchange open_file tries padded
    host port username pub priv passphrase c = Ok (rc, c') →
  match ssh_session c' with
  | Some s => rc = 0%Z ∧ authenticated s = true
  | None => (rc = 0%Z ∨ rc = AUTHENTICATION_FAILED) ∧
            ∀ fs remote_filename filename,
              scpFileFilename e fs kex_exchange remote_filename filename c' = Ok (SESSION_NOT_OPENED, c')
  end.
Proof.
  intros kex_exchange. pose proof (leaves_key_exchange e beyond cms mms cps true) as Hkex.
  unfold connectWithPublicKey. intros (n & c1 & _ & T)%CL_inv.
  apply CL_inv in T as (c2 & ? & [= <- <-] & T).
  assert (Hcopy : ∀ c, ssh_session c = None → ∀ fs remote_filename filename,
    scpFileFilename e fs kex_exchange remote_filename filename c = Ok (SESSION_NOT_OPENED, c)).
  { intros c0 Hc fs r f. unfold scpFileFilename, mbind, CL_bind, client. by rewrite Hc. }
  destruct (ssh_session c1) as [s|] eqn:Es.
  - apply CL_inv in T as (r & c3 & (s1 & s2 & _ & Hm & ->)%on_session_inv & T).
    apply (decides_login e (kex_exchange true) open_file Hkex (By_key _ _ _ _)) in Hm as Ha.
    destruct (Z.eqb_spec r 0) as [->|Hr]; cbn [negb] in T.
    + injection T as <- <-. cbn. by rewrite Ha, orb_true_r.
    + apply CL_inv in T as (u & c4 & [Hd _]%disconnect_closes & [= <- <-]). rewrite Hd. auto.
  - injection T as <- <-. rewrite Es. auto.
Qed.


(** ** A server *)

#[local] Existing Instance demo_openssl.

Definition demo_crypts : list crypt_method := libssh2_crypt_methods (λ _ a s, Some (a, s)).
Definition demo_digests : list mac_method := libssh2_mac_methods (λ _ _ _, replicate 20 "m"%char).
Definition demo_comps : list comp_method := @libssh2_comp_methods demo_zlib.

(** A packet of the server's before and after the new keys. *)
Definition plain (payload : str) : recv_event := Recv_bytes (plain_frame demo_surroundings 0 payload).
Definition ciphered (payload : str) : recv_event :=
  Recv_bytes (plain_frame demo_surroundings 0 payload ++ replicate 16 "m"%char).

Definition server_names : list str :=
  [&"diffie-hellman-group1-sha1"; &"ssh-rsa"; &"3des-cbc"; &"3des-cbc"; &"hmac-md5"; &"hmac-md5"; &"none";
   &"none"; []; []].
Definition server_key : str := rsa_blob &"e" &"0123456789abcdef".

(** Banner, negotiation, exchange, new keys; then the service and the login. *)
Definition demo_network (known : bool) : network := {|
  new_socket := 5;
  gethostbyname _ := if known then Some &"10.0.0.1" else None;
  connects _ _ := true;
  replies := [Recv_bytes (&"SSH-2.0-OpenSSH" ++ [CR; LF]);
              plain (of_code SSH_MSG_KEXINIT :: replicate 16 NUL ++ concat (ssh_string <$> server_names) ++
                     replicate 5 NUL);
              plain (of_code SSH_MSG_KEXDH_REPLY :: ssh_string server_key ++ ssh_string [of_code 32] ++
                     ssh_string (ssh_string &"ssh-rsa" ++ ssh_string demo_signature));
              plain [of_code SSH_MSG_NEWKEYS];
              ciphered (of_code SSH_MSG_SERVICE_ACCEPT :: ssh_string &"ssh-userauth");
              ciphered [of_code SSH_MSG_USERAUTH_SUCCESS]] |}.

#[local] Abbreviation demo_exchange :=
  (key_exchange demo_surroundings [] demo_crypts demo_digests demo_comps).

#[local] Abbreviation demo_connect known :=
  (connectWithPublicKey demo_surroundings (demo_network known) (crypt demo_endpoint) (mac_m demo_endpoint)
    (comp demo_endpoint) demo_exchange (λ _, Some demo_key) 3 true
    &"pandora" 22 &"pandora" &"id.pub" &"id" [] new_client).

Definition outcome (r : res (Z * Pandora_Ssh_Client)) : option (Z * bool * str) :=
  match r with Ok (rc, c) => Some (rc, bool_decide (is_Some (ssh_session c)), fingerprint c) | _ => None end.

Lemma outcome_inv r rc b f : outcome r = Some (rc, b, f) →
  ∃ c, r = Ok (rc, c) ∧ bool_decide (is_Some (ssh_session c)) = b ∧ fingerprint c = f.
Proof. destruct r as [[x c]| |]; [|done..]. intros [= -> <- <-]. by exists c. Qed.

Lemma demo_connected :
  outcome (demo_connect true) = Some (0%Z, true, &"30:31:32:33:34:35:36:37:38:39:61:62:63:64:65:66").
Proof. by vm_compute. Qed.

Lemma demo_unknown : outcome (demo_connect false) = Some (0%Z, false, []).
Proof. by vm_compute. Qed.

