(* ===== verification/WinService.v ===== *)
(** * The service shell ([windows_service.cc], [main.cc])

    The timer that starts the runs of the agent, what the service control manager is
    told, installation and removal, and the command line. The time is in milliseconds
    since the computer started, without bound; [GetTickCount] is its lower 32 bits. *)
From S2P Require Import Prelude StdString Scanf AgentConf PandoraModule ServiceState Service.

(** ** The timer *)

Definition GetTickCount (now : Z) : Z := u32 now.

Definition WAIT_OBJECT_0 : Z := 0.
Definition WAIT_TIMEOUT : Z := 258.
Definition WAIT_FAILED : Z := 0xFFFFFFFF.

(** [Windows_Service]; a member function is a value of [F]. [stop_event] is [None]
    when it could not be created, and says otherwise whether it is set. *)
Record Windows_Service (F : Type) := {
  service_name : str;
  service_display_name : str;
  service_description : str;
  stop_event : option bool;
  sleep_time : Z;
  iter_base_ticks : Z;
  run_function : option F;
  init_function : option F }.
Arguments service_name {F} w.
Arguments service_display_name {F} w.
Arguments service_description {F} w.
Arguments stop_event {F} w.
Arguments sleep_time {F} w.
Arguments iter_base_ticks {F} w.
Arguments run_function {F} w.
Arguments init_function {F} w.

Section shell.
Context {F S : Type}.
Implicit Types ws : Windows_Service F.

(** [Windows_Service (svc_name, ...)]; the base ticks are not set. *)
Definition new_Windows_Service (event_created : bool) (ticks : Z) (name display description : str)
    : Windows_Service F := {|
  service_name := name; service_display_name := display; service_description := description;
  stop_event := if event_created then Some false else None; sleep_time := 0; iter_base_ticks := ticks;
  run_function := None; init_function := None |}.

Definition setRunFunction (f : F) ws : Windows_Service F := {|
  service_name := service_name ws; service_display_name := service_display_name ws;
  service_description := service_description ws; stop_event := stop_event ws; sleep_time := sleep_time ws;
  iter_base_ticks := iter_base_ticks ws; run_function := Some f; init_function := init_function ws |}.

Definition setInitFunction (f : F) ws : Windows_Service F := {|
  service_name := service_name ws; service_display_name := service_display_name ws;
  service_description := service_description ws; stop_event := stop_event ws; sleep_time := sleep_time ws;
  iter_base_ticks := iter_base_ticks ws; run_function := run_function ws; init_function := Some f |}.

(** The argument is unsigned, the member is not. *)
Definition setSleepTime (s : Z) ws : Windows_Service F := {|
  service_name := service_name ws; service_display_name := service_display_name ws;
  service_description := service_description ws; stop_event := stop_event ws; sleep_time := s32 s;
  iter_base_ticks := iter_base_ticks ws; run_function := run_function ws; init_function := init_function ws |}.

Definition setIterationBaseTicks (ticks : Z) ws : Windows_Service F := {|
  service_name := service_name ws; service_display_name := service_display_name ws;
  service_description := service_description ws; stop_event := stop_event ws; sleep_time := sleep_time ws;
  iter_base_ticks := u32 ticks; run_function := run_function ws; init_function := init_function ws |}.

(** [call f now ws s]: the time afterwards, the service and the rest of the state;
    [None] when an exception leaves the function or it does not end. [late k]: how much
    longer than asked the [k]-th wait takes. *)
Context (call : F → Z → Windows_Service F → S → option (Z * Windows_Service F * S)).
Context (late : nat → Z).

Definition WaitForSingleObject (k : nat) (event : option bool) (now milliseconds : Z) : Z * Z :=
  match event with
  | None => (WAIT_FAILED, now)
  | Some true => (WAIT_OBJECT_0, now)
  | Some false => (WAIT_TIMEOUT, now + milliseconds + late k)%Z
  end.

(** [sleep_time - (ticknow - iter_base_ticks)]: the subtractions are unsigned, the
    result is stored in an [int]. *)
Definition sleep_time_remain (sleep ticknow base : Z) : Z :=
  s32 (u32 (u32 sleep - u32 (ticknow - base))).

(** What is slept after a run that ended at [ticknow], and the new base. *)
Definition next_iteration (ticknow : Z) ws : Z * Windows_Service F :=
  let remain := sleep_time_remain (sleep_time ws) ticknow (iter_base_ticks ws) in
  if decide (0 ≤ remain ∧ remain ≤ sleep_time ws)%Z
  then (remain, setIterationBaseTicks (iter_base_ticks ws + sleep_time ws) ws)
  else (0%Z, setIterationBaseTicks ticknow ws).

(** How the loop stands after the runs looked at: it has ended, a run has not come
    back, or another one follows. *)
Inductive fate := Ended | Died | Goes_on.

(** The loop, for at most [n] runs, of which [k] were before: when they start. *)
Fixpoint run_loop (n k : nat) (f : F) (now : Z) ws (s : S) : list Z * fate :=
  match n with
  | O => ([], Goes_on)
  | Datatypes.S n =>
      match call f now ws s with
      | None => ([now], Died)
      | Some (after, ws, s) =>
          if decide (sleep_time ws ≤ 0)%Z then ([now], Ended) else
          let (remain, ws) := next_iteration (GetTickCount after) ws in
          let (why, woken) := WaitForSingleObject k (stop_event ws) after remain in
          if decide (why = WAIT_OBJECT_0) then ([now], Ended) else
          let (starts, end_) := run_loop n (Datatypes.S k) f woken ws s in
          (now :: starts, end_)
      end
  end.

Definition execRunFunction (n : nat) (now : Z) ws (s : S) : list Z * fate :=
  match run_function ws with
  | None => ([], Ended)
  | Some f => run_loop n 0 f now (setIterationBaseTicks (GetTickCount now) ws) s
  end.

Definition execInitFunction (now : Z) ws (s : S) : option (Z * Windows_Service F * S) :=
  match init_function ws with
  | None => Some (now, ws, s)
  | Some f => call f now ws s
  end.

(** ** The timer keeps the pace *)

(** After a run that ended at [after] and was due at [due], less than 2^32
    milliseconds earlier, the next is due one period after it, or at once; the wait is
    until then. *)
Lemma next_iteration_spec due after ws :
  (0 < sleep_time ws < 2 ^ 31)%Z → (due ≤ after < due + 2 ^ 32)%Z → iter_base_ticks ws = u32 due →
  let next := Z.max (due + sleep_time ws) after in
  next_iteration (GetTickCount after) ws = ((next - after)%Z, setIterationBaseTicks next ws).
Proof.
  intros Hs Ha Hb next. unfold next_iteration, sleep_time_remain, GetTickCount. rewrite Hb.
  assert (Hd : u32 (u32 after - u32 due) = (after - due)%Z).
  { unfold wrap_u. rewrite <- Zminus_mod. apply Z.mod_small. lia. }
  assert (Hr : (0 ≤ s32 (u32 (u32 (sleep_time ws) - (after - due))) ≤ sleep_time ws)%Z ↔
               (after ≤ due + sleep_time ws)%Z).
  { rewrite (wrap_u_small 32 (sleep_time ws)) by (unfold in_u; lia). unfold wrap_s, wrap_u.
    rewrite Zplus_mod_idemp_l. split.
    - destruct (Z.leb_spec after (due + sleep_time ws)) as [|Hgt]; [done|intros Hw].
      destruct (Z.leb_spec 0 (sleep_time ws - (after - due) + 2 ^ 31)) as [H0|H0].
      + rewrite Z.mod_small in Hw by lia. lia.
      + rewrite <- (Z.mod_add _ 1) in Hw by lia. rewrite Z.mod_small in Hw by lia. lia.
    - intros Hle. rewrite Z.mod_small by lia. lia. }
  rewrite Hd. subst next. case_decide as Hc; rewrite Hr in Hc.
  - rewrite (wrap_u_small 32 (sleep_time ws)) by (unfold in_u; lia).
    rewrite (wrap_u_small 32 (_ - _)) by (unfold in_u; lia).
    rewrite wrap_s_small by (unfold in_s; lia). rewrite Z.max_l by lia.
    f_equal; [lia|]. unfold setIterationBaseTicks. by rewrite wrap_u_add_l.
  - rewrite Z.max_r by lia. f_equal; [lia|]. unfold setIterationBaseTicks. by rewrite wrap_u_idemp.
Qed.

Section steady.
Context (f : F) (dur : S → Z) (next : S → S).
Context (Hdur : ∀ s, (0 ≤ dur s)%Z) (Hlate : ∀ k, (0 ≤ late k)%Z).
Context (Hcall : ∀ now ws s, call f now ws s = Some (now + dur s, ws, next s)%Z).

(** Reference: a run is due one period after the run before was due, or when that
    ended if this is later. *)
Fixpoint paced (period : Z) (n k : nat) (due start : Z) (s : S) : list Z :=
  match n with
  | O => []
  | Datatypes.S n =>
      let due' := Z.max (due + period) (start + dur s) in
      start :: paced period n (Datatypes.S k) due' (due' + late k) (next s)
  end.

Lemma paced_bounds period n k due start s i t :
  (due ≤ start)%Z → paced period n k due start s !! i = Some t → (due + Z.of_nat i * period ≤ t)%Z.
Proof using Hdur Hlate.
  revert k due start s i. induction n as [|n IH]; intros k due start s i Hd Ht; [done|].
  destruct i as [|i]; simplify_eq/=; [lia|].
  apply IH in Ht; [lia|]. specialize (Hlate k). lia.
Qed.

Lemma paced_on_time period n k due start s i t :
  (∀ s, start - due + dur s ≤ period)%Z → (∀ k s, late k + dur s ≤ period)%Z →
  paced period n k due start s !! Datatypes.S i = Some t → t = (due + Z.of_nat (Datatypes.S i) * period + late (k + i)%nat)%Z.
Proof using Type.
  revert k due start s i. induction n as [|n IH]; intros k due start s i Hs Hp Ht; [done|].
  simplify_eq/=. specialize (Hs s). rewrite Z.max_l in Ht by lia.
  destruct i as [|i].
  - destruct n; simplify_eq/=. rewrite Nat.add_0_r. lia.
  - apply IH in Ht; [|intros s'; specialize (Hp k s'); lia|done].
    rewrite Nat.add_succ_r. simpl in Ht. lia.
Qed.

Lemma run_loop_paced n k now due ws s :
  stop_event ws = Some false → (0 < sleep_time ws < 2 ^ 31)%Z → iter_base_ticks ws = u32 due →
  (due ≤ now)%Z → (∀ s, now - due + dur s < 2 ^ 32)%Z → (∀ k s, late k + dur s < 2 ^ 32)%Z →
  run_loop n k f now ws s = (paced (sleep_time ws) n k due now s, Goes_on).
Proof using Hdur Hlate Hcall.
  revert k now due ws s. induction n as [|n IH]; intros k now due ws s Hev Hsl Hb Hd Hn Hp; [done|].
  cbn [run_loop paced]. rewrite Hcall. rewrite decide_False by lia.
  pose proof (Hdur s). pose proof (Hn s).
  rewrite (next_iteration_spec due) by (done || lia). cbn zeta.
  set (due' := Z.max _ _). cbn [setIterationBaseTicks stop_event]. rewrite Hev. cbn [WaitForSingleObject].
  rewrite decide_False by done.
  replace (now + dur s + (due' - (now + dur s)) + late k)%Z with (due' + late k)%Z by lia.
  rewrite (IH _ _ due'); cbn [setIterationBaseTicks sleep_time stop_event iter_base_ticks]; try done.
  - specialize (Hlate k). lia.
  - intros s'. specialize (Hp k s'). lia.
Qed.

End steady.

End shell.


(** ** The agent as a service *)

(** The member functions that [Pandora_Windows_Service] sets. *)
Inductive method := Pandora_init | Pandora_run.

Section agent.
Context (p : platform).

(** How long, in a world and of a method, it takes until the base ticks are set and
    from then to the end. [Pandora_Windows_Service] is a [Windows_Service]: the sleep
    time that [pandora_init] sets is that of the base class. *)
Context (until_base until_end : method → world → Z).

Definition run_method (f : method) : M () :=
  match f with Pandora_init => pandora_init p | Pandora_run => pandora_run p 0 end.

(** The base ticks are set after the delay of the first run. *)
Definition agent_call (f : method) (now : Z) (ws : Windows_Service method) (w : world)
    : option (Z * Windows_Service method * world) :=
  match run_method f w with
  | Ret _ w' =>
      let base := (now + until_base f w)%Z in
      let resets := match f with Pandora_init => false | Pandora_run => startup w end in
      let ws := if (resets : bool) then setIterationBaseTicks (GetTickCount base) ws else ws in
      Some (base + until_end f w, setSleepTime (u32 (ServiceState.sleep_time w')) ws, w')%Z
  | _ => None
  end.

Definition new_Pandora_Windows_Service (event_created : bool) (ticks : Z) (name display description : str)
    : Windows_Service method :=
  setRunFunction Pandora_run (setInitFunction Pandora_init
    (new_Windows_Service event_created ticks name display description)).
(** An exception that leaves the agent ends the process. Otherwise the period is the one
    that the agent has set, and the base ticks are set again in the first run only. *)
Lemma agent_call_spec f now ws w now' ws' w' :
  agent_call f now ws w = Some (now', ws', w') →
  run_method f w = Ret () w' ∧
  (in_s 32 (ServiceState.sleep_time w') → sleep_time ws' = ServiceState.sleep_time w') ∧
  stop_event ws' = stop_event ws ∧
  (startup w = false ∨ f = Pandora_init → iter_base_ticks ws' = iter_base_ticks ws).
Proof.
  unfold agent_call. destruct (run_method f w) as [[] w1|e w1|]; [|done|done].
  intros [= <- <- <-]. split_and!; [done| | |].
  - intros Hin. cbn. unfold in_s, wrap_s, wrap_u in *. rewrite Zplus_mod_idemp_l. rewrite Z.mod_small; lia.
  - by destruct f, (startup w).
  - intros [Hs| ->]; [|done]. by destruct f; cbn; rewrite ?Hs.
Qed.
End agent.

(** ** What the service control manager is told *)

Definition SERVICE_WIN32_OWN_PROCESS : Z := 0x10.
Definition SERVICE_STOPPED : Z := 1.
Definition SERVICE_START_PENDING : Z := 2.
Definition SERVICE_STOP_PENDING : Z := 3.
Definition SERVICE_RUNNING : Z := 4.
Definition SERVICE_ACCEPT_STOP : Z := 1.
Definition SERVICE_ACCEPT_SHUTDOWN : Z := 4.
Definition SERVICE_CONTROL_STOP : Z := 1.
Definition SERVICE_CONTROL_PAUSE : Z := 2.
Definition SERVICE_CONTROL_CONTINUE : Z := 3.
Definition SERVICE_CONTROL_SHUTDOWN : Z := 5.

Record SERVICE_STATUS := {
  dwServiceType : Z;
  dwCurrentState : Z;
  dwControlsAccepted : Z;
  dwWin32ExitCode : Z;
  dwServiceSpecificExitCode : Z;
  dwCheckPoint : Z;
  dwWaitHint : Z }.

Definition status_of (state code check hint : Z) : SERVICE_STATUS := {|
  dwServiceType := SERVICE_WIN32_OWN_PROCESS;
  dwCurrentState := state;
  dwControlsAccepted := if decide (state = SERVICE_START_PENDING) then 0
                        else Z.lor SERVICE_ACCEPT_STOP SERVICE_ACCEPT_SHUTDOWN;
  dwWin32ExitCode := code;
  dwServiceSpecificExitCode := 0;
  dwCheckPoint := check;
  dwWaitHint := hint |}.

Section control.
Context (SetServiceStatus : nat → SERVICE_STATUS → bool) (GetLastError : nat → Z).

(** [SetWindowsServiceStatus] and [ErrorStopService], which calls it again, after [n]
    reports: the reports made, [None] while the fuel does not reach one that is
    taken. *)
Fixpoint SetWindowsServiceStatus (fuel n : nat) (state code check hint : Z) : option (list SERVICE_STATUS) :=
  match fuel with
  | O => None
  | S fuel =>
      let ss := status_of state code check hint in
      if SetServiceStatus n ss then Some [ss] else
      cons ss <$> SetWindowsServiceStatus fuel (S n) SERVICE_STOPPED (GetLastError n) 0 0
  end.

(** A stop is answered after a second; the timer is not told of it. *)
Definition windows_service_ctrl_handler (fuel n : nat) (opcode : Z) : option (list SERVICE_STATUS) :=
  if decide (opcode = SERVICE_CONTROL_PAUSE) then
    SetWindowsServiceStatus fuel n SERVICE_CONTROL_PAUSE 0 0 0
  else if decide (opcode = SERVICE_CONTROL_CONTINUE) then
    SetWindowsServiceStatus fuel n SERVICE_CONTROL_CONTINUE 0 0 0
  else if decide (opcode = SERVICE_CONTROL_STOP) then
    SetWindowsServiceStatus fuel n SERVICE_STOPPED 0 0 0
  else Some [].

(** The reports, and the runs of the service: none when the handler is refused, and
    [Died] when the initialisation does not come back. *)
Definition windows_service_start {F S} (call : F → Z → Windows_Service F → S → option (Z * Windows_Service F * S))
    (late : nat → Z) (registered : bool) (fuel runs : nat) (now : Z) (ws : Windows_Service F) (s : S)
    : option (list SERVICE_STATUS * (list Z * fate)) :=
  if negb registered then Some ([], ([], Ended)) else
  match execInitFunction call now ws s with
  | None => Some ([], ([], Died))
  | Some (now, ws, s) =>
      reports ← SetWindowsServiceStatus fuel 0 SERVICE_RUNNING 0 0 0;
      Some (reports, execRunFunction call late runs now ws s)
  end.

(** Every report is taken: one is made, and it has the state asked for. *)
Lemma SetWindowsServiceStatus_taken fuel n state code check hint :
  SetServiceStatus n (status_of state code check hint) = true →
  SetWindowsServiceStatus (S fuel) n state code check hint = Some [status_of state code check hint].
Proof. intros H. cbn. by rewrite H. Qed.

(** When no report is taken the two functions call each other for ever. *)
Lemma SetWindowsServiceStatus_never_ends fuel n state code check hint :
  (∀ n ss, SetServiceStatus n ss = false) → SetWindowsServiceStatus fuel n state code check hint = None.
Proof.
  intros H. revert n state code check hint.
  induction fuel as [|fuel IH]; intros n state code check hint; [done|]. cbn. by rewrite H, IH.
Qed.

(** What a control is answered with: the codes of the pause and continue controls are
    those of the states of a service that starts and one that stops, and a shutdown,
    which the service says it takes, is not answered. *)
Lemma ctrl_handler_reports fuel n :
  (∀ n ss, SetServiceStatus n ss = true) →
  let answer opcode := fmap (M:=option) (fmap dwCurrentState)
    (windows_service_ctrl_handler (S fuel) n opcode) in
  answer SERVICE_CONTROL_STOP = Some [SERVICE_STOPPED] ∧
  answer SERVICE_CONTROL_PAUSE = Some [SERVICE_START_PENDING] ∧
  answer SERVICE_CONTROL_CONTINUE = Some [SERVICE_STOP_PENDING] ∧
  answer SERVICE_CONTROL_SHUTDOWN = Some [].
Proof. intros H answer. unfold answer, windows_service_ctrl_handler. cbn. by rewrite !H. Qed.
End control.

(** A service whose run function has come back stays reported as running: the only
    report is the first. *)
Lemma windows_service_start_reports {F S} call late set_ok last fuel runs now (ws : Windows_Service F) (s : S) r :
  (∀ n ss, set_ok n ss = true) →
  windows_service_start set_ok last call late true (Datatypes.S fuel) runs now ws s = Some r →
  r.1 = [] ∧ r.2 = ([], Died) ∨ r.1 = [status_of SERVICE_RUNNING 0 0 0].
Proof.
  intros H. unfold windows_service_start. cbn [negb].
  destruct (execInitFunction call now ws s) as [[[after ws'] s']|]; [|intros [= <-]; by left].
  cbn [SetWindowsServiceStatus]. rewrite H. intros [= <-]. by right.
Qed.

(** ** Installation and removal *)

Definition ERROR_ACCESS_DENIED : Z := 5.
Definition ERROR_DATABASE_DOES_NOT_EXIST : Z := 1065.
Definition ERROR_INVALID_PARAMETER : Z := 87.
Definition ERROR_CIRCULAR_DEPENDENCY : Z := 1059.
Definition ERROR_DUP_NAME : Z := 1078.
Definition ERROR_INVALID_HANDLE : Z := 6.
Definition ERROR_INVALID_NAME : Z := 123.
Definition ERROR_INVALID_SERVICE_ACCOUNT : Z := 1057.
Definition ERROR_SERVICE_EXISTS : Z := 1073.
Definition ERROR_SERVICE_DOES_NOT_EXIST : Z := 1060.
Definition ERROR_SERVICE_MARKED_FOR_DELETE : Z := 1072.

(** What [install] and [uninstall] do, in order: text they print, and calls of the
    service manager, whose handles are null when the call before failed. *)
Inductive action :=
  | Say (text : str)
  | Open_manager
  | Create_service (manager : bool) (name display path : str)
  | Describe_service (service : bool) (description : str)
  | Set_failure_actions (service : bool) (reset_seconds : Z) (actions : list (bool * Z))
  | Open_service (manager : bool) (name : str)
  | Delete_service
  | Close (handle : bool).

(** What the service manager answers: 0, or the error. A null handle is an invalid
    one. *)
Record service_manager := {
  OpenSCManager : Z;
  CreateService : Z;
  ChangeDescription : Z;
  ChangeFailureActions : Z;
  OpenService : Z;
  DeleteService : Z }.

Definition with_handle (handle : bool) (answer : Z) : Z :=
  if handle then answer else ERROR_INVALID_HANDLE.

Section install.
Context (format_message : Z → str) (m : service_manager).

Definition tag : str := &" [SERVICE] ".
Definition endl : str := [LF].

(** What is said of an unknown error. *)
Definition unrecognized (basic_message before after : str) (err : Z) (msg : str) : str :=
  tag ++ basic_message ++ before ++ dec err ++ after ++ msg ++ endl.

Definition say_if_failed (err : Z) (text : Z → str → str) : list action :=
  if decide (err = 0)%Z then [] else [Say (text err (format_message err))].

(** The manager cannot be opened; the removal says it with other full stops. *)
Definition manager_error (access unknown_tail : str) (err : Z) (msg : str) : str :=
  let basic_message := &"Unable to open a connection to the Services database." in
  if decide (err = ERROR_ACCESS_DENIED) then tag ++ basic_message ++ access ++ msg ++ endl
  else if decide (err = ERROR_DATABASE_DOES_NOT_EXIST) then
    tag ++ basic_message ++ &" Services database does not exist. " ++ msg ++ endl
  else if decide (err = ERROR_INVALID_PARAMETER) then tag ++ &"Invalid parameter. " ++ msg ++ endl
  else unrecognized basic_message &" Unrecognized error (" unknown_tail err msg.

Definition create_error (display : str) (err : Z) (msg : str) : str :=
  let basic_message := &"Error while adding the service to the Services database." in
  let say text := tag ++ basic_message ++ text ++ msg ++ endl in
  if decide (err = ERROR_ACCESS_DENIED) then say &" Access is denied. "
  else if decide (err = ERROR_CIRCULAR_DEPENDENCY) then say &" Circular dependency. "
  else if decide (err = ERROR_DUP_NAME) then
    tag ++ basic_message ++ &" The display name (" ++ [QUOTE] ++ display ++ [QUOTE] ++
    &") is already in use. " ++ msg ++ endl
  else if decide (err = ERROR_INVALID_HANDLE) then say &" Invalid handle. "
  else if decide (err = ERROR_INVALID_NAME) then say &" Invalid service name. "
  else if decide (err = ERROR_INVALID_PARAMETER) then say &" Invalid parameter. "
  else if decide (err = ERROR_INVALID_SERVICE_ACCOUNT) then say &" Invalid service account. "
  else if decide (err = ERROR_SERVICE_EXISTS) then say &" Service already exists. "
  else unrecognized basic_message &" Unrecognized error (" &") " err msg.

(** Restart after the first failure, nothing after the second. *)
Definition failure_actions : list (bool * Z) := [(true, 300000%Z); (false, 0%Z)].

Definition install {F} (ws : Windows_Service F) (application_binary_path : str) : list action :=
  let manager := bool_decide (OpenSCManager m = 0)%Z in
  let created := with_handle manager (CreateService m) in
  let service := bool_decide (created = 0)%Z in
  [Say (tag ++ &"Attempting to install the service." ++ endl);
   Say (tag ++ &"The full path to the binary is: " ++ application_binary_path ++ endl);
   Open_manager] ++
  say_if_failed (OpenSCManager m) (manager_error &". Access is denied. " &") ") ++
  [Create_service manager (service_name ws) (service_display_name ws) application_binary_path] ++
  say_if_failed created (create_error (service_display_name ws)) ++
  [Describe_service service (service_description ws)] ++
  say_if_failed (with_handle service (ChangeDescription m))
    (λ _ msg, tag ++ &"Unable to add a description to the service. " ++ msg ++ endl) ++
  [Set_failure_actions service 86400 failure_actions] ++
  say_if_failed (with_handle service (ChangeFailureActions m))
    (λ _ msg, tag ++ &"Service recovery could not be enabled. " ++ msg ++ endl) ++
  [Say (tag ++ &"Successfully added the service to the Services database." ++ endl);
   Close service; Close manager].

Definition open_error (err : Z) (msg : str) : str :=
  let basic_message := &"Unable to locate in the Services database." in
  let say text := tag ++ basic_message ++ text ++ msg ++ endl in
  if decide (err = ERROR_ACCESS_DENIED) then say &" Access is denied. "
  else if decide (err = ERROR_INVALID_HANDLE) then say &" Invalid handle. "
  else if decide (err = ERROR_INVALID_NAME) then say &" Invalid name. "
  else if decide (err = ERROR_SERVICE_DOES_NOT_EXIST) then say &" Service does not exist. "
  else unrecognized basic_message &"Unrecognized error (" &"). " err msg.

Definition delete_error (err : Z) (msg : str) : str :=
  let basic_message := &"Unable to remove from the Services database." in
  let say text := tag ++ basic_message ++ text ++ msg ++ endl in
  if decide (err = ERROR_ACCESS_DENIED) then say &" Access is denied. "
  else if decide (err = ERROR_INVALID_HANDLE) then say &" Invalid handle. "
  else if decide (err = ERROR_SERVICE_MARKED_FOR_DELETE) then say &" Service already marked for delete. "
  else unrecognized basic_message &" Unrecognized error (" &"). " err msg.

Definition uninstall {F} (ws : Windows_Service F) : list action :=
  let manager := bool_decide (OpenSCManager m = 0)%Z in
  let opened := with_handle manager (OpenService m) in
  [Say (tag ++ &"Attempting to uninstall the service." ++ endl); Open_manager] ++
  say_if_failed (OpenSCManager m) (manager_error &" Access is denied. " &"). ") ++
  [Open_service manager (service_name ws)] ++
  say_if_failed opened open_error ++
  if decide (opened = 0)%Z then
    [Delete_service] ++ say_if_failed (DeleteService m) delete_error ++
    [Say (tag ++ &"Successfully removed the service from the Services database."); Close true; Close manager]
  else [Close manager].

Definition is_call (a : action) : bool := match a with Say _ => false | _ => true end.
Definition calls_of (l : list action) : list action := List.filter is_call l.

Lemma calls_of_app l k : calls_of (l ++ k) = calls_of l ++ calls_of k.
Proof. apply List.filter_app. Qed.

Lemma calls_of_say err text : calls_of (say_if_failed err text) = [].
Proof. unfold say_if_failed. by case_decide. Qed.

(** The installation makes the same calls whatever fails, and says in the end that it
    has succeeded: without a manager it creates a service on a null handle, and
    without a service it describes and closes one. *)
Lemma install_calls {F} (ws : Windows_Service F) path :
  let manager := bool_decide (OpenSCManager m = 0)%Z in
  let service := bool_decide (OpenSCManager m = 0 ∧ CreateService m = 0)%Z in
  calls_of (install ws path) =
    [Open_manager; Create_service manager (service_name ws) (service_display_name ws) path;
     Describe_service service (service_description ws);
     Set_failure_actions service 86400 failure_actions; Close service; Close manager] ∧
  Say (tag ++ &"Successfully added the service to the Services database." ++ endl) ∈ install ws path.
Proof.
  intros manager service.
  assert (Hs : bool_decide (with_handle manager (CreateService m) = 0)%Z = service).
  { subst manager service. apply bool_decide_ext. unfold with_handle.
    case_bool_decide; [tauto|]. split; [done|tauto]. }
  split.
  - unfold install. cbn zeta. fold manager. rewrite Hs, !calls_of_app, !calls_of_say. reflexivity.
  - unfold install. do 8 (apply elem_of_app; right). by left.
Qed.

(** The removal deletes a service only that it could open; it closes what it has
    opened, and a service that it could not delete is said to be removed. *)
Lemma uninstall_calls {F} (ws : Windows_Service F) :
  let manager := bool_decide (OpenSCManager m = 0)%Z in
  let found := OpenSCManager m = 0%Z ∧ OpenService m = 0%Z in
  (found → calls_of (uninstall ws) =
    [Open_manager; Open_service manager (service_name ws); Delete_service; Close true; Close manager] ∧
    Say (tag ++ &"Successfully removed the service from the Services database.") ∈ uninstall ws) ∧
  (¬ found → calls_of (uninstall ws) =
    [Open_manager; Open_service manager (service_name ws); Close manager]).
Proof.
  intros manager found.
  assert (Hf : with_handle manager (OpenService m) = 0%Z ↔ found).
  { subst manager found. unfold with_handle. case_bool_decide; [tauto|]. split; [done|tauto]. }
  unfold uninstall. cbn zeta. fold manager. split; intros H.
  - rewrite decide_True by tauto. rewrite !calls_of_app, !calls_of_say. split; [reflexivity|].
    do 6 (apply elem_of_app; right). by left.
  - rewrite decide_False by tauto. rewrite !calls_of_app, !calls_of_say. reflexivity.
Qed.
End install.

(** ** The command line *)

(** What [main] does after its options. *)
Inductive command :=
  | Install (binary_path : str)
  | Uninstall
  | Test_ssh
  | Test_ftp
  | Help
  | Usage
  | As_process
  | As_service.

(** The loop over the arguments behind the first, in an agent at [path]. *)
Fixpoint main_options (path : str) (process : bool) (argv : list str) : command :=
  match argv with
  | [] => if process then As_process else As_service
  | a :: argv =>
      if same_nocase a &"--install" then Install ([QUOTE] ++ path ++ [QUOTE])
      else if same_nocase a &"--uninstall" then Uninstall
      else if same_nocase a &"--test-ssh" then Test_ssh
      else if same_nocase a &"--test-ftp" then Test_ftp
      else if same_nocase a &"--help" then Help
      else if same_nocase a &"--process" then main_options path true argv
      else Usage
  end.

(** The exit code, when the command comes to an end; [test_throws]: a test throws. *)
Definition main_code (test_throws : bool) (c : command) : Z :=
  match c with
  | Usage => 1
  | Test_ssh | Test_ftp => if test_throws then 1 else 0
  | _ => 0
  end.

(** The directory of the program, with its backslash: everything when there is none,
    as the position -1 is added to. *)
Definition install_dir_of (path : str) : str :=
  match rfind [of_code 92] path with Some pos => take (S pos) path | None => [] end.

(** The first argument that is not [--process] decides; without one, that word says
    whether the agent runs as a process. *)
Lemma main_options_first path process pre a argv :
  Forall (λ x, same_nocase x &"--process" = true) pre → same_nocase a &"--process" = false →
  main_options path process (pre ++ a :: argv) = main_options path process [a].
Proof.
  intros Hpre Ha. revert process. induction Hpre as [|x pre Hx _ IH]; intros process.
  - cbn [main_options app]. by rewrite !Ha.
  - assert (Hp : main_options path process ((x :: pre) ++ a :: argv) = main_options path true (pre ++ a :: argv)).
    { unfold same_nocase in Hx. apply bool_decide_eq_true_1 in Hx.
      cbn [main_options app]. unfold same_nocase. by rewrite Hx. }
    rewrite Hp, IH. cbn [main_options]. by rewrite !Ha.
Qed.

Lemma main_options_process path process argv :
  Forall (λ x, same_nocase x &"--process" = true) argv →
  main_options path process argv = if process || negb (bool_decide (argv = [])) then As_process else As_service.
Proof.
  intros H. revert process. induction H as [|x argv Hx _ IH]; intros process; [by destruct process|].
  cbn [main_options]. unfold same_nocase in *. apply bool_decide_eq_true_1 in Hx. rewrite Hx. cbn.
  rewrite IH. by rewrite orb_true_r.
Qed.

(** Installing is asked for with the path quoted, whatever the case of the option. *)
Lemma main_options_install path argv :
  main_options path false (&"--INSTALL" :: argv) = Install ([QUOTE] ++ path ++ [QUOTE]).
Proof. reflexivity. Qed.

(** The directory is a prefix of the path that ends with a backslash, and the last
    such. *)
Lemma install_dir_of_spec dir file :
  of_code 92 ∉ file → install_dir_of (dir ++ of_code 92 :: file) = dir ++ [of_code 92].
Proof.
  intros Hf. unfold install_dir_of. rewrite rfind_last by done.
  rewrite cons_middle, app_assoc, take_app_le by (rewrite length_app; simpl; lia).
  by rewrite take_ge by (rewrite length_app; simpl; lia).
Qed.
