(* ===== verification/WindowsInfo.v ===== *)
(** * Information about Windows ([windows/pandora_windows_info.cc])

    Process handles, registry values and the installed software. The processes and
    the registry are Windows': what their functions answer is an argument. The
    functions that hand the question to [Pandora_Wmi] are in [Wmi]. *)
From S2P Require Import Prelude StdString Scanf Strutils.

(** [getSystemPath]; the answer of [GetWindowsDirectory] is given. *)
Definition getSystemPath (windows_directory : str) : str := trim windows_directory.

(** ** Process handles *)

(** What is known of a process by its identifier, which names its handle: it cannot be
    opened, its modules cannot be listed, or the name of its first module. *)
Inductive opened := Refused | No_modules | Named (base_name : str).

Definition MAX_HANDLES : nat := 128.

Section processes.
Context (OpenProcess : Z → opened) (name : str).

Definition is_named (pid : Z) : bool :=
  match OpenProcess pid with Named n => same_nocase n name | _ => false end.

(** The loop: the handles kept and those closed. A handle more than [handles] has
    places is written past its end. *)
Fixpoint handles_loop (pids handles closed : list Z) : res (list Z * list Z) :=
  match pids with
  | [] => Ok (handles, closed)
  | pid :: pids =>
      if decide (pid = 0)%Z then handles_loop pids handles closed else
      match OpenProcess pid with
      | Refused => handles_loop pids handles closed
      | No_modules => handles_loop pids handles (closed ++ [pid])
      | Named n =>
          if same_nocase n name then
            if decide (length handles < MAX_HANDLES)
            then handles_loop pids (handles ++ [pid]) closed else Undef
          else handles_loop pids handles (closed ++ [pid])
      end
  end.

(** The handles, [None] for the null pointer, their number, and those closed. The
    answer of [EnumProcesses] is the identifiers, [None] when it fails. *)
Definition getProcessHandles (EnumProcesses : option (list Z)) : res (option (list Z) * Z * list Z) :=
  match EnumProcesses with
  | None => Ok (None, 0%Z, [])
  | Some pids =>
      let! (handles, closed) := handles_loop pids [] [] in
      if decide (handles = []) then Ok (None, 0%Z, closed)
      else Ok (Some handles, Z.of_nat (length handles), closed)
  end.

Definition wanted (pid : Z) : bool := negb (bool_decide (pid = 0%Z)) && is_named pid.
Definition unwanted (pid : Z) : bool :=
  negb (bool_decide (pid = 0%Z)) &&
  match OpenProcess pid with Refused => false | _ => negb (is_named pid) end.

Lemma handles_loop_spec pids handles closed :
  length handles + length (List.filter wanted pids) ≤ MAX_HANDLES →
  handles_loop pids handles closed =
    Ok (handles ++ List.filter wanted pids,
        closed ++ List.filter unwanted pids).
Proof.
  revert handles closed. induction pids as [|pid pids IH]; intros handles closed Hl.
  { by rewrite !app_nil_r. }
  cbn [handles_loop List.filter] in *. unfold wanted, unwanted, is_named in Hl |- *.
  destruct (decide (pid = 0%Z)) as [->|Hp]; [by apply IH|].
  rewrite bool_decide_false in Hl |- * by done. cbn [negb andb] in *.
  destruct (OpenProcess pid) as [| |n]; cbn [negb] in *; [by apply IH|..].
  - rewrite IH by done. by rewrite <- app_assoc.
  - destruct (same_nocase n name); cbn [negb length] in *.
    + rewrite decide_True by lia. rewrite IH by (rewrite length_app; cbn; unfold wanted, is_named; lia).
      by rewrite <- app_assoc.
    + rewrite IH by done. by rewrite <- app_assoc.
Qed.
(** Of the processes listed, the handles of those with the name, whatever its case, are
    given, in their order; every other handle that was opened is closed. *)
Lemma getProcessHandles_spec pids :
  length (List.filter wanted pids) ≤ MAX_HANDLES →
  getProcessHandles (Some pids) =
    Ok (let l := List.filter wanted pids in if decide (l = []) then None else Some l,
        Z.of_nat (length (List.filter wanted pids)), List.filter unwanted pids).
Proof.
  intros Hl. cbn [getProcessHandles]. rewrite handles_loop_spec by done. cbn.
  by destruct (List.filter wanted pids).
Qed.

(** One more, and it is written behind the array. *)
Lemma handles_loop_overflow pids handles closed :
  MAX_HANDLES < length handles + length (List.filter wanted pids) → length handles ≤ MAX_HANDLES →
  handles_loop pids handles closed = Undef.
Proof.
  revert handles closed. induction pids as [|pid pids IH]; intros handles closed Hl Hm; [cbn in Hl; lia|].
  cbn [handles_loop List.filter] in *. unfold wanted at 1, is_named in Hl.
  destruct (decide (pid = 0%Z)) as [->|Hp]; [by apply IH|].
  rewrite bool_decide_false in Hl by done. cbn [negb andb] in *.
  destruct (OpenProcess pid) as [| |n]; [by apply IH..|].
  destruct (same_nocase n name); cbn [length] in *; [|by apply IH].
  case_decide; [|done]. apply IH; rewrite length_app; cbn; lia.
Qed.
End processes.

(** ** The registry *)

Definition REG_SZ : Z := 1.
Definition REG_EXPAND_SZ : Z := 2.
Definition REG_MULTI_SZ : Z := 7.
Definition FIRST_BUFFER_SIZE : Z := 1024.

(** The answer of [RegQueryValueEx] for a buffer: it is too small, and how many bytes
    the value has; an error; the type and the bytes. *)
Inductive reg_answer :=
  | More_data (size : Z)
  | Reg_error
  | Reg_data (data_type : Z) (data : str).

(** [longtohex] of [pandora_strutils.cc]: a negative number is its 32 bits. *)
Fixpoint hex_go (fuel : nat) (n : Z) (acc : str) : str :=
  match fuel with
  | 0 => acc
  | S fuel =>
      let digit := of_code (if (n mod 16 <? 10)%Z then n mod 16 + 48 else n mod 16 + 87) in
      if (n <? 16)%Z then digit :: acc else hex_go fuel (n / 16)%Z (digit :: acc)
  end.
Definition longtohex (i : Z) : str := hex_go 8 (u32 i) [].

(** The text of a number: its bytes from the last to the first, of which only a zero
    is given two digits. *)
Fixpoint number_text (data result : str) : str :=
  match data with
  | [] => result
  | c :: data =>
      let hex := longtohex (code c) in
      let hex := if decide (hex = &"0") then &"0" ++ hex else hex in
      number_text data (hex ++ result)
  end.

(** What a value is as a string. The end of a text is its first zero byte; one without
    is read on behind its end. *)
Definition value_text (data_type : Z) (data : str) : res str :=
  if decide (data_type = REG_EXPAND_SZ ∨ data_type = REG_MULTI_SZ ∨ data_type = REG_SZ) then
    if decide (NUL ∈ data) then Ok (takewhile (λ c, negb (bool_decide (c = NUL))) data) else Undef
  else
    let! result_int := strtoint (number_text data []) in
    Ok (inttostr result_int).

Section registry.
Context {key : Type}.
Context (RegOpenKeyEx : key → str → option key) (RegCloseKey : key → bool).
Context (RegQueryValueEx : key → str → Z → reg_answer) (malloc : Z → bool).

(** The loop over the parts of the path: [None] when a key cannot be opened, or the
    one before not closed. [current] is not written before the first round. *)
Fixpoint open_path (prev : key) (current : res key) (tokens : list str) : res (option key) :=
  match tokens with
  | [] => let! current := current in Ok (Some current)
  | t :: tokens =>
      match RegOpenKeyEx prev t with
      | None => Ok None
      | Some current => if negb (RegCloseKey prev) then Ok None else open_path current (Ok current) tokens
      end
  end.

(** The value, with buffers that are twice what the last answer asked for; [None] when
    it cannot be read. *)
Fixpoint query_value (fuel : nat) (current : key) (keyname : str) (buffer_size : Z) : res (option (Z * str)) :=
  match fuel with
  | 0 => Undef
  | S fuel =>
      if negb (malloc buffer_size) then Ok None else
      match RegQueryValueEx current keyname buffer_size with
      | More_data size => query_value fuel current keyname (u32 (size * 2))
      | Reg_error => Ok None
      | Reg_data data_type data => Ok (Some (data_type, data))
      end
  end.

Definition getRegistryValue (fuel : nat) (root : key) (treepath keyname : str) : res str :=
  let! current := open_path root Undef (stringtok treepath &"\") in
  match current with
  | None => Ok []
  | Some current =>
      let! v := query_value fuel current keyname FIRST_BUFFER_SIZE in
      match v with
      | None => Ok []
      | Some (data_type, data) => value_text data_type data
      end
  end.

(** ** The installed software *)

Definition software_tree : str := &"SOFTWARE\Microsoft\Windows\CurrentVersion\Uninstall".

(** The row of a subkey, [None] when it has no name. *)
Definition software_row (fuel : nat) (root : key) (separator sub_key_name : str) : res (option str) :=
  let reg_path := software_tree ++ &"\" ++ sub_key_name in
  let! app_name := getRegistryValue fuel root reg_path &"DisplayName" in
  if decide (app_name = []) then Ok None else
  let! version := getRegistryValue fuel root reg_path &"DisplayVersion" in
  Ok (Some (if decide (version = []) then app_name else app_name ++ separator ++ version)).

(** The loop over the subkeys, by what [RegEnumKeyEx] answers for each: the rows and
    their number. *)
Fixpoint software_loop (fuel : nat) (root : key) (separator : str) (names : list (option str))
    (rows : list str) (num_objects : Z) : res (list str * Z) :=
  match names with
  | [] => Ok (rows, num_objects)
  | None :: names => software_loop fuel root separator names rows num_objects
  | Some name :: names =>
      let! row := software_row fuel root separator name in
      match row with
      | None => software_loop fuel root separator names rows num_objects
      | Some row => software_loop fuel root separator names (rows ++ [row]) (num_objects + 1)
      end
  end.

(** [HKEY_LOCAL_MACHINE] is [root]; its key with the software has been opened, or not. *)
Definition getSoftware (fuel : nat) (root : key) (opens : bool) (RegEnumKeyEx : list (option str))
    (rows : list str) (separator : str) : res (list str * Z) :=
  if negb opens then Ok (rows, 0%Z) else software_loop fuel root separator RegEnumKeyEx rows 0.

(** The registry answers as documented: [stored] is what a key holds. *)
Definition answers_as_documented (stored : key → str → option (Z * str)) : Prop :=
  ∀ k n size, RegQueryValueEx k n size =
    match stored k n with
    | None => Reg_error
    | Some (t, data) => if decide (Z.of_nat (length data) ≤ size)%Z then Reg_data t data
                        else More_data (Z.of_nat (length data))
    end.

(** Then a second buffer is always large enough, whatever the value holds. *)
Lemma query_value_stored stored current keyname fuel :
  answers_as_documented stored → (∀ n, malloc n = true) →
  (∀ t data, stored current keyname = Some (t, data) → Z.of_nat (length data) < 2 ^ 31)%Z →
  query_value (S (S fuel)) current keyname FIRST_BUFFER_SIZE = Ok (stored current keyname).
Proof.
  intros Hq Hm Hs. cbn [query_value]. rewrite !Hm, Hq. cbn [negb].
  destruct (stored current keyname) as [[t data]|] eqn:E; [|done].
  specialize (Hs _ _ eq_refl). case_decide; [done|]. rewrite Hm, Hq, E. cbn [negb].
  rewrite decide_True; [done|]. unfold wrap_u. rewrite Z.mod_small by lia. lia.
Qed.

(** The key at the end of a path. *)
Fixpoint key_at (k : key) (tokens : list str) : option key :=
  match tokens with
  | [] => Some k
  | t :: tokens => k ← RegOpenKeyEx k t; key_at k tokens
  end.

Lemma open_path_key prev current tokens :
  (∀ k, RegCloseKey k = true) → tokens ≠ [] →
  open_path prev current tokens = Ok (key_at prev tokens).
Proof.
  intros Hc. revert prev current. induction tokens as [|t tokens IH]; intros prev current Hn; [done|].
  cbn [open_path key_at]. destruct (RegOpenKeyEx prev t) as [k|]; [|done]. cbn. rewrite Hc. cbn.
  destruct tokens as [|t' tokens]; [done|]. by apply IH.
Qed.

(** The value of a key is found by its path: a text up to its end, an empty string when
    the path or the value is missing. *)
Lemma getRegistryValue_text stored root treepath keyname fuel :
  answers_as_documented stored → (∀ n, malloc n = true) → (∀ k, RegCloseKey k = true) →
  (∀ k n t data, stored k n = Some (t, data) → Z.of_nat (length data) < 2 ^ 31)%Z →
  stringtok treepath &"\" ≠ [] →
  (∀ k s rest, key_at root (stringtok treepath &"\") = Some k → NUL ∉ s →
     stored k keyname = Some (REG_SZ, s ++ NUL :: rest) →
     getRegistryValue (S (S fuel)) root treepath keyname = Ok s) ∧
  (key_at root (stringtok treepath &"\") ≫= (λ k, stored k keyname) = None →
     getRegistryValue (S (S fuel)) root treepath keyname = Ok []).
Proof.
  intros Hq Hm Hc Hs Ht. unfold getRegistryValue. rewrite open_path_key by done. cbn [rbind]. split.
  - intros k s rest -> Hn Hv. rewrite (query_value_stored stored) by eauto. rewrite Hv. cbn [rbind].
    unfold value_text. rewrite decide_True by tauto. rewrite decide_True by set_solver.
    rewrite takewhile_app_stop; [done| |by rewrite bool_decide_true].
    apply Forall_forall. intros c Hin. rewrite bool_decide_false; [done|]. by intros ->.
  - destruct (key_at root _) as [k|]; [|done]. intros Hv.
    rewrite (query_value_stored stored) by eauto. cbn in Hv. by rewrite Hv.
Qed.

(** The rows are those of the subkeys that have a name, in their order behind what the
    list held, and their number is returned. *)
Lemma software_loop_rows fuel root separator names found rows n :
  Forall2 (λ name row, match name with
    | None => row = None
    | Some name => software_row fuel root separator name = Ok row
    end) names found →
  software_loop fuel root separator names rows n =
    Ok (rows ++ omap id found, n + Z.of_nat (length (omap id found)))%Z.
Proof.
  intros H. revert rows n. induction H as [|name row names found Hr _ IH]; intros rows n.
  { cbn. by rewrite app_nil_r, Z.add_0_r. }
  destruct name as [name|]; simplify_eq/=; [|apply IH]. rewrite Hr. cbn.
  destruct row as [row|]; [|by apply IH]. rewrite IH. cbn. rewrite <- app_assoc. do 2 f_equal. lia.
Qed.
End registry.

(** A number is given as if its hexadecimal digits were decimal ones: 16 as 10, 10 as
    nothing, and 258 as 12, as the digits of one byte are not filled up. *)
Lemma value_text_numbers :
  value_text 4 (of_code <$> [16; 0; 0; 0]%Z) = Ok &"10" ∧
  value_text 4 (of_code <$> [10; 0; 0; 0]%Z) = Ok &"0" ∧
  value_text 4 (of_code <$> [2; 1; 0; 0]%Z) = Ok &"12" ∧
  value_text 4 (of_code <$> [0; 0; 0; 255]%Z) = Err Invalid_Conversion.
Proof. by vm_compute. Qed.
