(* ===== verification/FtpClient.v ===== *)
(** * The FTP client of the agent ([ftp/pandora_ftp_client.cc])

    A file is uploaded under its own name and then renamed. libcurl is an argument:
    whether a handle can be made, and the code of a transfer with its options. *)
From S2P Require Import Prelude StdString AgentConf PandoraFile PandoraModule ServiceState Transfer.

(** [Pandora_Ftp_Client]; [result] is not set by the constructor. *)
Record Pandora_Ftp_Client := {
  ftp_host : str;
  ftp_username : str;
  ftp_password : str;
  curl : bool;
  result : option Z }.

Definition new_ftp_client : Pandora_Ftp_Client :=
  {| ftp_host := []; ftp_username := []; ftp_password := []; curl := false; result := None |}.

Definition ftp_disconnect (c : Pandora_Ftp_Client) : Pandora_Ftp_Client :=
  {| ftp_host := ftp_host c; ftp_username := ftp_username c; ftp_password := ftp_password c;
     curl := false; result := result c |}.

(** The port is not used. *)
Definition ftp_connect (host : str) (port : Z) (username password : str) (c : Pandora_Ftp_Client) : Pandora_Ftp_Client :=
  {| ftp_host := host; ftp_username := username; ftp_password := password; curl := curl c; result := result c |}.

Definition set_result (rc : Z) (c : Pandora_Ftp_Client) : Pandora_Ftp_Client :=
  {| ftp_host := ftp_host c; ftp_username := ftp_username c; ftp_password := ftp_password c;
     curl := false; result := Some rc |}.

(** The options of a transfer; the times are in seconds. *)
Record upload := {
  url : str;
  postquote : list str;
  timeout : Z;
  response_timeout : Z;
  content : str;
  infilesize : Z }.

Definition CURLE_OK : Z := 0.
Definition CURLE_COULDNT_CONNECT : Z := 7.
Definition CURLE_FTP_ACCESS_DENIED : Z := 9.
Definition CURLE_FTP_QUOTE_ERROR : Z := 21.

Section ftp.
Context (curl_easy_init : bool) (curl_easy_perform : upload → Z) (curl_easy_strerror : Z → str).

Definition upload_of (c : Pandora_Ftp_Client) (remote_filename filename data : str) : upload := {|
  url := &"ftp://" ++ ftp_username c ++ &":" ++ ftp_password c ++ &"@" ++ ftp_host c ++ &"/" ++ filename;
  postquote := [&"RNFR " ++ filename; &"RNTO " ++ remote_filename];
  timeout := 240;
  response_timeout := 60;
  content := data;
  infilesize := Z.of_nat (length data) |}.

(** The value returned; [None] when the end of the function is reached without one. *)
Definition ftp_code (rc : Z) : option Z :=
  if decide (rc = CURLE_OK ∨ rc = CURLE_FTP_QUOTE_ERROR) then None
  else if decide (rc = CURLE_COULDNT_CONNECT) then Some UNKNOWN_HOST
  else if decide (rc = CURLE_FTP_ACCESS_DENIED) then Some AUTHENTICATION_FAILED
  else Some FTP_EXCEPTION.

(** A file that cannot be opened is a null pointer that is closed. *)
Definition ftpFileFilename (fs : files) (remote_filename filepath : str) (c : Pandora_Ftp_Client)
    : res (option Z * Pandora_Ftp_Client) :=
  if decide (ftp_host c = []) then Ok (Some UNKNOWN_HOST, c) else
  let! filename := fileName filepath in
  match fs !! filepath with
  | None => Undef
  | Some data =>
      let c := if curl_easy_init then set_result (curl_easy_perform (upload_of c remote_filename filename data)) c
               else ftp_disconnect c in
      match result c with
      | None => Undef
      | Some rc => Ok (ftp_code rc, c)
      end
  end.

Definition getError (c : Pandora_Ftp_Client) : res str :=
  match result c with None => Undef | Some rc => Ok (curl_easy_strerror rc) end.

(** The name after the last backslash. *)
Lemma fileName_last dir file :
  BACKSLASH ∉ file → fileName (dir ++ BACKSLASH :: file) = Ok file.
Proof.
  intros Hf. unfold fileName. rewrite rfind_last by done. unfold substr.
  rewrite decide_True by (rewrite length_app; simpl; lia).
  by rewrite cons_middle, app_assoc, drop_app_length' by (rewrite length_app; simpl; lia).
Qed.

(** With a file and a handle, one transfer is made: the file goes under its own name to
    the host that was given, is renamed, and the code tells what came of it. A
    success has no code of its own. *)
Lemma ftpFileFilename_transfer fs remote dir file data c :
  curl_easy_init = true → ftp_host c ≠ [] → BACKSLASH ∉ file → fs !! (dir ++ BACKSLASH :: file) = Some data →
  let rc := curl_easy_perform (upload_of c remote file data) in
  ftpFileFilename fs remote (dir ++ BACKSLASH :: file) c = Ok (ftp_code rc, set_result rc c) ∧
  (ftp_code rc = None ↔ rc = CURLE_OK ∨ rc = CURLE_FTP_QUOTE_ERROR).
Proof.
  intros Hi Hh Hf Hd rc. unfold ftpFileFilename. rewrite decide_False by done.
  rewrite fileName_last by done. cbn [rbind]. rewrite Hd, Hi. split; [done|].
  unfold ftp_code. by repeat case_decide; split.
Qed.

(** Without a handle nothing is sent, and the code is that of the transfer before;
    there need not have been one. *)
Lemma ftpFileFilename_no_handle fs remote filepath c data :
  curl_easy_init = false → ftp_host c ≠ [] → (∃ f, fileName filepath = Ok f) → fs !! filepath = Some data →
  ftpFileFilename fs remote filepath c =
    match result c with None => Undef | Some rc => Ok (ftp_code rc, ftp_disconnect c) end.
Proof.
  intros Hi Hh [f Hf] Hd. unfold ftpFileFilename. rewrite decide_False by done.
  rewrite Hf. cbn [rbind]. by rewrite Hd, Hi.
Qed.
End ftp.
