(* ===== verification/Clients.v ===== *)
(** * The copies of the service with its clients

    [copyScpDataFile] and [copyFtpDataFile] of [pandora_windows_service.cc] with the
    SSH client on libssh2 and the FTP client on libcurl in them.  In [Transfer] the
    clients are requests that the platform answers; here a platform whose answers are
    those of the client is shown to give the same. *)
From S2P Require Import Prelude StdString Strutils Pandora AgentConf PandoraFile ServiceState Transfer FtpClient Ssh2Misc Ssh2Session Ssh2Comp Ssh2Packet Ssh2Channel Ssh2Kex Ssh2Keeps Openssl Ssh2Hostkey Ssh2Dh Ssh2Startup Ssh2Auth Ssh2Scp SshClient.

(** [server_port], or the default. *)
Definition port_of (kvs : list Key_Value) (dflt : Z) : res Z :=
  let port_str := getValue_list kvs &"server_port" in
  if decide (port_str = []) then Ok dflt else strtoint port_str.

Section ssh.
Context `{ssl : openssl} (p : platform) (e : surroundings) (net : network).
Context (beyond : list Z) (cms : list crypt_method) (mms : list mac_method)
  (cps : list comp_method).
Context (no_crypt : crypt_method) (no_mac : mac_method) (no_comp : comp_method)
  (open_file : str → option str) (tries : nat) (padded : bool).

#[local] Abbreviation kex_exchange := (key_exchange e beyond cms mms cps).

Definition pubkey_file : str := install_dir p ++ &"key\id_dsa.pub".
Definition privkey_file : str := install_dir p ++ &"key\id_dsa".

Definition connect_client (host : str) (port : Z) : CL Z :=
  connectWithPublicKey e net no_crypt no_mac no_comp kex_exchange open_file tries padded
    host port &"pandora" pubkey_file privkey_file [].

(** [copyScpDataFile] from the connection on; [fs] are the files when it reads its own. *)
Definition scp_copy (fs : files) (host : str) (port : Z) (remote_path filename filepath : str) : CL Z :=
  rc ← connect_client host port;
  if decide (rc = Transfer.AUTHENTICATION_FAILED ∨ rc = PANDORA_EXCEPTION) then mret rc
  else
    rc ← scpFileFilename e fs kex_exchange (remote_path ++ filename) filepath;
    disconnect e kex_exchange tries;; mret rc.

Lemma scp_copy_closed fs host port remote filename filepath rc c :
  scp_copy fs host port remote filename filepath new_client = Ok (rc, c) → ssh_session c = None.
Proof.
  unfold scp_copy. intros (rc1 & c1 & E1%connect_login & H)%CL_inv. case_decide as Hrc.
  - injection H as <- <-. destruct (ssh_session c1); [|done].
    destruct E1 as [-> _]. by destruct Hrc.
  - apply CL_inv in H as (rc2 & c2 & _ & H).
    by apply CL_inv in H as (u & c3 & [H3 _]%disconnect_closes & [= <- <-]).
Qed.

(** A file that was not there is not sent. *)
Lemma scp_sent fs remote filepath c c' :
  scpFileFilename e fs kex_exchange remote filepath c = Ok (0%Z, c') →
  is_Some (ssh_session c) ∧ is_Some (fs !! filepath).
Proof.
  unfold scpFileFilename. intros (? & ? & [= <- <-] & H)%CL_inv.
  destruct (ssh_session c) as [s|]; [|done]. split; [done|].
  unfold readFile in H. destruct (fs !! filepath); [done|]. by rewrite Z.eqb_refl in H.
Qed.

(** A copy that gives 0 went over a session that is authenticated. *)
Lemma scp_copy_authenticated fs host port remote filename filepath c :
  scp_copy fs host port remote filename filepath new_client = Ok (0%Z, c) →
  is_Some (fs !! filepath) ∧
  ∃ c1 s, connect_client host port new_client = Ok (0%Z, c1) ∧ ssh_session c1 = Some s ∧
          authenticated s = true.
Proof.
  unfold scp_copy. intros (rc1 & c1 & E1 & H)%CL_inv. pose proof E1 as L%connect_login.
  case_decide as Hrc; [by injection H as -> <-; destruct Hrc|].
  apply CL_inv in H as (rc2 & c2 & E2 & H). apply CL_inv in H as (u & c3 & _ & [= -> <-]).
  apply scp_sent in E2 as [[s Es] Hf]. split; [done|]. rewrite Es in L. destruct L as [-> L].
  by exists c1, s.
Qed.

Section served.
Context (kvs : list Key_Value) (host remote_path filename dir : str) (port : Z) (w : world).

Definition connect_request : request := R_ssh_connect host port &"pandora" pubkey_file privkey_file.
Definition scp_request : request := R_scp (remote_path ++ filename) (dir ++ filename).
Definition connected : world := (served p connect_request w).2.

(** The platform answers as the client would. *)
Definition answers_as_client : Prop :=
  (∀ rc c, connect_client host port new_client = Ok (rc, c) →
     (served p connect_request w).1 = Code rc) ∧
  (∀ rc1 c1 rc c,
     connect_client host port new_client = Ok (rc1, c1) →
     scpFileFilename e (fs connected) kex_exchange (remote_path ++ filename) (dir ++ filename) c1 =
       Ok (rc, c) →
     (served p scp_request connected).1 = Code rc).

Lemma request_rc_served r w1 :
  request_rc p r w1 =
    Ret (match (served p r w1).1 with Code rc => rc | _ => (-1)%Z end) (served p r w1).2.
Proof. unfold request_rc, mbind, M_bind. by rewrite request_served. Qed.

Lemma server_port_of w1 dflt :
  configured kvs w1 → port_of kvs dflt = Ok port → server_port dflt w1 = Ret port w1.
Proof.
  intros Hw Hp. unfold server_port. rewrite (bind_value kvs) by done.
  unfold port_of in Hp. destruct (decide (getValue_list kvs &"server_port" = [])).
  - by injection Hp as ->.
  - by rewrite Hp.
Qed.

Lemma copyScpDataFile_served :
  configured kvs w → ends_with (of_code 92) (getValue_list kvs &"temporal") = Ok dir →
  port_of kvs SSH_DEFAULT_PORT = Ok port →
  copyScpDataFile p host remote_path filename w =
  (rc ← request_rc p connect_request;
   if decide (rc = Transfer.AUTHENTICATION_FAILED ∨ rc = PANDORA_EXCEPTION) then mret rc
   else request_rc p scp_request) w.
Proof.
  intros Hw Hdir Hport. unfold copyScpDataFile, temporal_dir, mbind, M_bind.
  rewrite (getValue_of_configured kvs) by done. rewrite Hdir. cbn [ServiceState.lift].
  by rewrite (server_port_of w SSH_DEFAULT_PORT).
Qed.
End served.
End ssh.

(** ** FTP *)

(** [copyFtpDataFile] from the connection on: the variable [rc] has no value when
    [ftpFileFilename] ends without one, and is read. *)
Definition ftp_copy (curl_easy_init : bool) (curl_easy_perform : upload → Z) (fs : files)
    (host : str) (port : Z) (password remote_path filename filepath : str)
    : res (Z * Pandora_Ftp_Client) :=
  let c := ftp_connect host port &"pandora" password new_ftp_client in
  let! (rc, c) := ftpFileFilename curl_easy_init curl_easy_perform fs (remote_path ++ filename) filepath c in
  match rc with
  | None => Undef
  | Some rc => Ok (rc, ftp_disconnect c)
  end.

(** No copy by FTP is known to have gone well: the code of a success is that of none. *)
Lemma ftp_copy_never_0 init perform fs host port password remote filename filepath rc c :
  ftp_copy init perform fs host port password remote filename filepath = Ok (rc, c) → rc ≠ 0%Z.
Proof.
  unfold ftp_copy. intros ([[rc1|] c1] & E & H)%rbind_Ok; [|done]. injection H as <- <-.
  unfold ftpFileFilename, ftp_code in E. repeat (case_match || case_decide); simplify_eq/=; try done.
  all: apply rbind_Ok in E as (f & _ & E); repeat (case_match || case_decide); simplify_eq/=; done.
Qed.

(** ** Property *)

(** C13. the copy by SSH, service and client together: where the platform answers the
    requests for the connection and the copy as the client on libssh2 does, the service
    gets the result of the client; afterwards the client has no session; and the result
    is 0, after which the data file is removed, only if the file was there and the
    session it went over was authenticated. *)
Theorem copyScpDataFile_client `{ssl : openssl} p e net beyond cms mms cps no_crypt no_mac no_comp
    open_file tries padded kvs host remote_path filename dir port w rc c :
  configured kvs w → ends_with (of_code 92) (getValue_list kvs &"temporal") = Ok dir →
  port_of kvs SSH_DEFAULT_PORT = Ok port →
  answers_as_client p e net beyond cms mms cps no_crypt no_mac no_comp open_file tries padded
    host remote_path filename dir port w →
  scp_copy p e net beyond cms mms cps no_crypt no_mac no_comp open_file tries padded
    (fs (connected p host port w)) host port remote_path filename (dir ++ filename) new_client = Ok (rc, c) →
  (∃ w', copyScpDataFile p host remote_path filename w = Ret rc w') ∧ ssh_session c = None ∧
  (rc = 0%Z → is_Some (fs (connected p host port w) !! (dir ++ filename)) ∧
     ∃ c1 s, connect_client p e net beyond cms mms cps no_crypt no_mac no_comp open_file tries padded
               host port new_client = Ok (0%Z, c1) ∧ ssh_session c1 = Some s ∧ authenticated s = true).
Proof.
  intros Hw Hdir Hport [Ha1 Ha2] H. split; [|split].
  - rewrite (copyScpDataFile_served p kvs host remote_path filename dir port) by done.
    unfold scp_copy in H. apply CL_inv in H as (rc1 & c1 & E1 & H).
    unfold mbind, M_bind. rewrite request_rc_served, (Ha1 rc1 c1) by done. fold (connected p host port w).
    case_decide as Hrc.
    + injection H as -> ->. by eexists.
    + apply CL_inv in H as (rc2 & c2 & E2 & H). apply CL_inv in H as (u & c3 & _ & [= -> ->]).
      rewrite request_rc_served, (Ha2 rc1 c1 rc c2) by done. by eexists.
  - by eapply scp_copy_closed.
  - intros ->. by eapply scp_copy_authenticated.
Qed.

(** ** A copy *)

#[local] Existing Instance demo_openssl.

(** After the login: the channel, the command, the two acknowledgements, the end. *)
Definition on_channel (type : Z) (rest : str) : recv_event :=
  ciphered (of_code type :: libssh2_htonu32 0 ++ rest).
Definition scp_network : network := {|
  new_socket := 5; gethostbyname _ := Some &"10.0.0.1"; connects _ _ := true;
  replies := replies (demo_network true) ++
    [on_channel SSH_MSG_CHANNEL_OPEN_CONFIRMATION
       (libssh2_htonu32 7 ++ libssh2_htonu32 65536 ++ libssh2_htonu32 32768);
     on_channel SSH_MSG_CHANNEL_SUCCESS [];
     on_channel SSH_MSG_CHANNEL_DATA (ssh_string [NUL]);
     on_channel SSH_MSG_CHANNEL_DATA (ssh_string [NUL]);
     on_channel SSH_MSG_CHANNEL_EOF [];
     on_channel SSH_MSG_CHANNEL_CLOSE []] |}.

Definition ssh_platform : platform := demo_platform (λ _ _ m, (Code 0, m)).
Definition ssh_conf : list (str * str) := [(&"temporal", &"C:\tmp")].
Definition ssh_world : world := demo_world (demo_conf ssh_conf) {[ &"C:\tmp\x.data" := &"<agent_data>" ]}.

#[local] Abbreviation demo_client f :=
  (f demo_openssl ssh_platform demo_surroundings scp_network [] demo_crypts demo_digests demo_comps
    (crypt demo_endpoint) (mac_m demo_endpoint) (comp demo_endpoint) (λ _, Some demo_key) 3 true).

Definition code_of (r : res (Z * Pandora_Ssh_Client)) : option Z :=
  match r with Ok (rc, _) => Some rc | _ => None end.

Lemma code_of_inv r rc : code_of r = Some rc → ∃ c, r = Ok (rc, c).
Proof. destruct r as [[x c]| |]; [|done..]. intros [= ->]. by exists c. Qed.

Lemma demo_copy_sent :
  code_of (demo_client (@scp_copy) (fs ssh_world) &"pandora" 22 &"/in/" &"x.data" &"C:\tmp\x.data"
             new_client) = Some 0%Z.
Proof. by vm_compute. Qed.

Lemma demo_client_codes :
  code_of (demo_client (@connect_client) &"pandora" 22 new_client) = Some 0%Z ∧
  code_of ((_ ← demo_client (@connect_client) &"pandora" 22;
            scpFileFilename demo_surroundings (fs ssh_world)
              (key_exchange demo_surroundings [] demo_crypts demo_digests demo_comps)
              &"/in/x.data" &"C:\tmp\x.data") new_client) = Some 0%Z.
Proof. by split; vm_compute. Qed.

Lemma connected_files : fs (connected ssh_platform &"pandora" 22 ssh_world) = fs ssh_world.
Proof. reflexivity. Qed.
Lemma remote_name : &"/in/" ++ &"x.data" = &"/in/x.data".
Proof. reflexivity. Qed.
Lemma local_name : &"C:\tmp\" ++ &"x.data" = &"C:\tmp\x.data".
Proof. reflexivity. Qed.

(** The platform, which gives 0 to every request, answers as this client. *)
Lemma ssh_platform_answers :
  demo_client (@answers_as_client) &"pandora" &"/in/" &"x.data" &"C:\tmp\" 22 ssh_world.
Proof.
  destruct demo_client_codes as [[d1 H1]%code_of_inv [d2 H2]%code_of_inv].
  apply CL_inv in H2 as (rd & d & E1' & E2'). split.
  - intros rc c E. rewrite E in H1. injection H1 as -> ->. reflexivity.
  - intros rc1 c1 rc c E1 E2. rewrite connected_files, remote_name, local_name in E2.
    rewrite E1 in E1'. injection E1' as -> ->. rewrite E2 in E2'. injection E2' as -> ->. reflexivity.
Qed.

Lemma copyScpDataFile_client_witness :
  (∃ w', copyScpDataFile ssh_platform &"pandora" &"/in/" &"x.data" ssh_world = Ret 0%Z w') ∧
  ∃ c1 s, demo_client (@connect_client) &"pandora" 22 new_client = Ok (0%Z, c1) ∧
          ssh_session c1 = Some s ∧ authenticated s = true.
Proof.
  destruct (code_of_inv _ _ demo_copy_sent) as [c E].
  destruct (copyScpDataFile_client ssh_platform demo_surroundings scp_network [] demo_crypts demo_digests
    demo_comps (crypt demo_endpoint) (mac_m demo_endpoint) (comp demo_endpoint) (λ _, Some demo_key) 3 true
    (default [] (key_values (demo_conf ssh_conf))) &"pandora" &"/in/" &"x.data" &"C:\tmp\" 22
    ssh_world 0 c) as (Hs & _ & Ha).
  - eexists. split; reflexivity.
  - reflexivity.
  - reflexivity.
  - exact ssh_platform_answers.
  - exact E.
  - split; [exact Hs|]. by apply Ha.
Defined.
