(* ===== verification/Watchdog.v ===== *)
(** * The threads of asynchronous modules

    [async_run] of [modules/pandora_module_proc.cc] and of
    [modules/pandora_module_service.cc]: a thread that watches a process or a service,
    reports when it comes or goes, and starts it again. A thread is written as rounds
    of its loop; what Windows answers in a round is an argument. The thread shares the
    world with the agent's cycle, which does not run during a round here;
    [Interleave] mixes the steps of both. *)
From S2P Require Import Prelude StdString Strutils AgentConf PandoraData PandoraModule Wmi Modules ModuleList ServiceState Transfer RemoteConfig Service UdpServer WindowsInfo.

(** What the thread keeps: the module and where the cursor of its own list stands,
    the output reported last, and how often the process has been started in vain. *)
Record thread := mk_thread {
  module : Modules.object;
  position : cursor;
  prev_res : str;
  counter : Z }.

Section threads.
Context (p : platform).

(** At the start; adding a module does not move the cursor of the list. *)
Definition new_thread (o : Modules.object) : thread :=
  mk_thread o (current (addModule o new_list)) (latest_output (base o)) 0.

(** [sendXml (modules)] for another list than that of the service. *)
Definition sendXml_of (l : Pandora_Module_List) : M Pandora_Module_List :=
  mine ← gets ServiceState.modules;
  modify (set_modules (Some l));;
  _ ← sendXml p;
  sent ← gets ServiceState.modules;
  modify (set_modules mine);;
  mret (default l sent).

(** The output is set and sent when it is a new one; the list is what was sent. *)
Definition report (now : SYSTEMTIME) (res : Z) (t : thread) : M (thread * list str) :=
  let str_res := inttostr res in
  if decide (str_res = prev_res t) then mret (t, []) else
  let o := {| base := setOutput now str_res (base (module t)); own := own (module t) |} in
  l ← sendXml_of (Build_Pandora_Module_List [o] (position t));
  mret (mk_thread (default o (head (ModuleList.modules l))) (current l) str_res (counter t), [str_res]).

(** ** Processes *)

(** A round: the processes there are, twice what a query says, the answer of the wait
    and the time. *)
Record look := {
  EnumProcesses : option (list Z);
  OpenProcess : Z → opened;
  first_query : str → Wmi.answer;
  WaitForMultipleObjects : Z;
  second_query : str → Wmi.answer;
  local_time : SYSTEMTIME }.

Definition sleep (milliseconds : Z) : M () := _ ← request_ p (R_sleep milliseconds); mret ().

Definition set_module (o : Modules.object) (t : thread) : thread :=
  mk_thread o (position t) (prev_res t) (counter t).
Definition set_counter (n : Z) (t : thread) : thread :=
  mk_thread (module t) (position t) (prev_res t) n.

(** No process has the name. *)
Definition process_absent (watchdog : bool) (start_command : str) (retries start_delay retry_delay : Z)
    (t : thread) : M thread :=
  if watchdog then
    if (retries <=? counter t)%Z then mret (set_module (setWatchdog false (module t)) t) else
    sleep retry_delay;;
    _ ← runProgram p start_command 0;
    sleep start_delay;;
    mret (set_counter (s32 (counter t + 1)) t)
  else sleep 2000;; mret t.

(** Some have. As many handles are waited for as the query has counted, which may be
    more than there are; the comparison of the answer is unsigned. *)
Definition process_present (a : look) (process_name : str) (num_proc : Z) (t : thread) : M (thread * list str) :=
  let t := set_counter 0 t in
  let nprocess := isProcessRunning (first_query a) process_name in
  r ← report (local_time a) nprocess t;
  if decide (num_proc < nprocess)%Z then stuck else
  if (u32 (nprocess - 1) <? WaitForMultipleObjects a)%Z then mret r else
  r' ← report (local_time a) (isProcessRunning (second_query a) process_name) r.1;
  mret (r'.1, r.2 ++ r'.2).

(** One round of [async_run]: the thread afterwards and the outputs reported. *)
Definition proc_round (a : look) (t : thread) : M (thread * list str) :=
  match own (module t) with
  | C_proc process_name watchdog start_command retries start_delay retry_delay =>
      h ← lift (getProcessHandles (OpenProcess a) process_name (EnumProcesses a));
      match h with
      | (None, _, _) =>
          t ← process_absent watchdog start_command retries start_delay retry_delay t; mret (t, [])
      | (Some _, num_proc, _) => process_present a process_name num_proc t
      end
  | _ => stuck
  end.

(** The rounds of a thread. *)
Fixpoint rounds {A} (round : A → thread → M (thread * list str)) (looks : list A) (t : thread)
    : M (thread * list str) :=
  match looks with
  | [] => mret (t, [])
  | a :: looks =>
      r ← round a t;
      r' ← rounds round looks r.1;
      mret (r'.1, r.2 ++ r'.2)
  end.

(** [async_run] of a process. *)
Definition proc_async_run (looks : list look) (o : Modules.object) : M (thread * list str) :=
  match own o with
  | C_proc _ _ _ _ start_delay _ => sleep start_delay;; rounds proc_round looks (new_thread o)
  | _ => stuck
  end.

(** ** Services *)

Definition EVENTLOG_INFORMATION_TYPE : Z := 4.

(** A round: whether the log can be opened and tells of a change in time, the type and
    identifier of the first record of every read, what a query says, and the time. *)
Record log_look := {
  log_opens : bool;
  log_changed : bool;
  log_reads : list (Z * Z);
  service_query : str → Wmi.answer;
  log_time : SYSTEMTIME }.

Definition service_event (reads : list (Z * Z)) : bool :=
  existsb (λ '(type, id), (type =? EVENTLOG_INFORMATION_TYPE)%Z && (Z.land id 0xffff =? 7036)%Z) reads.

(** One round; the thread ends when the log cannot be opened. *)
Definition service_round (a : log_look) (t : thread) : M (option thread * list str) :=
  match own (module t) with
  | C_service service_name watchdog =>
      if negb (log_opens a) then mret (None, []) else
      if negb (log_changed a) then mret (Some t, []) else
      if negb (service_event (log_reads a)) then mret (Some t, []) else
      res ← lift (isServiceRunning (service_query a) service_name);
      r ← report (log_time a) res t;
      (if bool_decide (res = 0%Z) && watchdog then _ ← startService p service_name; mret () else mret ());;
      mret (Some r.1, r.2)
  | _ => stuck
  end.

Fixpoint service_rounds (looks : list log_look) (t : thread) : M (option thread * list str) :=
  match looks with
  | [] => mret (Some t, [])
  | a :: looks =>
      r ← service_round a t;
      match r.1 with
      | None => mret (None, r.2)
      | Some t => r' ← service_rounds looks t; mret (r'.1, r.2 ++ r'.2)
      end
  end.

Definition service_async_run (looks : list log_look) (o : Modules.object) : M (option thread * list str) :=
  service_rounds looks (new_thread o).

(** ** What the threads do *)

(** From any world [m] gives [a] and makes the requests [l]. *)
Definition performs {A} (m : M A) (a : A) (l : list request) : Prop :=
  ∀ w, ∃ w', m w = Ret a w' ∧ trace w' = trace w ++ (E_request <$> l).

Lemma performs_ret {A} (a : A) : performs (mret a) a [].
Proof. intros w. exists w. by rewrite app_nil_r. Qed.

Lemma performs_bind {A B} (m : M A) (k : A → M B) a b l l' :
  performs m a l → performs (k a) b l' → performs (m ≫= k) b (l ++ l').
Proof.
  intros Hm Hk w. destruct (Hm w) as (w1 & E1 & T1). destruct (Hk w1) as (w2 & E2 & T2).
  exists w2. unfold mbind, M_bind. rewrite E1. split; [done|]. by rewrite T2, T1, fmap_app, app_assoc.
Qed.

Lemma performs_lift {A} (a : A) : performs (lift (Ok a)) a [].
Proof. intros w. exists w. by rewrite app_nil_r. Qed.

Lemma performs_request {A} r (k : reply → M A) a l :
  (∀ x, performs (k x) a l) → performs (request_ p r ≫= k) a (r :: l).
Proof.
  intros Hk w. unfold request_, ask, emit, modify, get_world, mbind, M_bind.
  destruct (serve p _ r _) as [x f] eqn:E. cbn.
  match goal with |- context [k x ?w1] => destruct (Hk x w1) as (w2 & E2 & T2) end.
  exists w2. split; [done|]. rewrite T2. cbn. by rewrite <- app_assoc.
Qed.

Lemma performs_sleep n : performs (sleep n) () [R_sleep n].
Proof. apply performs_request. intros x. apply performs_ret. Qed.

Lemma performs_then_run {A} command (k : bool → M A) a l :
  command ≠ [] → (∀ x, performs (k x) a l) →
  performs (runProgram p command 0 ≫= k) a (R_run_program command 0 :: l).
Proof.
  intros Hc Hk w. unfold runProgram. rewrite decide_False by done.
  destruct (performs_request (A:=A) (R_run_program command 0)
    (λ x, k (bool_decide (x ≠ No_process_started))) a l (λ x, Hk _) w) as (w' & E & T).
  exists w'. split; [|done]. rewrite <- E. unfold mbind, M_bind, mret, M_ret.
  by destruct (request_ p _ w).
Qed.

Section absent.
Context (process_name start_command : str) (retries start_delay retry_delay : Z).
Context (Hcommand : start_command ≠ []) (Hretries : (1 ≤ retries < 2 ^ 31)%Z).

Definition own_proc (watchdog : bool) : child :=
  C_proc process_name watchdog start_command retries start_delay retry_delay.

Definition absent_in (a : look) : Prop :=
  ∃ closed, getProcessHandles (OpenProcess a) process_name (EnumProcesses a) = Ok (None, 0%Z, closed).

(** Reference: what is asked for in [n] rounds without the process, of which the first
    [left] start it. *)
Definition absent_requests (n left : nat) : list request :=
  concat (replicate (Nat.min n left) [R_sleep retry_delay; R_run_program start_command 0; R_sleep start_delay]) ++
  replicate (n - S left) (R_sleep 2000).

Lemma absent_round a watchdog t t' l :
  own (module t) = own_proc watchdog → absent_in a →
  performs (process_absent watchdog start_command retries start_delay retry_delay t) t' l →
  performs (proc_round a t) (t', []) l.
Proof using Type.
  intros Ho [closed Ha] H. unfold proc_round. rewrite Ho. cbn. rewrite Ha.
  apply (performs_bind _ _ (None, 0%Z, closed) _ [] l); [apply performs_lift|].
  rewrite <- (app_nil_r l). apply (performs_bind _ _ t' _ l []); [exact H|apply performs_ret].
Qed.

Lemma performs_rounds a looks t t1 t' l l' :
  performs (proc_round a t) (t1, []) l → performs (rounds proc_round looks t1) (t', []) l' →
  performs (rounds proc_round (a :: looks) t) (t', []) (l ++ l').
Proof using Type.
  intros H1 H2. cbn [rounds]. eapply performs_bind; [exact H1|]. rewrite <- (app_nil_r l').
  eapply performs_bind; [exact H2|]. apply performs_ret.
Qed.

Lemma absent_off looks t :
  own (module t) = own_proc false → Forall absent_in looks →
  performs (rounds proc_round looks t) (t, []) (replicate (length looks) (R_sleep 2000)).
Proof using Type.
  intros Ho Hl. induction Hl as [|a looks Ha _ IH]; [apply performs_ret|].
  apply (performs_rounds a looks t t t [R_sleep 2000]); [|done].
  apply (absent_round a false); [done..|].
  apply (performs_bind _ _ () _ [R_sleep 2000] []); [apply performs_sleep|apply performs_ret].
Qed.

(** One more start. *)
Lemma absent_start t :
  (counter t < retries)%Z →
  performs (process_absent true start_command retries start_delay retry_delay t)
    (set_counter (s32 (counter t + 1)) t) [R_sleep retry_delay; R_run_program start_command 0; R_sleep start_delay].
Proof using Hcommand.
  intros Hc. unfold process_absent. rewrite (proj2 (Z.leb_gt _ _)) by done.
  apply (performs_bind _ _ () _ [R_sleep retry_delay]); [apply performs_sleep|].
  apply performs_then_run; [done|]. intros x.
  apply (performs_bind _ _ () _ [R_sleep start_delay] []); [apply performs_sleep|apply performs_ret].
Qed.

End absent.

(** ** What the threads report *)

(** Each is another than the one before. *)
Fixpoint changes (prev : str) (l : list str) : Prop :=
  match l with [] => True | x :: l => x ≠ prev ∧ changes x l end.

Lemma changes_app prev l l' : changes prev l → changes (default prev (last l)) l' → changes prev (l ++ l').
Proof.
  revert prev. induction l as [|x l IH]; intros prev H H'; [done|]. destruct H as [Hx H].
  split; [done|]. apply IH; [done|]. rewrite last_cons in H'. by destruct (last l).
Qed.

(** [l] was reported between [t] and [t']. *)
Definition tracks (t t' : thread) (l : list str) : Prop :=
  changes (prev_res t) l ∧ prev_res t' = default (prev_res t) (last l).

Lemma tracks_same t t' : prev_res t' = prev_res t → tracks t t' [].
Proof. by split. Qed.

Lemma tracks_trans t t1 t2 l l' : tracks t t1 l → tracks t1 t2 l' → tracks t t2 (l ++ l').
Proof.
  intros [H1 E1] [H2 E2]. rewrite E1 in H2, E2. split; [by apply changes_app|].
  rewrite E2. rewrite last_app. by destruct (last l'), (last l).
Qed.

(** Only a new output is sent, and it is remembered. *)
Lemma report_spec now res t w t' l w' :
  report now res t w = Ret (t', l) w' → tracks t t' l ∧ prev_res t' = inttostr res.
Proof.
  unfold report. case_decide as E.
  - intros [= <- <- <-]. by split; [apply tracks_same|].
  - rewrite bind_Ret. intros (x & w1 & _ & [= <- <- _]). by repeat split.
Qed.

Lemma process_absent_tracks watchdog command retries start_delay retry_delay t w t' w' :
  process_absent watchdog command retries start_delay retry_delay t w = Ret t' w' → tracks t t' [].
Proof.
  unfold process_absent. destruct watchdog.
  - case_match; [by intros [= <- <-]|].
    rewrite bind_Ret. intros (? & ? & _ & H1). apply bind_Ret in H1 as (? & ? & _ & H1).
    by apply bind_Ret in H1 as (? & ? & _ & [= <- <-]).
  - rewrite bind_Ret. by intros (? & ? & _ & [= <- <-]).
Qed.

(** What is reported while there are processes: what the first query counts and, if a
    process has ended or the wait has failed, what the second one counts. *)
Lemma process_present_tracks a process_name num_proc t w t' l w' :
  process_present a process_name num_proc t w = Ret (t', l) w' →
  tracks t t' l ∧
  let nprocess := isProcessRunning (first_query a) process_name in
  (nprocess ≤ num_proc)%Z ∧
  prev_res t' = inttostr
    (if (u32 (nprocess - 1) <? WaitForMultipleObjects a)%Z then nprocess
     else isProcessRunning (second_query a) process_name).
Proof.
  unfold process_present. rewrite bind_Ret. intros ([t1 l1] & w1 & Hr%report_spec & H).
  destruct Hr as [Hr Er]. case_decide; [done|]. destruct (u32 _ <? _)%Z.
  - injection H as -> -> _. split_and!; [done|lia|done].
  - apply bind_Ret in H as ([t2 l2] & w2 & Hs%report_spec & [= <- <- _]). destruct Hs as [Hs Es].
    split_and!; [|lia|done]. by eapply tracks_trans.
Qed.

Lemma proc_round_tracks a t w t' l w' : proc_round a t w = Ret (t', l) w' → tracks t t' l.
Proof.
  unfold proc_round. destruct (own (module t)); try done.
  rewrite bind_Ret. intros ([[[hs|] n] closed] & w1 & _ & H).
  - by apply process_present_tracks in H as [].
  - apply bind_Ret in H as (t1 & w2 & Ha & [= <- <- _]). by eapply process_absent_tracks.
Qed.

Lemma service_round_tracks a t w t' l w' :
  service_round a t w = Ret (t', l) w' →
  match t' with Some t' => tracks t t' l | None => l = [] end.
Proof.
  unfold service_round. destruct (own (module t)); try done.
  destruct (log_opens a); [|by intros [= <- <- _]]. destruct (log_changed a); [|by intros [= <- <- _]].
  destruct (service_event _); [|by intros [= <- <- _]]. cbn [negb].
  rewrite bind_Ret. intros (res & w1 & _ & H). apply bind_Ret in H as ([t1 l1] & w2 & Hr%report_spec & H).
  apply bind_Ret in H as (u & w3 & _ & [= <- <- _]). by destruct Hr.
Qed.


(** While the service is known to be down, every change of the log that the first
    records of its reads attribute to a service starts it again. *)
Lemma service_round_starts a t service_name :
  own (module t) = C_service service_name true → log_opens a = true → log_changed a = true →
  service_event (log_reads a) = true → isServiceRunning (service_query a) service_name = Ok 0%Z →
  prev_res t = &"0" →
  performs (service_round a t) (Some t, []) [R_start_service service_name].
Proof.
  intros Ho H1 H2 H3 Hq Hp; unfold service_round. rewrite Ho, H1, H2, H3, Hq. cbn [negb].
  apply (performs_bind _ _ 0%Z _ [] [R_start_service service_name]); [apply performs_lift|].
  apply (performs_bind _ _ (t, []) _ [] [R_start_service service_name]).
  { unfold report. rewrite decide_True by (rewrite Hp; reflexivity). apply performs_ret. }
  apply (performs_bind _ _ () _ [R_start_service service_name] []); [|apply performs_ret].
  rewrite bool_decide_true by done. cbn [andb]. intros w. unfold startService.
  destruct (performs_request (R_start_service service_name) (λ x, mret ()) () [] (λ x, performs_ret ()) w)
    as (w' & E & T).
  exists w'. split; [|done]. rewrite <- E. unfold mbind, M_bind, mret, M_ret.
  by destruct (request_ p _ w) as [[]| |].
Qed.
End threads.

Definition gone : look := {|
  EnumProcesses := Some [4%Z]; OpenProcess _ := Named &"System"; first_query _ := {| objects := []; failed := false |};
  WaitForMultipleObjects := 0; second_query _ := {| objects := []; failed := false |};
  local_time := m_now demo_machine |}.


(** A process that comes twice and ends in between. *)
Definition counted (n : nat) : Wmi.answer :=
  {| objects := replicate n (mk_object (λ _, None) (λ _, None) (λ _, None) (λ _, None)); failed := false |}.
Definition seen (before after : nat) (wait : Z) : look := {|
  EnumProcesses := Some [4; 8]%Z; OpenProcess pid := Named (if decide (pid = 4)%Z then &"APACHE.EXE" else &"x");
  first_query _ := counted before; WaitForMultipleObjects := wait; second_query _ := counted after;
  local_time := m_now demo_machine |}.

