(* ===== verification/Interleave.v ===== *)
(** * The cycle and the threads on one module

    The thread of an asynchronous module and the cycle of the service use the same
    module without a lock: the cycle runs it, silences it and writes its XML, the thread
    sets its output and writes its XML too.  C++ gives no order to what they do to the
    fields; here each of these calls is one step, and the steps come in any order. The
    second half shows that what the service does as a whole consists of these steps. *)
From S2P Require Import Prelude StdString Strutils AgentConf PandoraData PandoraModule Wmi Modules ModuleFactory ModuleList ServiceState Transfer RemoteConfig Service ServiceKeeps Typing UdpServer Watchdog.

(** A module of a kind that has a thread, and the data that wait in it. *)
Definition watched (o : object) : bool :=
  match own o with C_proc _ _ _ _ _ _ | C_service _ _ => true | _ => false end.
Definition pending (o : object) : list Pandora_Data := default [] (data_list (base o)).

(** What becomes of a datum: it joins those that wait, is written to an XML file, or is
    thrown away by [setNoOutput]. *)
Inductive effect := Produced (d : Pandora_Data) | Emitted (d : Pandora_Data) | Lost (d : Pandora_Data).
Definition produced (es : list effect) : list Pandora_Data :=
  omap (λ e, match e with Produced d => Some d | _ => None end) es.
Definition emitted (es : list effect) : list Pandora_Data :=
  omap (λ e, match e with Emitted d => Some d | _ => None end) es.
Definition lost (es : list effect) : list Pandora_Data :=
  omap (λ e, match e with Lost d => Some d | _ => None end) es.

Section interleaving.
Context (p : platform).

(** The steps: a pass of the cycle that keeps the data of the module or silences it,
    the thread's [setOutput] and [setWatchdog], and [getXml] in a [sendXml] of either.  A
    silenced module writes nothing, whatever waits in it. *)
Inductive step : object → list effect → object → Prop :=
  | step_kept forced w o o' w' :
      module_step p forced o w = Ret (o', true) w' →
      step o (Produced <$> drop (length (pending o)) (pending o')) o'
  | step_silenced forced w o o' w' :
      module_step p forced o w = Ret (o', false) w' →
      step o (Lost <$> pending o) o'
  | step_output now v o :
      step o [Produced (new_data_origin now v (module_name (base o)))]
        (set_base (setOutput now v (base o)) o)
  | step_watchdog_off o : step o [] (setWatchdog false o)
  | step_xml xml o o' :
      module_getXml o = Ok (xml, o') →
      step o (Emitted <$> if has_output (base o) then pending o else []) o'.

Inductive steps (o : object) : list effect → object → Prop :=
  | steps_none : steps o [] o
  | steps_more es o1 es1 o2 : steps o es o1 → step o1 es1 o2 → steps o (es ++ es1) o2.

(** ** One step *)

Lemma run_pending m m' b : run m = Ok (m', b) → data_list m' = data_list m.
Proof. unfold run. intros H. repeat case_decide; by simplify_eq/=. Qed.

Lemma checkCron_pending now t m : data_list (checkCron now t m).2 = data_list m.
Proof. unfold checkCron. repeat case_match; done. Qed.

Lemma keep_data_pending forced sec now im m m' :
  keep_data forced sec now im m = Some m' → data_list m' = data_list m.
Proof. unfold keep_data. intros H. repeat case_decide; by simplify_eq/=. Qed.

Lemma start_async_pending m : data_list (start_async m).1 = data_list m.
Proof. unfold start_async. by destruct (async m). Qed.

(** A run adds at most one datum behind the others. *)
Definition grows (o o' : object) : Prop := own o' = own o ∧ pending o `prefix_of` pending o'.

Lemma grows_output now v m : default [] (data_list m) `prefix_of` default [] (data_list (setOutput now v m)).
Proof. cbn. by apply prefix_app_r. Qed.

Lemma module_run_grows e iv dbg o o' :
  module_run p e iv dbg o = Ok o' → watched o = true → grows o o'.
Proof.
  unfold module_run, watched, grows, pending. intros H Ho.
  destruct (own o) eqn:Eo; try done; apply rbind_Ok in H as (m & Hm & [= <-]); cbn [own base];
    (split; [done|]); apply rbind_Ok in Hm as ([m1 b1] & Hm & [= <-]).
  - unfold Proc_run in Hm. apply rbind_Ok in Hm as ([m2 [|]] & <-%run_pending & Hm).
    { by simplify_eq. }
    injection Hm as Hm. apply (f_equal fst) in Hm. cbn [fst] in Hm. rewrite <- Hm, start_async_pending.
    apply grows_output.
  - unfold Service_run in Hm. apply rbind_Ok in Hm as ([m2 [|]] & <-%run_pending & Hm).
    { by simplify_eq. }
    apply rbind_Ok in Hm as (r & _ & Hm). injection Hm as Hm. apply (f_equal fst) in Hm. cbn [fst] in Hm.
    rewrite <- Hm, start_async_pending. apply grows_output.
Qed.

Lemma after_run_pending forced o w o' flag w' :
  after_run p forced o w = Ret (o', flag) w' →
  own o' = own o ∧ pending o' = if flag then pending o else [].
Proof.
  unfold after_run. intros (? & w1 & _ & H)%bind_Ret.
  apply bind_Ret in H as (im & w2 & _ & H). apply bind_Ret in H as (sec & w3 & _ & H).
  apply bind_Ret in H as (now & w4 & _ & H).
  destruct (keep_data _ _ _ _ _) as [m|] eqn:E.
  - apply keep_data_pending in E. apply bind_Ret in H as (n & w5 & _ & H).
    apply bind_Ret in H as (cmds & w6 & _ & H). apply bind_Ret in H as (? & w7 & _ & H).
    injection H as <- <- <-. unfold pending. by rewrite <- E.
  - by injection H as <- <- <-.
Qed.

Lemma module_step_pending forced o w o' flag w' :
  module_step p forced o w = Ret (o', flag) w' → watched o = true →
  watched o' = true ∧ if flag then pending o `prefix_of` pending o' else pending o' = [].
Proof.
  unfold module_step. intros (n & w1 & _ & H)%bind_Ret Ho.
  apply bind_Ret in H as (pre & w2 & _ & H). case_decide; [by injection H as <- <- <-|].
  apply bind_Ret in H as (n2 & w3 & _ & H).
  pose proof (checkCron_pending (clock p n2) (break_time p (clock p n2)) (base o)) as Hc.
  destruct (checkCron _ _ _) as [cron m]. cbn [snd] in Hc. case_decide; [by injection H as <- <- <-|].
  apply bind_Ret in H as (n3 & w4 & _ & H). apply bind_Ret in H as (w5 & w6 & _ & H).
  apply bind_Ret in H as (o1 & w7 & [E _]%lift_Ret & H).
  apply module_run_grows in E as [Eo Ep]; [|done].
  assert (Ho1 : watched o1 = true) by (unfold watched; by rewrite Eo).
  case_decide; [by injection H as <- <- <-|].
  apply after_run_pending in H as [Ho' Hp]. split; [unfold watched; by rewrite Ho'|].
  destruct flag; [|done]. rewrite Hp. unfold pending in Ep at 1. cbn in Ep. by rewrite Hc in Ep.
Qed.

Lemma module_getXml_pending xml o o' :
  module_getXml o = Ok (xml, o') → watched o = true →
  watched o' = true ∧ pending o = (if has_output (base o) then pending o else []) ++ pending o'.
Proof.
  unfold module_getXml. intros ([x m] & E & [= <- <-])%rbind_Ok Ho.
  assert (getXml (base o) = Ok (x, m)) as Ex by (unfold watched in Ho; by destruct (own o)).
  split; [done|]. unfold getXml in Ex. unfold pending. cbn [base].
  destruct (has_output (base o)), (data_list (base o)) as [ds|] eqn:Ed; simplify_eq/=;
    rewrite ?Ed; cbn; try done.
  apply rbind_Ok in Ex as (y & _ & [= <- <-]). cbn. by rewrite app_nil_r.
Qed.
End interleaving.

(** ** Any number of steps *)

Lemma omap_kind {A B} (f : B → option A) (c : A → B) (l : list A) :
  (∀ a, f (c a) = Some a) → omap f (c <$> l) = l.
Proof. intros H. induction l as [|a l IH]; [done|]. cbn. rewrite H. by f_equal. Qed.

Lemma omap_other {A B C} (f : B → option C) (c : A → B) (l : list A) :
  (∀ a, f (c a) = None) → omap f (c <$> l) = [].
Proof. intros H. induction l as [|a l IH]; [done|]. cbn. by rewrite H. Qed.

Lemma effects_produced l :
  produced (Produced <$> l) = l ∧ emitted (Produced <$> l) = [] ∧ lost (Produced <$> l) = [].
Proof. split_and!; [by apply omap_kind|by apply omap_other..]. Qed.

Lemma effects_emitted l :
  produced (Emitted <$> l) = [] ∧ emitted (Emitted <$> l) = l ∧ lost (Emitted <$> l) = [].
Proof. split_and!; [by apply omap_other|by apply omap_kind|by apply omap_other]. Qed.

Lemma effects_lost l :
  produced (Lost <$> l) = [] ∧ emitted (Lost <$> l) = [] ∧ lost (Lost <$> l) = l.
Proof. split_and!; [by apply omap_other..|by apply omap_kind]. Qed.

(** What happened to the data between [o] and [o']. *)
Definition conserves (o : object) (es : list effect) (o' : object) : Prop :=
  pending o ++ produced es ≡ₚ emitted es ++ lost es ++ pending o' ∧
  (lost es = [] → pending o ++ produced es = emitted es ++ pending o').

Lemma conserves_nil o o' : pending o' = pending o → conserves o [] o'.
Proof. intros E. unfold conserves. cbn. rewrite app_nil_r, E. by split. Qed.

Lemma conserves_app o es o1 es1 o2 :
  conserves o es o1 → conserves o1 es1 o2 → conserves o (es ++ es1) o2.
Proof.
  unfold conserves, produced, emitted, lost. rewrite !omap_app. intros [P1 E1] [P2 E2]. split.
  - rewrite app_assoc, P1, <- !app_assoc, P2. solve_Permutation.
  - intros [H1 H2]%app_nil. rewrite app_assoc, E1, <- !app_assoc, E2 by done. done.
Qed.

Lemma step_conserves p o es o' :
  step p o es o' → watched o = true → watched o' = true ∧ conserves o es o'.
Proof.
  intros H Ho. destruct H as [forced w o o' w' H|forced w o o' w' H|now v o|o|xml o o' H].
  - apply module_step_pending in H as [Ho' [k Hk]]; [|done]. split; [done|].
    unfold conserves. rewrite Hk, drop_app_length.
    destruct (effects_produced k) as (-> & -> & ->). by split.
  - apply module_step_pending in H as [Ho' Hp]; [|done]. split; [done|].
    unfold conserves. destruct (effects_lost (pending o)) as (-> & -> & ->).
    rewrite Hp, !app_nil_r. cbn [app]. split; [reflexivity|auto].
  - split; [done|]. by unfold conserves.
  - split; [unfold watched, setWatchdog in *; by destruct (own o)|]. apply conserves_nil.
    unfold pending, setWatchdog. by destruct (own o).
  - apply module_getXml_pending in H as [Ho' Hp]; [|done]. split; [done|]. unfold conserves.
    destruct (effects_emitted (if has_output (base o) then pending o else [])) as (-> & -> & ->).
    rewrite app_nil_r. cbn [app]. rewrite <- Hp. by split.
Qed.


(** ** A change that is never written *)

Definition quiet_platform : platform := demo_platform (λ _ _ m, (Code 0, m)).
Definition quiet_world : world := demo_world (demo_conf []) ∅.

(** A pass on a module, and whether it was silenced. *)
Definition passed (o : object) : object :=
  match module_step quiet_platform 0 o quiet_world with Ret (o', _) _ => o' | _ => o end.
Definition silenced (o : object) : bool :=
  match module_step quiet_platform 0 o quiet_world with Ret (_, false) _ => true | _ => false end.

Lemma silenced_step o :
  silenced o = true → step quiet_platform o (Lost <$> pending o) (passed o).
Proof.
  unfold silenced, passed. destruct (module_step _ _ o _) as [[o' []] w|e w|] eqn:E; try done.
  intros _. by eapply step_silenced.
Qed.

(** The process [srv.exe], looked at by the cycle in every third pass, just after one. *)
Definition srv : object :=
  Proc_new &"srv.exe" (upd_executions 1 (setIntensiveInterval 3
    (new_module true TYPE_GENERIC_PROC MODULE_PROC &"srv"))).
Definition gone_at (o : object) : object := set_base (setOutput (m_now demo_machine) &"0" (base o)) o.
Definition gone_data : Pandora_Data := new_data_origin (m_now demo_machine) &"0" &"srv".

(** A module whose flag is down writes nothing. *)
Lemma flag_down_step p o :
  watched o = true → has_output (base o) = false → step p o [] o.
Proof.
  intros Ho Hf. assert (module_getXml o = Ok ([], o)) as E.
  { unfold module_getXml, getXml, watched in *. rewrite Hf. destruct o as [m c]. by destruct c. }
  apply (step_xml p) in E. by rewrite Hf in E.
Qed.

(** A pass that is not due, a change and its file, another pass that is not due. *)
Lemma change_between o :
  watched o = true → silenced o = true → pending o = [] →
  watched (passed o) = true → has_output (base (passed o)) = false → pending (passed o) = [] →
  silenced (gone_at (passed o)) = true →
  let d := new_data_origin (m_now demo_machine) &"0" (module_name (base (passed o))) in
  steps quiet_platform o [Produced d; Lost d] (passed (gone_at (passed o))).
Proof.
  intros Ho Hs Hp Ho1 Hf1 Hp1 Hs1 d. apply silenced_step in Hs, Hs1. rewrite Hp in Hs.
  assert (pending (gone_at (passed o)) = [d]) as Hd.
  { unfold gone_at, pending in *. cbn. by rewrite Hp1. }
  rewrite Hd in Hs1.
  apply (steps_more _ _ [Produced d] (gone_at (passed o)) [Lost d]); [|exact Hs1].
  apply (steps_more _ _ [Produced d] (gone_at (passed o)) []).
  - apply (steps_more _ _ [] (passed o) [Produced d]); [|by apply step_output].
    apply (steps_more _ _ [] o []); [apply steps_none|exact Hs].
  - by apply flag_down_step.
Qed.

Lemma srv_steps :
  steps quiet_platform srv [Produced gone_data; Lost gone_data] (passed (gone_at (passed srv))).
Proof.
  assert (module_name (base (passed srv)) = &"srv") as E by (vm_compute; reflexivity).
  unfold gone_data. rewrite <- E. apply change_between; vm_compute; reflexivity.
Qed.

(** The thread sees the process go and writes its file in the pass after one that was not
    due: the flag is down, so the file is without it, and the next pass throws the
    change away. *)
Lemma change_never_written :
  ∃ o es o', watched o = true ∧ steps quiet_platform o es o' ∧
    produced es = [gone_data] ∧ emitted es = [] ∧ pending o' = [].
Proof.
  exists srv, [Produced gone_data; Lost gone_data], (passed (gone_at (passed srv))).
  split; [reflexivity|]. split; [exact srv_steps|]. split_and!; vm_compute; reflexivity.
Qed.


(** ** The functions of the service and of the thread take these steps *)

Section functions.
Context (p : platform).

(** Some steps lead from one object to the other. *)
Definition reaches (o o' : object) : Prop := ∃ es, steps p o es o'.

#[global] Instance reaches_preorder : PreOrder reaches.
Proof.
  split; [intros o; exists []; apply steps_none|].
  intros o1 o2 o3 [es H] [es' H']. induction H' as [|es' o2' es1 o3 _ [k IH] H1].
  - by exists es.
  - exists (k ++ es1). by eapply steps_more.
Qed.

Lemma step_reaches o es o' : step p o es o' → reaches o o'.
Proof. intros H. exists ([] ++ es). eapply steps_more; [apply steps_none|exact H]. Qed.

(** A traversal whose body takes steps takes steps on every module. *)
Lemma foreach_reaches {S} (body : object → S → res (object * S)) l s l' s' :
  (∀ o s o' s', body o s = Ok (o', s') → reaches o o') →
  foreach body l s = Ok (l', s') → Forall2 reaches (ModuleList.modules l) (ModuleList.modules l').
Proof.
  intros Hbody. destruct (decide (current l = C_unwritten)) as [Hc|Hc].
  { unfold foreach, goFirst, with_current. by rewrite Hc. }
  rewrite foreach_spec by done. intros ([ms s1] & E & [= <- <-])%rbind_Ok. cbn [ModuleList.modules].
  clear Hc. revert s ms s1 E; induction (ModuleList.modules l) as [|o os IH]; intros s ms s1 E.
  { by simplify_eq/=. }
  cbn [map_modules] in E. apply rbind_Ok in E as ([o' s2] & E1 & E).
  apply rbind_Ok in E as ([ms2 s3] & E2 & [= <- <-]). constructor; [by eapply Hbody|by eapply IH].
Qed.

(** The modules of two worlds, one for one. *)
Definition modules_reach (w w' : world) : Prop :=
  match modules w, modules w' with
  | Some l, Some l' => Forall2 reaches (ModuleList.modules l) (ModuleList.modules l')
  | None, None => True
  | _, _ => False
  end.

#[global] Instance modules_reach_preorder : PreOrder modules_reach.
Proof.
  split; [intros w; unfold modules_reach; by destruct (modules w)|].
  intros w1 w2 w3. unfold modules_reach.
  destruct (modules w1), (modules w2), (modules w3); try done. by intros ? ?; etrans.
Qed.

Lemma modules_reach_same w w' : modules w' = modules w → modules_reach w w'.
Proof. intros E. unfold modules_reach. rewrite E. by destruct (modules w). Qed.

Lemma reaches_run_modules forced : keeps modules_reach (run_modules p forced).
Proof.
  intros w. unfold run_modules. destruct (modules w) as [l|] eqn:El; [|by apply modules_reach_same].
  destruct (foreach _ l _) as [[l' [w1 flag]]|e|] eqn:E; [|by apply modules_reach_same|done].
  unfold modules_reach. rewrite El. cbn. eapply foreach_reaches; [|exact E].
  intros o [w2 f2] o' s'. unfold step_res. cbn.
  destruct (module_step p forced o w2) as [[o1 [|]] w3|e3 w3|] eqn:Es; cbn; try done; intros [= <- <-].
  - by eapply step_reaches, step_kept.
  - by eapply step_reaches, step_silenced.
Qed.

Lemma reaches_modules_xml : keeps modules_reach modules_xml.
Proof.
  intros w. unfold modules_xml, mbind, M_bind, gets, lift.
  destruct (modules w) as [l|] eqn:El; [|by apply modules_reach_same].
  destruct (module_data l) as [[l' x]|e|] eqn:E; [|by apply modules_reach_same|done].
  cbn. unfold modules_reach. rewrite El. cbn. eapply foreach_reaches; [|exact E].
  intros o s o' s' ([xml o1] & H & [= <- <-])%rbind_Ok. by eapply step_reaches, step_xml.
Qed.

Lemma reaches_sendXml : keeps modules_reach (sendXml p).
Proof. apply mods_sendXml; [apply _|exact modules_reach_same|exact reaches_modules_xml]. Qed.

(** What the thread does to its module when it reports. *)
Lemma report_reaches now res t w t' l w' :
  report p now res t w = Ret (t', l) w' → reaches (module t) (module t').
Proof.
  unfold report. case_decide as Hn; [intros [= <- _ _]; reflexivity|]. intros (l1 & w1 & H & [= <- _ _])%bind_Ret.
  transitivity (set_base (setOutput now (inttostr res) (base (module t))) (module t)).
  { by eapply step_reaches, step_output. }
  unfold sendXml_of in H. apply bind_Ret in H as (mine & w2 & [= <- <-] & H).
  apply bind_Ret in H as (? & w3 & [= <- <-] & H). apply bind_Ret in H as (v & w4 & Hs & H).
  apply bind_Ret in H as (sent & w5 & [= <- <-] & H). apply bind_Ret in H as (? & w6 & _ & [= <- <-]).
  apply (keeps_Ret _ _ _ _ _ reaches_sendXml) in Hs. unfold modules_reach in Hs. cbn in Hs.
  destruct (modules w4) as [l2|]; [|done]. cbn.
  apply Forall2_cons_inv_l in Hs as (o2 & k & Ho & _ & ->). exact Ho.
Qed.

(** ** Whole passes, reloads and commands *)

(** A module as the factory makes it from the text of a definition. *)
Definition built (o : object) : Prop :=
  ∃ iv intensive d, getModuleFromDefinition (new_has_output p) (new_type p) (new_kind p) (regcomp_ok p)
    iv intensive d = Ok (Some o).

Lemma built_pending o : built o → pending o = [].
Proof. intros (iv & intensive & d & E%factory_empty). unfold pending. by rewrite E. Qed.

(** Where the modules of the second world come from: the first world, or a reload. *)
Definition origin (w : world) (o : object) : Prop :=
  built o ∨ ∃ l, modules w = Some l ∧ o ∈ ModuleList.modules l.
Definition modules_come (w w' : world) : Prop :=
  ∀ l' o', modules w' = Some l' → o' ∈ ModuleList.modules l' → ∃ o, origin w o ∧ reaches o o'.

#[global] Instance modules_come_preorder : PreOrder modules_come.
Proof.
  split; [intros w l o Hl Ho; exists o; split; [right; by exists l|reflexivity]|].
  intros w1 w2 w3 H1 H2 l3 o3 Hl Ho.
  destruct (H2 l3 o3 Hl Ho) as (o2 & [Hb|(l2 & Hl2 & Ho2)] & Hr); [exists o2; split; [by left|done]|].
  destruct (H1 l2 o2 Hl2 Ho2) as (o1 & Ho1 & Hr1). exists o1. split; [done|]. by etrans.
Qed.

Lemma modules_reach_come w w' : modules_reach w w' → modules_come w w'.
Proof.
  unfold modules_reach. intros H l' o' Hl Ho. rewrite Hl in H.
  destruct (modules w) as [l|] eqn:E; [|done].
  apply list_elem_of_lookup in Ho as [i Ho].
  destruct (Forall2_lookup_r _ _ _ _ _ H Ho) as (o & Hi & Hr). exists o. split; [|done].
  right. exists l. split; [done|]. by eapply list_elem_of_lookup_2.
Qed.

Lemma keeps_come {A} (m : M A) : keeps modules_reach m → keeps modules_come m.
Proof. intros H w. specialize (H w). destruct (m w); by try apply modules_reach_come. Qed.

Lemma come_same w w' : modules w' = modules w → modules_come w w'.
Proof. intros H. by apply modules_reach_come, modules_reach_same. Qed.

Lemma come_read_modules f : keeps modules_come (read_modules p f).
Proof.
  intros w. unfold read_modules, mbind, M_bind, get_world, lift.
  destruct (new_list_from _ _ _) as [l|e|] eqn:E; [|by apply come_same|done].
  cbn. intros l' o' [= <-] Ho. exists o'. split; [left|reflexivity].
  apply (new_list_from_built _ built) in E; [by eapply Forall_forall in E|].
  intros d o Hd. by exists (interval w), (intensive_interval w), d.
Qed.

Lemma come_pandora_run forced : keeps modules_come (pandora_run p forced).
Proof.
  apply mods_pandora_run; [apply _|exact come_same|apply keeps_come, reaches_modules_xml
    |exact come_read_modules|intros f; apply keeps_come, reaches_run_modules].
Qed.

Lemma come_process_command command : keeps modules_come (process_command p command).
Proof.
  unfold process_command, service_command, process_program, startService, stopService, runProgram.
  pose proof come_pandora_run. pose proof (mods_request p modules_come come_same). keeping.
Qed.

(** The thread of the UDP server, whatever arrives. *)
Lemma come_listen srv rs : keeps modules_come (listen p srv rs).
Proof.
  pose proof come_process_command. induction rs as [|r rs IH]; cbn [listen]; [keeping|].
  unfold listen_step. keeping.
Qed.

(** The service with all its threads: passes of the cycle, datagrams, and reports of the
    thread of one module, which is the module of the list. *)
Inductive service_step : world → world → Prop :=
  | cycle_pass forced w w' : pandora_run p forced w = Ret () w' → service_step w w'
  | datagrams srv rs w more w' : listen p srv rs w = Ret more w' → service_step w w'
  | thread_report now res t t' l sent w w1 w' i :
      modules w = Some l → ModuleList.modules l !! i = Some (module t) →
      report p now res t w = Ret (t', sent) w1 →
      w' = set_modules (Some (Build_Pandora_Module_List (<[i := module t']> (ModuleList.modules l))
        (current l))) w1 →
      service_step w w'.

Lemma service_step_come w w' : service_step w w' → modules_come w w'.
Proof.
  intros [forced w1 w1' H|srv rs w1 more w1' H|now res t t' l sent w1 w2 w1' i Hl Hi H ->].
  - exact (keeps_Ret _ _ _ _ _ (come_pandora_run forced) H).
  - exact (keeps_Ret _ _ _ _ _ (come_listen srv rs) H).
  - apply modules_reach_come. unfold modules_reach. rewrite Hl. cbn.
    apply report_reaches in H. apply Forall2_same_length_lookup_2; [by rewrite length_insert|].
    intros j o o' Ho Ho'. destruct (decide (i = j)) as [<-|Hn].
    + rewrite list_lookup_insert_eq in Ho' by (by eapply lookup_lt_Some). by simplify_eq.
    + rewrite list_lookup_insert_ne in Ho' by done. by simplify_eq.
Qed.

(** No step makes a watched module of one that was not. *)
Lemma module_run_watched e iv dbg o o' : module_run p e iv dbg o = Ok o' → watched o' = watched o.
Proof.
  unfold module_run, watched. intros H.
  destruct (own o); apply rbind_Ok in H as (x & _ & H); repeat destruct x as [x ?]; by injection H as <-.
Qed.

Lemma module_step_watched forced o w o' flag w' :
  module_step p forced o w = Ret (o', flag) w' → watched o' = watched o.
Proof.
  unfold module_step. intros (n & w1 & _ & H)%bind_Ret.
  apply bind_Ret in H as (pre & w2 & _ & H). case_decide; [by injection H as <- <- <-|].
  apply bind_Ret in H as (n2 & w3 & _ & H).
  destruct (checkCron _ _ _) as [cron m]. case_decide; [by injection H as <- <- <-|].
  apply bind_Ret in H as (n3 & w4 & _ & H). apply bind_Ret in H as (w5 & w6 & _ & H).
  apply bind_Ret in H as (o1 & w7 & [E%module_run_watched _]%lift_Ret & H). case_decide.
  - by injection H as <- <- <-.
  - apply after_run_pending in H as [H _]. transitivity (watched o1); [unfold watched; by rewrite H|exact E].
Qed.

Lemma step_watched o es o' : step p o es o' → watched o' = watched o.
Proof.
  intros [forced w o1 o1' w' H|forced w o1 o1' w' H|now v o1|o1|xml o1 o1' H].
  1, 2: by apply module_step_watched in H.
  - done.
  - unfold watched, setWatchdog. by destruct (own o1) eqn:E; rewrite ?E.
  - unfold module_getXml in H. by apply rbind_Ok in H as ([x m] & _ & [= <- <-]).
Qed.

Lemma steps_conserve o es o' : steps p o es o' → watched o' = true → watched o = true ∧ conserves o es o'.
Proof.
  induction 1 as [|es o1 es1 o2 _ IH H]; intros Hw; [split; [done|]; by apply conserves_nil|].
  pose proof (step_watched _ _ _ H) as E. rewrite Hw in E. destruct (IH (eq_sym E)) as [Ho Hc].
  split; [done|]. eapply conserves_app; [exact Hc|]. by eapply step_conserves.
Qed.

(** Whatever passes, datagrams and reports there were: each process or service module of
    the list was there before, or was built by a reload and began without data, and its
    data since then are conserved. *)
Lemma service_conserves w w' l' o' :
  rtc service_step w w' → modules w' = Some l' → o' ∈ ModuleList.modules l' → watched o' = true →
  ∃ o es, origin w o ∧ watched o = true ∧ steps p o es o' ∧ conserves o es o' ∧ (built o → pending o = []).
Proof.
  intros Hs Hl Ho Hw. assert (modules_come w w') as Hc.
  { induction Hs as [w|w1 w2 w3 H%service_step_come _ IH]; [reflexivity|]. etrans; [exact H|]. by apply IH. }
  destruct (Hc l' o' Hl Ho) as (o & Hor & es & He).
  destruct (steps_conserve _ _ _ He Hw) as [Hwo Hcons].
  exists o, es. split_and!; [done..|]. apply built_pending.
Qed.
End functions.
