(* ===== verification/Ssh2Ids.v ===== *)
(** * libssh2: the channel identifiers stay distinct

    An invariant of the session: the local identifiers of its channels, those still
    queued at a listener included, are pairwise distinct and below [next_channel]. It
    is kept by everything [packet.c], [channel.c] and the driver of [kex.c] do with
    the input of the peer, as long as the identifiers do not wrap. An identifier is
    spent for a packet that has been read, so the input that is pending bounds how
    many can be. *)
From S2P Require Import Prelude StdString Ssh2Misc Ssh2Session Ssh2Packet Ssh2Channel Ssh2Kex.

(** ** The invariant *)

Definition ids (s : session) : list Z :=
  (ch_id <$> channels s) ++ (listeners s ≫= λ l, ch_id <$> queue l).

Record wf (s : session) : Prop := {
  wf_distinct : NoDup (ids s);
  wf_below : Forall (λ i, (0 ≤ i < next_channel s)%Z) (ids s) }.

(** The input that is pending: one for an answer of [recv], and one for each byte. *)
Definition ev_size (ev : recv_event) : Z :=
  match ev with Recv_bytes b => 1 + Z.of_nat (length b) | _ => 1 end.
Fixpoint ev_sizes (evs : list recv_event) : Z :=
  match evs with [] => 0 | ev :: evs => ev_size ev + ev_sizes evs end.
Definition pending (s : session) : Z := ev_sizes (incoming s).

Lemma ev_sizes_nonneg evs : (0 ≤ ev_sizes evs)%Z.
Proof. induction evs as [|ev evs IH]; [done|]. destruct ev; cbn -[Z.of_nat]; lia. Qed.

(** The step from [s] to [s'] spends [n] identifiers, at most [k] more than the input
    it takes, and keeps the invariant. *)
Definition spends (k : Z) (s s' : session) : Prop :=
  ∃ n, (0 ≤ n)%Z ∧ (n + pending s' ≤ k + pending s)%Z ∧
    (wf s → (next_channel s + n < 2 ^ 32)%Z → (0 ≤ next_channel s)%Z →
     wf s' ∧ next_channel s' = (next_channel s + n)%Z).

(** Nothing the invariant is about changes. *)
Record same (s s' : session) : Prop := {
  same_ids : ids s' = ids s;
  same_next : next_channel s' = next_channel s;
  same_incoming : incoming s' = incoming s }.

#[global] Instance same_preorder : PreOrder same.
Proof. split; [by split|]. intros a b c [] []. split; congruence. Qed.

Lemma spends_same s s' : same s s' → spends 0 s s'.
Proof.
  intros [Hi Hn He]. exists 0%Z. unfold pending. rewrite He, Hn. split_and!; [lia..|].
  intros [Hd Hb] _ _. split; [|lia]. split; by rewrite ?Hi, ?Hn.
Qed.

Lemma spends_trans k1 k2 s1 s2 s3 : spends k1 s1 s2 → spends k2 s2 s3 → spends (k1 + k2) s1 s3.
Proof.
  intros (n1 & ? & ? & H1) (n2 & ? & ? & H2). exists (n1 + n2)%Z. split_and!; [lia..|].
  intros Hwf Hb Hpos. destruct H1 as [Hwf2 E2]; [done|lia|done|].
  destruct H2 as [Hwf3 E3]; [done|lia|lia|]. split; [done|lia].
Qed.

Lemma spends_weaken k k' s s' : (k ≤ k')%Z → spends k s s' → spends k' s s'.
Proof. intros Hk (n & ? & ? & H). exists n. split_and!; [done|lia|done]. Qed.

(** ** Code that leaves it alone, code that spends *)

Definition stays {A} (m : ST A) : Prop := ∀ s a s', m s = Ok (a, s') → same s s'.
Definition costs {A} (k : Z) (m : ST A) : Prop := ∀ s a s', m s = Ok (a, s') → spends k s s'.

Create HintDb stays.

Lemma stays_ret {A} (a : A) : stays (mret a).
Proof. by intros s ? ? [= _ <-]. Qed.

Lemma stays_bind {A B} (m : ST A) (k : A → ST B) : stays m → (∀ a, stays (k a)) → stays (m ≫= k).
Proof. intros Hm Hk s b s' (a & s1 & H1 & H2)%bind_inv. by etrans; [eapply Hm|eapply Hk]. Qed.

Lemma stays_undefined {A} : stays (undefined (A := A)).
Proof. done. Qed.

Lemma stays_gets {A} (f : session → A) : stays (gets f).
Proof. by intros s ? ? [= _ <-]. Qed.

Lemma stays_session : stays get_session.
Proof. by intros s ? ? [= _ <-]. Qed.

Lemma stays_modify f : (∀ s, same s (f s)) → stays (modify f).
Proof. intros H s a s' [= _ <-]. apply H. Qed.

Lemma stays_lift {A} (r : res A) : stays (lift r).
Proof. intros s a s' H. unfold lift in H. by destruct r; inversion H. Qed.

Lemma stays_error c : stays (libssh2_error c).
Proof. by apply stays_modify. Qed.

Lemma stays_emit c : stays (emit c).
Proof. by apply stays_modify. Qed.

Lemma stays_byte_at b i : stays (byte_at b i).
Proof. unfold byte_at. destruct (b !! i); [apply stays_ret|apply stays_undefined]. Qed.

Lemma stays_ntohu32 b i : stays (ntohu32 b i).
Proof. apply stays_lift. Qed.

Lemma stays_bytes n b i : stays (bytes n b i).
Proof. apply stays_lift. Qed.

Lemma stays_local f : stays (update_local f).
Proof. by apply stays_modify. Qed.

Lemma stays_remote f : stays (update_remote f).
Proof. by apply stays_modify. Qed.

#[export] Hint Resolve stays_ret stays_undefined stays_gets stays_session stays_lift stays_error
  stays_emit stays_byte_at stays_ntohu32 stays_bytes stays_local stays_remote : stays.

(** Through binds, conditionals and matches to the hints. *)
Ltac stay_step :=
  match goal with
  | |- stays (_ ≫= _) => apply stays_bind; [|intros ?]
  | |- stays (if ?b then _ else _) => destruct b
  | |- stays (match ?x with _ => _ end) => destruct x
  | |- stays (let _ := _ in _) => cbv zeta
  | |- _ => solve [eauto with stays | apply stays_modify; done]
  end.
Ltac staying := repeat stay_step.

Section surroundings.
Context (e : surroundings).

Lemma stays_alloc : stays (alloc e).
Proof. unfold alloc. staying. Qed.

Lemma stays_send d : stays (send e d).
Proof. unfold send. staying. Qed.

#[local] Hint Resolve stays_alloc stays_send : stays.

Lemma ids_change f cs i : (∀ c, ch_id (f c) = ch_id c) → ch_id <$> change_channel f cs i = ch_id <$> cs.
Proof.
  intros Hf. induction cs as [|c cs IH]; [done|]. cbn [change_channel].
  case_match; rewrite !fmap_cons; [by rewrite Hf|by rewrite IH].
Qed.

Lemma stays_update_channel i f : (∀ c, ch_id (f c) = ch_id c) → stays (update_channel i f).
Proof.
  intros Hf. apply stays_modify. intros s. split; [|done..]. unfold ids. simpl. by rewrite ids_change.
Qed.

Lemma stays_the_channel i : stays (the_channel i).
Proof. unfold the_channel. staying. Qed.

#[local] Hint Resolve stays_the_channel : stays.
#[local] Hint Extern 1 (stays (update_channel _ _)) => apply stays_update_channel; done : stays.

Lemma stays_allocated n : stays (allocated n).
Proof. by apply stays_modify. Qed.

Lemma stays_comp_state l a : stays (update_endpoint l (set_comp_abstract a)).
Proof. destruct l; by apply stays_modify. Qed.

#[local] Hint Resolve stays_allocated stays_comp_state : stays.

Lemma stays_run_comp l limit d : stays (run_comp e l limit d).
Proof. unfold run_comp. staying. Qed.

#[local] Hint Resolve stays_run_comp : stays.

Lemma stays_packet_write d : stays (libssh2_packet_write e d).
Proof. unfold libssh2_packet_write, compress, write_encrypted, write_plain. staying. Qed.

#[local] Hint Resolve stays_packet_write : stays.

Lemma stays_window_adjust i a f : stays (libssh2_channel_receive_window_adjust e i a f).
Proof. unfold libssh2_channel_receive_window_adjust. staying. Qed.

Lemma stays_open_failure d s a b n : stays (open_failure e d s a b n).
Proof. unfold open_failure. staying. Qed.

Lemma stays_alloc_channel : stays (alloc_channel e).
Proof. unfold alloc_channel. staying. Qed.

Lemma stays_read_open d s : stays (read_open d s).
Proof. unfold read_open. staying. Qed.

Lemma stays_check_mac d n m : stays (check_mac e d n m).
Proof. unfold check_mac. staying. Qed.

#[local] Hint Resolve stays_window_adjust stays_open_failure stays_alloc_channel stays_read_open
  stays_check_mac : stays.

Lemma stays_disconnect d : stays (disconnect_packet d).
Proof. unfold disconnect_packet, message_language. staying. Qed.

Lemma stays_ignore d n : stays (ignore_packet d n).
Proof. unfold ignore_packet. staying. Qed.

Lemma stays_debug d : stays (debug_packet d).
Proof. unfold debug_packet, message_language. staying. Qed.

Lemma stays_data d n h : stays (data_packet e d n h).
Proof. unfold data_packet, libssh2_channel_locate. staying. Qed.

Lemma stays_if_channel d f : (∀ c, ch_id (f c) = ch_id c) → stays (if_channel d f).
Proof. intros Hf. unfold if_channel. staying. Qed.

Lemma stays_request d : stays (request_packet d).
Proof. unfold request_packet, is_prefix, libssh2_channel_locate. staying. Qed.

Lemma stays_opens d n t : stays (opens d n t).
Proof. unfold opens, is_prefix. staying. Qed.

Lemma stays_adjust_packet d : stays (window_adjust_packet d).
Proof. unfold window_adjust_packet. staying. by apply stays_if_channel. Qed.

#[local] Hint Resolve stays_disconnect stays_ignore stays_debug stays_data stays_request stays_opens
  stays_adjust_packet : stays.

(** ** New identifiers *)

Lemma wf_fresh s i : wf s → (next_channel s ≤ i)%Z → i ∉ ids s.
Proof.
  intros [_ Hb] Hi Hin. apply (proj1 (Forall_forall _ _) Hb) in Hin. lia.
Qed.

(** Under the invariant the identifier handed out is [next_channel]. *)
Lemma nextid_spec s :
  wf s → (0 ≤ next_channel s)%Z →
  libssh2_channel_nextid s = Ok (next_channel s, set_next_channel (u32 (next_channel s + 1)) s).
Proof.
  intros [_ Hb] H0. unfold libssh2_channel_nextid, mbind, ST_bind, get_session, modify.
  assert (E : ∀ cs i, Forall (λ c, (ch_id c < i)%Z) cs →
    fold_left (λ i c, if (i <? ch_id c)%Z then ch_id c else i) cs i = i).
  { induction cs as [|c cs IH]; intros i H; [done|]. apply Forall_cons in H as [Hc H]. cbn [fold_left].
    rewrite (proj2 (Z.ltb_ge _ _)) by lia. by apply IH. }
  rewrite E; [done|]. unfold ids in Hb. apply Forall_app in Hb as [Hb _].
  apply Forall_fmap in Hb. eapply Forall_impl; [exact Hb|]. intros c Hc. simpl in Hc. lia.
Qed.

(** The same identifiers in another order. *)
Lemma spends_perm s s' :
  ids s' ≡ₚ ids s → next_channel s' = next_channel s → incoming s' = incoming s → spends 0 s s'.
Proof.
  intros Hi Hn He. exists 0%Z. unfold pending. rewrite He, Hn. split_and!; [lia..|].
  intros [Hd Hb] _ _. split; [|lia]. split; by rewrite Hi, ?Hn.
Qed.

(** Code that puts at most one channel, with the identifier [i], into the session. *)
Definition adds (i : Z) {A} (m : ST A) : Prop := ∀ s a s', m s = Ok (a, s') →
  (ids s' ≡ₚ i :: ids s ∨ ids s' = ids s) ∧ next_channel s' = next_channel s ∧ incoming s' = incoming s.

Lemma adds_stays {A} i (m : ST A) : stays m → adds i m.
Proof. intros Hm s a s' [? ? ?]%Hm. by split; [right|]. Qed.

Lemma adds_then {A B} i (m : ST A) (k : A → ST B) :
  stays m → (∀ a, adds i (k a)) → adds i (m ≫= k).
Proof.
  intros Hm Hk s b s' (a & s1 & [E1 E2 E3]%Hm & (Hi & Hn & He)%Hk)%bind_inv.
  rewrite <- E1, <- E2, <- E3. done.
Qed.

Lemma adds_first {A B} i (m : ST A) (k : A → ST B) :
  adds i m → (∀ a, stays (k a)) → adds i (m ≫= k).
Proof.
  intros Hm Hk s b s' (a & s1 & (Hi & Hn & He)%Hm & [E1 E2 E3]%Hk)%bind_inv.
  by rewrite E1, E2, E3.
Qed.

(** A new identifier and the code that uses it. *)
Lemma costs_new {A} (k : Z → ST A) : (∀ i, adds i (k i)) → costs 1 (libssh2_channel_nextid ≫= k).
Proof.
  intros Hk s a s' (i & s1 & H1 & (Hids & Hn & He)%Hk)%bind_inv. exists 1%Z. split; [done|].
  assert (He1 : incoming s1 = incoming s).
  { unfold libssh2_channel_nextid, mbind, ST_bind, get_session, modify in H1. by inversion H1. }
  split; [unfold pending; rewrite He, He1; lia|].
  intros Hwf Hb Hp. rewrite nextid_spec in H1 by done. injection H1 as <- <-.
  change (ids (set_next_channel _ s)) with (ids s) in Hids.
  change (next_channel (set_next_channel ?v s)) with v in Hn.
  rewrite wrap_u_small in Hn by (unfold in_u; lia). split; [|done].
  assert (Hold : Forall (λ i, (0 ≤ i < next_channel s + 1)%Z) (ids s)).
  { eapply Forall_impl; [apply Hwf|]. simpl. lia. }
  destruct Hids as [Hids|Hids].
  - split; rewrite Hids; [|rewrite Hn].
    + apply NoDup_cons. split; [by apply wf_fresh|apply Hwf].
    + apply Forall_cons. split; [lia|done].
  - split; rewrite Hids; [apply Hwf|]. by rewrite Hn.
Qed.

Lemma ids_enqueue c n ls :
  (alter (enqueue c) n ls ≫= λ l, ch_id <$> queue l) ≡ₚ ch_id c :: (ls ≫= λ l, ch_id <$> queue l) ∨
  alter (enqueue c) n ls = ls.
Proof.
  revert n. induction ls as [|l ls IH]; intros n; [by right|]. destruct n as [|n].
  - left. cbn. unfold enqueue. destruct (queue l) as [|c' q] eqn:E; [done|].
    cbn -[app]. rewrite fmap_app. cbn. solve_Permutation.
  - destruct (IH n) as [H|H].
    + left. cbn. cbn in H. rewrite H. by rewrite Permutation_middle.
    + right. cbn. by f_equal.
Qed.

Lemma costs_stays {A} (m : ST A) : stays m → costs 0 m.
Proof. intros Hm s a s' H. by eapply spends_same, Hm. Qed.

Lemma costs_bind {A B} k1 k2 (m : ST A) (k : A → ST B) :
  costs k1 m → (∀ a, costs k2 (k a)) → costs (k1 + k2) (m ≫= k).
Proof.
  intros Hm Hk s b s' (a & s1 & H1 & H2)%bind_inv. eapply spends_trans; [by eapply Hm|by eapply Hk].
Qed.

Lemma costs_weaken {A} k k' (m : ST A) : (k ≤ k')%Z → costs k m → costs k' m.
Proof. intros Hk Hm s a s' H. eapply spends_weaken; [done|by eapply Hm]. Qed.

(** The common shapes: free code before or after code of cost [k]. *)
Lemma costs_then {A B} k (m : ST A) (f : A → ST B) :
  stays m → (∀ a, costs k (f a)) → costs k (m ≫= f).
Proof. intros Hm Hf. apply (costs_bind 0 k); [by apply costs_stays|done]. Qed.

Lemma costs_before {A B} k (m : ST A) (f : A → ST B) :
  costs k m → (∀ a, stays (f a)) → costs k (m ≫= f).
Proof.
  intros Hm Hf. replace k with (k + 0)%Z by lia. apply costs_bind; [done|].
  intros a. by apply costs_stays.
Qed.

Lemma costs_free {A} k (m : ST A) : (0 ≤ k)%Z → stays m → costs k m.
Proof. intros Hk Hm. eapply costs_weaken; [done|by apply costs_stays]. Qed.
End surroundings.

#[export] Hint Resolve stays_alloc stays_send stays_the_channel stays_packet_write stays_window_adjust
  stays_open_failure stays_alloc_channel stays_read_open stays_check_mac stays_disconnect stays_ignore
  stays_debug stays_data stays_request stays_opens stays_adjust_packet : stays.
#[export] Hint Extern 1 (stays (update_channel _ _)) => apply stays_update_channel; done : stays.
#[export] Hint Extern 1 (stays (if_channel _ _)) => apply stays_if_channel; done : stays.

(** ** Packets that arrive *)

Section packets.
Context (e : surroundings).

Lemma adds_enqueue n c : adds (ch_id c) (modify (λ s, set_listeners (alter (enqueue c) n (listeners s)) s)).
Proof.
  intros s a s' [= _ <-]. split; [|done]. unfold ids. simpl.
  destruct (ids_enqueue c n (listeners s)) as [H|H]; [left|right; by rewrite H].
  by rewrite H, Permutation_middle.
Qed.

Lemma adds_append c : adds (ch_id c) (modify (λ s, set_channels (channels s ++ [c]) s)).
Proof.
  intros s a s' [= _ <-]. split; [|done]. left. unfold ids. simpl.
  rewrite fmap_app, <- app_assoc. simpl. by rewrite Permutation_middle.
Qed.

(** The packet is written, and when that worked the channel is put in its place. *)
Lemma adds_confirmed c (put rest : ST Z) d :
  adds (ch_id c) put → stays rest →
  adds (ch_id c) (rc ← libssh2_packet_write e d; if (rc =? 0)%Z then put else rest).
Proof.
  intros Hp Hr. apply adds_then; [apply stays_packet_write|]. intros rc.
  destruct (rc =? 0)%Z; [done|by apply adds_stays].
Qed.

Lemma costs_accept n l r : costs 1 (accept_forward e n l r).
Proof.
  unfold accept_forward. destruct (queue_full l); [by apply costs_free; [|staying]|].
  apply costs_then; [apply stays_alloc_channel|]. intros []; cbn [negb]; [|by apply costs_free; [|staying]].
  apply costs_new. intros i. apply adds_then; [apply stays_packet_write|]. intros rc.
  destruct (rc =? 0)%Z; [|by apply adds_stays; staying].
  apply adds_first; [apply (adds_enqueue n (incoming_channel &"forwarded-tcpip" r i))|]. intros _. staying.
Qed.

Lemma costs_listener d : costs 1 (libssh2_packet_queue_listener e d).
Proof.
  unfold libssh2_packet_queue_listener. repeat (apply costs_then; [solve [staying]|intros ?]).
  apply costs_before; [|intros []; staying]. case_match; [case_match|]; [apply costs_accept|].
  by apply costs_free; [|staying].
Qed.

Lemma costs_x11 d : costs 1 (libssh2_packet_x11_open e d).
Proof.
  unfold libssh2_packet_x11_open. do 4 (apply costs_then; [staying|intros ?]).
  apply costs_then; [staying|]. intros []; cbn [negb]; [|by apply costs_free; [|staying]].
  apply costs_new. intros i. apply adds_then; [apply stays_packet_write|]. intros rc.
  destruct (rc =? 0)%Z; [|by apply adds_stays; staying].
  apply adds_first; [apply (adds_append (incoming_channel &"x11" a i))|]. intros _. staying.
Qed.

Lemma costs_exceptions d n : costs 1 (packet_exceptions e d n).
Proof.
  unfold packet_exceptions. apply costs_then; [staying|]. intros type. cbv beta zeta.
  repeat (match goal with |- costs _ (if ?b then _ else _) => destruct b end;
          [by apply costs_free; [|solve [staying]]|]).
  match goal with |- costs _ (if ?b then _ else _) => destruct b end.
  - apply costs_then; [staying|]. intros []; [apply costs_before; [apply costs_listener|intros ?; staying]|].
    apply costs_then; [staying|]. intros []; [apply costs_before; [apply costs_x11|intros ?; staying]|].
    by apply costs_free; [|staying].
  - by apply costs_free; [|staying].
Qed.

Context (kex_exchange : ST Z) (Hkex : costs 0 kex_exchange).

Lemma costs_packet_add d n m : costs 1 (libssh2_packet_add e kex_exchange d n m).
Proof.
  unfold libssh2_packet_add. apply costs_then; [staying|]. intros [macstate|]; [|by apply costs_free; [|staying]].
  apply (costs_bind 1 0); [apply costs_exceptions|]. intros [rc|[len head]]; [by apply costs_free; [|staying]|].
  apply costs_then; [staying|]. intros []; cbn [negb]; [|by apply costs_free; [|staying]].
  repeat (apply costs_then; [solve [staying]|intros ?]). case_match; [|by apply costs_free; [|staying]].
  apply costs_before; [done|]. staying.
Qed.
End packets.

(** ** Reading from the socket *)

Lemma read_events_size evs want acc ok buf evs' gone :
  read_events evs want acc = Ok (ok, buf, evs', gone) →
  (ev_sizes evs' + (if decide (want = 0)%nat then 0 else 1) ≤ ev_sizes evs)%Z.
Proof.
  revert want acc. induction evs as [|ev evs IH]; intros want acc H.
  { destruct want; [|done]. injection H as _ _ <- _. by rewrite decide_True. }
  destruct want as [|want]; [injection H as _ _ <- _; rewrite decide_True by done; lia|].
  rewrite decide_False by done. cbn [read_events] in H. destruct ev as [b|ready|errno].
  - case_decide as Hl.
    + injection H as _ _ <- _. cbn [ev_sizes ev_size]. rewrite length_drop. lia.
    + apply IH in H. cbn [ev_sizes ev_size]. case_decide; lia.
  - cbn [ev_sizes ev_size]. destruct ready; [apply IH in H; case_decide; lia|].
    injection H as _ _ <- _. lia.
  - cbn [ev_sizes ev_size]. destruct (errno =? EINTR)%Z; [apply IH in H; case_decide; lia|].
    injection H as _ _ <- _. lia.
Qed.

(** Less input, and nothing else the invariant is about. *)
Lemma spends_incoming k s s' :
  (pending s' ≤ k + pending s)%Z → ids s' = ids s → next_channel s' = next_channel s → spends k s s'.
Proof.
  intros Hp Hi Hn. exists 0%Z. split_and!; [done|lia|]. rewrite Hn. intros [Hd Hb] _ _.
  split; [|lia]. split; by rewrite ?Hi, ?Hn.
Qed.

Lemma costs_blocking_read n : costs (if decide (n = 0)%nat then 0 else -1) (libssh2_blocking_read n).
Proof.
  intros s a s' H. unfold libssh2_blocking_read in H. apply bind_inv in H as (s1 & ? & [= <- <-] & H).
  apply bind_inv in H as ([[[ok buf] evs] gone] & s1 & H1 & H). unfold lift in H1.
  destruct (read_events (incoming s) n []) as [[[[ok' buf'] evs'] gone']| |] eqn:E; [|done..].
  injection H1 as -> -> -> -> <-. apply read_events_size in E.
  assert (Hs : same (set_incoming evs s) s').
  { apply bind_inv in H as ([] & s2 & [= <-] & H). revert H. apply (stays_bind (A := ())); [|intros ?; staying].
    staying. }
  destruct Hs as [Hi Hn He]. apply spends_incoming; [|done|done]. unfold pending. rewrite He.
  simpl. case_decide; lia.
Qed.

Lemma costs_read n : costs 0 (libssh2_blocking_read n).
Proof. eapply costs_weaken; [|apply costs_blocking_read]. case_decide; lia. Qed.

Lemma costs_read_some n : n ≠ 0 → costs (-1) (libssh2_blocking_read n).
Proof. intros Hn. eapply costs_weaken; [|apply costs_blocking_read]. by rewrite decide_False. Qed.

(** The cost may depend on what the first part returns. *)
Lemma costs_bind_dep {A B} (k1 : A → Z) k (m : ST A) (f : A → ST B) :
  (∀ s a s', m s = Ok (a, s') → spends (k1 a) s s') → (∀ a, costs (k - k1 a) (f a)) → costs k (m ≫= f).
Proof.
  intros Hm Hf s b s' (a & s1 & H1 & H2)%bind_inv. replace k with (k1 a + (k - k1 a))%Z by lia.
  eapply spends_trans; [by eapply Hm|by eapply Hf].
Qed.

(** A byte that [recv] gives is one less to come. *)
Lemma recv_one_spends s r s' :
  recv_one s = Ok (r, s') →
  spends (if (r.1 =? 1)%Z then -1 else 0) s s' ∧ (r.1 = -1 ∨ r.1 = 0 ∨ r.1 = 1)%Z.
Proof.
  intros H. unfold recv_one in H. apply bind_inv in H as (evs & ? & [= <- <-] & H).
  destruct (incoming s) as [|ev evs] eqn:E.
  { injection H as <- <-. split; [|by left]. apply spends_same. done. }
  destruct ev as [[|c b]|ready|errno]; injection H as <- <-; (split; [|simpl; lia]);
    apply spends_incoming; try done; unfold pending; rewrite E; simpl incoming;
    cbn [ev_sizes ev_size length]; try (destruct b as [|c' b]; cbn [ev_sizes ev_size length]);
    cbn -[Z.of_nat Z.add]; lia.
Qed.

Section reads.
Context (e : surroundings) (kex_exchange : ST Z) (Hkex : costs 0 kex_exchange).

Lemma stays_decrypt b : stays (decrypt b).
Proof. unfold decrypt. staying. Qed.

#[local] Hint Resolve stays_allocated stays_comp_state stays_run_comp : stays.

Lemma stays_unpack p n : stays (unpack e p n).
Proof. unfold unpack. staying. Qed.

Lemma stays_short : stays short_read.
Proof. unfold short_read. staying. Qed.

#[local] Hint Resolve stays_decrypt stays_unpack stays_short : stays.

Lemma costs_read_blocks fuel bs payload len : costs 0 (read_blocks fuel bs payload len).
Proof.
  revert payload. induction fuel as [|fuel IH]; intros payload; cbn [read_blocks].
  { apply costs_stays. staying. }
  case_match; [|apply costs_stays; staying].
  apply (costs_bind 0 0); [apply costs_read|]. intros r. case_match; [apply costs_stays; staying|].
  case_match; [apply costs_stays; staying|]. apply costs_then; [staying|].
  intros [b|]; [apply IH|apply costs_stays; staying].
Qed.

Lemma costs_finish tmp payload len pad : costs 1 (finish_encrypted e kex_exchange tmp payload len pad).
Proof.
  unfold finish_encrypted. apply costs_then; [staying|]. intros ep.
  apply (costs_bind 0 1); [apply costs_read|]. intros r. case_match; [by apply costs_free; [|staying]|].
  cbv zeta. do 2 (apply costs_then; [staying|intros ?]).
  case_match; [case_match|]; [|by apply costs_free; [|staying]].
  apply costs_then; [staying|]. intros t. apply costs_before; [by apply costs_packet_add|]. staying.
Qed.

(** What is read first costs nothing, and gives an identifier back when it goes on. *)
Definition gain {A} (r : option A) : Z := match r with None => 0 | Some _ => -1 end.

Lemma plain_header_spends b s h s' : plain_header b s = Ok (h, s') → spends (gain h) s s'.
Proof.
  unfold plain_header. destruct b; intros H.
  - apply bind_inv in H as (r & s1 & H1 & [= <- <-]). by eapply (costs_read_some 5).
  - apply bind_inv in H as (r & s1 & [H1 Hr]%recv_one_spends & H).
    destruct (u32 r.1 =? 0)%Z eqn:E.
    + injection H as <- <-. eapply spends_weaken; [|exact H1]. case_match; simpl; lia.
    + apply bind_inv in H as (r2 & s2 & H2 & [= <- <-]). cbn [gain].
      replace (-1)%Z with (0 + -1)%Z by done. eapply spends_trans.
      * eapply spends_weaken; [|exact H1]. case_match; lia.
      * eapply costs_read_some; [|exact H2].
        destruct Hr as [->|[->| ->]]; vm_compute; [lia|done|lia].
Qed.

Lemma first_block_spends b bs s h s' :
  bs ≠ 0 → first_block b bs s = Ok (h, s') → spends (gain h) s s'.
Proof.
  intros Hbs. unfold first_block. destruct b; intros H.
  - apply bind_inv in H as (r & s1 & H1 & [= <- <-]). by eapply costs_read_some.
  - apply bind_inv in H as (r & s1 & [H1 Hr]%recv_one_spends & H).
    destruct (r.1 <=? 0)%Z eqn:E.
    + injection H as <- <-. eapply spends_weaken; [|exact H1]. case_match; simpl; lia.
    + apply bind_inv in H as (r2 & s2 & H2 & [= <- <-]). cbn [gain].
      replace (-1)%Z with (-1 + 0)%Z by done. eapply spends_trans; [|by eapply costs_read].
      eapply spends_weaken; [|exact H1]. rewrite (proj2 (Z.eqb_eq _ _)) by lia. done.
Qed.

Lemma costs_read_plain b : costs 0 (read_plain e kex_exchange b).
Proof.
  unfold read_plain. eapply (costs_bind_dep gain); [intros s a s'; apply plain_header_spends|].
  intros [[len buf]|]; cbn [gain]; [|apply costs_stays; staying].
  apply (costs_weaken 1); [lia|]. case_match; [by apply costs_free; [|staying]|].
  repeat (apply costs_then; [solve [staying]|intros ?]). cbv zeta.
  repeat (apply costs_then; [solve [staying]|intros ?]).
  case_match; [by apply costs_free; [|staying]|].
  apply (costs_bind 0 1); [apply costs_read|]. intros r.
  case_match; [by apply costs_free; [|staying]|]. case_match; [by apply costs_free; [|staying]|].
  apply (costs_bind 0 1).
  { unfold flush_padding. case_match; [apply costs_stays; staying|].
    apply costs_before; [apply costs_read|]. intros ?. staying. }
  intros _. apply costs_then; [staying|]. intros t.
  apply costs_before; [by apply costs_packet_add|]. intros ?. staying.
Qed.

Lemma costs_read_encrypted b : costs 0 (read_encrypted e kex_exchange b).
Proof.
  unfold read_encrypted. apply costs_then; [staying|]. intros bs. destruct (decide (bs = 0)) as [->|Hbs].
  { apply (costs_bind 0 0).
    - unfold first_block. destruct b; [apply costs_before; [apply costs_read|intros ?; staying]|].
      apply (costs_bind 0 0).
      + intros s r s' [H _]%recv_one_spends. eapply spends_weaken; [|exact H]. case_match; lia.
      + intros r. case_match; [apply costs_stays; staying|].
        apply costs_before; [apply costs_read|intros ?; staying].
    - intros [[len raw]|]; [|apply costs_stays; staying]. apply costs_stays.
      do 2 (case_match; [staying|]). apply stays_bind; [staying|]. intros [block|]; [|staying].
      do 2 (apply stays_bind; [staying|intros ?]). cbv zeta. rewrite andb_true_r.
      case_match; [staying|]. rewrite (proj2 (Z.ltb_lt _ _)) by lia. cbn [orb]. staying. }
  eapply (costs_bind_dep gain); [intros s a s'; by apply first_block_spends|].
  intros [[len raw]|]; cbn [gain]; [|apply costs_stays; staying].
  apply (costs_weaken 1); [lia|]. do 2 (case_match; [by apply costs_free; [|staying]|]).
  apply costs_then; [staying|]. intros [block|]; [|by apply costs_free; [|staying]].
  do 2 (apply costs_then; [staying|intros ?]). cbv zeta.
  do 2 (case_match; [by apply costs_free; [|staying]|]).
  apply costs_then; [staying|]. intros ok. case_match; [by apply costs_free; [|staying]|].
  apply (costs_bind 0 1); [apply costs_read_blocks|].
  intros [p|]; [apply costs_finish|by apply costs_free; [|staying]].
Qed.

Lemma costs_packet_read b : costs 0 (libssh2_packet_read e kex_exchange b).
Proof.
  unfold libssh2_packet_read. apply costs_then; [staying|]. intros gone.
  case_match; [apply costs_stays; staying|]. apply costs_then; [staying|]. intros keys.
  case_match; [apply costs_read_encrypted|apply costs_read_plain].
Qed.

(** ** The brigade, and the waiting loops *)

Lemma costs_ask t o m poll : costs 0 (libssh2_packet_ask_ex e kex_exchange t o m poll).
Proof.
  unfold libssh2_packet_ask_ex. apply costs_then; [staying|]. intros empty.
  apply (costs_bind 0 0); [destruct poll; [apply costs_packet_read|apply costs_stays; staying]|].
  intros rc. apply costs_stays. staying.
Qed.

Lemma costs_askv ts o m poll : costs 0 (libssh2_packet_askv_ex e kex_exchange ts o m poll).
Proof.
  unfold libssh2_packet_askv_ex. revert poll. induction ts as [|t ts IH]; intros poll; cbn [askv].
  { apply costs_stays. staying. }
  apply (costs_bind 0 0); [apply costs_ask|]. intros [d|]; [apply costs_stays; staying|apply IH].
Qed.

Lemma costs_wait fuel alive types : costs 0 (wait_type e kex_exchange fuel alive types).
Proof.
  induction fuel as [|fuel IH]; cbn [wait_type]; (apply costs_then; [staying|intros up]);
    (case_match; [apply costs_stays; staying|]); [apply costs_stays; staying|].
  apply (costs_bind 0 0); [apply costs_packet_read|]. intros ret.
  repeat (case_match; [apply costs_stays; solve [staying]|]).
  case_match; [apply IH|]. case_match; [apply costs_stays; staying|apply IH].
Qed.

Lemma costs_require t o m : costs 0 (libssh2_packet_require_ex e kex_exchange t o m).
Proof.
  unfold libssh2_packet_require_ex. apply (costs_bind 0 0); [apply costs_ask|].
  intros [d|]; [apply costs_stays; staying|]. apply costs_then; [staying|]. intros fuel.
  apply (costs_bind 0 0); [apply costs_wait|]. intros [ret|]; [apply costs_ask|apply costs_stays; staying].
Qed.

Lemma costs_requirev ts o m : costs 0 (libssh2_packet_requirev_ex e kex_exchange ts o m).
Proof.
  unfold libssh2_packet_requirev_ex. apply (costs_bind 0 0); [apply costs_askv|].
  intros [d|]; [apply costs_stays; staying|]. apply costs_then; [staying|]. intros fuel.
  apply (costs_bind 0 0); [apply costs_wait|]. intros [ret|]; [apply costs_askv|apply costs_stays; staying].
Qed.

(** ** Channels *)

Lemma costs_drop_data fuel i : costs 0 (drop_data e kex_exchange fuel i).
Proof.
  induction fuel as [|fuel IH]; cbn [drop_data]; [apply costs_stays; staying|].
  apply (costs_bind 0 0); [apply costs_ask|]. intros [d|]; [apply IH|].
  apply (costs_bind 0 0); [apply costs_ask|]. intros [d|]; [apply IH|apply costs_stays; staying].
Qed.

Lemma costs_clear i : costs 0 (clear_packets e kex_exchange i).
Proof. unfold clear_packets. apply costs_then; [staying|]. intros s. apply costs_drop_data. Qed.

Lemma costs_drain fuel b : costs 0 (drain e kex_exchange fuel b).
Proof.
  revert b. induction fuel as [|fuel IH]; intros b; cbn [drain]; [apply costs_stays; staying|].
  apply (costs_bind 0 0); [apply costs_packet_read|]. intros ret. case_match; [apply IH|].
  apply costs_stays. staying.
Qed.

(** Fewer identifiers in use. *)
Lemma costs_fewer f :
  (∀ s, ids (f s) ⊆+ ids s ∧ next_channel (f s) = next_channel s ∧ incoming (f s) = incoming s) →
  costs 0 (modify f).
Proof.
  intros Hf s a s' [= _ <-]. destruct (Hf s) as (Hi & Hn & He). exists 0%Z.
  unfold pending. rewrite He. split_and!; [lia..|]. rewrite Hn. intros [Hd Hb] _ _. split; [|lia].
  apply submseteq_Permutation in Hi as [gone Hi]. rewrite Hi in Hd, Hb.
  split; [by apply NoDup_app in Hd as [? _]|]. rewrite Hn. by apply Forall_app in Hb as [? _].
Qed.

Lemma remove_sublist cs i : ch_id <$> remove_channel cs i `sublist_of` ch_id <$> cs.
Proof.
  induction cs as [|c cs IH]; [done|]. cbn [remove_channel]. case_match; rewrite fmap_cons.
  - by apply sublist_cons.
  - rewrite fmap_cons. by apply sublist_skip.
Qed.

Lemma costs_remove i : costs 0 (modify (λ s, set_channels (remove_channel (channels s) i) s)).
Proof.
  apply costs_fewer. intros s. split; [|done]. unfold ids. simpl.
  apply submseteq_app; [|done]. apply sublist_submseteq, remove_sublist.
Qed.

Lemma costs_channel_close i : costs 0 (libssh2_channel_close e i).
Proof. apply costs_stays. unfold libssh2_channel_close. staying. Qed.

Lemma costs_channel_free i : costs 0 (libssh2_channel_free e kex_exchange i).
Proof.
  unfold libssh2_channel_free. do 2 (apply costs_then; [staying|intros ?]).
  apply (costs_bind 0 0); [case_match; [apply costs_channel_close|apply costs_stays; staying]|].
  intros rc. case_match; [apply costs_stays; staying|].
  apply (costs_bind 0 0); [apply costs_clear|]. intros _.
  apply costs_before; [apply costs_remove|intros _; staying].
Qed.

Lemma costs_open_error i : costs 0 (open_error e kex_exchange i).
Proof.
  unfold open_error. apply (costs_bind 0 0); [apply costs_remove|]. intros _.
  apply costs_before; [apply costs_clear|intros _; staying].
Qed.

Lemma costs_open_reply i d : costs 0 (open_reply e kex_exchange i d).
Proof.
  unfold open_reply. apply costs_then; [staying|]. intros t. case_match.
  - apply costs_stays. staying.
  - apply costs_then; [staying|]. intros _. apply costs_open_error.
Qed.

Lemma costs_channel_open type ws ps message :
  costs 1 (libssh2_channel_open_ex e kex_exchange type ws ps message).
Proof.
  intros s a s' (i & s1 & H1 & H)%bind_inv. apply bind_inv in H as (ok & s2 & H2 & H).
  set (put := λ i, modify (λ s, set_channels (channels s ++ [new_channel type i (u32 ws) (u32 ps)]) s)).
  assert (Hnew : costs 1 (i ← libssh2_channel_nextid; ok ← alloc_channel e;
                          if (ok : bool) then put i else mret ())).
  { apply costs_new. intros j. apply adds_then; [staying|]. intros []; [|by apply adds_stays; staying].
    apply (adds_append (new_channel type j (u32 ws) (u32 ps))). }
  destruct ok; cbn [negb] in H.
  - apply bind_inv in H as ([] & s3 & H3 & H). replace 1%Z with (1 + 0)%Z by done.
    eapply spends_trans.
    + eapply (Hnew s () s3). erewrite bind_Ok by exact H1. by erewrite bind_Ok by exact H2.
    + revert H. apply (costs_then 0); [staying|]. intros ok. case_match; [apply costs_stays; staying|].
      apply costs_then; [staying|]. intros rc.
      case_match; [apply costs_then; [staying|intros _; apply costs_open_error]|].
      apply (costs_bind 0 0); [apply costs_requirev|].
      intros [[d n]|]; [apply costs_open_reply|apply costs_open_error].
  - injection H as <- <-. eapply (Hnew s () s2). erewrite bind_Ok by exact H1.
    by erewrite bind_Ok by exact H2.
Qed.

Lemma ids_dequeue n l c q ls :
  ls !! n = Some l → queue l = c :: q →
  (ls ≫= λ l, ch_id <$> queue l) ≡ₚ
  ch_id c :: (alter (λ l, set_queue_size (queue_size l - 1) (set_queue q l)) n ls ≫= λ l, ch_id <$> queue l).
Proof.
  intros Hl Hq. revert n Hl. induction ls as [|l' ls IH]; intros n Hl; [done|]. destruct n as [|n].
  - injection Hl as ->. cbn. by rewrite Hq.
  - cbn. rewrite (IH n Hl). by rewrite Permutation_middle.
Qed.

Lemma costs_forward_accept n : costs 0 (libssh2_channel_forward_accept e kex_exchange n).
Proof.
  unfold libssh2_channel_forward_accept. apply costs_then; [staying|]. intros fuel.
  apply (costs_bind 0 0); [apply costs_drain|]. intros _ s a s' (l & s1 & [= <- <-] & H)%bind_inv.
  destruct (listeners s !! n) as [l|] eqn:El; [|done]. destruct (queue l) as [|c q] eqn:Eq.
  { by eapply (costs_stays (mret None)); [staying|]. }
  apply bind_inv in H as ([] & s2 & [= <-] & [= _ <-]). apply spends_perm; [|done..].
  unfold ids. simpl. by rewrite (ids_dequeue n l c q _ El Eq), Permutation_middle.
Qed.

Lemma costs_read_packets i stream ps want buf : costs 0 (read_packets e i stream ps want buf).
Proof.
  apply costs_stays. revert want buf. induction ps as [|p ps IH]; intros want buf; cbn [read_packets]; [staying|].
  case_decide; [staying|]. do 2 (apply stays_bind; [staying|intros ?]).
  case_match; [apply stays_bind; [apply IH|intros ?; staying]|]. cbv zeta.
  case_match; [|staying]. do 2 (apply stays_bind; [staying|intros ?]). apply IH.
Qed.

Lemma costs_read_loop fuel i stream n b : costs 0 (read_loop e kex_exchange fuel i stream n b).
Proof.
  revert b. induction fuel as [|fuel IH]; intros b; cbn [read_loop]; [apply costs_stays; staying|].
  apply costs_then; [staying|]. intros m. apply (costs_bind 0 0); [apply costs_drain|]. intros _.
  apply costs_then; [staying|]. intros ps. apply (costs_bind 0 0); [apply costs_read_packets|].
  intros r. do 2 (apply costs_then; [staying|intros ?]). case_match; [apply IH|apply costs_stays; staying].
Qed.

Lemma costs_channel_read i stream n : costs 0 (libssh2_channel_read_ex e kex_exchange i stream n).
Proof.
  unfold libssh2_channel_read_ex. apply costs_then; [staying|]. intros fuel.
  apply costs_before; [apply costs_read_loop|intros buf; staying].
Qed.

Lemma costs_wait_window fuel i : costs 0 (wait_window e kex_exchange fuel i).
Proof.
  induction fuel as [|fuel IH]; cbn [wait_window]; (apply costs_then; [staying|intros c]);
    (case_match; [apply costs_stays; staying|]); [apply costs_stays; staying|].
  apply (costs_bind 0 0); [apply costs_packet_read|]. intros ret.
  case_match; [apply costs_stays; staying|apply IH].
Qed.

Lemma costs_write_loop fuel i stream buf wrote :
  costs 0 (write_loop e kex_exchange fuel i stream buf wrote).
Proof.
  revert buf wrote. induction fuel as [|fuel IH]; intros buf wrote; cbn [write_loop];
    (case_decide; [apply costs_stays; staying|]); [apply costs_stays; staying|].
  apply costs_then; [staying|]. intros n. apply (costs_bind 0 0); [apply costs_wait_window|].
  intros open. case_match; [apply costs_stays; staying|]. apply costs_then; [staying|]. intros c. cbv zeta.
  apply costs_then; [staying|]. intros rc. case_match; [apply costs_stays; staying|].
  apply costs_then; [staying|]. intros _. case_match; [apply costs_stays; staying|apply IH].
Qed.

Lemma costs_channel_write i stream buf : costs 0 (libssh2_channel_write_ex e kex_exchange i stream buf).
Proof.
  unfold libssh2_channel_write_ex. apply costs_then; [staying|]. intros c.
  case_match; [apply costs_stays; staying|]. apply costs_then; [staying|]. intros _.
  case_match; [apply costs_stays; staying|]. apply costs_then; [staying|]. intros ok.
  case_match; [apply costs_stays; staying|apply costs_write_loop].
Qed.
End reads.

(** ** The key exchange *)

Section exchange.
Context (e : surroundings).
Context (crypt_methods : list crypt_method) (mac_methods : list mac_method).
Context (comp_methods : list comp_method).

Lemma stays_agree {T} (name : T → str) methods h len settle prefs :
  (∀ m q, stays (settle m q)) → stays (agree name methods h len settle prefs).
Proof.
  intros Hs. unfold agree. destruct prefs as [p|].
  - induction (prefs_of p) as [|n ns IH]; cbn [agree_prefs]; [staying|]. apply stays_bind; [staying|].
    intros [q|]; [|apply IH]. case_match; [|staying]. apply stays_bind; [apply Hs|].
    intros ok. case_match; [staying|apply IH].
  - induction methods as [|m ms IH]; cbn [agree_table]; [staying|]. apply stays_bind; [staying|].
    intros [q|]; [|apply IH]. apply stays_bind; [apply Hs|]. intros ok. case_match; [staying|apply IH].
Qed.

Lemma stays_endpoint local f : stays (update_endpoint local f).
Proof. unfold update_endpoint. staying. Qed.

#[local] Hint Resolve stays_endpoint : stays.

Lemma stays_agree_hostkey f h n : stays (libssh2_kex_agree_hostkey f h n).
Proof. unfold libssh2_kex_agree_hostkey. staying. apply stays_agree. intros. staying. Qed.

Lemma stays_agree_kex h n h' n' : stays (libssh2_kex_agree_kex_hostkey h n h' n').
Proof.
  unfold libssh2_kex_agree_kex_hostkey. staying. apply stays_agree. intros m q.
  apply stays_bind; [apply stays_agree_hostkey|]. intros r. staying.
  apply stays_modify. intros s. by case_match.
Qed.

Lemma stays_agree_crypt l h n : stays (libssh2_kex_agree_crypt crypt_methods l h n).
Proof. unfold libssh2_kex_agree_crypt. staying. apply stays_agree. intros. staying. Qed.

Lemma stays_agree_mac l h n : stays (libssh2_kex_agree_mac mac_methods l h n).
Proof. unfold libssh2_kex_agree_mac. staying. apply stays_agree. intros. staying. Qed.

Lemma stays_agree_comp l h n : stays (libssh2_kex_agree_comp comp_methods l h n).
Proof. unfold libssh2_kex_agree_comp. staying. apply stays_agree. intros. staying. Qed.

Lemma stays_locate n d s : stays (locate_lists n d s).
Proof. revert s. induction n as [|n IH]; intros s; cbn [locate_lists]; staying. Qed.

Lemma stays_init l c : stays (init_comp e l c).
Proof. unfold init_comp. staying. Qed.

Lemma stays_all_zero ms : Forall stays ms → stays (all_zero ms).
Proof.
  induction 1 as [|m ms Hm _ IH]; cbn [all_zero]; [staying|]. apply stays_bind; [exact Hm|].
  intros r. case_match; [exact IH|staying].
Qed.

Lemma stays_agree_methods d :
  stays (libssh2_kex_agree_methods e crypt_methods mac_methods comp_methods d).
Proof.
  unfold libssh2_kex_agree_methods. apply stays_bind; [apply stays_locate|]. intros [lists s].
  destruct lists as [|l1 [|l2 [|l3 [|l4 [|l5 [|l6 [|l7 [|l8 [|l9 [|l10 [|]]]]]]]]]]]; try solve [staying].
  do 2 (apply stays_bind; [staying|intros ?]).
  apply stays_all_zero. rewrite !Forall_cons, Forall_nil. split_and!; try done;
    first [apply stays_agree_kex|apply stays_agree_crypt|apply stays_agree_mac|apply stays_agree_comp
          |apply stays_init].
Qed.

Lemma stays_kexinit : stays (libssh2_kexinit e crypt_methods mac_methods comp_methods).
Proof. unfold libssh2_kexinit. staying. Qed.

Context (exchange_keys : kex_method → ST Z) (Hkeys : ∀ m, costs 0 (exchange_keys m)).

Lemma costs_negotiate : costs 0 (negotiate e crypt_methods mac_methods comp_methods).
Proof.
  unfold negotiate. do 2 (apply costs_then; [staying|intros ?]).
  apply costs_then; [apply stays_kexinit|]. intros rc. case_match; [apply costs_stays; staying|].
  apply (costs_bind 0 0); [apply costs_require, costs_stays, stays_undefined|].
  intros [[d n]|]; [|apply costs_stays; staying]. apply costs_then; [staying|]. intros _.
  apply costs_stays, stays_bind; [apply stays_agree_methods|intros ?; staying].
Qed.

Lemma costs_kex_exchange re :
  costs 0 (libssh2_kex_exchange e crypt_methods mac_methods comp_methods exchange_keys re).
Proof.
  unfold libssh2_kex_exchange. do 3 (apply costs_then; [unfold add_state; staying|intros ?]).
  apply (costs_bind 0 0); [case_match; [apply costs_negotiate|apply costs_stays; staying]|].
  intros [rc|]; [apply costs_stays; staying|]. apply costs_then; [staying|].
  intros [m|]; [|apply costs_stays; staying]. apply costs_before; [apply Hkeys|].
  intros rc. unfold drop_state. staying.
Qed.
End exchange.

(** ** Every reachable session *)

Section reachable.
Context (e : surroundings).
Context (crypt_methods : list crypt_method) (mac_methods : list mac_method).
Context (comp_methods : list comp_method) (exchange_keys : kex_method → ST Z).

Let rekey : ST Z := libssh2_kex_exchange e crypt_methods mac_methods comp_methods exchange_keys true.

(** A call of the library by the application, or an answer that [recv] is going to
    give; the number is what it can spend. *)
Inductive ssh_step : Z → session → session → Prop :=
  | step_input evs s : ssh_step (ev_sizes evs) s (set_incoming (incoming s ++ evs) s)
  | step_packet_read b r s s' : libssh2_packet_read e rekey b s = Ok (r, s') → ssh_step 0 s s'
  | step_require t o m r s s' : libssh2_packet_require_ex e rekey t o m s = Ok (r, s') → ssh_step 0 s s'
  | step_write d r s s' : libssh2_packet_write e d s = Ok (r, s') → ssh_step 0 s s'
  | step_exchange re r s s' :
      libssh2_kex_exchange e crypt_methods mac_methods comp_methods exchange_keys re s = Ok (r, s') →
      ssh_step 0 s s'
  | step_open type ws ps m r s s' :
      libssh2_channel_open_ex e rekey type ws ps m s = Ok (r, s') → ssh_step 1 s s'
  | step_accept n r s s' : libssh2_channel_forward_accept e rekey n s = Ok (r, s') → ssh_step 0 s s'
  | step_channel_read i stream n r s s' :
      libssh2_channel_read_ex e rekey i stream n s = Ok (r, s') → ssh_step 0 s s'
  | step_channel_write i stream buf r s s' :
      libssh2_channel_write_ex e rekey i stream buf s = Ok (r, s') → ssh_step 0 s s'
  | step_close i r s s' : libssh2_channel_close e i s = Ok (r, s') → ssh_step 0 s s'
  | step_free i r s s' : libssh2_channel_free e rekey i s = Ok (r, s') → ssh_step 0 s s'.

(** A run, and what it can spend. *)
Inductive ssh_run : Z → session → session → Prop :=
  | run_refl s : ssh_run 0 s s
  | run_step k1 k2 s1 s2 s3 : ssh_step k1 s1 s2 → ssh_run k2 s2 s3 → ssh_run (k1 + k2) s1 s3.

Lemma ev_sizes_app a b : ev_sizes (a ++ b) = (ev_sizes a + ev_sizes b)%Z.
Proof. induction a as [|ev a IH]; [done|]. cbn [app ev_sizes]. lia. Qed.

Context (Hkeys : ∀ m, costs 0 (exchange_keys m)).

Lemma step_spends k s s' : ssh_step k s s' → spends k s s'.
Proof.
  assert (Hkex : costs 0 rekey) by by apply costs_kex_exchange. intros Hs. inversion_clear Hs.
  - apply spends_incoming; [|done..]. unfold pending. simpl. rewrite ev_sizes_app. lia.
  - by eapply costs_packet_read.
  - by eapply costs_require.
  - by eapply costs_stays; [apply stays_packet_write|].
  - by eapply costs_kex_exchange.
  - by eapply costs_channel_open.
  - by eapply costs_forward_accept.
  - by eapply costs_channel_read.
  - by eapply costs_channel_write.
  - by eapply costs_channel_close.
  - by eapply costs_channel_free.
Qed.

Lemma run_spends k s s' : ssh_run k s s' → spends k s s'.
Proof.
  induction 1 as [s|k1 k2 s1 s2 s3 Hs _ IH]; [by apply spends_same|].
  eapply spends_trans; [by apply step_spends|exact IH].
Qed.
End reachable.


(** The run of the witness: a channel is opened and confirmed. *)
Definition demo_confirmation : str :=
  plain_frame demo_surroundings 0
    (of_code 91 :: libssh2_htonu32 0 ++ libssh2_htonu32 7 ++ libssh2_htonu32 1000 ++ libssh2_htonu32 500).

